(* ===== verification/_CoqProject ===== *)
-Q . S2P
Prelude.v
Libssh.v
ErrorCode.v
Codec.v
Retry.v
Options.v
ServerOptions.v
Session.v
Message.v
Channel.v
Acceptor.v
Callbacks.v
Lifetimes.v
ChannelCallbacks.v
Ownership.v
Stream.v
ResponseQueue.v
Responses.v
Requests.v
Server.v
Backends.v
Path.v
BackendSim.v
ExampleServer.v
ServerSpec.v
ExampleSpec.v
ExampleTransfers.v
ExampleStart.v
ExampleMain.v
ServerSession.v
Workers.v
Serve.v
Client.v
Handles.v
ClientSpec.v
Callers.v
RoundTrip.v
Network.v
ExampleClient.v
