(* ===== verification/Prelude.v ===== *)
(** * corosh: a verification library

    corosh wraps the non-blocking interface of libssh into C++20 coroutines and
    adds a client and a server for the SFTP protocol (version 3), which it
    implements itself.  This development models the program's own logic (the
    SFTP codec, client and server, the error categories, the retry loops around
    libssh, the ownership of what libssh allocates, and the two example programs)
    and proves what makes it correct, or exhibits where it is not.

    ** The program and the files

    The lower half of the program drives libssh.  A libssh call that cannot go on
    returns [SSH_AGAIN]; the library waits for the socket as
    [ssh_get_poll_flags] says and calls again.

    - [Libssh]: the constants of libssh's public headers.
    - [ErrorCode] ([src/error.cpp], [error.hpp]): [std::error_code], the categories
      "libssh" and "libssh.sftp" and their comparison with portable conditions.
    - [Retry]: the loop all of [src/session.cpp], [src/channel.cpp] and
      [src/message.cpp] repeat, over the class [Transport] (poll flags, waits,
      error codes).
    - [Options], [ServerOptions] ([options.hpp], [server_options.hpp]): the option
      templates with the class [SshOption] that [set_option] asks for, and their
      aliases.
    - [Session] ([src/session.cpp]): [set_option], [connect], the [userauth_*]
      methods, [do_op_], forwarding, [get_message].
    - [Message] ([src/message.cpp]): the accessors and the replies.
    - [Callbacks] (both [.cpp] files): the tables of callbacks given to libssh.
    - [Acceptor] ([src/acceptor.cpp]): [set_option], [bind] and [accept].
    - [Lifetimes]: programs as lists of operations that may be undefined, and the
      discipline that keeps them from being so; for the next two, [Handles] and
      [ExampleTransfers].
    - [ChannelCallbacks] ([src/channel.cpp] 644-662): the callbacks registered on
      channels, and what outlives what.
    - [Ownership] (the classes' constructors, moves, assignments and destructors):
      the objects of a program over what libssh has allocated for them, with the
      callbacks a session owns.
    - [Channel] ([src/channel.cpp], [channel.hpp]): opening and requests ([do_open_]),
      [get_exit_state], reading and writing with one buffer or several.

    The upper half is SFTP over any byte stream (a [channel], in practice).

    - [Codec] ([src/sftp.cpp] 34-229, 287-303): [take_*], [put_*],
      [match_packet], [small_buffer].
    - [Stream]: the class [Runtime] of what the coroutines use of capy (reading
      until a packet is complete, writing, the mutexes, the stop token) and its
      laws; [script], a peer whose bytes arrive in given chunks, satisfies them.
    - [ResponseQueue] ([sftp.hpp] 36-115): the intrusive list of pending requests,
      over a store of coroutine frames in which pointers may dangle.
    - [Responses]: the six [ssh_fxp_*_response] handlers.
    - [Requests]: the packet every client function sends.
    - [Server]: [init_server] and [serve_worker] with one definition per [case] of
      its switch, over any backend ([sftp_server], the abstract class
      [sftp::server]).  [Backends] has two concrete ones, [BackendSim] relates two
      backends call by call.
    - [Client]: [init], [read_one_] and every member function of [session],
      [file] and [dir].
    - [Handles] ([sftp.hpp] 141-329): the construction, moves and destruction of
      these objects, the pointer [sess_] from a [file] or [dir] to its [session],
      and the calls in flight that follow it.

    The specifications are apart from the code they are about.  [ServerSpec] says
    what a worker answers to one packet: [exec] maps a request to the backend
    call it stands for, and [handle_packet] refines it.  [ServerSession] is a
    worker over a whole connection, [Workers] the interleavings of all the workers
    of [serve] (a step machine whose schedules are lists of worker numbers),
    [Serve] the function [serve] itself,
    [ClientSpec] one call of the client, [Callers] the interleavings of several
    calls on one session (a step machine of the same kind), [RoundTrip] the two
    against each other, each given what the other sends, [Network] the closed
    system of a client, the workers of a server and the bytes on their way.

    The example programs use both halves.

    - [Path]: [std::filesystem::path] on POSIX, as far as the example uses it.
    - [ExampleServer] ([src/example/server.cpp] 73-455): [sftp_server], the SFTP
      backend over the file system of the host (the class [FileSystem]);
      [ExampleSpec] is what it promises, [ExampleTransfers] its [read_at] and
      [write_at] as coroutines that overlap.
    - [ExampleStart] (both examples): how the programs start.
    - [ExampleMain] ([src/example/server.cpp] 43-64, 466-631, 693-749): [echo], the
      callbacks, and [ssh_main] with the coroutines of its channels as a step
      machine over the events the outside decides.
    - [ExampleClient] ([src/example/client.cpp] 82-136): what the client does on its
      SFTP session; here the client and the example server meet.

    State is passed explicitly: [ST S A] is a computation on the state [S] (the
    in/out parameters of the C++ helpers, the world of a coroutine).  A
    [for (;;)] loop is [loop body fuel], whose [None] says that it is still
    running after [fuel] rounds; [returns] and [diverges] quantify the fuel away.
    A bounded loop is [while cond body fuel] with [read_fuel], two rounds more
    than there are bytes left, which [extended_pairs_terminate] and
    [dir_entries_terminate] prove to be enough.  Machine integers are [Z] with
    [u8] ... [u64], [i32] where the source converts.  Undefined behaviour is an
    outcome: [Dangling] of the queue, [UseAfterFree] of a
    request, [AssertionFailed] and [OutOfRange] of the read phase.

    ** What is proved

    - End to end: [network_answers], [network_completes] (client, workers and
      connection compute what the calls mean, and get there, in any interleaving),
      [session_roundtrip], [handshake_roundtrip] (client and server
      agree, over any chunking), [directory_listed_end_to_end] (from the console of
      the client down to the file system of the server), [errc_roundtrip].
    - Workers: [serve_connection] (handshake, then any interleaving executes the
      requests once each, in some order, and sends whole replies), [workers_end]
      (termination over any runtime), [workers_exactly_once] (the bookkeeping
      behind it), [workers_locks] (exclusion and absence of deadlock),
      [single_worker] (the machine is [serve_worker]).
    - Server: [worker_session], [receive_packet_frame] (framing and order over any
      runtime), [worker_refines] (a backend may be replaced by one that implements
      it), [handle_packet_typed] (the widths and sizes the backend can rely on),
      [handle_packet_answers], [handle_packet_truncated] (any bytes at all).
    - Client: [read_some_at_data], [lost_connection_reported],
      [client_packet_exact]; [callers_locks] for several calls at a time;
      [handles_sound] (what a program must keep to so that [sess_] is good).
    - Codec and queue: [match_packet_exact], [attrs_roundtrip],
      [enqueue_then_complete].
    - libssh: [read_some_delivers], and the lemmas about what each loop ends with
      ([do_op_outcome], [do_auth_outcome], [connect_success],
      [get_message_outcome], [get_exit_state_outcome]); [owners_sound] (nothing is
      freed twice, used after or left over), [callbacks_sound] (libssh calls only
      callbacks that exist).
    - Example: [sandbox_confines], [handles_never_reused], [write_at_all],
      [read_at_whole], [readdir_enumerates], [unknown_handle_refused];
      [transfers_alone] (a call nobody interferes with is the one step of
      [ExampleServer]), [transfers_sound], [overlapping_reads]; [session_outlives_channels],
      [wait_for_channels_ends].
    - Defects, each with the theorem that exhibits it:
      [oversized_packet_undefined], [read_reply_unframed], [read_handle_dangles],
      [pipelined_requests_lost], [init_message_version], [short_reply_is_success],
      [call_after_failed_write], [concurrent_calls_dangle],
      [read_several_buffers_dangle], [answered_response_dangles],
      [completing_last_loses_pending], [attrs_extended_refused],
      [read_some_eof_diverges], [write_all_diverges], [whole_io_counts_nothing],
      [open_forward_port_uninitialised], [second_owner_double_free],
      [moved_session_dangles], [closed_channel_keeps_callbacks],
      [second_channel_dangles], [close_under_call], [moved_handle_claims_open],
      [moved_session_strands], [close_under_read_dangles], [closed_session_dangles], [sandbox_escapes],
      [browse_own_server].

    ** Bounds and limits

    The workers of the server interleave where they suspend ([Workers]), as do the
    calls on one session ([Callers]), where two calls at a time are undefined
    behaviour, and the coroutines of the example ([ExampleMain]).  A call of a
    backend is one step of a worker; what becomes of calls of the example server
    that overlap is [ExampleTransfers], apart from the workers.  In [Network] a
    client makes one call at a time, as [concurrent_calls_dangle] says it must.
    Allocation does not fail.  What
    capy, corosio, libssh and the file system do is a parameter with its
    documented behaviour as laws ([RuntimeLaws], [read_timeout_law], [Lists], the
    hypotheses of the theorems); [Platform] is what [std::error_category] objects
    outside the repository answer.  What capy makes of the ends of the workers
    ([when_any]) is an argument of [serve].

    Not modelled: [get_option] of session and acceptor (its body does not compile
    with any option), the accessors [context] and [native_handle], what the examples print
    except the names of a directory, the test file (an empty [main]), and what is
    declared and never defined ([file::fstat], [file::fsync], the
    [context] of [file] and [dir], [acceptor::parse_config]). *)

From Stdlib Require Import Strings.Byte.
From stdpp Require Export base list numbers gmap strings.

#[global] Open Scope Z_scope.

(** ** Notations and the state monad *)

Declare Scope corosh_scope.
Delimit Scope corosh_scope with corosh.
#[global] Open Scope corosh_scope.

(** [bytes] is how the development writes a C++ [std::string],
    [std::string_view], [std::vector<unsigned char>] or buffer contents. *)
Abbreviation bytes := (list Byte.byte).

(** A computation that threads a mutable state (the in/out parameters
    [buf] and [ec] of the C++ helpers). *)
Definition ST (S A : Type) : Type := S -> A * S.

Definition st_ret {S A} (a : A) : ST S A := fun s => (a, s).

Definition st_bind {S A B} (m : ST S A) (k : A -> ST S B) : ST S B :=
  fun s => let '(a, s') := m s in k a s'.

Notation "'let*' x ':=' m 'in' k" := (st_bind m (fun x => k))
  (at level 10, x name, m at level 100, k at level 200) : corosh_scope.
Notation "m ';;;' k" := (st_bind m (fun _ => k))
  (at level 100, k at level 200, right associativity) : corosh_scope.

(** Read the state. *)
Definition st_get {S} : ST S S := fun s => (s, s).

(** The statement [if (c) m;]. *)
Definition st_when {S} (c : bool) (m : ST S unit) : ST S unit :=
  if c then m else st_ret tt.

(** ** Machine integers *)

Definition u8 (z : Z) : Z := z mod 2 ^ 8.
Definition u16 (z : Z) : Z := z mod 2 ^ 16.
Definition u32 (z : Z) : Z := z mod 2 ^ 32.
Definition u64 (z : Z) : Z := z mod 2 ^ 64.

(** Conversion to a 32-bit [int] (modular since C++20). *)
Definition i32 (z : Z) : Z := (z + 2 ^ 31) mod 2 ^ 32 - 2 ^ 31.

(** Conversion to a 64-bit signed integer, as [off_t]. *)
Definition i64 (z : Z) : Z := (z + 2 ^ 63) mod 2 ^ 64 - 2 ^ 63.

Definition is_u8 (z : Z) : Prop := 0 <= z < 2 ^ 8.
Definition is_u32 (z : Z) : Prop := 0 <= z < 2 ^ 32.
Definition is_u64 (z : Z) : Prop := 0 <= z < 2 ^ 64.

(** [flags & mask] used as a condition. *)
Definition has_bit (flags mask : Z) : bool := negb (Z.land flags mask =? 0).

(** [size()] of a container, as a machine integer. *)
Definition zlen {A} (l : list A) : Z := Z.of_nat (length l).

(** ** Bytes and byte order *)

Definition Z_of_byte (b : Byte.byte) : Z := Z.of_N (Byte.to_N b).

Definition byte_of_Z (z : Z) : Byte.byte :=
  match Byte.of_N (Z.to_N (u8 z)) with
  | Some b => b
  | None => Byte.x00
  end.

(** Network (big-endian) byte order, [n] bytes. *)
Fixpoint be_encode (n : nat) (z : Z) : bytes :=
  match n with
  | O => []
  | S k => byte_of_Z (Z.shiftr z (8 * Z.of_nat k)) :: be_encode k z
  end.

Definition be_decode (l : bytes) : Z :=
  foldl (fun acc b => Z.lor (Z.shiftl acc 8) (Z_of_byte b)) 0 l.

(** The byte order of the host, which decides what a [uint32_t] looks like
    in memory. *)
Inductive endian := Little | Big.

Definition store32 (e : endian) (z : Z) : bytes :=
  match e with
  | Big => be_encode 4 z
  | Little => reverse (be_encode 4 z)
  end.

Definition load32 (e : endian) (l : bytes) : Z :=
  match e with
  | Big => be_decode l
  | Little => be_decode (reverse l)
  end.

(** [htonl] and [ntohl]: reinterpret the value in the other byte order. *)
Definition htonl (e : endian) (z : Z) : Z := load32 e (be_encode 4 z).
Definition ntohl (e : endian) (z : Z) : Z := be_decode (store32 e z).

(** An ASCII literal of the source as bytes. *)
Definition lit (s : String.string) : bytes := String.list_byte_of_string s.

#[export] Instance byte_eq_dec : EqDecision Byte.byte := Byte.byte_eq_dec.

#[export] Instance byte_countable : Countable Byte.byte.
Proof.
  apply (inj_countable Byte.to_N Byte.of_N). apply Byte.of_to_N.
Defined.

(** ** Unbounded loops

    A [for (;;)] or [while] loop whose body either runs another round
    ([Again]) or returns from the coroutine ([Return]). *)

Inductive round (E A : Type) : Type :=
| Again (e : E)
| Return (a : A) (e : E).
Arguments Again {E A} e.
Arguments Return {E A} a e.

Fixpoint loop {E A} (body : E -> round E A) (fuel : nat) (e : E) : option (A * E) :=
  match fuel with
  | O => None
  | S k =>
      match body e with
      | Again e' => loop body k e'
      | Return a e' => Some (a, e')
      end
  end.

(** [rounds body n e e']: [n] rounds of the loop lead from [e] to [e']. *)
Inductive rounds {E A} (body : E -> round E A) : nat -> E -> E -> Prop :=
| rounds_0 e : rounds body 0 e e
| rounds_S n e e1 e2 :
    body e = Again e1 -> rounds body n e1 e2 -> rounds body (S n) e e2.

(** The loop returns whatever the fuel, or never returns. *)
Definition returns {E A} (body : E -> round E A) (e : E) (a : A) (e' : E) : Prop :=
  exists fuel, loop body fuel e = Some (a, e').
Definition diverges {E A} (body : E -> round E A) (e : E) : Prop :=
  forall fuel, loop body fuel e = None.

(** ** Loops over a parser's state

    A [while (cond) body] whose progress bounds the number of rounds; [fuel]
    rounds are run at most. *)
Fixpoint while {S} (cond : S -> bool) (body : S -> S) (fuel : nat) (s : S) : S :=
  match fuel with
  | O => s
  | S f => if cond s then while cond body f (body s) else s
  end.

(** [std::vector<unsigned char>::resize]: truncates, or appends zero bytes. *)
Definition vec_resize (n : Z) (v : bytes) : bytes :=
  take (Z.to_nat n) v ++ replicate (Z.to_nat n - length v) Byte.x00.

(** ** Lemmas: machine integers *)

Lemma u8_small z : is_u8 z -> u8 z = z.
Proof. unfold is_u8, u8. apply Z.mod_small. Qed.

Lemma u32_small z : is_u32 z -> u32 z = z.
Proof. unfold is_u32, u32. apply Z.mod_small. Qed.

Lemma u64_small z : is_u64 z -> u64 z = z.
Proof. unfold is_u64, u64. apply Z.mod_small. Qed.

Lemma u8_range z : is_u8 (u8 z).
Proof. apply Z.mod_pos_bound. lia. Qed.

Lemma u32_range z : is_u32 (u32 z).
Proof. apply Z.mod_pos_bound. lia. Qed.

Lemma u32_idemp z : u32 (u32 z) = u32 z.
Proof. apply u32_small, u32_range. Qed.

Lemma i32_small z : - 2 ^ 31 <= z < 2 ^ 31 -> i32 z = z.
Proof. intros H. unfold i32. rewrite Z.mod_small; lia. Qed.

Lemma i32_zero_iff z : is_u32 z -> i32 z = 0 <-> z = 0.
Proof.
  unfold is_u32, i32. intros H.
  destruct (decide (z < 2 ^ 31)).
  - rewrite Z.mod_small by lia. lia.
  - replace (z + 2 ^ 31) with (z - 2 ^ 31 + 1 * 2 ^ 32) by lia.
    rewrite Z.mod_add, Z.mod_small by lia. lia.
Qed.

Lemma u32_i32 z : is_u32 z -> u32 (i32 z) = z.
Proof.
  unfold i32. intros H. unfold u32.
  rewrite Zminus_mod, Z.mod_mod, <- Zminus_mod by lia.
  replace (z + 2 ^ 31 - 2 ^ 31) with z by lia. apply Z.mod_small, H.
Qed.

Lemma has_bit_0 m : has_bit 0 m = false.
Proof. unfold has_bit. by rewrite Z.land_0_l. Qed.

(** ** Lemmas: lists *)

Lemma zlen_nonneg {A} (l : list A) : 0 <= zlen l.
Proof. unfold zlen. lia. Qed.

Lemma zlen_app {A} (l k : list A) : zlen (l ++ k) = zlen l + zlen k.
Proof. unfold zlen. rewrite length_app. lia. Qed.

Lemma zlen_cons {A} (a : A) l : zlen (a :: l) = 1 + zlen l.
Proof. unfold zlen. cbn [length]. lia. Qed.

Lemma zlen_nil {A} : zlen (@nil A) = 0.
Proof. reflexivity. Qed.

Lemma zlen_replicate {A} n (a : A) : zlen (replicate n a) = Z.of_nat n.
Proof. unfold zlen. by rewrite length_replicate. Qed.

Lemma zlen_drop {A} n (l : list A) : zlen (drop n l) = Z.max 0 (zlen l - Z.of_nat n).
Proof. unfold zlen. rewrite length_drop. lia. Qed.

Lemma zlen_take {A} n (l : list A) : zlen (take n l) = Z.min (Z.of_nat n) (zlen l).
Proof. unfold zlen. rewrite length_take. lia. Qed.

Lemma to_nat_zlen {A} (l : list A) : Z.to_nat (zlen l) = length l.
Proof. unfold zlen. lia. Qed.

Lemma drop_zlen_app {A} (l k : list A) : drop (Z.to_nat (zlen l)) (l ++ k) = k.
Proof. rewrite to_nat_zlen. apply drop_app_length. Qed.

Lemma take_zlen_app {A} (l k : list A) : take (Z.to_nat (zlen l)) (l ++ k) = l.
Proof. rewrite to_nat_zlen. apply take_app_length. Qed.

Lemma take_min_length {A} n (l : list A) : take (n `min` length l) l = take n l.
Proof.
  destruct (decide (n <= length l)%nat); [by rewrite Nat.min_l|].
  rewrite Nat.min_r by lia. by rewrite !take_ge by lia.
Qed.

Create Rewrite HintDb zlen.
#[export] Hint Rewrite @zlen_app @zlen_cons @zlen_nil @zlen_replicate @zlen_drop @zlen_take : zlen.

(** Size arithmetic on lists, decided after pushing [zlen] to the leaves. *)
Ltac zlen_lia :=
  autorewrite with zlen in *;
  repeat match goal with
  | |- context [@zlen ?A ?l] =>
      lazymatch goal with
      | _ : 0 <= @zlen A l |- _ => fail
      | _ => pose proof (@zlen_nonneg A l)
      end
  | _ : context [@zlen ?A ?l] |- _ =>
      lazymatch goal with
      | _ : 0 <= @zlen A l |- _ => fail
      | _ => pose proof (@zlen_nonneg A l)
      end
  end; lia.

(** ** Lemmas: bytes and byte order *)

Lemma Z_of_byte_range b : is_u8 (Z_of_byte b).
Proof.
  unfold Z_of_byte, is_u8. pose proof (Byte.to_N_bounded b). lia.
Qed.

Lemma Z_of_byte_of_Z z : Z_of_byte (byte_of_Z z) = u8 z.
Proof.
  unfold byte_of_Z, Z_of_byte. pose proof (u8_range z) as Hr. unfold is_u8 in Hr.
  destruct (Byte.of_N (Z.to_N (u8 z))) as [b|] eqn:E.
  - apply Byte.to_of_N in E. lia.
  - apply Byte.of_N_None_iff in E. lia.
Qed.

Lemma Z_of_byte_inj b c : Z_of_byte b = Z_of_byte c -> b = c.
Proof.
  unfold Z_of_byte. intros H. apply N2Z.inj in H.
  pose proof (Byte.of_to_N b) as Hb. pose proof (Byte.of_to_N c) as Hc.
  rewrite H in Hb. congruence.
Qed.

Lemma byte_of_Z_of_byte b : byte_of_Z (Z_of_byte b) = b.
Proof. apply Z_of_byte_inj. rewrite Z_of_byte_of_Z. apply u8_small, Z_of_byte_range. Qed.

Lemma length_be_encode n z : length (be_encode n z) = n.
Proof. induction n; cbn [be_encode length]; lia. Qed.

Lemma zlen_be_encode n z : zlen (be_encode n z) = Z.of_nat n.
Proof. unfold zlen. by rewrite length_be_encode. Qed.
#[export] Hint Rewrite zlen_be_encode : zlen.

Lemma lor_shiftl_add a b k : 0 <= k -> 0 <= b < 2 ^ k -> Z.lor (Z.shiftl a k) b = a * 2 ^ k + b.
Proof.
  intros Hk Hb. rewrite Z.shiftl_mul_pow2 by lia.
  rewrite <- Z.lxor_lor, <- Z.add_nocarry_lxor; [done|..].
  all: apply Z.bits_inj'; intros i Hi; rewrite Z.land_spec, Z.bits_0.
  all: destruct (decide (i < k)).
  all: try (rewrite Z.mul_pow2_bits_low by lia; done).
  all: rewrite <- (Z.mod_small b (2 ^ k)) by lia;
    rewrite Z.mod_pow2_bits_high by lia; apply andb_false_r.
Qed.

Lemma be_decode_snoc l b : be_decode (l ++ [b]) = be_decode l * 2 ^ 8 + Z_of_byte b.
Proof.
  unfold be_decode. rewrite foldl_app. cbn [foldl].
  apply lor_shiftl_add; [lia | apply Z_of_byte_range].
Qed.

Lemma be_encode_snoc n z :
  be_encode (S n) z = be_encode n (Z.shiftr z 8) ++ [byte_of_Z z].
Proof.
  revert z. induction n as [|n IH]; intros z.
  - cbn [be_encode app]. by rewrite Z.shiftr_0_r.
  - change (be_encode (S (S n)) z) with
      (byte_of_Z (Z.shiftr z (8 * Z.of_nat (S n))) :: be_encode (S n) z).
    rewrite IH. cbn [be_encode app]. f_equal. f_equal.
    rewrite Z.shiftr_shiftr by lia. f_equal. lia.
Qed.

Lemma be_decode_encode n z : be_decode (be_encode n z) = z mod 2 ^ (8 * Z.of_nat n).
Proof.
  revert z. induction n as [|n IH]; intros z.
  - cbn. by rewrite Z.mod_1_r.
  - rewrite be_encode_snoc, be_decode_snoc, IH, Z_of_byte_of_Z.
    unfold u8. rewrite Z.shiftr_div_pow2 by lia.
    replace (8 * Z.of_nat (S n)) with (8 + 8 * Z.of_nat n) by lia.
    rewrite Z.pow_add_r, Z.rem_mul_r by lia. lia.
Qed.

Lemma be_decode_range l : 0 <= be_decode l < 2 ^ (8 * zlen l).
Proof.
  induction l as [|b l IH] using rev_ind.
  - by vm_compute.
  - rewrite be_decode_snoc. autorewrite with zlen.
    pose proof (Z_of_byte_range b) as Hb. unfold is_u8 in Hb.
    replace (8 * (zlen l + (1 + 0))) with (8 + 8 * zlen l) by lia.
    pose proof (zlen_nonneg l). rewrite Z.pow_add_r by lia. nia.
Qed.

Lemma be_encode_decode l : be_encode (length l) (be_decode l) = l.
Proof.
  induction l as [|b l IH] using rev_ind; [done|].
  rewrite length_app. cbn [length]. replace (length l + 1)%nat with (S (length l)) by lia.
  rewrite be_encode_snoc, be_decode_snoc.
  pose proof (Z_of_byte_range b) as Hb. unfold is_u8 in Hb.
  f_equal.
  - rewrite Z.shiftr_div_pow2, Z.div_add_l, Z.div_small by lia. by rewrite Z.add_0_r.
  - f_equal. apply Z_of_byte_inj. rewrite Z_of_byte_of_Z. unfold u8.
    rewrite Z.add_comm, Z.mod_add, Z.mod_small; lia.
Qed.

Lemma be_encode_inj n z w :
  0 <= z < 2 ^ (8 * Z.of_nat n) -> 0 <= w < 2 ^ (8 * Z.of_nat n) ->
  be_encode n z = be_encode n w -> z = w.
Proof.
  intros Hz Hw H. apply (f_equal be_decode) in H. rewrite !be_decode_encode in H.
  by rewrite !Z.mod_small in H.
Qed.

Lemma be_encode_mod n z : be_encode n (z mod 2 ^ (8 * Z.of_nat n)) = be_encode n z.
Proof.
  rewrite <- be_decode_encode.
  rewrite <- (length_be_encode n z) at 1. apply be_encode_decode.
Qed.

Lemma be_encode4_u32 z : be_encode 4 (u32 z) = be_encode 4 z.
Proof. apply (be_encode_mod 4). Qed.

(** A value stored after [htonl] is in network order, whatever the host. *)
Lemma store32_htonl e z : store32 e (htonl e z) = be_encode 4 z.
Proof.
  destruct e; cbn [store32 htonl load32].
  - pose proof (be_encode_decode (reverse (be_encode 4 z))) as H.
    rewrite length_reverse, length_be_encode in H. rewrite H. apply reverse_involutive.
  - rewrite be_decode_encode. apply (be_encode_mod 4).
Qed.

(** A loaded value converted by [ntohl] is the network-order value. *)
Lemma ntohl_load32 e l : length l = 4%nat -> ntohl e (load32 e l) = be_decode l.
Proof.
  intros Hl. unfold ntohl. f_equal. destruct e; cbn [store32 load32].
  - pose proof (be_encode_decode (reverse l)) as H. rewrite length_reverse, Hl in H.
    rewrite H. apply reverse_involutive.
  - pose proof (be_encode_decode l) as H. by rewrite Hl in H.
Qed.

(** ** Lemmas: unbounded loops *)

Section LoopLemmas.
Context {E A : Type} (body : E -> round E A).

Lemma loop_rounds n e e1 a e' fuel :
  rounds body n e e1 -> body e1 = Return a e' -> (n < fuel)%nat ->
  loop body fuel e = Some (a, e').
Proof.
  intros Hr. revert fuel. induction Hr as [e|n e e1 e2 Hb Hr IH]; intros fuel Hret Hf;
    destruct fuel as [|fuel]; try lia; cbn [loop].
  - by rewrite Hret.
  - rewrite Hb. apply IH; [done | lia].
Qed.

Lemma loop_inv fuel e a e' :
  loop body fuel e = Some (a, e') ->
  exists n e1, (n < fuel)%nat /\ rounds body n e e1 /\ body e1 = Return a e'.
Proof.
  revert e. induction fuel as [|fuel IH]; intros e H; [done|]. cbn [loop] in H.
  destruct (body e) as [e1|b e1] eqn:Hb.
  - destruct (IH _ H) as (n & e2 & Hn & Hr & Hret).
    exists (S n), e2. split; [lia|]. split; [|done]. by econstructor.
  - injection H as -> ->. exists O, e. split; [lia|]. split; [constructor | done].
Qed.

Lemma returns_iff e a e' :
  returns body e a e' <-> exists n e1, rounds body n e e1 /\ body e1 = Return a e'.
Proof.
  split.
  - intros [fuel H]. destruct (loop_inv _ _ _ _ H) as (n & e1 & _ & Hr & Hret). eauto.
  - intros (n & e1 & Hr & Hret). exists (S n). eapply loop_rounds; eauto.
Qed.

Lemma returns_det e a e1 b e2 :
  returns body e a e1 -> returns body e b e2 -> a = b /\ e1 = e2.
Proof.
  intros [f1 H1] [f2 H2].
  destruct (loop_inv _ _ _ _ H1) as (n & x & Hn & Hr & Hret).
  pose proof (loop_rounds _ _ _ _ _ (f1 + f2 + 1) Hr Hret ltac:(lia)) as H3.
  destruct (loop_inv _ _ _ _ H2) as (n' & x' & Hn' & Hr' & Hret').
  pose proof (loop_rounds _ _ _ _ _ (f1 + f2 + 1) Hr' Hret' ltac:(lia)) as H4.
  rewrite H3 in H4. injection H4. intros. by subst.
Qed.

(** Rounds that lead to a state add to the fuel needed from it. *)
Lemma loop_after n e e1 fuel r :
  rounds body n e e1 -> loop body fuel e1 = Some r -> loop body (n + fuel) e = Some r.
Proof.
  intros Hr. induction Hr as [e|n e e1 e2 Hb Hr IH]; intros Hl; [done|].
  cbn [Nat.add loop]. rewrite Hb. by apply IH.
Qed.

(** An invariant of the rounds holds when the loop returns. *)
Lemma loop_invariant (I : E -> Prop) fuel e a e' :
  (forall x y, I x -> body x = Again y -> I y) ->
  I e -> loop body fuel e = Some (a, e') ->
  exists x, I x /\ body x = Return a e'.
Proof.
  intros Hstep. revert e. induction fuel as [|fuel IH]; intros e He H; [done|].
  cbn [loop] in H. destruct (body e) as [e1|b e1] eqn:Hb.
  - eapply IH; [|done]. eapply Hstep; eauto.
  - injection H as -> ->. eauto.
Qed.

(** A set of states that the body never leaves keeps the loop running. *)
Lemma loop_diverges (I : E -> Prop) e :
  (forall x, I x -> exists y, body x = Again y /\ I y) -> I e -> diverges body e.
Proof.
  intros Hstep He fuel. revert e He. induction fuel as [|fuel IH]; intros e He; [done|].
  cbn [loop]. destruct (Hstep e He) as (y & -> & Hy). by apply IH.
Qed.

(** A measure that every further round decreases bounds the fuel. *)
Lemma loop_terminates (I : E -> Prop) (mu : E -> nat) e :
  (forall x y, I x -> body x = Again y -> I y /\ (mu y < mu x)%nat) -> I e ->
  exists a e', loop body (S (mu e)) e = Some (a, e').
Proof.
  intros Hstep He. remember (S (mu e)) as fuel eqn:Hf.
  assert (mu e < fuel)%nat as Hlt by lia. clear Hf. revert e He Hlt.
  induction fuel as [|fuel IH]; intros e He Hlt; [lia|]. cbn [loop].
  destruct (body e) as [e1|a e1] eqn:Hb; [|eauto].
  destruct (Hstep _ _ He Hb). apply IH; [done | lia].
Qed.

(** More fuel does not change the result. *)
Lemma loop_mono f g e r : loop body f e = Some r -> (f <= g)%nat -> loop body g e = Some r.
Proof.
  destruct r as [a e']. intros H Hle.
  destruct (loop_inv _ _ _ _ H) as (n & e1 & Hn & Hr & Hret).
  eapply loop_rounds; [done..|lia].
Qed.

End LoopLemmas.

Section WhileLemmas.
Context {S : Type} (cond : S -> bool) (body : S -> S) (mu : S -> nat).
Context (Hdec : forall s, cond s = true -> (mu (body s) < mu s)%nat).

(** With enough fuel the loop ends because its condition is false. *)
Lemma while_exit fuel s : (mu s < fuel)%nat -> cond (while cond body fuel s) = false.
Proof using Hdec.
  revert s. induction fuel as [|f IH]; intros s Hf; [lia|]. cbn [while].
  destruct (cond s) eqn:Hc; [|done]. apply IH. pose proof (Hdec s Hc). lia.
Qed.

(** The result does not depend on the fuel once there is enough. *)
Lemma while_fuel f g s :
  (mu s < f)%nat -> (mu s < g)%nat -> while cond body f s = while cond body g s.
Proof using Hdec.
  revert g s. induction f as [|f IH]; intros g s Hf Hg; [lia|].
  destruct g as [|g]; [lia|]. cbn [while].
  destruct (cond s) eqn:Hc; [|done]. pose proof (Hdec s Hc). apply IH; lia.
Qed.

(** The loop unfolds one round at a time. *)
Lemma while_unfold f s :
  (mu s < f)%nat -> while cond body f s =
    if cond s then while cond body f (body s) else s.
Proof using Hdec.
  intros Hf. transitivity (while cond body (Datatypes.S f) s).
  - apply while_fuel; lia.
  - done.
Qed.

End WhileLemmas.

Lemma while_inv {S} (cond : S -> bool) body (I : S -> Prop) fuel s :
  (forall s, I s -> cond s = true -> I (body s)) -> I s -> I (while cond body fuel s).
Proof.
  intros Hstep. revert s. induction fuel as [|f IH]; intros s Hs; [done|]. cbn [while].
  destruct (cond s) eqn:Hc; [apply IH, Hstep|]; done.
Qed.

Lemma zlen_vec_resize n v : 0 <= n -> zlen (vec_resize n v) = n.
Proof. intros Hn. unfold vec_resize, zlen. rewrite length_app, length_take, length_replicate. lia. Qed.

(** ** Sums over a list *)

Lemma sum_list_with_insert {A} (f : A -> nat) (l : list A) i x y :
  l !! i = Some x ->
  (sum_list_with f (<[i := y]> l) + f x = sum_list_with f l + f y)%nat.
Proof.
  revert i. induction l as [|z l IH]; intros [|i]; [done..| |].
  - intros [= ->]. cbn. lia.
  - intros H. specialize (IH i H). change (<[S i := y]> (z :: l)) with (z :: <[i := y]> l).
    cbn [sum_list_with]. lia.
Qed.

Lemma sum_list_with_delete {A} (f : A -> nat) (l : list A) i x :
  l !! i = Some x -> (sum_list_with f (delete i l) + f x = sum_list_with f l)%nat.
Proof.
  revert i. induction l as [|z l IH]; intros [|i]; [done..| |].
  - intros [= ->]. cbn. lia.
  - intros H. specialize (IH i H). change (delete (S i) (z :: l)) with (z :: delete i l).
    cbn [sum_list_with]. lia.
Qed.
