(* ===== verification/Libssh.v ===== *)
(** * Libssh: the numbers of the public interfaces the sources include

    The sources use these macros and enumerators of [<libssh/libssh.h>] and
    [<libssh/sftp.h>] by name.  They are fixed by libssh's public headers; the
    packet types, status codes and attribute flags are those of the SFTP
    protocol drafts.  No libssh function is defined here: every call into
    libssh is a parameter of the definition that makes it. *)

From S2P Require Import Prelude.

(** An opaque pointer; the null pointer is [0]. *)
Definition pointer : Type := Z.
Definition nullptr : pointer := 0.

(** Return codes and flags of the session and channel calls. *)
Definition SSH_OK : Z := 0.
Definition SSH_ERROR : Z := -1.
Definition SSH_AGAIN : Z := -2.
Definition SSH_EOF : Z := -127.

Definition SSH_CLOSED : Z := 1.
Definition SSH_READ_PENDING : Z := 2.
Definition SSH_CLOSED_ERROR : Z := 4.
Definition SSH_WRITE_PENDING : Z := 8.

(** [enum ssh_auth_e]. *)
Definition SSH_AUTH_SUCCESS : Z := 0.
Definition SSH_AUTH_DENIED : Z := 1.
Definition SSH_AUTH_PARTIAL : Z := 2.
Definition SSH_AUTH_INFO : Z := 3.
Definition SSH_AUTH_AGAIN : Z := 4.
Definition SSH_AUTH_ERROR : Z := -1.

(** Authentication methods ([ssh_userauth_list]) and log levels. *)
Definition SSH_AUTH_METHOD_PASSWORD : Z := 2.
Definition SSH_AUTH_METHOD_PUBLICKEY : Z := 4.
Definition SSH_LOG_INFO : Z := 2.
Definition SSH_LOG_TRACE : Z := 4.

(** [enum ssh_error_types_e]. *)
Definition SSH_NO_ERROR : Z := 0.
Definition SSH_REQUEST_DENIED : Z := 1.
Definition SSH_FATAL : Z := 2.
Definition SSH_EINTR : Z := 3.

(** SFTP packet types. *)
Definition LIBSFTP_VERSION : Z := 3.
Definition SSH_FXP_INIT : Z := 1.
Definition SSH_FXP_VERSION : Z := 2.
Definition SSH_FXP_OPEN : Z := 3.
Definition SSH_FXP_CLOSE : Z := 4.
Definition SSH_FXP_READ : Z := 5.
Definition SSH_FXP_WRITE : Z := 6.
Definition SSH_FXP_LSTAT : Z := 7.
Definition SSH_FXP_FSTAT : Z := 8.
Definition SSH_FXP_SETSTAT : Z := 9.
Definition SSH_FXP_FSETSTAT : Z := 10.
Definition SSH_FXP_OPENDIR : Z := 11.
Definition SSH_FXP_READDIR : Z := 12.
Definition SSH_FXP_REMOVE : Z := 13.
Definition SSH_FXP_MKDIR : Z := 14.
Definition SSH_FXP_RMDIR : Z := 15.
Definition SSH_FXP_REALPATH : Z := 16.
Definition SSH_FXP_STAT : Z := 17.
Definition SSH_FXP_RENAME : Z := 18.
Definition SSH_FXP_READLINK : Z := 19.
Definition SSH_FXP_SYMLINK : Z := 20.
Definition SSH_FXP_STATUS : Z := 101.
Definition SSH_FXP_HANDLE : Z := 102.
Definition SSH_FXP_DATA : Z := 103.
Definition SSH_FXP_NAME : Z := 104.
Definition SSH_FXP_ATTRS : Z := 105.
Definition SSH_FXP_EXTENDED : Z := 200.
Definition SSH_FXP_EXTENDED_REPLY : Z := 201.

(** SFTP status codes. *)
Definition SSH_FX_OK : Z := 0.
Definition SSH_FX_EOF : Z := 1.
Definition SSH_FX_NO_SUCH_FILE : Z := 2.
Definition SSH_FX_PERMISSION_DENIED : Z := 3.
Definition SSH_FX_FAILURE : Z := 4.
Definition SSH_FX_BAD_MESSAGE : Z := 5.
Definition SSH_FX_NO_CONNECTION : Z := 6.
Definition SSH_FX_CONNECTION_LOST : Z := 7.
Definition SSH_FX_OP_UNSUPPORTED : Z := 8.
Definition SSH_FX_INVALID_HANDLE : Z := 9.
Definition SSH_FX_NO_SUCH_PATH : Z := 10.
Definition SSH_FX_FILE_ALREADY_EXISTS : Z := 11.
Definition SSH_FX_WRITE_PROTECT : Z := 12.
Definition SSH_FX_NO_MEDIA : Z := 13.

(** [SSH_FXP_OPEN] flags. *)
Definition SSH_FXF_READ : Z := 1.
Definition SSH_FXF_WRITE : Z := 2.
Definition SSH_FXF_APPEND : Z := 4.
Definition SSH_FXF_CREAT : Z := 8.
Definition SSH_FXF_TRUNC : Z := 16.
Definition SSH_FXF_EXCL : Z := 32.

(** Attribute flags. *)
Definition SSH_FILEXFER_ATTR_SIZE : Z := 1.
Definition SSH_FILEXFER_ATTR_UIDGID : Z := 2.
Definition SSH_FILEXFER_ATTR_PERMISSIONS : Z := 4.
Definition SSH_FILEXFER_ATTR_ACMODTIME : Z := 8.
Definition SSH_FILEXFER_ATTR_EXTENDED : Z := 2147483648.
