(* ===== verification/ErrorCode.v ===== *)
(** * ErrorCode: [src/error.cpp], [include/corosh/error.hpp]

    [std::error_code] values, the two error categories the library defines
    (their messages, default conditions and equivalence) and the comparison of
    an error code with an error condition as the C++ standard library defines
    it.  What the categories outside the repository answer ([Platform]) is a
    parameter. *)

From S2P Require Import Prelude Libssh.

(** ** Data *)

(** The categories an error code of the program can have: the two of
    [error.cpp], the standard library's generic and system categories, and
    capy's categories for its errors and its portable conditions. *)
Inductive category :=
| ssh_category
| sftp_category
| generic_category
| system_category
| capy_category
| capy_cond_category.

#[export] Instance category_eq_dec : EqDecision category.
Proof. solve_decision. Defined.

(** [std::error_code]. *)
Record error_code := ErrorCode { ec_value : Z; ec_category : category }.

(** [std::error_condition]. *)
Record error_condition := ErrorCondition { cond_value : Z; cond_category : category }.

#[export] Instance error_code_eq_dec : EqDecision error_code.
Proof. solve_decision. Defined.

#[export] Instance error_condition_eq_dec : EqDecision error_condition.
Proof. solve_decision. Defined.

(** [std::error_code{}]: value 0, system category. *)
Definition no_error : error_code := ErrorCode 0 system_category.

(** The [explicit operator bool]. *)
Definition ec_bool (ec : error_code) : bool := negb (ec_value ec =? 0).

(** [std::errc], restricted to the enumerators the sources name.  The numeric
    values are the POSIX error numbers of Linux. *)
Inductive errc :=
| not_connected
| no_such_file_or_directory
| permission_denied
| bad_message
| connection_aborted
| connection_reset
| operation_not_supported
| function_not_supported
| bad_file_descriptor
| file_exists
| read_only_file_system
| no_such_device
| no_such_device_or_address
| broken_pipe
| io_error
| timed_out.

#[export] Instance errc_eq_dec : EqDecision errc.
Proof. solve_decision. Defined.

Definition errc_value (e : errc) : Z :=
  match e with
  | no_such_file_or_directory => 2
  | io_error => 5
  | no_such_device_or_address => 6
  | bad_file_descriptor => 9
  | permission_denied => 13
  | file_exists => 17
  | no_such_device => 19
  | read_only_file_system => 30
  | broken_pipe => 32
  | function_not_supported => 38
  | bad_message => 74
  | operation_not_supported => 95
  | connection_aborted => 103
  | connection_reset => 104
  | not_connected => 107
  | timed_out => 110
  end.

(** [std::make_error_code] and [std::make_error_condition]. *)
Definition make_error_code (e : errc) : error_code :=
  ErrorCode (errc_value e) generic_category.
Definition make_error_condition (e : errc) : error_condition :=
  ErrorCondition (errc_value e) generic_category.

(** [make_error_code(ssh_error_types_e)]. *)
Definition make_ssh_error_code (e : Z) : error_code := ErrorCode e ssh_category.

(** [ec.assign(SSH_FX_BAD_MESSAGE, sftp_category())]. *)
Definition bad_message_ec : error_code := ErrorCode SSH_FX_BAD_MESSAGE sftp_category.

(** ** [ssh_category_t] *)

Definition ssh_category_message (ev : Z) : bytes :=
  if ev =? SSH_NO_ERROR then lit "no error"
  else if ev =? SSH_REQUEST_DENIED then lit "request denied"
  else if ev =? SSH_FATAL then lit "fatal"
  else if ev =? SSH_EINTR then lit "interrupted"
  else lit "unknown error".

Definition ssh_category_name : bytes := lit "libssh".

(** ** [sftp_category_t] *)

Definition sftp_category_message (ev : Z) : bytes :=
  if ev =? SSH_FX_OK then lit "no error"
  else if ev =? SSH_FX_EOF then lit "end of file"
  else if ev =? SSH_FX_NO_SUCH_FILE then lit "no such file"
  else if ev =? SSH_FX_PERMISSION_DENIED then lit "permission denied"
  else if ev =? SSH_FX_FAILURE then lit "failure"
  else if ev =? SSH_FX_BAD_MESSAGE then lit "bad message"
  else if ev =? SSH_FX_NO_CONNECTION then lit "no connection"
  else if ev =? SSH_FX_CONNECTION_LOST then lit "connection lost"
  else if ev =? SSH_FX_OP_UNSUPPORTED then lit "operation unsupported"
  else if ev =? SSH_FX_INVALID_HANDLE then lit "invalid handle"
  else if ev =? SSH_FX_NO_SUCH_PATH then lit "no such path"
  else if ev =? SSH_FX_FILE_ALREADY_EXISTS then lit "file already exists"
  else if ev =? SSH_FX_WRITE_PROTECT then lit "write protected"
  else if ev =? SSH_FX_NO_MEDIA then lit "no media"
  else lit "unknown error".

Definition sftp_category_name : bytes := lit "libssh.sftp".

Definition sftp_default_error_condition (ev : Z) : error_condition :=
  if ev =? SSH_FX_OK then ErrorCondition 0 generic_category
  else if ev =? SSH_FX_NO_SUCH_FILE then make_error_condition no_such_file_or_directory
  else if ev =? SSH_FX_NO_SUCH_PATH then make_error_condition no_such_file_or_directory
  else if ev =? SSH_FX_PERMISSION_DENIED then make_error_condition permission_denied
  else if ev =? SSH_FX_BAD_MESSAGE then make_error_condition bad_message
  else if ev =? SSH_FX_NO_CONNECTION then make_error_condition not_connected
  else if ev =? SSH_FX_CONNECTION_LOST then make_error_condition connection_aborted
  else if ev =? SSH_FX_OP_UNSUPPORTED then make_error_condition operation_not_supported
  else if ev =? SSH_FX_INVALID_HANDLE then make_error_condition bad_file_descriptor
  else if ev =? SSH_FX_FILE_ALREADY_EXISTS then make_error_condition file_exists
  else if ev =? SSH_FX_WRITE_PROTECT then make_error_condition read_only_file_system
  else if ev =? SSH_FX_NO_MEDIA then make_error_condition no_such_device
  else ErrorCondition ev sftp_category.

Definition sftp_equivalent (code : Z) (cond : error_condition) : bool :=
  if decide (cond_category cond = sftp_category) then cond_value cond =? code
  else bool_decide (sftp_default_error_condition code = cond).

(** ** The categories outside the repository *)

Class Platform := {
  (** [system_category().default_error_condition(ev)] *)
  system_default_error_condition : Z -> error_condition;
  (** capy's error category: its default condition, and whether a condition of
      capy's portable conditions matches an error code *)
  capy_default_error_condition : Z -> error_condition;
  capy_cond_equivalent : error_code -> Z -> bool;
  (** values of [boost::capy::error::eof], [boost::capy::error::canceled],
      [boost::capy::cond::eof] and [boost::capy::cond::not_found] *)
  capy_eof_value : Z;
  capy_canceled_value : Z;
  capy_cond_eof_value : Z;
  capy_cond_not_found_value : Z;
  (** [error_code::message()] in those categories *)
  foreign_message : category -> Z -> bytes
}.

Section WithPlatform.
Context {P : Platform}.

Definition capy_eof : error_code := ErrorCode capy_eof_value capy_category.
Definition capy_canceled : error_code := ErrorCode capy_canceled_value capy_category.
Definition capy_cond_eof : error_condition :=
  ErrorCondition capy_cond_eof_value capy_cond_category.
Definition capy_cond_not_found : error_condition :=
  ErrorCondition capy_cond_not_found_value capy_cond_category.

(** [error_category::default_error_condition], which the generic category and
    [ssh_category_t] do not override. *)
Definition default_error_condition (ec : error_code) : error_condition :=
  match ec_category ec with
  | sftp_category => sftp_default_error_condition (ec_value ec)
  | system_category => system_default_error_condition (ec_value ec)
  | capy_category => capy_default_error_condition (ec_value ec)
  | c => ErrorCondition (ec_value ec) c
  end.

(** [code.category().equivalent(code.value(), cond)]. *)
Definition code_equivalent (ec : error_code) (cond : error_condition) : bool :=
  match ec_category ec with
  | sftp_category => sftp_equivalent (ec_value ec) cond
  | _ => bool_decide (default_error_condition ec = cond)
  end.

(** [cond.category().equivalent(code, cond.value())]. *)
Definition cond_equivalent (ec : error_code) (cond : error_condition) : bool :=
  match cond_category cond with
  | capy_cond_category => capy_cond_equivalent ec (cond_value cond)
  | c => bool_decide (ec_category ec = c /\ ec_value ec = cond_value cond)
  end.

(** [operator==(error_code, error_condition)]. *)
Definition ec_eq_cond (ec : error_code) (cond : error_condition) : bool :=
  code_equivalent ec cond || cond_equivalent ec cond.

(** [error_code::message()]. *)
Definition ec_message (ec : error_code) : bytes :=
  match ec_category ec with
  | ssh_category => ssh_category_message (ec_value ec)
  | sftp_category => sftp_category_message (ec_value ec)
  | c => foreign_message c (ec_value ec)
  end.

End WithPlatform.

(** A platform for evaluating the definitions: capy's conditions match its own
    eof code and nothing else, system errors are generic errors. *)
Definition linux_platform : Platform := {|
  system_default_error_condition v := ErrorCondition v generic_category;
  capy_default_error_condition v := ErrorCondition v capy_category;
  capy_cond_equivalent ec v :=
    bool_decide (v = 1 /\ ec = ErrorCode 1 capy_category);
  capy_eof_value := 1;
  capy_canceled_value := 2;
  capy_cond_eof_value := 1;
  capy_cond_not_found_value := 2;
  foreign_message _ _ := lit "error"
|}.

(** ** Lemmas *)

Lemma ec_bool_no_error : ec_bool no_error = false.
Proof. reflexivity. Qed.

Lemma ec_bool_bad_message : ec_bool bad_message_ec = true.
Proof. reflexivity. Qed.

Lemma ec_bool_false ec : ec_bool ec = false <-> ec_value ec = 0.
Proof. unfold ec_bool. rewrite negb_false_iff. apply Z.eqb_eq. Qed.

Lemma ec_bool_true ec : ec_bool ec = true <-> ec_value ec <> 0.
Proof. unfold ec_bool. rewrite negb_true_iff. apply Z.eqb_neq. Qed.

Lemma ec_bool_make e : ec_bool (make_error_code e) = true.
Proof. by destruct e. Qed.

Lemma errc_value_inj a b : errc_value a = errc_value b -> a = b.
Proof. destruct a, b; cbn; congruence || discriminate. Qed.

Create Rewrite HintDb ec.
#[export] Hint Rewrite ec_bool_no_error ec_bool_bad_message ec_bool_make : ec.

Section ErrorLemmas.
Context {P : Platform}.

(** A generic error code compares equal to the condition of the same
    enumerator, and to no other enumerator's. *)
Lemma generic_eq_cond e c :
  ec_eq_cond (make_error_code e) (make_error_condition c) = bool_decide (e = c).
Proof.
  unfold ec_eq_cond, code_equivalent, cond_equivalent, default_error_condition.
  cbn [ec_category make_error_code make_error_condition cond_category ec_value cond_value].
  destruct (decide (e = c)) as [->|Hne].
  - rewrite !bool_decide_eq_true_2 by done. done.
  - assert (Hv : errc_value e <> errc_value c) by (intros H; by apply errc_value_inj in H).
    rewrite !bool_decide_eq_false_2; try done; [tauto | intros [=]; done].
Qed.

(** The sftp category's [equivalent] agrees with the default condition. *)
Lemma sftp_equivalent_default v c :
  sftp_equivalent v (make_error_condition c) = true <->
  sftp_default_error_condition v = make_error_condition c.
Proof.
  unfold sftp_equivalent. cbn [make_error_condition cond_category].
  rewrite decide_False by done. apply bool_decide_eq_true.
Qed.

End ErrorLemmas.
