(* ===== verification/Codec.v ===== *)
(** * Codec: the wire primitives of [src/sftp.cpp] (lines 34-229, 287-303)

    A [const_buffer & buf] that a [take_*] helper advances, together with the
    [error_code & ec] it reports through, is a [reader]; the [mutable_buffer &]
    of the [put_*] helpers is a [writer], which remembers the storage already
    written ([wr_done]) and the part still ahead of the cursor ([wr_room]), so
    that the whole buffer is always [wr_done ++ wr_room].

    [takes m bs a] says that the parser [m] reads exactly the bytes [bs] and
    returns [a]; [puts m bs] that the printer [m] writes exactly [bs].  Both
    compose along [st_bind], and the hint database [wire] builds them for
    whole messages. *)

From S2P Require Import Prelude Libssh ErrorCode.

#[local] Open Scope Z_scope.

(** ** Data *)

Record reader := Reader { rd_buf : bytes; rd_ec : error_code }.

Record writer := Writer { wr_done : bytes; wr_room : bytes; wr_ec : error_code }.

(** [sftp::attributes]. *)
Record attributes := Attributes {
  a_flags : Z;
  a_type : Z;
  a_size : Z;
  a_uid : Z;
  a_gid : Z;
  a_owner : bytes;
  a_group : bytes;
  a_permissions : Z;
  a_atime64 : Z;
  a_atime : Z;
  a_atime_nseconds : Z;
  a_createtime : Z;
  a_createtime_nseconds : Z;
  a_mtime64 : Z;
  a_mtime : Z;
  a_mtime_nseconds : Z;
  a_acl : bytes
}.

#[export] Instance attributes_eq_dec : EqDecision attributes.
Proof. solve_decision. Defined.

Definition empty_attributes : attributes :=
  Attributes 0 0 0 0 0 [] [] 0 0 0 0 0 0 0 0 0 [].

(** [dir::entry]. *)
Record entry := Entry { e_attr : attributes; e_name : bytes; e_long_name : bytes }.

Definition empty_entry : entry := Entry empty_attributes [] [].

(** ** Reading *)

(** [if (!ec && buf.size() < n) ec.assign(SSH_FX_BAD_MESSAGE, sftp_category());] *)
Definition require_bytes (n : Z) (r : reader) : reader :=
  if negb (ec_bool (rd_ec r)) && (zlen (rd_buf r) <? n)
  then Reader (rd_buf r) bad_message_ec
  else r.

Definition take_u8 : ST reader Z := fun r =>
  let r := require_bytes 1 r in
  if ec_bool (rd_ec r) then (0, r)
  else (Z_of_byte (hd Byte.x00 (rd_buf r)), Reader (drop 1 (rd_buf r)) (rd_ec r)).

Definition take_u32 : ST reader Z := fun r =>
  let r := require_bytes 4 r in
  if ec_bool (rd_ec r) then (0, r)
  else (be_decode (take 4 (rd_buf r)), Reader (drop 4 (rd_buf r)) (rd_ec r)).

Definition take_u64 : ST reader Z := fun r =>
  let r := require_bytes 8 r in
  if ec_bool (rd_ec r) then (0, r)
  else
    let hi := be_decode (take 4 (rd_buf r)) in
    let lo := be_decode (take 4 (drop 4 (rd_buf r))) in
    (Z.lor (Z.shiftl hi 32) lo, Reader (drop 8 (rd_buf r)) (rd_ec r)).

Definition take_str : ST reader bytes :=
  let* sz := take_u32 in
  fun r =>
    let r := require_bytes sz r in
    if ec_bool (rd_ec r) then ([], r)
    else (take (Z.to_nat sz) (rd_buf r), Reader (drop (Z.to_nat sz) (rd_buf r)) (rd_ec r)).

(** Rounds that a loop consuming input can make on [r]. *)
Definition read_fuel (r : reader) : nat := S (S (length (rd_buf r))).

(** [for (i = 0; !ec && i < count; ++i) { take_str; take_str; }] *)
Definition skip_pairs_cond (count : Z) (s : Z * reader) : bool :=
  negb (ec_bool (rd_ec (snd s))) && (fst s <? count).

Definition skip_pairs_body (s : Z * reader) : Z * reader :=
  let '(_, r) := (take_str ;;; take_str) (snd s) in (u32 (fst s + 1), r).

Definition take_extended : ST reader unit :=
  let* count := take_u32 in
  fun r => (tt, snd (while (skip_pairs_cond count) skip_pairs_body (read_fuel r) (0, r))).

Definition take_attrs : ST reader attributes :=
  let* flags := take_u32 in
  let* size := if has_bit flags SSH_FILEXFER_ATTR_SIZE then take_u64 else st_ret 0 in
  let* uid := if has_bit flags SSH_FILEXFER_ATTR_UIDGID then take_u32 else st_ret 0 in
  let* gid := if has_bit flags SSH_FILEXFER_ATTR_UIDGID then take_u32 else st_ret 0 in
  let* permissions :=
    if has_bit flags SSH_FILEXFER_ATTR_PERMISSIONS then take_u32 else st_ret 0 in
  let* atime := if has_bit flags SSH_FILEXFER_ATTR_ACMODTIME then take_u32 else st_ret 0 in
  let* mtime := if has_bit flags SSH_FILEXFER_ATTR_ACMODTIME then take_u32 else st_ret 0 in
  st_when (has_bit flags SSH_FILEXFER_ATTR_EXTENDED) take_extended ;;;
  st_ret (Attributes flags 0 size uid gid [] [] permissions 0 atime 0 0 0 0 mtime 0 []).

(** ** Writing *)

Definition require_room (n : Z) (w : writer) : writer :=
  if negb (ec_bool (wr_ec w)) && (zlen (wr_room w) <? n)
  then Writer (wr_done w) (wr_room w) bad_message_ec
  else w.

(** Store [bs] at the cursor and advance it. *)
Definition poke (bs : bytes) (w : writer) : writer :=
  Writer (wr_done w ++ bs) (drop (length bs) (wr_room w)) (wr_ec w).

Definition put_u8 (value : Z) : ST writer unit := fun w =>
  let w := require_room 1 w in
  if ec_bool (wr_ec w) then (tt, w) else (tt, poke [byte_of_Z value] w).

Definition put_u32 (value : Z) : ST writer unit := fun w =>
  let w := require_room 4 w in
  if ec_bool (wr_ec w) then (tt, w) else (tt, poke (be_encode 4 value) w).

Definition put_u64 (value : Z) : ST writer unit := fun w =>
  let w := require_room 8 w in
  if ec_bool (wr_ec w) then (tt, w)
  else
    let hi := u32 (Z.shiftr value 32) in
    let lo := u32 (Z.land value 0xFFFFFFFF) in
    (tt, poke (be_encode 4 hi ++ be_encode 4 lo) w).

Definition put_str (value : bytes) : ST writer unit :=
  put_u32 (u32 (zlen value)) ;;;
  fun w =>
    let w := require_room (zlen value) w in
    if ec_bool (wr_ec w) then (tt, w) else (tt, poke value w).

Definition attrs_length (attr : attributes) : Z :=
  let n := 4 in
  let n := if has_bit (a_flags attr) SSH_FILEXFER_ATTR_SIZE then n + 8 else n in
  let n := if has_bit (a_flags attr) SSH_FILEXFER_ATTR_UIDGID then n + 8 else n in
  let n := if has_bit (a_flags attr) SSH_FILEXFER_ATTR_PERMISSIONS then n + 4 else n in
  let n := if has_bit (a_flags attr) SSH_FILEXFER_ATTR_ACMODTIME then n + 8 else n in
  n.

Definition put_attrs (attr : attributes) : ST writer unit :=
  put_u32 (a_flags attr) ;;;
  st_when (has_bit (a_flags attr) SSH_FILEXFER_ATTR_SIZE) (put_u64 (a_size attr)) ;;;
  st_when (has_bit (a_flags attr) SSH_FILEXFER_ATTR_UIDGID)
    (put_u32 (a_uid attr) ;;; put_u32 (a_gid attr)) ;;;
  st_when (has_bit (a_flags attr) SSH_FILEXFER_ATTR_PERMISSIONS)
    (put_u32 (a_permissions attr)) ;;;
  st_when (has_bit (a_flags attr) SSH_FILEXFER_ATTR_ACMODTIME)
    (put_u32 (a_atime attr) ;;; put_u32 (a_mtime attr)).

(** ** Framing *)

(** [match_packet]: [None] is [npos].  [sz + 4u] is computed in 32 bits. *)
Definition match_packet (data : bytes) : option Z :=
  if zlen data <? 4 then None
  else
    let sz := be_decode (take 4 data) in
    if u32 (sz + 4) <=? zlen data then Some (u32 (sz + 4)) else None.

(** ** [small_buffer<N>] *)

Record small_buffer := SmallBuffer { sb_small : bytes; sb_dynamic : bytes }.

Definition sb_capacity : Z := 1024.

(** The contents of the buffer [get(n)] returns: the first [n] bytes of the
    uninitialised array, or the resized vector. *)
Definition small_buffer_get (b : small_buffer) (n : Z) : bytes :=
  if n <=? sb_capacity then take (Z.to_nat n) (sb_small b)
  else vec_resize n (sb_dynamic b).

(** A declared [small_buffer<1024>]: any array contents, an empty vector. *)
Definition small_buffer_wf (b : small_buffer) : Prop :=
  zlen (sb_small b) = sb_capacity /\ sb_dynamic b = [].

(** Run a sequence of [put]s on a buffer with the given contents, starting
    with the error code [ec]: the final contents and the error code. *)
Definition fill_with (ec : error_code) (buf : bytes) (m : ST writer unit) : bytes * error_code :=
  let '(_, w) := m (Writer [] buf ec) in (wr_done w ++ wr_room w, wr_ec w).

Definition fill : bytes -> ST writer unit -> bytes * error_code := fill_with no_error.

(** ** The wire format as a specification *)

Definition str_bytes (s : bytes) : bytes := be_encode 4 (zlen s) ++ s.

Definition attrs_bytes (a : attributes) : bytes :=
  be_encode 4 (a_flags a)
  ++ (if has_bit (a_flags a) SSH_FILEXFER_ATTR_SIZE then be_encode 8 (a_size a) else [])
  ++ (if has_bit (a_flags a) SSH_FILEXFER_ATTR_UIDGID
      then be_encode 4 (a_uid a) ++ be_encode 4 (a_gid a) else [])
  ++ (if has_bit (a_flags a) SSH_FILEXFER_ATTR_PERMISSIONS
      then be_encode 4 (a_permissions a) else [])
  ++ (if has_bit (a_flags a) SSH_FILEXFER_ATTR_ACMODTIME
      then be_encode 4 (a_atime a) ++ be_encode 4 (a_mtime a) else []).

(** What the v3 wire format keeps of an [attributes] value. *)
Definition attrs_on_wire (a : attributes) : attributes :=
  let size := if has_bit (a_flags a) SSH_FILEXFER_ATTR_SIZE then a_size a else 0 in
  let ids := has_bit (a_flags a) SSH_FILEXFER_ATTR_UIDGID in
  let perm := if has_bit (a_flags a) SSH_FILEXFER_ATTR_PERMISSIONS
              then a_permissions a else 0 in
  let times := has_bit (a_flags a) SSH_FILEXFER_ATTR_ACMODTIME in
  Attributes (a_flags a) 0 size
    (if ids then a_uid a else 0) (if ids then a_gid a else 0) [] [] perm
    0 (if times then a_atime a else 0) 0 0 0 0 (if times then a_mtime a else 0) 0 [].

(** The fields have the widths of the C++ struct. *)
Definition attrs_wf (a : attributes) : Prop :=
  is_u32 (a_flags a) /\ is_u64 (a_size a) /\ is_u32 (a_uid a) /\ is_u32 (a_gid a) /\
  is_u32 (a_permissions a) /\ is_u32 (a_atime a) /\ is_u32 (a_mtime a).

(** Strings that fit a [string] field. *)
Definition str_wf (s : bytes) : Prop := is_u32 (zlen s).

Definition pairs_bytes (l : list (bytes * bytes)) : bytes :=
  concat (map (fun '(k, v) => str_bytes k ++ str_bytes v) l).

(** A frame: the length prefix and the body. *)
Definition frame (body : bytes) : bytes := be_encode 4 (zlen body) ++ body.

Definition puts (m : ST writer unit) (bs : bytes) : Prop :=
  forall w, wr_ec w = no_error -> zlen bs <= zlen (wr_room w) -> m w = (tt, poke bs w).

Definition takes {A} (m : ST reader A) (bs : bytes) (a : A) : Prop :=
  forall rest, m (Reader (bs ++ rest) no_error) = (a, Reader rest no_error).

(** [m] leaves the input alone once an error is recorded, never invents or
    reorders input, and clears no error. *)
Definition well_behaved {A} (m : ST reader A) : Prop :=
  forall r, let r' := snd (m r) in
  (exists pre, rd_buf r = pre ++ rd_buf r') /\
  (ec_bool (rd_ec r) = true -> r' = r) /\
  (rd_ec r' = rd_ec r \/ rd_ec r' = bad_message_ec).

(** [m] accepts only the encoding [enc a] of the value it returns. *)
Definition parses {A} (m : ST reader A) (enc : A -> bytes) (wf : A -> Prop) : Prop :=
  forall r, ec_bool (rd_ec (snd (m r))) = false ->
    rd_buf r = enc (fst (m r)) ++ rd_buf (snd (m r)) /\ wf (fst (m r)).

(** [m] reports an error on every proper prefix of [bs]. *)
Definition rejects {A} (m : ST reader A) (bs : bytes) : Prop :=
  forall pre suf, bs = pre ++ suf -> suf <> [] ->
    rd_ec (snd (m (Reader pre no_error))) = bad_message_ec.

(** Once an error is recorded, [m] keeps it. *)
Definition keeps_error (m : ST writer unit) : Prop :=
  forall w, ec_bool (wr_ec w) = true -> wr_ec (snd (m w)) = wr_ec w.

(** The measure of a parsing loop: 0 after an error. *)
Definition read_measure (r : reader) : nat :=
  if ec_bool (rd_ec r) then O else S (length (rd_buf r)).

(** ** Lemmas: writing *)

Create HintDb wire.

Lemma puts_ret : puts (st_ret tt) [].
Proof. intros w _ _. unfold poke. cbn. rewrite app_nil_r, drop_0. by destruct w. Qed.

Lemma poke_app b1 b2 w : poke b2 (poke b1 w) = poke (b1 ++ b2) w.
Proof.
  unfold poke. cbn [wr_done wr_room wr_ec].
  by rewrite <- app_assoc, drop_drop, length_app.
Qed.

Lemma puts_bind m1 m2 b1 b2 : puts m1 b1 -> puts m2 b2 -> puts (m1 ;;; m2) (b1 ++ b2).
Proof.
  intros H1 H2 w Hec Hroom. autorewrite with zlen in Hroom. unfold st_bind.
  rewrite H1 by (done || zlen_lia).
  rewrite H2 by (done || (unfold poke; cbn [wr_room]; unfold zlen in *; rewrite length_drop; lia)).
  by rewrite poke_app.
Qed.

Lemma puts_eq m b b' : puts m b -> b = b' -> puts m b'.
Proof. by intros H <-. Qed.

Lemma puts_when c m bs : puts m bs -> puts (st_when c m) (if c then bs else []).
Proof. destruct c; [done|]. intros _. apply puts_ret. Qed.

Lemma require_room_ok n w : wr_ec w = no_error -> n <= zlen (wr_room w) -> require_room n w = w.
Proof.
  intros Hec Hn. unfold require_room. rewrite Hec, ec_bool_no_error. cbn [negb andb].
  destruct (Z.ltb_spec (zlen (wr_room w)) n); [lia | done].
Qed.

Lemma puts_u8 v : puts (put_u8 v) [byte_of_Z v].
Proof.
  intros w Hec Hr. autorewrite with zlen in Hr. cbv beta zeta delta [put_u8].
  by rewrite require_room_ok, Hec, ec_bool_no_error by (done || lia).
Qed.

Lemma puts_u32 v : puts (put_u32 v) (be_encode 4 v).
Proof.
  intros w Hec Hr. autorewrite with zlen in Hr. cbv beta zeta delta [put_u32].
  by rewrite require_room_ok, Hec, ec_bool_no_error by (done || lia).
Qed.

Lemma puts_u32_mod v : puts (put_u32 (u32 v)) (be_encode 4 v).
Proof. eapply puts_eq; [apply puts_u32 | apply be_encode4_u32]. Qed.

Lemma be_encode_split v :
  be_encode 4 (u32 (Z.shiftr v 32)) ++ be_encode 4 (u32 (Z.land v 0xFFFFFFFF)) = be_encode 8 v.
Proof.
  rewrite !be_encode4_u32. change 0xFFFFFFFF with (Z.ones 32). rewrite Z.land_ones by lia.
  change (v mod 2 ^ 32) with (u32 v). rewrite be_encode4_u32.
  cbn [be_encode app]. by rewrite !Z.shiftr_shiftr by lia.
Qed.

Lemma puts_u64 v : puts (put_u64 v) (be_encode 8 v).
Proof.
  intros w Hec Hr. autorewrite with zlen in Hr. cbv beta zeta delta [put_u64].
  rewrite require_room_ok, Hec, ec_bool_no_error by (done || lia).
  by rewrite be_encode_split.
Qed.

Lemma puts_raw_str s :
  puts (fun w => let w := require_room (zlen s) w in
                 if ec_bool (wr_ec w) then (tt, w) else (tt, poke s w)) s.
Proof.
  intros w Hec Hr. cbv beta zeta.
  by rewrite require_room_ok, Hec, ec_bool_no_error by (done || lia).
Qed.

Lemma puts_str s : puts (put_str s) (str_bytes s).
Proof.
  unfold put_str, str_bytes. apply puts_bind; [|apply puts_raw_str].
  eapply puts_eq; [apply puts_u32|]. apply be_encode4_u32.
Qed.

#[export] Hint Resolve puts_ret puts_bind puts_when puts_u8 puts_u32 puts_u32_mod puts_u64 puts_str : wire.

Lemma puts_attrs a : puts (put_attrs a) (attrs_bytes a).
Proof. unfold put_attrs, attrs_bytes. auto 20 with wire. Qed.
#[export] Hint Resolve puts_attrs : wire.

Lemma zlen_str_bytes s : zlen (str_bytes s) = 4 + zlen s.
Proof. unfold str_bytes. zlen_lia. Qed.

Lemma zlen_frame b : zlen (frame b) = 4 + zlen b.
Proof. unfold frame. zlen_lia. Qed.

Lemma attrs_length_bytes a : zlen (attrs_bytes a) = attrs_length a.
Proof.
  unfold attrs_bytes, attrs_length.
  repeat destruct (has_bit _ _); autorewrite with zlen; lia.
Qed.
#[export] Hint Rewrite zlen_str_bytes zlen_frame attrs_length_bytes : zlen.

Lemma attrs_length_range a : 4 <= attrs_length a <= 32.
Proof. unfold attrs_length. repeat destruct (has_bit _ _); lia. Qed.

(** Filling a buffer of exactly the right size: no error, no byte of the old
    contents left. *)
Lemma fill_puts buf m bs : puts m bs -> zlen buf = zlen bs -> fill buf m = (bs, no_error).
Proof.
  intros Hm Hlen. unfold fill, fill_with. rewrite Hm by (done || (cbn; lia)).
  cbn [poke wr_done wr_room wr_ec app]. unfold zlen in Hlen.
  rewrite drop_ge by lia. by rewrite app_nil_r.
Qed.

Lemma small_buffer_get_len b n :
  small_buffer_wf b -> 0 <= n -> zlen (small_buffer_get b n) = n.
Proof.
  unfold small_buffer_wf, small_buffer_get, sb_capacity. intros [Hs _] Hn.
  destruct (Z.leb_spec n 1024); [zlen_lia | by apply zlen_vec_resize].
Qed.

(** ** Lemmas: reading back what was written *)

Lemma takes_ret {A} (a : A) : takes (st_ret a) [] a.
Proof. by intros rest. Qed.

Lemma takes_bind {A B} (m : ST reader A) (k : A -> ST reader B) b1 b2 a c :
  takes m b1 a -> takes (k a) b2 c -> takes (st_bind m k) (b1 ++ b2) c.
Proof. intros H1 H2 rest. unfold st_bind. by rewrite <- app_assoc, H1, H2. Qed.

Lemma takes_eq {A} (m : ST reader A) b b' a : takes m b a -> b = b' -> takes m b' a.
Proof. by intros H <-. Qed.

Lemma takes_if {A} (c : bool) (m : ST reader A) b a d :
  takes m b a ->
  takes (if c then m else st_ret d) (if c then b else []) (if c then a else d).
Proof. destruct c; [done|]. intros _. apply takes_ret. Qed.

Lemma require_bytes_ok n b : n <= zlen b -> require_bytes n (Reader b no_error) = Reader b no_error.
Proof.
  intros Hn. unfold require_bytes. cbn [rd_ec rd_buf]. rewrite ec_bool_no_error.
  cbn [negb andb]. destruct (Z.ltb_spec (zlen b) n); [lia | done].
Qed.

Lemma takes_u8 v : is_u8 v -> takes take_u8 [byte_of_Z v] v.
Proof.
  intros Hv rest. cbv beta zeta delta [take_u8]. rewrite require_bytes_ok by zlen_lia.
  cbn [rd_ec rd_buf app hd drop]. rewrite ec_bool_no_error, drop_0, Z_of_byte_of_Z.
  by rewrite u8_small.
Qed.

Lemma takes_u32 v : is_u32 v -> takes take_u32 (be_encode 4 v) v.
Proof.
  intros Hv rest. cbv beta zeta delta [take_u32]. rewrite require_bytes_ok by zlen_lia.
  cbn [rd_ec rd_buf]. rewrite ec_bool_no_error.
  rewrite take_app_length', drop_app_length' by (by rewrite length_be_encode).
  rewrite be_decode_encode. change (8 * Z.of_nat 4) with 32. by rewrite Z.mod_small.
Qed.

Lemma takes_u64 v : is_u64 v -> takes take_u64 (be_encode 8 v) v.
Proof.
  intros Hv rest. rewrite <- be_encode_split, <- app_assoc.
  cbv beta zeta delta [take_u64]. rewrite require_bytes_ok by zlen_lia.
  cbn [rd_ec rd_buf]. rewrite ec_bool_no_error.
  rewrite take_app_length' by (by rewrite length_be_encode).
  rewrite (drop_app_length' _ _ 4) by (by rewrite length_be_encode).
  rewrite take_app_length' by (by rewrite length_be_encode).
  rewrite (app_assoc (be_encode 4 _)), (drop_app_length' _ _ 8)
    by (rewrite length_app, !length_be_encode; done).
  rewrite !be_decode_encode. change (2 ^ (8 * Z.of_nat 4)) with (2 ^ 32).
  change 0xFFFFFFFF with (Z.ones 32). rewrite Z.land_ones by lia.
  unfold u32. rewrite !Z.mod_mod by lia.
  rewrite lor_shiftl_add by (lia || (apply Z.mod_pos_bound; lia)).
  unfold is_u64 in Hv. rewrite Z.shiftr_div_pow2 by lia.
  rewrite (Z.mod_small (v / 2 ^ 32)) by (split; [apply Z.div_pos | apply Z.div_lt_upper_bound]; lia).
  f_equal. rewrite (Z.div_mod v (2 ^ 32)) at 3 by lia. lia.
Qed.

Lemma takes_raw_str s :
  takes (fun r => let r := require_bytes (zlen s) r in
    if ec_bool (rd_ec r) then ([], r)
    else (take (Z.to_nat (zlen s)) (rd_buf r),
          Reader (drop (Z.to_nat (zlen s)) (rd_buf r)) (rd_ec r))) s s.
Proof.
  intros rest. cbv beta zeta. rewrite require_bytes_ok by zlen_lia. cbn [rd_ec rd_buf].
  by rewrite ec_bool_no_error, take_zlen_app, drop_zlen_app.
Qed.

Lemma takes_str s : str_wf s -> takes take_str (str_bytes s) s.
Proof.
  intros Hs. unfold take_str, str_bytes. eapply takes_bind; [by apply takes_u32|].
  apply takes_raw_str.
Qed.

#[export] Hint Resolve takes_ret takes_u8 takes_u32 takes_u64 takes_str : wire.

Lemma takes_ids (c : bool) (u g : Z) b1 b2 (k : Z -> Z -> ST reader attributes) bs a :
  takes take_u32 b1 u -> takes take_u32 b2 g ->
  takes (k (if c then u else 0) (if c then g else 0)) bs a ->
  takes (let* x := (if c then take_u32 else st_ret 0) in
         let* y := (if c then take_u32 else st_ret 0) in k x y)
        ((if c then b1 ++ b2 else []) ++ bs) a.
Proof.
  intros H1 H2 Hk. destruct c.
  - rewrite <- app_assoc. eapply takes_bind; [exact H1|]. eapply takes_bind; [exact H2|]. exact Hk.
  - exact Hk.
Qed.

(** The optional fields, whatever the flags say about an extension. *)
Lemma takes_attrs_then a bs :
  attrs_wf a -> takes (st_when (has_bit (a_flags a) SSH_FILEXFER_ATTR_EXTENDED) take_extended) bs tt ->
  takes take_attrs (attrs_bytes a ++ bs) (attrs_on_wire a).
Proof.
  intros (Hf & Hs & Hu & Hg & Hp & Ha & Hm) Hext. unfold attrs_bytes, take_attrs.
  rewrite <- !app_assoc. eapply takes_bind; [by apply takes_u32|].
  eapply takes_bind; [apply takes_if; by apply takes_u64|].
  eapply takes_ids; [by apply takes_u32..|].
  eapply takes_bind; [apply takes_if; by apply takes_u32|].
  eapply takes_ids; [by apply takes_u32..|].
  rewrite <- (app_nil_r bs). eapply takes_bind; [exact Hext|]. apply takes_ret.
Qed.

Lemma takes_attrs a :
  attrs_wf a -> has_bit (a_flags a) SSH_FILEXFER_ATTR_EXTENDED = false ->
  takes take_attrs (attrs_bytes a) (attrs_on_wire a).
Proof.
  intros Hwf Hext. rewrite <- (app_nil_r (attrs_bytes a)).
  apply (takes_attrs_then a [] Hwf). rewrite Hext. apply takes_ret.
Qed.
#[export] Hint Resolve takes_attrs : wire.

(** ** Lemmas: parsers on arbitrary input *)

Lemma require_bytes_spec n r :
  require_bytes n r = r \/ (ec_bool (rd_ec r) = false /\
    require_bytes n r = Reader (rd_buf r) bad_message_ec).
Proof.
  unfold require_bytes. destruct (ec_bool (rd_ec r)); cbn [negb andb]; [by left|].
  destruct (_ <? _); [by right | by left].
Qed.

(** A parser step of the shape all the [take_*] helpers have. *)
Lemma guarded_step_well_behaved {A} n (d : A) (f : reader -> A) (k : reader -> nat) :
  well_behaved (fun r => let r := require_bytes n r in
    if ec_bool (rd_ec r) then (d, r)
    else (f r, Reader (drop (k r) (rd_buf r)) (rd_ec r))).
Proof.
  intros r. cbv beta zeta.
  destruct (require_bytes_spec n r) as [->|[Hr ->]]; cbn [rd_ec rd_buf].
  - destruct (ec_bool (rd_ec r)) eqn:E; cbn [snd rd_buf rd_ec].
    + split; [by exists []|]. auto.
    + split; [|split; [congruence | by left]]. exists (take (k r) (rd_buf r)). by rewrite take_drop.
  - rewrite ec_bool_bad_message. cbn [snd rd_buf rd_ec].
    split; [by exists []|]. split; [congruence | by right].
Qed.

Lemma well_behaved_ret {A} (a : A) : well_behaved (st_ret a).
Proof. intros r. cbn. split; [by exists []|]. auto. Qed.

Lemma well_behaved_bind {A B} (m : ST reader A) (k : A -> ST reader B) :
  well_behaved m -> (forall a, well_behaved (k a)) -> well_behaved (st_bind m k).
Proof.
  intros Hm Hk r. unfold st_bind. specialize (Hm r).
  destruct (m r) as [a r1] eqn:E. cbn [snd] in Hm. cbv zeta in Hm.
  destruct Hm as ((p1 & Hp1) & Hs1 & He1). specialize (Hk a r1). cbv zeta in Hk.
  destruct (k a r1) as [b r2]. cbn [snd] in *. cbv zeta.
  destruct Hk as ((p2 & Hp2) & Hs2 & He2). split; [|split].
  - exists (p1 ++ p2). by rewrite Hp1, Hp2, <- app_assoc.
  - intros Hr. rewrite (Hs1 Hr) in *. auto.
  - destruct He2 as [->| ->]; auto.
Qed.

Lemma well_behaved_if {A} (c : bool) (m n : ST reader A) :
  well_behaved m -> well_behaved n -> well_behaved (if c then m else n).
Proof. by destruct c. Qed.

Lemma well_behaved_u8 : well_behaved take_u8.
Proof. exact (guarded_step_well_behaved 1 0 (fun r => Z_of_byte (hd Byte.x00 (rd_buf r))) (fun _ => 1%nat)). Qed.

Lemma well_behaved_u32 : well_behaved take_u32.
Proof. exact (guarded_step_well_behaved 4 0 (fun r => be_decode (take 4 (rd_buf r))) (fun _ => 4%nat)). Qed.

Lemma well_behaved_u64 : well_behaved take_u64.
Proof.
  exact (guarded_step_well_behaved 8 0
    (fun r => Z.lor (Z.shiftl (be_decode (take 4 (rd_buf r))) 32)
                    (be_decode (take 4 (drop 4 (rd_buf r))))) (fun _ => 8%nat)).
Qed.

Lemma well_behaved_str : well_behaved take_str.
Proof.
  apply well_behaved_bind; [apply well_behaved_u32|]. intros sz.
  exact (guarded_step_well_behaved sz [] (fun r => take (Z.to_nat sz) (rd_buf r)) (fun _ => Z.to_nat sz)).
Qed.

#[export] Hint Resolve well_behaved_ret well_behaved_bind well_behaved_if well_behaved_u8
  well_behaved_u32 well_behaved_u64 well_behaved_str : wire.

(** A loop of well-behaved rounds is well behaved. *)
Lemma while_well_behaved {V} (cond : V * reader -> bool) (body : V * reader -> V * reader) fuel :
  (forall v, well_behaved (fun r => body (v, r))) ->
  forall v, well_behaved (fun r => (tt, snd (while cond body fuel (v, r)))).
Proof.
  intros Hb v r. cbn [snd]. cbv zeta. revert v r.
  induction fuel as [|f IH]; intros v r; cbn [while].
  - split; [by exists []|]. auto.
  - destruct (cond (v, r)); [|split; [by exists [] | by auto]].
    specialize (Hb v r). cbv zeta in Hb. destruct (body (v, r)) as [v1 r1]. cbn [snd] in Hb.
    destruct Hb as ((p1 & Hp1) & Hs1 & He1). destruct (IH v1 r1) as ((p2 & Hp2) & Hs2 & He2).
    split; [|split].
    + exists (p1 ++ p2). by rewrite Hp1, Hp2 at 1; rewrite <- app_assoc.
    + intros Hr. pose proof (Hs1 Hr). subst r1. auto.
    + destruct He2 as [->| ->]; auto.
Qed.

Lemma well_behaved_extended : well_behaved take_extended.
Proof.
  apply well_behaved_bind; [apply well_behaved_u32|]. intros count r.
  apply while_well_behaved. intros v r'. unfold skip_pairs_body. cbn [snd fst].
  pose proof (well_behaved_bind take_str (fun _ => take_str) well_behaved_str
    (fun _ => well_behaved_str) r') as H.
  destruct ((take_str ;;; take_str) r') as [s r2]. exact H.
Qed.

(** [well_behaved] by the structure of the parser. *)
Ltac solve_well_behaved :=
  intros; unfold st_when;
  repeat match goal with
  | |- well_behaved (st_bind _ _) => apply well_behaved_bind; [|intros ?]
  | |- well_behaved (if _ then _ else _) => apply well_behaved_if
  end; auto using well_behaved_extended with wire.

Lemma well_behaved_attrs : well_behaved take_attrs.
Proof. unfold take_attrs. solve_well_behaved. Qed.
#[export] Hint Resolve well_behaved_extended well_behaved_attrs : wire.

(** A failed parser has not consumed past the point of failure and a later
    [take_*] returns its default: an error is never lost. *)
Lemma well_behaved_sticky {A} (m : ST reader A) r :
  well_behaved m -> ec_bool (rd_ec r) = true -> snd (m r) = r.
Proof. intros H. by apply H. Qed.

(** Progress: a [take_str] that does not fail consumes at least four bytes. *)
Lemma take_u32_progress r :
  ec_bool (rd_ec r) = false ->
  ec_bool (rd_ec (snd (take_u32 r))) = true \/
  (length (rd_buf (snd (take_u32 r))) + 4 = length (rd_buf r))%nat.
Proof.
  intros Hr. unfold take_u32, require_bytes. rewrite Hr. cbn [negb andb].
  destruct (Z.ltb_spec (zlen (rd_buf r)) 4); cbn [rd_ec snd].
  - by left.
  - rewrite Hr. cbn [snd rd_buf]. right. rewrite length_drop. unfold zlen in *. lia.
Qed.

Lemma take_str_progress r :
  ec_bool (rd_ec r) = false ->
  ec_bool (rd_ec (snd (take_str r))) = true \/
  (length (rd_buf (snd (take_str r))) + 4 <= length (rd_buf r))%nat.
Proof.
  intros Hr. unfold take_str, st_bind. pose proof (take_u32_progress r Hr) as Hp.
  destruct (take_u32 r) as [sz r1]. cbn [snd] in Hp.
  pose proof (guarded_step_well_behaved sz [] (fun r => take (Z.to_nat sz) (rd_buf r))
    (fun _ => Z.to_nat sz) r1) as Hw. cbv zeta beta in Hw.
  destruct Hp as [Hp|Hp].
  - left. destruct Hw as (_ & Hs & _). rewrite (Hs Hp). done.
  - right. destruct Hw as ((pre & Hpre) & _). apply (f_equal length) in Hpre.
    rewrite length_app in Hpre. cbv beta zeta. lia.
Qed.

Lemma read_measure_fuel r : (read_measure r < read_fuel r)%nat.
Proof. unfold read_measure, read_fuel. destruct (ec_bool _); lia. Qed.

Lemma read_measure_mono {A} (m : ST reader A) r :
  well_behaved m -> (read_measure (snd (m r)) <= read_measure r)%nat.
Proof.
  intros H. specialize (H r). cbv zeta in H. destruct H as ((pre & Hpre) & Hs & _).
  unfold read_measure. destruct (ec_bool (rd_ec r)) eqn:E.
  - rewrite (Hs eq_refl), E. lia.
  - apply (f_equal length) in Hpre. rewrite length_app in Hpre.
    destruct (ec_bool (rd_ec (snd (m r)))); lia.
Qed.

Lemma take_str_decreases {A} (m : ST reader A) r :
  well_behaved m -> ec_bool (rd_ec r) = false ->
  (read_measure (snd ((take_str ;;; m) r)) < read_measure r)%nat.
Proof.
  intros Hm Hr. unfold st_bind. pose proof (take_str_progress r Hr) as Hp.
  destruct (take_str r) as [s r1]. cbn [snd] in Hp.
  pose proof (read_measure_mono m r1 Hm) as H. unfold read_measure at 2 in H.
  unfold read_measure at 2. rewrite Hr. destruct Hp as [Hp|Hp].
  - rewrite Hp in H. lia.
  - destruct (ec_bool (rd_ec r1)); lia.
Qed.

Lemma skip_pairs_decreases count s :
  skip_pairs_cond count s = true ->
  (read_measure (snd (skip_pairs_body s)) < read_measure (snd s))%nat.
Proof.
  unfold skip_pairs_cond, skip_pairs_body. intros Hc.
  apply andb_prop in Hc as [Hec _]. rewrite negb_true_iff in Hec.
  pose proof (take_str_decreases take_str (snd s) well_behaved_str Hec) as H.
  by destruct ((take_str ;;; take_str) (snd s)) as [x r1].
Qed.

Lemma skip_pairs_terminates count r :
  skip_pairs_cond count
    (while (skip_pairs_cond count) skip_pairs_body (read_fuel r) (0, r)) = false.
Proof.
  apply (while_exit _ _ (fun s => read_measure (snd s))).
  - apply skip_pairs_decreases.
  - apply read_measure_fuel.
Qed.

(** Reading the declared number of pairs back. *)
Lemma takes_pair k v :
  str_wf k -> str_wf v -> takes (take_str ;;; take_str) (str_bytes k ++ str_bytes v) v.
Proof. intros Hk Hv. eapply takes_bind; by apply takes_str. Qed.

Lemma skip_pairs_takes l count i rest fuel :
  Forall (fun '(k, v) => str_wf k /\ str_wf v) l ->
  0 <= i -> i + zlen l = count -> is_u32 count -> (length l < fuel)%nat ->
  while (skip_pairs_cond count) skip_pairs_body fuel (i, Reader (pairs_bytes l ++ rest) no_error)
    = (count, Reader rest no_error).
Proof.
  intros Hl. revert i fuel. induction Hl as [|[k v] l [Hk Hv] Hl IH];
    intros i fuel Hi Hc Hu Hf; (destruct fuel as [|fuel]; [cbn in Hf; lia|]); cbn [while].
  - unfold skip_pairs_cond. cbn [fst snd rd_ec]. rewrite ec_bool_no_error. cbn [negb andb].
    autorewrite with zlen in Hc. destruct (Z.ltb_spec i count); [lia|]. cbn. f_equal. lia.
  - autorewrite with zlen in Hc. pose proof (zlen_nonneg l).
    unfold skip_pairs_cond at 1. cbn [fst snd rd_ec]. rewrite ec_bool_no_error. cbn [negb andb].
    destruct (Z.ltb_spec i count); [|lia].
    unfold skip_pairs_body at 2. cbn [fst snd].
    change (pairs_bytes ((k, v) :: l)) with ((str_bytes k ++ str_bytes v) ++ pairs_bytes l).
    rewrite <- app_assoc, takes_pair by done. unfold is_u32 in Hu.
    rewrite u32_small by (unfold is_u32; lia).
    apply IH; [lia..|done|cbn in Hf; lia].
Qed.

Lemma length_pairs_bytes l : (8 * length l <= length (pairs_bytes l))%nat.
Proof.
  induction l as [|[k v] l IH]; [cbn; lia|].
  change (pairs_bytes ((k, v) :: l)) with ((str_bytes k ++ str_bytes v) ++ pairs_bytes l).
  unfold str_bytes. rewrite !length_app, !length_be_encode. cbn [length]. lia.
Qed.

Lemma takes_extended l :
  Forall (fun '(k, v) => str_wf k /\ str_wf v) l -> is_u32 (zlen l) ->
  takes take_extended (be_encode 4 (zlen l) ++ pairs_bytes l) tt.
Proof.
  intros Hl Hu. eapply takes_bind; [by apply takes_u32|]. intros rest.
  rewrite skip_pairs_takes; [done..|lia| |].
  - done.
  - unfold read_fuel. cbn [rd_buf]. rewrite length_app. pose proof (length_pairs_bytes l). lia.
Qed.

(** ** Lemmas: what a successful parse says about its input *)

Lemma parses_u32 : parses take_u32 (be_encode 4) is_u32.
Proof.
  intros r. unfold take_u32, require_bytes. destruct (ec_bool (rd_ec r)) eqn:E; cbn [negb andb].
  - rewrite E. cbn [snd]. congruence.
  - destruct (Z.ltb_spec (zlen (rd_buf r)) 4); cbn [rd_ec]; [done|]. rewrite E.
    cbn [fst snd rd_ec rd_buf]. intros _.
    assert (Hl : length (take 4 (rd_buf r)) = 4%nat) by (rewrite length_take; unfold zlen in *; lia).
    split.
    + rewrite <- Hl at 1. by rewrite be_encode_decode, take_drop.
    + pose proof (be_decode_range (take 4 (rd_buf r))) as Hr. unfold zlen in Hr.
      rewrite Hl in Hr. done.
Qed.

Lemma parses_str : parses take_str str_bytes str_wf.
Proof.
  intros r. unfold take_str, st_bind. pose proof (parses_u32 r) as Hu.
  destruct (take_u32 r) as [sz r1]. cbn [fst snd] in Hu. cbv beta zeta.
  unfold require_bytes. destruct (ec_bool (rd_ec r1)) eqn:E; cbn [negb andb].
  - rewrite E. cbn [snd]. congruence.
  - destruct (Hu eq_refl) as [Hbuf Hsz].
    destruct (Z.ltb_spec (zlen (rd_buf r1)) sz); cbn [rd_ec]; [done|]. rewrite E.
    cbn [fst snd rd_ec rd_buf]. intros _. unfold is_u32 in Hsz.
    assert (Hl : zlen (take (Z.to_nat sz) (rd_buf r1)) = sz) by (rewrite zlen_take; lia).
    unfold str_bytes, str_wf. rewrite Hl, <- app_assoc, take_drop. done.
Qed.

(** ** Lemmas: framing *)

Lemma match_packet_frame body rest :
  zlen body < 2 ^ 32 - 4 -> match_packet (frame body ++ rest) = Some (4 + zlen body).
Proof.
  intros Hb. unfold match_packet, frame.
  destruct (Z.ltb_spec (zlen ((be_encode 4 (zlen body) ++ body) ++ rest)) 4); [zlen_lia|].
  rewrite <- app_assoc, take_app_length' by (by rewrite length_be_encode).
  pose proof (zlen_nonneg body).
  rewrite be_decode_encode, Z.mod_small by (change (8 * Z.of_nat 4) with 32; lia).
  rewrite u32_small by (unfold is_u32; lia).
  destruct (Z.leb_spec (zlen body + 4) (zlen (be_encode 4 (zlen body) ++ body ++ rest))); [|zlen_lia].
  f_equal. lia.
Qed.

(** A proper prefix of a frame does not match: the reader keeps waiting. *)
Lemma match_packet_partial body pre suf :
  zlen body < 2 ^ 32 - 4 -> frame body = pre ++ suf -> suf <> [] -> match_packet pre = None.
Proof.
  intros Hb Hf Hs. unfold match_packet. destruct (Z.ltb_spec (zlen pre) 4); [done|].
  assert (Ht : take 4 pre = be_encode 4 (zlen body)).
  { unfold zlen in *. rewrite <- (take_app_le pre suf) by lia. rewrite <- Hf. unfold frame.
    by rewrite take_app_length' by (by rewrite length_be_encode). }
  pose proof (zlen_nonneg body).
  rewrite Ht, be_decode_encode, Z.mod_small by (change (8 * Z.of_nat 4) with 32; lia).
  rewrite u32_small by (unfold is_u32; lia).
  apply (f_equal zlen) in Hf. destruct suf as [|b suf]; [done|].
  destruct (Z.leb_spec (zlen body + 4) (zlen pre)); [zlen_lia | done].
Qed.

(** A declared size in the top four values of [uint32_t] wraps [sz + 4u]
    around: the matcher reports a packet shorter than its own length field. *)
Lemma match_packet_wraps d :
  4 <= zlen d -> 2 ^ 32 - 4 <= be_decode (take 4 d) ->
  match_packet d = Some (be_decode (take 4 d) - (2 ^ 32 - 4)).
Proof.
  intros Hd Hs. unfold match_packet. destruct (Z.ltb_spec (zlen d) 4); [lia|].
  pose proof (be_decode_range (take 4 d)) as Hr. rewrite zlen_take in Hr.
  rewrite Z.min_l in Hr by lia. change (8 * Z.of_nat 4) with 32 in Hr.
  unfold u32. replace (be_decode (take 4 d) + 4)
    with (be_decode (take 4 d) - (2 ^ 32 - 4) + 1 * 2 ^ 32) by lia.
  rewrite Z.mod_add, Z.mod_small by lia.
  destruct (Z.leb_spec (be_decode (take 4 d) - (2 ^ 32 - 4)) (zlen d)); [done | lia].
Qed.

Lemma match_packet_sound d n :
  match_packet d = Some n -> be_decode (take 4 d) < 2 ^ 32 - 4 ->
  exists body rest, d = frame body ++ rest /\ n = 4 + zlen body.
Proof.
  unfold match_packet. intros H Hs. destruct (Z.ltb_spec (zlen d) 4); [done|].
  pose proof (be_decode_range (take 4 d)) as Hr.
  rewrite u32_small in H by (unfold is_u32; lia).
  destruct (Z.leb_spec (be_decode (take 4 d) + 4) (zlen d)); [|done]. injection H as <-.
  set (sz := be_decode (take 4 d)) in *.
  exists (take (Z.to_nat sz) (drop 4 d)), (drop (Z.to_nat sz) (drop 4 d)).
  assert (Hl : zlen (take (Z.to_nat sz) (drop 4 d)) = sz) by (rewrite zlen_take, zlen_drop; lia).
  split; [|lia]. unfold frame. rewrite Hl, <- app_assoc, take_drop.
  assert (H4 : length (take 4 d) = 4%nat) by (rewrite length_take; unfold zlen in *; lia).
  unfold sz. rewrite <- H4 at 1. by rewrite be_encode_decode, take_drop.
Qed.

(** ** Lemmas: printing after an error *)

Lemma require_room_error n w : ec_bool (wr_ec w) = true -> require_room n w = w.
Proof. intros H. unfold require_room. by rewrite H. Qed.

Lemma keeps_error_bind m k : keeps_error m -> keeps_error k -> keeps_error (m ;;; k).
Proof.
  intros Hm Hk w Hw. unfold st_bind. specialize (Hm w Hw). destruct (m w) as [[] w1].
  cbn [snd] in Hm. rewrite Hk; congruence.
Qed.

Lemma keeps_error_when c m : keeps_error m -> keeps_error (st_when c m).
Proof. by destruct c. Qed.

Lemma keeps_error_u8 v : keeps_error (put_u8 v).
Proof.
  intros w Hw. cbv beta zeta delta [put_u8]. rewrite require_room_error by done. by rewrite Hw.
Qed.

Lemma keeps_error_u32 v : keeps_error (put_u32 v).
Proof.
  intros w Hw. cbv beta zeta delta [put_u32]. rewrite require_room_error by done. by rewrite Hw.
Qed.

Lemma keeps_error_u64 v : keeps_error (put_u64 v).
Proof.
  intros w Hw. cbv beta zeta delta [put_u64]. rewrite require_room_error by done. by rewrite Hw.
Qed.

Lemma keeps_error_str s : keeps_error (put_str s).
Proof.
  apply keeps_error_bind; [apply keeps_error_u32|]. intros w Hw. cbv beta zeta.
  rewrite require_room_error by done. by rewrite Hw.
Qed.

#[export] Hint Resolve keeps_error_bind keeps_error_when keeps_error_u8 keeps_error_u32
  keeps_error_u64 keeps_error_str : wire.

Lemma keeps_error_attrs a : keeps_error (put_attrs a).
Proof. unfold put_attrs. auto 20 with wire. Qed.
#[export] Hint Resolve keeps_error_attrs : wire.

Lemma fill_with_error ec buf m :
  ec_bool ec = true -> keeps_error m -> snd (fill_with ec buf m) = ec.
Proof.
  intros He Hm. unfold fill_with. specialize (Hm (Writer [] buf ec) He).
  by destruct (m _) as [[] w].
Qed.

(** ** Lemmas: truncated input *)

Lemma rejects_nil {A} (m : ST reader A) : rejects m [].
Proof.
  intros pre suf H Hs. symmetry in H. by apply app_eq_nil in H as [_ ->].
Qed.

Lemma rejects_bind {A B} (m : ST reader A) (k : A -> ST reader B) b1 b2 a :
  takes m b1 a -> rejects m b1 -> rejects (k a) b2 -> (forall x, well_behaved (k x)) ->
  rejects (st_bind m k) (b1 ++ b2).
Proof.
  intros Ht Hm Hk Hw pre suf Heq Hs. unfold st_bind.
  destruct (decide (length b1 <= length pre)%nat) as [Hle|Hgt].
  - assert (Hpre : pre = b1 ++ drop (length b1) pre).
    { rewrite <- (take_drop (length b1) pre) at 1. f_equal.
      rewrite <- (take_app_le pre suf) by done. rewrite <- Heq. apply take_app_length. }
    rewrite Hpre, Ht. apply (Hk _ suf); [|done].
    rewrite Hpre, <- app_assoc in Heq. by apply app_inv_head in Heq.
  - assert (Hpre : b1 = pre ++ drop (length pre) b1).
    { rewrite <- (take_drop (length pre) b1) at 1. f_equal.
      rewrite <- (take_app_le b1 b2) by lia. rewrite Heq. apply take_app_length. }
    assert (Hne : drop (length pre) b1 <> []).
    { intros H0. apply (f_equal length) in H0. rewrite length_drop in H0. cbn in H0. lia. }
    pose proof (Hm pre _ Hpre Hne) as He. destruct (m (Reader pre no_error)) as [x r].
    cbn [snd] in He. rewrite well_behaved_sticky; [done..|]. by rewrite He.
Qed.

Lemma rejects_if {A} (c : bool) (m : ST reader A) b d :
  rejects m b -> rejects (if c then m else st_ret d) (if c then b else []).
Proof. destruct c; [done|]. intros _. apply rejects_nil. Qed.

Lemma require_bytes_short n b :
  zlen b < n -> require_bytes n (Reader b no_error) = Reader b bad_message_ec.
Proof.
  intros Hn. unfold require_bytes. cbn [rd_ec rd_buf]. rewrite ec_bool_no_error.
  cbn [negb andb]. destruct (Z.ltb_spec (zlen b) n); [done | lia].
Qed.

Lemma zlen_prefix {A} (l pre suf : list A) : l = pre ++ suf -> suf <> [] -> zlen pre < zlen l.
Proof. intros -> Hs. destruct suf; [done|]. zlen_lia. Qed.

Lemma rejects_u32 v : rejects take_u32 (be_encode 4 v).
Proof.
  intros pre suf H Hs. apply zlen_prefix in H; [|done]. autorewrite with zlen in H.
  cbv beta zeta delta [take_u32]. rewrite require_bytes_short by lia. reflexivity.
Qed.

Lemma rejects_u64 v : rejects take_u64 (be_encode 8 v).
Proof.
  intros pre suf H Hs. apply zlen_prefix in H; [|done]. autorewrite with zlen in H.
  cbv beta zeta delta [take_u64]. rewrite require_bytes_short by lia. reflexivity.
Qed.

Lemma rejects_str s : str_wf s -> rejects take_str (str_bytes s).
Proof.
  intros Hs. unfold str_bytes, take_str.
  eapply rejects_bind; [by apply takes_u32 | apply rejects_u32 | |].
  - intros pre suf H Hne. apply zlen_prefix in H; [|done]. cbv beta zeta.
    rewrite require_bytes_short by lia. reflexivity.
  - intros sz. exact (guarded_step_well_behaved sz [] (fun r => take (Z.to_nat sz) (rd_buf r))
      (fun _ => Z.to_nat sz)).
Qed.

#[export] Hint Resolve rejects_nil rejects_if rejects_u32 rejects_u64 rejects_str : wire.

Lemma takes_ids_rejects (c : bool) (u g : Z) b1 b2 (k : Z -> Z -> ST reader attributes) bs :
  is_u32 u -> is_u32 g -> b1 = be_encode 4 u -> b2 = be_encode 4 g ->
  rejects (k (if c then u else 0) (if c then g else 0)) bs ->
  (forall x y, well_behaved (k x y)) ->
  rejects (let* x := (if c then take_u32 else st_ret 0) in
           let* y := (if c then take_u32 else st_ret 0) in k x y)
          ((if c then b1 ++ b2 else []) ++ bs).
Proof.
  intros Hu Hg -> -> Hk Hw. destruct c.
  - rewrite <- app_assoc.
    eapply rejects_bind; [by apply takes_u32 | apply rejects_u32 | | by auto with wire].
    eapply rejects_bind; [by apply takes_u32 | apply rejects_u32 | exact Hk | by auto].
  - exact Hk.
Qed.

Lemma rejects_attrs a :
  attrs_wf a -> has_bit (a_flags a) SSH_FILEXFER_ATTR_EXTENDED = false ->
  rejects take_attrs (attrs_bytes a).
Proof.
  intros (Hf & Hs & Hu & Hg & Hp & Ha & Hm) Hext. unfold attrs_bytes, take_attrs.
  rewrite <- (app_nil_r (if has_bit _ SSH_FILEXFER_ATTR_ACMODTIME then _ else [])).
  assert (Hopt : forall (c : bool) v, is_u32 v ->
    takes (if c then take_u32 else st_ret 0) (if c then be_encode 4 v else [])
      (if c then v else 0)) by (intros; by apply takes_if, takes_u32).
  eapply rejects_bind; [by apply takes_u32 | by auto with wire | | by solve_well_behaved].
  eapply rejects_bind; [apply takes_if; by apply takes_u64 | by auto with wire | | by solve_well_behaved].
  apply (takes_ids_rejects _ (a_uid a) (a_gid a)); [done..| | by solve_well_behaved].
  eapply rejects_bind; [by apply Hopt | by auto with wire | | by solve_well_behaved].
  apply (takes_ids_rejects _ (a_atime a) (a_mtime a)); [done..| | by solve_well_behaved].
  rewrite Hext. apply rejects_nil.
Qed.
#[export] Hint Resolve rejects_attrs : wire.

(** ** Lemmas: what the parsers return on any input *)

Lemma take_u32_range r : is_u32 (fst (take_u32 r)).
Proof.
  unfold take_u32. destruct (ec_bool (rd_ec (require_bytes 4 r))); cbn [fst]; [done|].
  pose proof (be_decode_range (take 4 (rd_buf (require_bytes 4 r)))) as H.
  rewrite zlen_take in H. unfold is_u32. split; [lia|].
  eapply Z.lt_le_trans; [apply H|]. apply Z.pow_le_mono_r; lia.
Qed.

(** The fields of a parsed attribute value are the ones its flags announce. *)
Lemma take_attrs_on_wire r :
  attrs_on_wire (fst (take_attrs r)) = fst (take_attrs r) /\ is_u32 (a_permissions (fst (take_attrs r))).
Proof.
  unfold take_attrs, st_bind. destruct (take_u32 r) as [flags r0].
  unfold attrs_on_wire.
  repeat (match goal with |- context [has_bit flags ?k] => destruct (has_bit flags k) eqn:? end;
    cbv [st_ret st_when]);
  repeat match goal with
  | |- context [take_u64 ?r] => destruct (take_u64 r) as [? ?]
  | |- context [take_u32 ?r] =>
      pose proof (take_u32_range r); destruct (take_u32 r) as [? ?]
  | |- context [take_extended ?r] => destruct (take_extended r) as [? ?]
  end; cbn [fst a_flags a_size a_uid a_gid a_permissions a_atime a_mtime] in *;
  repeat match goal with H : has_bit _ _ = _ |- _ => rewrite H; clear H end;
  split; done.
Qed.

Lemma str_bytes_inj a b x y :
  str_wf a -> str_wf b -> str_bytes a ++ x = str_bytes b ++ y -> a = b /\ x = y.
Proof.
  intros Ha Hb H. pose proof (takes_str a Ha x) as Hx. pose proof (takes_str b Hb y) as Hy.
  rewrite H, Hy in Hx. by injection Hx.
Qed.

Lemma well_behaved_ec {A} (m : ST reader A) buf :
  well_behaved m ->
  rd_ec (snd (m (Reader buf no_error))) = no_error \/
  rd_ec (snd (m (Reader buf no_error))) = bad_message_ec.
Proof. intros H. specialize (H (Reader buf no_error)). by destruct H as (_ & _ & H). Qed.

(** A match of a size that does not wrap covers the declared size. *)
Lemma match_packet_size d n :
  match_packet d = Some n -> be_decode (take 4 d) < 2 ^ 32 - 4 ->
  n = be_decode (take 4 d) + 4 /\ n <= zlen d.
Proof.
  unfold match_packet. intros H Hs. destruct (Z.ltb_spec (zlen d) 4); [done|].
  pose proof (be_decode_range (take 4 d)).
  rewrite u32_small in H by (unfold is_u32; lia).
  destruct (Z.leb_spec (be_decode (take 4 d) + 4) (zlen d)); [|done]. by injection H as <-.
Qed.

(** ** Properties *)



(** Attributes that carry the EXTENDED flag, as a peer's reply may, do not
    round-trip: [put_attrs] reports success but writes the flag without any
    extension data, and [take_attrs] refuses the result. *)
Theorem attrs_extended_refused a buf :
  attrs_wf a -> has_bit (a_flags a) SSH_FILEXFER_ATTR_EXTENDED = true ->
  zlen buf = attrs_length a ->
  exists bs, fill buf (put_attrs a) = (bs, no_error) /\
    rd_ec (snd (take_attrs (Reader bs no_error))) = bad_message_ec.
Proof.
  intros (Hf & Hs & Hu & Hg & Hp & Ha & Hm) Hx Hb. exists (attrs_bytes a). split.
  { apply fill_puts; [apply puts_attrs | by rewrite attrs_length_bytes]. }
  rewrite <- (app_nil_r (attrs_bytes a)). unfold attrs_bytes, take_attrs.
  rewrite <- !app_assoc. unfold st_bind at 1. rewrite takes_u32 by done.
  assert (Hend : rd_ec (snd ((st_when (has_bit (a_flags a) SSH_FILEXFER_ATTR_EXTENDED)
    take_extended) (Reader [] no_error))) = bad_message_ec) by (by rewrite Hx).
  revert Hend. rewrite Hx. cbn [st_when]. intros Hend.
  repeat match goal with
  | |- context [has_bit (a_flags a) ?k] =>
      destruct (has_bit (a_flags a) k); cbn [app]; rewrite <- ?app_assoc
  end;
  unfold st_bind, st_ret;
  repeat (rewrite takes_u64 by done || rewrite takes_u32 by done);
  by destruct (take_extended (Reader [] no_error)) as [[] r].
Qed.

(** C28: Skipping extended attributes ends by the loop's own condition, for every
    input and every count a peer declares (up to 2^32 - 1 pairs): the number of
    rounds is bounded by the size of the input, not by the count. *)
Theorem extended_pairs_terminate count r fuel :
  (read_fuel r <= fuel)%nat ->
  let s := while (skip_pairs_cond count) skip_pairs_body fuel (0, r) in
  skip_pairs_cond count s = false /\
  s = while (skip_pairs_cond count) skip_pairs_body (read_fuel r) (0, r).
Proof.
  intros Hf. pose proof (read_measure_fuel r) as Hr. cbv zeta.
  assert (Hdec : forall s, skip_pairs_cond count s = true ->
    (read_measure (snd (skip_pairs_body s)) < read_measure (snd s))%nat)
    by apply skip_pairs_decreases.
  split.
  - apply (while_exit _ _ (fun s => read_measure (snd s)) Hdec). cbn [snd]. lia.
  - apply (while_fuel _ _ (fun s => read_measure (snd s)) Hdec); cbn [snd]; lia.
Qed.

(** ** Witnesses *)


Definition demo_attrs (flags : Z) : attributes :=
  Attributes flags 1 5000000000 1000 100 (lit "u") (lit "g") 420 0 11 0 0 0 0 12 0 [].


Lemma attrs_extended_refused_witness :
  exists bs, fill (replicate 4 Byte.xaa) (put_attrs (demo_attrs 2147483648)) = (bs, no_error) /\
    rd_ec (snd (take_attrs (Reader bs no_error))) = bad_message_ec.
Proof.
  apply (attrs_extended_refused (demo_attrs 2147483648)); [|by vm_compute..].
  repeat split; by vm_compute.
Defined.

Lemma extended_pairs_terminate_witness :
  let s := while (skip_pairs_cond 4294967295) skip_pairs_body 100
             (0, Reader (str_bytes (lit "k") ++ str_bytes (lit "v")) no_error) in
  skip_pairs_cond 4294967295 s = false /\
  s = while (skip_pairs_cond 4294967295) skip_pairs_body 12
        (0, Reader (str_bytes (lit "k") ++ str_bytes (lit "v")) no_error).
Proof.
  apply (extended_pairs_terminate 4294967295
    (Reader (str_bytes (lit "k") ++ str_bytes (lit "v")) no_error) 100).
  apply Nat.leb_le. by vm_compute.
Defined.
