(* ===== verification/Retry.v ===== *)
(** * Retry: the loop every libssh call of the library is wrapped in

    libssh runs in non-blocking mode: a call that cannot go on returns
    [SSH_AGAIN], [ssh_get_poll_flags] then says what the socket has to wait for,
    and the call is made again.  [do_auth_], [do_op_], [listen_forward] and
    [get_message] of [src/session.cpp], [do_open_], [get_exit_state],
    [do_some_io_] and [do_io_] of [src/channel.cpp] and [do_op_] of
    [src/message.cpp] are this loop with different verdicts on the returned value
    and different answers to poll flags that ask for nothing.

    [Transport] is what the loops use of libssh and of the socket; [retry] is
    the loop, [retry_returns] what its result means, [retry_diverges] and
    [retry_total] when it ends. *)

From S2P Require Import Prelude Libssh ErrorCode.

#[local] Open Scope Z_scope.

(** ** The world of a session *)

(** [W] is the state of the libssh session and of the socket under it.  The
    waits suspend the coroutine; they return when it is resumed. *)
Class Transport (W : Type) := {
  ssh_get_poll_flags : ST W Z;
  (** [ssh_get_error_code] of the session and of the channel *)
  session_error_code : ST W Z;
  channel_error_code : ST W Z;
  (** [socket_->wait(wait_type::read)], [socket_->wait(wait_type::write)] and the
      first component of [when_all] of the two *)
  wait_read : ST W error_code;
  wait_write : ST W error_code;
  wait_both : ST W error_code;
  (** a [corosio::timer] that expires after that many milliseconds *)
  wait_timer : Z -> ST W error_code
}.

(** ** Operations *)

Section Retry.
Context {W : Type}.

(** The chain of conditions on the poll flags. [on_read] is what the loop does
    when only reading is pending, [otherwise] its last branch. *)
Definition await_io_with `{Transport W} (on_read otherwise : ST W error_code) : ST W error_code :=
  let* r := ssh_get_poll_flags in
  if r =? SSH_READ_PENDING then on_read
  else if r =? SSH_WRITE_PENDING then wait_write
  else if r =? Z.lor SSH_READ_PENDING SSH_WRITE_PENDING then wait_both
  else otherwise.

(** With the last branch [ec = std::make_error_code(std::errc::not_connected)]. *)
Definition await_io `{Transport W} : ST W error_code :=
  await_io_with wait_read (st_ret (make_error_code not_connected)).

(** Without a last branch: [ec] stays empty. *)
Definition await_io_or_spin `{Transport W} : ST W error_code :=
  await_io_with wait_read (st_ret no_error).

Context {R A : Type} (verdict : R -> option (ST W A)) (wait : ST W error_code)
  (failed : error_code -> A) (f : ST W R).

(** One round: call [f]; [verdict] says whether the loop returns, and with
    what; else wait, and return if the wait failed. *)
Definition retry_body (w : W) : round W A :=
  let '(rc, w) := f w in
  match verdict rc with
  | Some result => let '(a, w) := result w in Return a w
  | None =>
      let '(ec, w) := wait w in
      if ec_bool ec then Return (failed ec) w else Again w
  end.

Definition retry (fuel : nat) : W -> option (A * W) := loop retry_body fuel.

(** [f] decides the loop in [w]: with the value [rc], leaving [w']. *)
Definition decided (w : W) (rc : R) (a : A) (w' : W) : Prop :=
  exists result w1, f w = (rc, w1) /\ verdict rc = Some result /\ result w1 = (a, w').

(** [f] asks for another round in [w] and the wait ends with [ec]. *)
Definition waited (w : W) (rc : R) (ec : error_code) (w' : W) : Prop :=
  exists w1, f w = (rc, w1) /\ verdict rc = None /\ wait w1 = (ec, w').

End Retry.

(** A callable that carries state of its own (captured variables) works on the
    world and that state; the transport does not touch the latter. *)
Definition lift_world {W L A} (m : ST W A) : ST (W * L) A := fun '(w, l) =>
  let '(a, w) := m w in (a, (w, l)).

#[export] Instance captured_transport {W L} `{Transport W} : Transport (W * L) := {|
  ssh_get_poll_flags := lift_world ssh_get_poll_flags;
  session_error_code := lift_world session_error_code;
  channel_error_code := lift_world channel_error_code;
  wait_read := lift_world wait_read;
  wait_write := lift_world wait_write;
  wait_both := lift_world wait_both;
  wait_timer ms := lift_world (wait_timer ms)
|}.

(** ** A scripted world

    The libssh calls return the listed values in turn and then the last of them
    again and again, the waits end with the listed errors (then without), the
    poll flags and the error code are constant. *)

Record io_script := IoScript {
  io_calls : list Z; io_flags : Z; io_waits : list error_code; io_error : Z }.

Definition next_call : ST io_script Z := fun s =>
  match io_calls s with
  | [] => (0, s)
  | [x] => (x, s)
  | x :: l => (x, IoScript l (io_flags s) (io_waits s) (io_error s))
  end.
Definition next_wait : ST io_script error_code := fun s =>
  (hd no_error (io_waits s), IoScript (io_calls s) (io_flags s) (tl (io_waits s)) (io_error s)).

#[export] Instance io_script_transport : Transport io_script := {|
  ssh_get_poll_flags s := (io_flags s, s);
  session_error_code s := (io_error s, s);
  channel_error_code s := (io_error s, s);
  wait_read := next_wait;
  wait_write := next_wait;
  wait_both := next_wait;
  wait_timer _ := next_wait
|}.

(** ** Lemmas *)

Section RetryLemmas.
Context {W R A : Type} (verdict : R -> option (ST W A)) (wait : ST W error_code)
  (failed : error_code -> A) (f : ST W R).

#[local] Abbreviation body := (retry_body verdict wait failed f).

Lemma retry_body_return w a w' :
  body w = Return a w' <->
  (exists rc, decided verdict f w rc a w') \/
  (exists rc ec, waited verdict wait f w rc ec w' /\ ec_bool ec = true /\ a = failed ec).
Proof.
  unfold retry_body, decided, waited. destruct (f w) as [rc w1] eqn:Hf.
  destruct (verdict rc) as [res|] eqn:Hv.
  - destruct (res w1) as [b w2] eqn:Hres. split.
    + intros [= -> ->]. left. eauto 8.
    + intros [(rc' & res' & w1' & [= <- <-] & Hv' & Hres')|(rc' & ec & (w1' & [= <- <-] & Hv' & _) & _)];
        congruence.
  - destruct (wait w1) as [ec w2] eqn:Hw. split.
    + destruct (ec_bool ec) eqn:He; [|done]. intros [= <- ->]. right. eauto 8.
    + intros [(rc' & res' & w1' & [= <- <-] & Hv' & _)|(rc' & ec' & (w1' & [= <- <-] & _ & Hw') & He & ->)];
        [congruence|]. rewrite Hw in Hw'. injection Hw' as -> ->. by rewrite He.
Qed.

Lemma retry_body_again w w' :
  body w = Again w' <-> exists rc ec, waited verdict wait f w rc ec w' /\ ec_bool ec = false.
Proof.
  unfold retry_body, waited. destruct (f w) as [rc w1] eqn:Hf.
  destruct (verdict rc) as [res|] eqn:Hv.
  - destruct (res w1) as [b w2]. split; [done|].
    intros (rc' & ec & (w1' & [= <- <-] & Hv' & _) & _). congruence.
  - destruct (wait w1) as [ec w2] eqn:Hw. split.
    + destruct (ec_bool ec) eqn:He; [done|]. intros [= ->]. eauto 8.
    + intros (rc' & ec' & (w1' & [= <- <-] & _ & Hw') & He).
      rewrite Hw in Hw'. injection Hw' as -> ->. by rewrite He.
Qed.

(** What a result of the loop means: after [n] rounds that asked for more and
    whose waits succeeded, the call was decided, or a wait failed. *)
Lemma retry_returns w a w' :
  returns body w a w' <->
  exists n w1, rounds body n w w1 /\
    ((exists rc, decided verdict f w1 rc a w') \/
     (exists rc ec, waited verdict wait f w1 rc ec w' /\ ec_bool ec = true /\ a = failed ec)).
Proof.
  rewrite returns_iff. split; intros (n & w1 & Hr & H); exists n, w1; split; [done| |done|];
    by apply retry_body_return.
Qed.

(** A set of states in which the call asks for more and the wait succeeds keeps
    the loop running for ever. *)
Lemma retry_diverges (I : W -> Prop) w :
  I w -> (forall w1, I w1 -> exists rc ec w2,
    waited verdict wait f w1 rc ec w2 /\ ec_bool ec = false /\ I w2) ->
  diverges body w.
Proof.
  intros Hw Hstep. apply (loop_diverges body I); [|done]. intros w1 H1.
  destruct (Hstep w1 H1) as (rc & ec & w2 & Hwait & Hec & H2).
  exists w2. split; [|done]. apply retry_body_again. eauto.
Qed.

(** A measure that every round decreases, the waits included, ends it. *)
Lemma retry_total (I : W -> Prop) (mu : W -> nat) w :
  (forall w1 rc ec w2, I w1 -> waited verdict wait f w1 rc ec w2 -> ec_bool ec = false ->
     I w2 /\ (mu w2 < mu w1)%nat) ->
  I w -> exists a w', returns body w a w'.
Proof.
  intros Hstep Hw.
  assert (forall w1 w2, I w1 -> body w1 = Again w2 -> I w2 /\ (mu w2 < mu w1)%nat) as Hbody.
  { intros w1 w2 H1 H2. apply retry_body_again in H2 as (rc & ec & Hwait & Hec). eauto. }
  destruct (loop_terminates body I mu w Hbody Hw) as (a & w' & H).
  exists a, w'. eexists. exact H.
Qed.

End RetryLemmas.

(** Two loops around the same call that stop at the same values run the same
    rounds, so they differ in the result only. *)
Lemma retry_same_rounds {W R A B} (v1 : R -> option (ST W A)) (v2 : R -> option (ST W B))
    wait fail1 fail2 (f : ST W R) n w w' :
  (forall rc, v1 rc = None <-> v2 rc = None) ->
  rounds (retry_body v1 wait fail1 f) n w w' -> rounds (retry_body v2 wait fail2 f) n w w'.
Proof.
  intros Hv. induction 1 as [w|n w w1 w2 Hb _ IH]; [constructor|].
  apply retry_body_again in Hb as (rc & ec & (w1' & Hf & Hn & Hw) & Hec).
  econstructor; [|exact IH]. apply retry_body_again.
  exists rc, ec. split; [|done]. exists w1'. split_and!; [done|by apply Hv|done].
Qed.

(** The world a captured callable sees is the transport's. *)
Lemma lift_world_eq {W L A} (m : ST W A) w (l : L) a w' :
  m w = (a, w') -> lift_world m (w, l) = (a, (w', l)).
Proof. intros H. cbn. by rewrite H. Qed.
