(* ===== verification/Options.v ===== *)
(** * Options: the typed options of a session ([include/corosh/options.hpp])

    An option is a class template over the enumerator it sets; [set_option] of
    [session] takes any class with the members [option] and [data]
    ([SshOption]).  [data] is a [const void *]; what it points to is [option_data].
    The templates are written over any enumeration [E], since
    [server_options.hpp] ([ServerOptions]) repeats them. *)

From S2P Require Import Prelude Libssh.

#[local] Open Scope Z_scope.

(** [enum ssh_options_e], as far as the header names it. *)
Inductive ssh_options_e :=
| SSH_OPTIONS_HOST | SSH_OPTIONS_PORT | SSH_OPTIONS_PORT_STR | SSH_OPTIONS_FD
| SSH_OPTIONS_BINDADDR | SSH_OPTIONS_USER | SSH_OPTIONS_SSH_DIR | SSH_OPTIONS_KNOWNHOSTS
| SSH_OPTIONS_GLOBAL_KNOWNHOSTS | SSH_OPTIONS_ADD_IDENTITY | SSH_OPTIONS_TIMEOUT
| SSH_OPTIONS_TIMEOUT_USEC | SSH_OPTIONS_LOG_VERBOSITY | SSH_OPTIONS_LOG_VERBOSITY_STR
| SSH_OPTIONS_CIPHERS_C_S | SSH_OPTIONS_CIPHERS_S_C | SSH_OPTIONS_KEY_EXCHANGE
| SSH_OPTIONS_HMAC_C_S | SSH_OPTIONS_HMAC_S_C | SSH_OPTIONS_HOSTKEYS
| SSH_OPTIONS_PUBLICKEY_ACCEPTED_TYPES | SSH_OPTIONS_COMPRESSION_C_S
| SSH_OPTIONS_COMPRESSION_S_C | SSH_OPTIONS_COMPRESSION | SSH_OPTIONS_COMPRESSION_LEVEL
| SSH_OPTIONS_STRICTHOSTKEYCHECK | SSH_OPTIONS_PROXYCOMMAND | SSH_OPTIONS_GSSAPI_SERVER_IDENTITY
| SSH_OPTIONS_GSSAPI_CLIENT_IDENTITY | SSH_OPTIONS_GSSAPI_DELEGATE_CREDENTIALS
| SSH_OPTIONS_PASSWORD_AUTH | SSH_OPTIONS_PUBKEY_AUTH | SSH_OPTIONS_KBDINT_AUTH
| SSH_OPTIONS_GSSAPI_AUTH | SSH_OPTIONS_NODELAY | SSH_OPTIONS_PROCESS_CONFIG
| SSH_OPTIONS_REKEY_DATA | SSH_OPTIONS_REKEY_TIME | SSH_OPTIONS_RSA_MIN_SIZE
| SSH_OPTIONS_IDENTITY_AGENT.

(** The integer types of the options. *)
Inductive int_type := CInt | CUnsignedInt | CLong | CUint32 | CUint64.

(** Conversion to the type ([long] has 64 bits). *)
Definition int_convert (ty : int_type) (z : Z) : Z :=
  match ty with
  | CInt => i32 z
  | CUnsignedInt | CUint32 => u32 z
  | CLong => i64 z
  | CUint64 => u64 z
  end.

(** What the pointer [data] returns points to: a C string ([None] is the null
    pointer), an integer object of a type, or a key. *)
Inductive option_data :=
| StringData (value : option bytes)
| IntData (ty : int_type) (value : Z)
| KeyData (key : pointer).

(** The requirement of [set_option] on its argument. *)
Class SshOption (E T : Type) := {
  option_of : T -> E;
  data_of : T -> option_data
}.

Section Templates.
Context {E : Type}.

Record cstring_option (Option : E) := CstringOption { cs_value_ : option bytes }.
Record integral_option (Option : E) (Int : int_type) := IntegralOption { int_value_ : Z }.
Record bool_option (Option : E) := BoolOption { bool_value_ : Z }.

Definition cstring_new {Option} (value : option bytes) : cstring_option Option :=
  CstringOption Option value.
Definition cstring_default {Option} : cstring_option Option := cstring_new (Some []).
Definition cstring_assign {Option} (o : cstring_option Option) (value : option bytes)
    : cstring_option Option := CstringOption Option value.
Definition cstring_value {Option} (o : cstring_option Option) : option bytes := cs_value_ _ o.

Definition integral_new {Option Int} (value : Z) : integral_option Option Int :=
  IntegralOption Option Int (int_convert Int value).
Definition integral_assign {Option Int} (o : integral_option Option Int) (value : Z)
    : integral_option Option Int := IntegralOption Option Int (int_convert Int value).
Definition integral_value {Option Int} (o : integral_option Option Int) : Z := int_value_ _ _ o.

(** The value is kept in an [int]. *)
Definition bool_new {Option} (value : bool) : bool_option Option :=
  BoolOption Option (if value then 1 else 0).
Definition bool_assign {Option} (o : bool_option Option) (value : bool) : bool_option Option :=
  BoolOption Option (if value then 1 else 0).
Definition bool_value {Option} (o : bool_option Option) : bool := negb (bool_value_ _ o =? 0).

#[export] Instance cstring_ssh_option (Option : E) : SshOption E (cstring_option Option) := {|
  option_of _ := Option;
  data_of o := StringData (cs_value_ _ o)
|}.
#[export] Instance integral_ssh_option (Option : E) Int : SshOption E (integral_option Option Int) := {|
  option_of _ := Option;
  data_of o := IntData Int (int_value_ _ _ o)
|}.
#[export] Instance bool_ssh_option (Option : E) : SshOption E (bool_option Option) := {|
  option_of _ := Option;
  data_of o := IntData CInt (bool_value_ _ o)
|}.

Definition unsigned_int_option (Option : E) := integral_option Option CUnsignedInt.
Definition int_option (Option : E) := integral_option Option CInt.
Definition long_option (Option : E) := integral_option Option CLong.

(** ** Lemmas *)

(** What libssh is handed is the value the program gave, when the type of the
    option can hold it. *)
Lemma integral_data {Option Int} (z : Z) :
  int_convert Int z = z ->
  data_of (integral_new (Option := Option) (Int := Int) z) = IntData Int z.
Proof. intros H. cbn. by rewrite H. Qed.

Lemma bool_value_new {Option} (b : bool) : bool_value (bool_new (Option := Option) b) = b.
Proof. by destruct b. Qed.

End Templates.

(** ** The options *)

Definition host := cstring_option SSH_OPTIONS_HOST.
Definition port := unsigned_int_option SSH_OPTIONS_PORT.
Definition port_str := cstring_option SSH_OPTIONS_PORT_STR.
Definition fd := int_option SSH_OPTIONS_FD.
Definition binaddr := cstring_option SSH_OPTIONS_BINDADDR.
Definition user := cstring_option SSH_OPTIONS_USER.
Definition ssh_dir := cstring_option SSH_OPTIONS_SSH_DIR.
Definition known_hosts := cstring_option SSH_OPTIONS_KNOWNHOSTS.
Definition global_known_hosts := cstring_option SSH_OPTIONS_GLOBAL_KNOWNHOSTS.
Definition add_identity := cstring_option SSH_OPTIONS_ADD_IDENTITY.
Definition timeout := long_option SSH_OPTIONS_TIMEOUT.
Definition timeout_usec := long_option SSH_OPTIONS_TIMEOUT_USEC.
Definition log_verbosity := int_option SSH_OPTIONS_LOG_VERBOSITY.
Definition log_verbosity_str := cstring_option SSH_OPTIONS_LOG_VERBOSITY_STR.
Definition ciphser_c_s := cstring_option SSH_OPTIONS_CIPHERS_C_S.
Definition ciphser_s_c := cstring_option SSH_OPTIONS_CIPHERS_S_C.
Definition key_exchange := cstring_option SSH_OPTIONS_KEY_EXCHANGE.
Definition hmac_c_s := cstring_option SSH_OPTIONS_HMAC_C_S.
Definition hmac_s_c := cstring_option SSH_OPTIONS_HMAC_S_C.
Definition host_keys := cstring_option SSH_OPTIONS_HOSTKEYS.
Definition public_key_accepted_types := cstring_option SSH_OPTIONS_PUBLICKEY_ACCEPTED_TYPES.
Definition compression_c_s := cstring_option SSH_OPTIONS_COMPRESSION_C_S.
Definition compression_s_c := cstring_option SSH_OPTIONS_COMPRESSION_S_C.
Definition compression := cstring_option SSH_OPTIONS_COMPRESSION.
Definition compression_level := int_option SSH_OPTIONS_COMPRESSION_LEVEL.
Definition stricthostkeycheck := bool_option SSH_OPTIONS_STRICTHOSTKEYCHECK.
Definition proxycommand := cstring_option SSH_OPTIONS_PROXYCOMMAND.
Definition gssapi_server_identity := cstring_option SSH_OPTIONS_GSSAPI_SERVER_IDENTITY.
Definition gssapi_client_identity := cstring_option SSH_OPTIONS_GSSAPI_CLIENT_IDENTITY.
Definition gssapi_delegate_credential := bool_option SSH_OPTIONS_GSSAPI_DELEGATE_CREDENTIALS.
Definition password_auth := bool_option SSH_OPTIONS_PASSWORD_AUTH.
Definition pubkey_auth := bool_option SSH_OPTIONS_PUBKEY_AUTH.
Definition kbdint_auth := bool_option SSH_OPTIONS_KBDINT_AUTH.
Definition gssapi_auth := bool_option SSH_OPTIONS_GSSAPI_AUTH.
Definition nodelay := bool_option SSH_OPTIONS_NODELAY.
Definition process_config := bool_option SSH_OPTIONS_PROCESS_CONFIG.
Definition rekey_data := integral_option SSH_OPTIONS_REKEY_DATA CUint64.
Definition rekey_time := integral_option SSH_OPTIONS_REKEY_TIME CUint32.
Definition rsa_min_size := int_option SSH_OPTIONS_RSA_MIN_SIZE.
Definition identity_agent := cstring_option SSH_OPTIONS_IDENTITY_AGENT.
