(* ===== verification/ServerOptions.v ===== *)
(** * ServerOptions: the typed options of an acceptor ([include/corosh/server_options.hpp])

    The templates of [options.hpp] over the enumeration of the bind options, and
    one more for keys. *)

From S2P Require Import Prelude Libssh Options.

#[local] Open Scope Z_scope.

(** [enum ssh_bind_options_e], as far as the header names it. *)
Inductive ssh_bind_options_e :=
| SSH_BIND_OPTIONS_BINDADDR | SSH_BIND_OPTIONS_BINDPORT | SSH_BIND_OPTIONS_BINDPORT_STR
| SSH_BIND_OPTIONS_HOSTKEY | SSH_BIND_OPTIONS_DSAKEY | SSH_BIND_OPTIONS_RSAKEY
| SSH_BIND_OPTIONS_ECDSAKEY | SSH_BIND_OPTIONS_BANNER | SSH_BIND_OPTIONS_LOG_VERBOSITY
| SSH_BIND_OPTIONS_LOG_VERBOSITY_STR | SSH_BIND_OPTIONS_IMPORT_KEY
| SSH_BIND_OPTIONS_IMPORT_KEY_STR | SSH_BIND_OPTIONS_KEY_EXCHANGE | SSH_BIND_OPTIONS_CIPHERS_C_S
| SSH_BIND_OPTIONS_CIPHERS_S_C | SSH_BIND_OPTIONS_HMAC_C_S | SSH_BIND_OPTIONS_HMAC_S_C
| SSH_BIND_OPTIONS_CONFIG_DIR | SSH_BIND_OPTIONS_PUBKEY_ACCEPTED_KEY_TYPES
| SSH_BIND_OPTIONS_HOSTKEY_ALGORITHMS | SSH_BIND_OPTIONS_PROCESS_CONFIG | SSH_BIND_OPTIONS_MODULI
| SSH_BIND_OPTIONS_RSA_MIN_SIZE.

Definition cstring_option (Option : ssh_bind_options_e) := Options.cstring_option Option.
Definition integral_option (Option : ssh_bind_options_e) (Int : int_type) :=
  Options.integral_option Option Int.
Definition bool_option (Option : ssh_bind_options_e) := Options.bool_option Option.

Definition unsigned_int_option (Option : ssh_bind_options_e) := integral_option Option CUnsignedInt.
Definition int_option (Option : ssh_bind_options_e) := integral_option Option CInt.
Definition long_option (Option : ssh_bind_options_e) := integral_option Option CLong.

Record key_option (Option : ssh_bind_options_e) := KeyOption { key_value_ : pointer }.

Definition key_new {Option} (value : pointer) : key_option Option := KeyOption Option value.
Definition key_assign {Option} (o : key_option Option) (value : pointer) : key_option Option :=
  KeyOption Option value.
Definition key_value {Option} (o : key_option Option) : pointer := key_value_ _ o.

(** The key itself is the pointer handed out. *)
#[export] Instance key_ssh_option (Option : ssh_bind_options_e) :
    SshOption ssh_bind_options_e (key_option Option) := {|
  option_of _ := Option;
  data_of o := KeyData (key_value_ _ o)
|}.

(** ** The options *)

Definition bind_addr := cstring_option SSH_BIND_OPTIONS_BINDADDR.
Definition bind_port := unsigned_int_option SSH_BIND_OPTIONS_BINDPORT.
Definition bind_port_str := cstring_option SSH_BIND_OPTIONS_BINDPORT_STR.
Definition host_key := cstring_option SSH_BIND_OPTIONS_HOSTKEY.
Definition dsa_key := cstring_option SSH_BIND_OPTIONS_DSAKEY.
Definition rsa_key := cstring_option SSH_BIND_OPTIONS_RSAKEY.
Definition ecdsa_key := cstring_option SSH_BIND_OPTIONS_ECDSAKEY.
Definition banner := cstring_option SSH_BIND_OPTIONS_BANNER.
Definition log_verbosity := int_option SSH_BIND_OPTIONS_LOG_VERBOSITY.
Definition log_verbosity_str := cstring_option SSH_BIND_OPTIONS_LOG_VERBOSITY_STR.
Definition import_key := key_option SSH_BIND_OPTIONS_IMPORT_KEY.
Definition import_key_str := cstring_option SSH_BIND_OPTIONS_IMPORT_KEY_STR.
Definition key_exchange := cstring_option SSH_BIND_OPTIONS_KEY_EXCHANGE.
Definition ciphers_c_s := cstring_option SSH_BIND_OPTIONS_CIPHERS_C_S.
Definition ciphers_s_c := cstring_option SSH_BIND_OPTIONS_CIPHERS_S_C.
Definition hmac_c_s := cstring_option SSH_BIND_OPTIONS_HMAC_C_S.
Definition hmac_s_c := cstring_option SSH_BIND_OPTIONS_HMAC_S_C.
Definition config_dir := cstring_option SSH_BIND_OPTIONS_CONFIG_DIR.
Definition pubkey_accepted_key_types := cstring_option SSH_BIND_OPTIONS_PUBKEY_ACCEPTED_KEY_TYPES.
Definition hostkey_algorithms := cstring_option SSH_BIND_OPTIONS_HOSTKEY_ALGORITHMS.
Definition process_config := bool_option SSH_BIND_OPTIONS_PROCESS_CONFIG.
Definition moduli := cstring_option SSH_BIND_OPTIONS_MODULI.
Definition rsa_min_size := int_option SSH_BIND_OPTIONS_RSA_MIN_SIZE.
