(* ===== verification/Session.v ===== *)
(** * Session: [session] of [src/session.cpp]

    [LibsshSession] names the libssh calls the class makes on its [ssh_session]
    and [Socket] the calls on its [tcp_socket]; what they answer is a parameter.
    A [const char *] is [option bytes] where the sources pass [nullptr], else
    [bytes]; [ssh_key], [ssh_channel] and [ssh_message] are opaque pointers.

    The coroutines are [loop]s with [fuel] rounds: [None] means that the coroutine
    is still running.  The callback tables are in [Callbacks].

    [do_op_outcome], [do_auth_outcome], [connect_success] and
    [get_message_outcome] say what the results mean. *)

From S2P Require Import Prelude Libssh ErrorCode Retry Options.

#[local] Open Scope Z_scope.

(** ** What the class calls *)

Class Socket (W Endpoint : Type) := {
  socket_open : ST W unit;
  socket_connect : Endpoint -> ST W error_code;
  native_handle : ST W Z
}.

Class LibsshSession (W : Type) := {
  LIBSSH_VERSION_MINOR : Z;
  ssh_get_error : ST W bytes;
  ssh_get_status : ST W Z;
  ssh_options_parse_config : option bytes -> ST W Z;
  ssh_options_set : ssh_options_e -> option_data -> ST W Z;
  ssh_set_blocking : Z -> ST W unit;
  ssh_connect : ST W Z;
  ssh_userauth_none : option bytes -> ST W Z;
  ssh_userauth_password : option bytes -> bytes -> ST W Z;
  ssh_userauth_gssapi : ST W Z;
  ssh_userauth_gssapi_keyex : ST W Z;
  ssh_userauth_try_publickey : option bytes -> pointer -> ST W Z;
  ssh_userauth_publickey : option bytes -> pointer -> ST W Z;
  ssh_userauth_agent : option bytes -> ST W Z;
  ssh_userauth_publickey_auto : option bytes -> option bytes -> ST W Z;
  ssh_userauth_kbdint : option bytes -> bytes -> ST W Z;
  (** the return value and [*value], which was null before the call *)
  ssh_userauth_publickey_auto_get_current_identity : ST W (Z * option bytes);
  (** the return value and [*bound_port] *)
  ssh_channel_listen_forward : bytes -> Z -> Z -> ST W (Z * Z);
  ssh_channel_cancel_forward : bytes -> Z -> ST W Z;
  (** timeout, then [*destination_port], [*originator] and [*originator_port] as
      they are before the call; the channel and the three after it *)
  ssh_channel_open_forward_port :
    Z -> Z -> option bytes -> Z -> ST W (pointer * (Z * option bytes * Z));
  ssh_handle_key_exchange : ST W Z;
  ssh_message_get : ST W pointer
}.

(** What a server that asks questions is answered with ([keyboard-interactive]). *)
Class LibsshKbdint (W : Type) := {
  ssh_userauth_list : option bytes -> ST W Z;
  ssh_userauth_kbdint_getinstruction : ST W (option bytes);
  ssh_userauth_kbdint_getname : ST W (option bytes);
  ssh_userauth_kbdint_getnprompts : ST W Z;
  (** the prompt and [*echo] *)
  ssh_userauth_kbdint_getprompt : Z -> ST W (option bytes * Z);
  ssh_userauth_kbdint_getnanswers : ST W Z;
  ssh_userauth_kbdint_getanswer : Z -> ST W (option bytes);
  ssh_userauth_kbdint_setanswer : Z -> bytes -> ST W Z
}.

(** [corosh::version] ([src/src/corosh.cpp]) *)
Definition version : bytes := lit "0.1.0".

(** How a function ends: it returns, or throws a [std::system_error]. *)
Inductive completion (A : Type) : Type :=
| Returned (a : A)
| Threw (code : error_code) (what : bytes).
Arguments Returned {A} a.
Arguments Threw {A} code what.

(** ** Operations *)

Section Session.
Context {W Endpoint : Type} `{Transport W, !LibsshSession W, !Socket W Endpoint}.

(** [std::error_code(ssh_get_error_code(session_.get()), ssh_category())] *)
Definition last_error : ST W error_code :=
  let* e := session_error_code in st_ret (make_ssh_error_code e).

(** The [throw std::system_error(...)] of the functions that do not suspend. *)
Definition throw_last_error {A} : ST W (completion A) :=
  let* code := last_error in
  let* what := ssh_get_error in
  st_ret (Threw code what).

Definition parse_config (filename : option bytes) : ST W (completion unit) :=
  let* rc := ssh_options_parse_config filename in
  if rc =? SSH_OK then st_ret (Returned tt) else throw_last_error.

Definition set_option {T} `{!SshOption ssh_options_e T} (opt : T) : ST W (completion unit) :=
  let* rc := ssh_options_set (option_of opt) (data_of opt) in
  if rc =? SSH_OK then st_ret (Returned tt) else throw_last_error.

Definition is_open : ST W bool :=
  let* s := ssh_get_status in
  st_ret (Z.land s (Z.lor SSH_CLOSED SSH_CLOSED_ERROR) =? 0).

Definition connect_verdict (rc : Z) : option (ST W error_code) :=
  if rc =? SSH_OK then Some (st_ret no_error)
  else if rc =? SSH_ERROR then Some last_error
  else None.

Definition connect_body : W -> round W error_code :=
  retry_body connect_verdict await_io (fun ec => ec) ssh_connect.

Definition connect (fuel : nat) (ep : Endpoint) (w : W) : option (completion error_code * W) :=
  let '(_, w) := socket_open w in
  let '(ec, w) := socket_connect ep w in
  if ec_bool ec then Some (Returned ec, w) else
  let '(fd, w) := native_handle w in
  match set_option (integral_new fd : Options.fd) w with
  | (Threw code what, w) => Some (Threw code what, w)
  | (Returned _, w) =>
      let '(_, w) := ssh_set_blocking 0 w in
      match loop connect_body fuel w with
      | Some (ec, w) => Some (Returned ec, w)
      | None => None
      end
  end.

(** [do_auth_]: the error code and the [ssh_auth_e]. *)
Definition auth_verdict (rc : Z) : option (ST W (error_code * Z)) :=
  if rc =? SSH_AUTH_AGAIN then None
  else if rc =? SSH_AUTH_ERROR then
    Some (let* ec := last_error in st_ret (ec, SSH_AUTH_ERROR))
  else Some (st_ret (no_error, rc)).

Definition auth_body (f : ST W Z) : W -> round W (error_code * Z) :=
  retry_body auth_verdict await_io (fun ec => (ec, SSH_AUTH_ERROR)) f.

Definition do_auth_ (fuel : nat) (f : ST W Z) : W -> option ((error_code * Z) * W) :=
  loop (auth_body f) fuel.

Definition userauth_none fuel := do_auth_ fuel (ssh_userauth_none None).
Definition userauth_password fuel (password : bytes) :=
  do_auth_ fuel (ssh_userauth_password None password).
Definition userauth_gssapi fuel := do_auth_ fuel ssh_userauth_gssapi.
Definition userauth_gssapi_keyex fuel (w : W) : option ((error_code * Z) * W) :=
  if 12 <=? LIBSSH_VERSION_MINOR then do_auth_ fuel ssh_userauth_gssapi_keyex w
  else Some ((make_error_code operation_not_supported, SSH_AUTH_ERROR), w).
Definition userauth_try_publickey fuel (pubkey : pointer) :=
  do_auth_ fuel (ssh_userauth_try_publickey None pubkey).
Definition userauth_publickey fuel (privkey : pointer) :=
  do_auth_ fuel (ssh_userauth_publickey None privkey).
Definition userauth_agent fuel := do_auth_ fuel (ssh_userauth_agent None).
Definition userauth_publickey_auto fuel (passphrase : option bytes) :=
  do_auth_ fuel (ssh_userauth_publickey_auto None passphrase).
Definition userauth_kbdint fuel (submethods : bytes) :=
  do_auth_ fuel (ssh_userauth_kbdint None submethods).

(** [do_op_] *)
Definition op_verdict (rc : Z) : option (ST W error_code) :=
  if rc =? SSH_OK then Some (st_ret no_error)
  else if rc =? SSH_ERROR then
    Some (let* e := session_error_code in
          st_ret (make_ssh_error_code (if e =? 0 then SSH_FATAL else e)))
  else None.

Definition op_body (f : ST W Z) : W -> round W error_code :=
  retry_body op_verdict await_io (fun ec => ec) f.

Definition do_op_ (fuel : nat) (f : ST W Z) : W -> option (error_code * W) :=
  loop (op_body f) fuel.

Definition cancel_forward fuel (address : bytes) (port : Z) :=
  do_op_ fuel (ssh_channel_cancel_forward address port).
Definition handle_key_exchange fuel := do_op_ fuel ssh_handle_key_exchange.

(** [listen_forward]: [bound_port] is a variable of the coroutine that libssh
    writes. *)
Definition listen_forward_call (address : bytes) (port : Z) : ST (W * Z) (Z * Z) :=
  fun '(w, bound_port) =>
    let '((rc, bound_port), w) := ssh_channel_listen_forward address port bound_port w in
    ((rc, bound_port), (w, bound_port)).

Definition listen_forward_verdict (r : Z * Z) : option (ST (W * Z) (error_code * Z)) :=
  let '(rc, bound_port) := r in
  if rc =? SSH_OK then Some (st_ret (no_error, bound_port))
  else if rc =? SSH_ERROR then Some (lift_world (let* ec := last_error in st_ret (ec, 0)))
  else None.

Definition listen_forward_body (address : bytes) (port : Z) : W * Z -> round (W * Z) (error_code * Z) :=
  retry_body listen_forward_verdict await_io (fun ec => (ec, 0)) (listen_forward_call address port).

Definition listen_forward (fuel : nat) (address : bytes) (port : Z) (w : W)
    : option ((error_code * Z) * (W * Z)) :=
  loop (listen_forward_body address port) fuel (w, 0).

Definition userauth_publickey_auto_get_current_identity : ST W (completion bytes) :=
  let* r := ssh_userauth_publickey_auto_get_current_identity in
  if fst r =? SSH_OK then st_ret (Returned (default [] (snd r))) else throw_last_error.

(** [open_forward_port]: [d] and [o] are the values the uninitialised locals of
    that name happen to have. *)
Record open_forward_port_result := OpenForwardPortResult {
  of_chan : option pointer; of_destination_port : Z;
  of_originator : bytes; of_originator_port : Z }.

Definition open_forward_port (d o : Z) : ST W open_forward_port_result :=
  let* r := ssh_channel_open_forward_port 0 d None o in
  let '(c, (d, ptr, o)) := r in
  st_ret (OpenForwardPortResult
    (if c =? nullptr then None else Some c) (u16 d) (default [] ptr) (u16 o)).

(** [get_message]: the error code and the [message], which is empty or wraps the
    pointer. *)
Definition get_message_verdict (res : pointer) : option (ST W (error_code * option pointer)) :=
  if res =? nullptr then None else Some (st_ret (no_error, Some res)).

Definition get_message_wait : ST W error_code :=
  await_io_with wait_read
    (let* o := is_open in
     st_ret (if o then no_error else make_error_code broken_pipe)).

Definition get_message_body : W -> round W (error_code * option pointer) :=
  retry_body get_message_verdict get_message_wait (fun ec => (ec, None)) ssh_message_get.

Definition get_message (fuel : nat) : W -> option ((error_code * option pointer) * W) :=
  loop get_message_body fuel.

End Session.

Section Kbdint.
Context {W : Type} `{!LibsshKbdint W}.

(** The [int] of libssh as the [unsigned int] the function returns. *)
Definition userauth_list : ST W Z := let* r := ssh_userauth_list None in st_ret (u32 r).
Definition userauth_kbdint_getinstruction : ST W (option bytes) := ssh_userauth_kbdint_getinstruction.
Definition userauth_kbdint_getname : ST W (option bytes) := ssh_userauth_kbdint_getname.
Definition userauth_kbdint_getnprompts : ST W Z := ssh_userauth_kbdint_getnprompts.
Definition userauth_kbdint_getprompt (i : Z) : ST W (option bytes * Z) := ssh_userauth_kbdint_getprompt i.
Definition userauth_kbdint_getnanswers : ST W Z := ssh_userauth_kbdint_getnanswers.
Definition userauth_kbdint_getanswer (i : Z) : ST W (option bytes) := ssh_userauth_kbdint_getanswer i.
Definition userauth_kbdint_setanswer (i : Z) (answer : bytes) : ST W bool :=
  let* r := ssh_userauth_kbdint_setanswer i answer in st_ret (0 <=? r).

End Kbdint.

(** ** The calls of the scripted world *)

#[export] Instance io_script_socket : Socket io_script unit := {|
  socket_open s := (tt, s);
  socket_connect _ := next_wait;
  native_handle s := (7, s)
|}.

#[export] Instance io_script_session : LibsshSession io_script := {|
  LIBSSH_VERSION_MINOR := 11;
  ssh_get_error s := ([], s);
  ssh_get_status s := (0, s);
  ssh_options_parse_config _ := next_call;
  ssh_options_set _ _ := next_call;
  ssh_set_blocking _ s := (tt, s);
  ssh_connect := next_call;
  ssh_userauth_none _ := next_call;
  ssh_userauth_password _ _ := next_call;
  ssh_userauth_gssapi := next_call;
  ssh_userauth_gssapi_keyex := next_call;
  ssh_userauth_try_publickey _ _ := next_call;
  ssh_userauth_publickey _ _ := next_call;
  ssh_userauth_agent _ := next_call;
  ssh_userauth_publickey_auto _ _ := next_call;
  ssh_userauth_kbdint _ _ := next_call;
  ssh_userauth_publickey_auto_get_current_identity := let* rc := next_call in st_ret (rc, None);
  ssh_channel_listen_forward _ _ p := let* rc := next_call in st_ret (rc, p);
  ssh_channel_cancel_forward _ _ := next_call;
  ssh_channel_open_forward_port _ d p o := let* c := next_call in st_ret (c, (d, p, o));
  ssh_handle_key_exchange := next_call;
  ssh_message_get := next_call
|}.

(** ** Lemmas *)

Section SessionLemmas.
Context {W : Type} `{Transport W, !LibsshSession W}.

Lemma op_verdict_none rc : op_verdict rc = None <-> rc <> SSH_OK /\ rc <> SSH_ERROR.
Proof. unfold op_verdict. repeat case_match; rewrite ?Z.eqb_eq, ?Z.eqb_neq in *; naive_solver. Qed.

Lemma auth_verdict_none rc : auth_verdict rc = None <-> rc = SSH_AUTH_AGAIN.
Proof. unfold auth_verdict. repeat case_match; rewrite ?Z.eqb_eq, ?Z.eqb_neq in *; naive_solver. Qed.

(** A wait on the socket: for what the poll flags ask, or an error. *)
Lemma await_io_cases w ec w' :
  await_io w = (ec, w') ->
  exists r w1, ssh_get_poll_flags w = (r, w1) /\
    (r = SSH_READ_PENDING /\ wait_read w1 = (ec, w') \/
     r = SSH_WRITE_PENDING /\ wait_write w1 = (ec, w') \/
     r = Z.lor SSH_READ_PENDING SSH_WRITE_PENDING /\ wait_both w1 = (ec, w') \/
     ec = make_error_code not_connected /\ w' = w1).
Proof.
  unfold await_io, await_io_with, st_bind. destruct (ssh_get_poll_flags w) as [r w1].
  intros Hw. exists r, w1. split; [done|].
  repeat case_match; rewrite ?Z.eqb_eq in *; subst; auto 8.
  injection Hw as <- <-. auto 8.
Qed.

Lemma ec_bool_make_ssh e : e <> 0 -> ec_bool (make_ssh_error_code e) = true.
Proof. intros He. unfold ec_bool. cbn. by destruct (Z.eqb_spec e 0). Qed.

Lemma set_option_ok {T} `{!SshOption ssh_options_e T} (opt : T) w w' :
  set_option opt w = (Returned tt, w') ->
  ssh_options_set (option_of opt) (data_of opt) w = (SSH_OK, w').
Proof.
  unfold set_option, throw_last_error, last_error, st_bind, st_ret.
  destruct (ssh_options_set _ _ w) as [rc w1]. destruct (Z.eqb_spec rc SSH_OK) as [->|]; [congruence|].
  destruct (session_error_code w1) as [e w2]. by destruct (ssh_get_error w2).
Qed.

Lemma connect_returns w ec w' :
  returns connect_body w ec w' -> ec_bool ec = false ->
  exists n w1, rounds connect_body n w w1 /\
    (ssh_connect w1 = (SSH_OK, w') \/
     exists w2, ssh_connect w1 = (SSH_ERROR, w2) /\ session_error_code w2 = (0, w')).
Proof.
  unfold connect_body at 1. rewrite retry_returns. unfold decided, waited.
  intros (n & w1 & Hr & [(rc & res & w2 & Hf & Hv & Hres)|(rc & e & _ & He & ->)]) Hec; [|congruence].
  exists n, w1. split; [exact Hr|]. unfold connect_verdict in Hv.
  destruct (Z.eqb_spec rc SSH_OK) as [->|]; [injection Hv as <-; injection Hres as <- <-; by left|].
  destruct (Z.eqb_spec rc SSH_ERROR) as [->|]; [|done]. injection Hv as <-. right. exists w2. split; [done|].
  unfold last_error, st_bind, st_ret in Hres. destruct (session_error_code w2) as [e w3].
  injection Hres as <- <-. unfold ec_bool in Hec. cbn in Hec. by destruct (Z.eqb_spec e 0) as [->|].
Qed.

End SessionLemmas.

(** ** Properties *)

Section Properties.
Context {W Endpoint : Type} `{Transport W, !LibsshSession W, !Socket W Endpoint}.

(** C25: A session operation reports success if and only if libssh's last call
    returned [SSH_OK]; a failing call is always an error (of the libssh
    category, [SSH_FATAL] where libssh names none), and otherwise the error is
    that of the wait that ended the operation. *)
Theorem do_op_outcome (f : ST W Z) w ec w' :
  returns (op_body f) w ec w' <->
  exists n w1, rounds (op_body f) n w w1 /\
    (f w1 = (SSH_OK, w') /\ ec = no_error \/
     (exists w2 e, f w1 = (SSH_ERROR, w2) /\ session_error_code w2 = (e, w') /\
        ec = make_ssh_error_code (if e =? 0 then SSH_FATAL else e) /\ ec_bool ec = true) \/
     (exists rc w2, f w1 = (rc, w2) /\ rc <> SSH_OK /\ rc <> SSH_ERROR /\
        await_io w2 = (ec, w') /\ ec_bool ec = true)).
Proof.
  unfold op_body at 1. rewrite retry_returns. unfold decided, waited.
  setoid_rewrite op_verdict_none.
  split; intros (n & w1 & Hr & Hx); exists n, w1; (split; [exact Hr|]).
  - destruct Hx as [(rc & res & w2 & Hf & Hv & Hres)|(rc & e & (w2 & Hf & Hv & Hw) & He & ->)].
    + unfold op_verdict in Hv. repeat case_match; simplify_eq; rewrite ?Z.eqb_eq in *; subst.
      * injection Hres as <- <-. auto.
      * right. left. unfold st_bind in Hres. destruct (session_error_code w2) as [e w3] eqn:Hc.
        injection Hres as <- <-. exists w2, e. split_and!; [done..|].
        destruct (Z.eqb_spec e 0) as [|Hne]; [done|]. by apply ec_bool_make_ssh.
    + right. right. destruct Hv. eauto 10.
  - destruct Hx as [[Hf ->]|[(w2 & e & Hf & Hc & -> & He)|(rc & w2 & Hf & Hok & Herr & Hw & He)]].
    + left. eexists _, _, _. split_and!; [exact Hf|reflexivity|reflexivity].
    + left. eexists _, _, _. split_and!; [exact Hf|reflexivity|]. cbn. unfold st_bind. by rewrite Hc.
    + right. exists rc, ec. split_and!; [eauto|done|done].
Qed.

(** C29: An authentication method never reports [SSH_AUTH_AGAIN]: it reports
    libssh's answer with no error, or [SSH_AUTH_ERROR] with the session's error or
    with the error of the wait that failed. *)
Theorem do_auth_outcome (f : ST W Z) w ec rc w' :
  returns (auth_body f) w (ec, rc) w' ->
  rc <> SSH_AUTH_AGAIN /\
  exists n w1, rounds (auth_body f) n w w1 /\
    (rc <> SSH_AUTH_ERROR /\ ec = no_error /\ f w1 = (rc, w') \/
     rc = SSH_AUTH_ERROR /\
       ((exists w2, f w1 = (SSH_AUTH_ERROR, w2) /\ last_error w2 = (ec, w')) \/
        (exists w2, f w1 = (SSH_AUTH_AGAIN, w2) /\ await_io w2 = (ec, w') /\ ec_bool ec = true))).
Proof.
  unfold auth_body at 1. rewrite retry_returns. unfold decided, waited.
  setoid_rewrite auth_verdict_none.
  intros (n & w1 & Hr & [(rc1 & res & w2 & Hf & Hv & Hres)|(rc1 & e & (w2 & Hf & -> & Hw) & He & [= -> ->])]).
  - unfold auth_verdict in Hv. destruct (Z.eqb_spec rc1 SSH_AUTH_AGAIN) as [|Hna]; [done|].
    destruct (Z.eqb_spec rc1 SSH_AUTH_ERROR) as [->|Hne]; injection Hv as <-.
    + unfold st_bind at 1 in Hres. destruct (last_error w2) as [e w3] eqn:Hl.
      injection Hres as -> <- ->. split; [done|]. exists n, w1. split; [exact Hr|]. eauto 8.
    + injection Hres as <- <- <-. split; [done|]. exists n, w1. split; [exact Hr|]. auto.
  - split; [done|]. exists n, w1. split; [exact Hr|]. eauto 8.
Qed.

(** C20: [connect] reports success only over an established connection: the TCP
    connect succeeded, libssh was given that socket's handle and switched to
    non-blocking before its first [ssh_connect], and its last [ssh_connect]
    returned [SSH_OK] (or failed without an error code, which the caller cannot
    tell from success). *)
Theorem connect_success fuel (ep : Endpoint) w ec w' :
  connect fuel ep w = Some (Returned ec, w') -> ec_bool ec = false ->
  exists w1 ec2 w2 fd w3 w4 w5 n w6,
    socket_open w = (tt, w1) /\ socket_connect ep w1 = (ec2, w2) /\ ec_bool ec2 = false /\
    native_handle w2 = (fd, w3) /\
    ssh_options_set SSH_OPTIONS_FD (IntData CInt (i32 fd)) w3 = (SSH_OK, w4) /\
    ssh_set_blocking 0 w4 = (tt, w5) /\ rounds connect_body n w5 w6 /\
    (ssh_connect w6 = (SSH_OK, w') \/
     exists w7, ssh_connect w6 = (SSH_ERROR, w7) /\ session_error_code w7 = (0, w')).
Proof.
  unfold connect. intros Hc Hec.
  destruct (socket_open w) as [[] w1] eqn:H1. destruct (socket_connect ep w1) as [ec2 w2] eqn:H2.
  destruct (ec_bool ec2) eqn:He2; [congruence|].
  destruct (native_handle w2) as [fd w3] eqn:H3.
  destruct (set_option _ w3) as [[[]|] w4] eqn:H4; [|done].
  apply set_option_ok in H4.
  destruct (ssh_set_blocking 0 w4) as [[] w5] eqn:H5.
  destruct (loop connect_body fuel w5) as [[e w8]|] eqn:Hl; [|done]. injection Hc as -> ->.
  assert (returns connect_body w5 ec w') as Hret by by exists fuel.
  apply connect_returns in Hret as (n & w6 & Hr & Hx); [|done].
  exists w1, ec2, w2, fd, w3, w4, w5, n, w6. by split_and!.
Qed.

(** [get_message] succeeds exactly with a message libssh hands out; it ends
    with [broken_pipe] only on a session that libssh says is closed, and any
    other error is that of a wait. *)
Theorem get_message_outcome w ec m w' :
  returns get_message_body w (ec, m) w' ->
  exists n w1, rounds get_message_body n w w1 /\
    ((exists res, m = Some res /\ res <> nullptr /\ ec = no_error /\ ssh_message_get w1 = (res, w')) \/
     m = None /\ exists w2 r w3, ssh_message_get w1 = (nullptr, w2) /\ ssh_get_poll_flags w2 = (r, w3) /\
       ec_bool ec = true /\
       (ec = make_error_code broken_pipe /\ is_open w3 = (false, w') \/
        wait_read w3 = (ec, w') \/ wait_write w3 = (ec, w') \/ wait_both w3 = (ec, w'))).
Proof.
  unfold get_message_body at 1. rewrite retry_returns. unfold decided, waited, get_message_verdict.
  intros (n & w1 & Hr & [(res & result & w2 & Hf & Hv & Hres)|(res & e & (w2 & Hf & Hv & Hw) & He & [= -> ->])]);
    exists n, w1; (split; [exact Hr|]); destruct (Z.eqb_spec res nullptr) as [->|Hne]; simplify_eq.
  - left. injection Hres as <- <- <-. eauto 8.
  - right. split; [done|]. destruct (ssh_get_poll_flags w2) as [r w3] eqn:Hp.
    exists w2, r, w3. split_and!; [done..|].
    unfold get_message_wait, await_io_with, st_bind in Hw. rewrite Hp in Hw.
    destruct (r =? SSH_READ_PENDING); [auto|]. destruct (r =? SSH_WRITE_PENDING); [auto|].
    destruct (r =? Z.lor _ _); [auto|]. destruct (is_open w3) as [o w4] eqn:Ho.
    injection Hw as <- <-. destruct o; [done|auto].
Qed.

(** When libssh has no forwarded channel to hand out and leaves its output
    arguments alone, [open_forward_port] returns whatever the uninitialised
    variables hold as the ports. *)
Theorem open_forward_port_uninitialised d o w w' :
  ssh_channel_open_forward_port 0 d None o w = ((nullptr, (d, None, o)), w') ->
  open_forward_port d o w = (OpenForwardPortResult None (u16 d) [] (u16 o), w').
Proof. intros Hc. unfold open_forward_port, st_bind. by rewrite Hc. Qed.

End Properties.

(** ** Witnesses *)

Theorem do_auth_outcome_witness :
  returns (auth_body next_call)
    (IoScript [SSH_AUTH_AGAIN; SSH_AUTH_PARTIAL] SSH_READ_PENDING [] 0)
    (no_error, SSH_AUTH_PARTIAL) (IoScript [SSH_AUTH_PARTIAL] SSH_READ_PENDING [] 0) /\
  SSH_AUTH_PARTIAL <> SSH_AUTH_AGAIN.
Proof.
  assert (returns (auth_body next_call)
    (IoScript [SSH_AUTH_AGAIN; SSH_AUTH_PARTIAL] SSH_READ_PENDING [] 0)
    (no_error, SSH_AUTH_PARTIAL) (IoScript [SSH_AUTH_PARTIAL] SSH_READ_PENDING [] 0)) as H.
  { exists 2%nat. reflexivity. }
  split; [exact H|]. exact (proj1 (do_auth_outcome _ _ _ _ _ H)).
Defined.

Theorem connect_success_witness :
  exists n w6, rounds connect_body n
      (IoScript [SSH_AGAIN; SSH_OK] SSH_WRITE_PENDING [] 0) w6.
Proof.
  assert (connect 2 tt (IoScript [SSH_OK; SSH_AGAIN; SSH_OK] SSH_WRITE_PENDING [] 0)
    = Some (Returned no_error, IoScript [SSH_OK] SSH_WRITE_PENDING [] 0)) as Hc by reflexivity.
  destruct (connect_success _ _ _ _ _ Hc eq_refl)
    as (w1 & ec2 & w2 & fd & w3 & w4 & w5 & n & w6 & H1 & H2 & _ & H3 & H4 & H5 & Hr & _).
  injection H1 as <-. injection H2 as _ <-. injection H3 as _ <-. injection H4 as <-.
  injection H5 as <-. eauto.
Defined.

Theorem get_message_outcome_witness :
  exists n w1, rounds get_message_body n (IoScript [nullptr; 5] SSH_READ_PENDING [] 0) w1 /\
    ssh_message_get w1 = (5, IoScript [5] SSH_READ_PENDING [] 0).
Proof.
  destruct (get_message_outcome (IoScript [nullptr; 5] SSH_READ_PENDING [] 0) no_error (Some 5)
    (IoScript [5] SSH_READ_PENDING [] 0)) as (n & w1 & Hr & [(res & [= <-] & _ & _ & Hm)|[[=] _]]).
  { exists 2%nat. reflexivity. }
  eauto.
Defined.

Theorem open_forward_port_uninitialised_witness :
  open_forward_port 65537 (-1) (IoScript [nullptr] 0 [] 0)
  = (OpenForwardPortResult None 1 [] 65535, IoScript [nullptr] 0 [] 0).
Proof. apply open_forward_port_uninitialised. reflexivity. Defined.
