(* ===== verification/Message.v ===== *)
(** * Message: the replies of [message] ([src/message.cpp])

    A [message] wraps an [ssh_message] libssh handed out and the session it came
    from.  Its replies are libssh calls in a loop ([Message.do_op_]) that is a
    copy of [session::do_op_]; [replies_mirror_session] says how faithful the
    copy is.  The accessors forward to one libssh call each; they are not
    coroutines and report no errors. *)

From S2P Require Import Prelude Libssh ErrorCode Retry Session.

#[local] Open Scope Z_scope.

(** The libssh calls on an [ssh_message]. *)
Class LibsshMessage (W : Type) := {
  ssh_message_reply_default : pointer -> ST W Z;
  ssh_message_auth_reply_success : pointer -> Z -> ST W Z;
  ssh_message_auth_reply_pk_ok : pointer -> pointer -> pointer -> ST W Z;
  ssh_message_auth_reply_pk_ok_simple : pointer -> ST W Z;
  ssh_message_auth_set_methods : pointer -> Z -> ST W Z;
  ssh_message_auth_interactive_request :
    pointer -> bytes -> bytes -> Z -> list bytes -> bytes -> ST W Z;
  ssh_message_service_reply_success : pointer -> ST W Z;
  ssh_message_global_request_reply_success : pointer -> Z -> ST W Z;
  ssh_message_channel_request_open_reply_accept_channel : pointer -> pointer -> ST W Z;
  ssh_message_channel_request_reply_success : pointer -> ST W Z
}.

(** The calls of the accessors; a C string may be the null pointer. *)
Class LibsshMessageGet (W : Type) := {
  ssh_message_type : pointer -> ST W Z;
  ssh_message_subtype : pointer -> ST W Z;
  ssh_message_auth_user : pointer -> ST W (option bytes);
  ssh_message_auth_kbdint_is_response : pointer -> ST W Z;
  ssh_message_service_service : pointer -> ST W (option bytes);
  ssh_message_global_request_address : pointer -> ST W (option bytes);
  ssh_message_global_request_port : pointer -> ST W Z;
  ssh_message_channel_request_open_originator : pointer -> ST W (option bytes);
  ssh_message_channel_request_open_originator_port : pointer -> ST W Z;
  ssh_message_channel_request_open_destination : pointer -> ST W (option bytes);
  ssh_message_channel_request_open_destination_port : pointer -> ST W Z;
  ssh_message_channel_request_channel : pointer -> ST W pointer;
  ssh_message_channel_request_env_name : pointer -> ST W (option bytes);
  ssh_message_channel_request_env_value : pointer -> ST W (option bytes);
  ssh_message_channel_request_command : pointer -> ST W (option bytes);
  ssh_message_channel_request_subsystem : pointer -> ST W (option bytes)
}.

(** ** Operations *)

Section Accessors.
Context {W : Type} `{!LibsshMessageGet W} (message_ : pointer).

Definition valid : bool := negb (message_ =? nullptr).
Definition type : ST W Z := ssh_message_type message_.
Definition subtype : ST W Z := ssh_message_subtype message_.
Definition auth_user : ST W (option bytes) := ssh_message_auth_user message_.
Definition auth_kbdint_is_response : ST W bool :=
  let* r := ssh_message_auth_kbdint_is_response message_ in st_ret (negb (r =? 0)).
Definition service : ST W (option bytes) := ssh_message_service_service message_.
Definition global_request_address : ST W (option bytes) := ssh_message_global_request_address message_.
Definition global_request_port : ST W Z := ssh_message_global_request_port message_.
Definition channel_request_open_originator : ST W (option bytes) :=
  ssh_message_channel_request_open_originator message_.
Definition channel_request_open_originator_port : ST W Z :=
  ssh_message_channel_request_open_originator_port message_.
Definition channel_request_open_destination : ST W (option bytes) :=
  ssh_message_channel_request_open_destination message_.
Definition channel_request_open_destination_port : ST W Z :=
  ssh_message_channel_request_open_destination_port message_.
Definition channel_request_env_name : ST W (option bytes) := ssh_message_channel_request_env_name message_.
Definition channel_request_env_value : ST W (option bytes) :=
  ssh_message_channel_request_env_value message_.
Definition channel_request_command : ST W (option bytes) := ssh_message_channel_request_command message_.
Definition channel_request_subsystem : ST W (option bytes) :=
  ssh_message_channel_request_subsystem message_.

End Accessors.

Section Message.
Context {W : Type} `{Transport W, !LibsshMessage W}.

Definition reply_verdict (rc : Z) : option (ST W error_code) :=
  if rc =? SSH_OK then Some (st_ret no_error)
  else if rc =? SSH_ERROR then
    Some (let* e := session_error_code in st_ret (make_ssh_error_code e))
  else None.

Definition reply_round (f : ST W Z) : W -> round W error_code :=
  retry_body reply_verdict await_io (fun ec => ec) f.

Definition do_op_ (fuel : nat) (f : ST W Z) : W -> option (error_code * W) :=
  loop (reply_round f) fuel.

(** [message_] is the pointer the object holds. *)
Definition reply_default fuel (message_ : pointer) :=
  do_op_ fuel (ssh_message_reply_default message_).
Definition auth_reply_success fuel (message_ : pointer) (partial : bool) :=
  do_op_ fuel (ssh_message_auth_reply_success message_ (if partial then 1 else 0)).
Definition auth_reply_pk_ok fuel (message_ algo pubkey : pointer) :=
  do_op_ fuel (ssh_message_auth_reply_pk_ok message_ algo pubkey).
Definition auth_reply_pk_ok_simple fuel (message_ : pointer) :=
  do_op_ fuel (ssh_message_auth_reply_pk_ok_simple message_).
Definition auth_set_methods (message_ : pointer) (methods : Z) : ST W Z :=
  ssh_message_auth_set_methods message_ methods.
Definition auth_interactive_request fuel (message_ : pointer) (name instruction : bytes)
    (num_prompts : Z) (prompts : list bytes) (echo : bytes) :=
  do_op_ fuel (ssh_message_auth_interactive_request message_ name instruction num_prompts prompts echo).
Definition service_reply_success fuel (message_ : pointer) :=
  do_op_ fuel (ssh_message_service_reply_success message_).
Definition global_request_reply_success fuel (message_ : pointer) (bound_port : Z) :=
  do_op_ fuel (ssh_message_global_request_reply_success message_ (u16 bound_port)).
Definition channel_request_open_reply_accept_channel fuel (message_ chan : pointer) :=
  do_op_ fuel (ssh_message_channel_request_open_reply_accept_channel message_ chan).
Definition channel_request_reply_success fuel (message_ : pointer) :=
  do_op_ fuel (ssh_message_channel_request_reply_success message_).

End Message.

(** [f] failed in [w] and libssh names no error. *)
Definition fails_silently {W} `{Transport W} (f : ST W Z) (w w' : W) : Prop :=
  exists w1, f w = (SSH_ERROR, w1) /\ session_error_code w1 = (0, w').

(** ** Lemmas *)

Section MessageLemmas.
Context {W : Type} `{Transport W}.

Lemma reply_verdict_same rc : op_verdict (W := W) rc = None <-> reply_verdict (W := W) rc = None.
Proof. unfold op_verdict, reply_verdict. by repeat case_match. Qed.

Lemma reply_verdict_cases (f : ST W Z) w rc ec w' :
  decided reply_verdict f w rc ec w' <->
  (f w = (SSH_OK, w') /\ rc = SSH_OK /\ ec = no_error) \/
  (exists w1 e, f w = (SSH_ERROR, w1) /\ rc = SSH_ERROR /\
     session_error_code w1 = (e, w') /\ ec = make_ssh_error_code e).
Proof.
  unfold decided, reply_verdict, st_bind, st_ret. split.
  - intros (res & w1 & Hf & Hv & Hres).
    destruct (Z.eqb_spec rc SSH_OK) as [->|Hok].
    { injection Hv as <-. injection Hres as <- <-. by left. }
    destruct (Z.eqb_spec rc SSH_ERROR) as [->|Herr]; [|done]. injection Hv as <-.
    destruct (session_error_code w1) as [e w2] eqn:He. injection Hres as <- <-. right. eauto 8.
  - intros [(Hf & -> & ->)|(w1 & e & Hf & -> & He & ->)].
    + eexists _, _. by split_and!.
    + eexists _, w1. split_and!; [done|reflexivity|]. cbn. unfold st_bind. by rewrite He.
Qed.

(** The two loops around one call end in the same state. *)
Lemma reply_of_op (f : ST W Z) w ec w' :
  returns (op_body f) w ec w' ->
  exists ec', returns (reply_round f) w ec' w' /\
    (ec' = ec \/ (exists n w1, rounds (op_body f) n w w1 /\ fails_silently f w1 w') /\
       ec = make_ssh_error_code SSH_FATAL /\ ec' = make_ssh_error_code 0).
Proof.
  unfold op_body, reply_round, fails_silently. rewrite retry_returns.
  intros (n & w1 & Hr & Hx).
  assert (forall a, (exists rc, decided reply_verdict f w1 rc a w') \/
    (exists rc e, waited reply_verdict await_io f w1 rc e w' /\ ec_bool e = true /\ a = e) ->
    returns (retry_body reply_verdict await_io (fun e => e) f) w a w') as Hret.
  { intros a Ha. rewrite retry_returns. exists n, w1. split; [|exact Ha].
    eapply retry_same_rounds; [exact reply_verdict_same|exact Hr]. }
  destruct Hx as [(rc & res & w2 & Hf & Hv & Hres)|(rc & e & (w2 & Hf & Hv & Hw) & He & ->)].
  - unfold op_verdict, st_bind, st_ret in Hv.
    destruct (Z.eqb_spec rc SSH_OK) as [->|Hok].
    { injection Hv as <-. injection Hres as <- <-. exists no_error. split; [|by left].
      apply Hret. left. eexists. apply reply_verdict_cases. by left. }
    destruct (Z.eqb_spec rc SSH_ERROR) as [->|Herr]; [|done]. injection Hv as <-.
    destruct (session_error_code w2) as [e w3] eqn:He. injection Hres as <- <-.
    exists (make_ssh_error_code e). split.
    + apply Hret. left. eexists. apply reply_verdict_cases. right. eauto 8.
    + destruct (Z.eqb_spec e 0) as [->|]; [right; eauto 10|by left].
  - exists e. split; [|by left]. apply Hret. right. exists rc, e. split; [|done].
    exists w2. by rewrite <- reply_verdict_same.
Qed.

End MessageLemmas.

(** ** Properties *)

Section Properties.
Context {W : Type} `{Transport W}.

(** C32: A reply behaves as [session::do_op_] around the same call does: it ends
    in the same state with the same result, but for one case.  Where libssh
    fails without an error code the session reports [SSH_FATAL], and the reply
    reports success. *)
Theorem replies_mirror_session (f : ST W Z) w ec w' :
  returns (op_body f) w ec w' ->
  exists ec', returns (reply_round f) w ec' w' /\
    (ec' = ec \/
     (exists n w1, rounds (op_body f) n w w1 /\ fails_silently f w1 w') /\
       ec = make_ssh_error_code SSH_FATAL /\ ec_bool ec' = false).
Proof.
  intros H1. destruct (reply_of_op f w ec w' H1) as (ec' & Hret & [->|(Hs & -> & ->)]); eauto 8.
Qed.

End Properties.

(** ** Witnesses *)

Theorem replies_mirror_session_witness :
  exists ec', returns (reply_round next_call) (IoScript [SSH_AGAIN; SSH_ERROR] SSH_READ_PENDING [] 0)
      ec' (IoScript [SSH_ERROR] SSH_READ_PENDING [] 0).
Proof.
  assert (returns (op_body next_call) (IoScript [SSH_AGAIN; SSH_ERROR] SSH_READ_PENDING [] 0)
    (make_ssh_error_code SSH_FATAL) (IoScript [SSH_ERROR] SSH_READ_PENDING [] 0)) as H.
  { exists 2%nat. reflexivity. }
  destruct (replies_mirror_session _ _ _ _ H) as (ec' & Hr & _). eauto.
Defined.
