(* ===== verification/Channel.v ===== *)
(** * Channel: [channel] of [src/channel.cpp] and [include/corosh/channel.hpp]

    [LibsshChannel] names the libssh calls the class makes on its [ssh_channel].
    Everything that opens a channel or requests something on it is [do_open_]
    around one of them; reading and writing are [do_some_io_] and [do_io_] around
    callables that carry the caller's buffer.  The coroutines are [loop]s with
    [fuel] rounds.

    The callback table of a channel is in [Callbacks].

    [read_some_delivers] and [get_exit_state_outcome] are what works;
    [read_some_eof_diverges], [write_all_diverges] and [whole_io_counts_nothing]
    what does not. *)

From S2P Require Import Prelude Libssh ErrorCode Retry Session.

#[local] Open Scope Z_scope.

(** The libssh calls on an [ssh_channel]. *)
Class LibsshChannel (W : Type) := {
  ssh_channel_new : ST W pointer;
  ssh_channel_set_blocking : pointer -> Z -> ST W unit;
  ssh_channel_is_open : ST W Z;
  ssh_channel_is_eof : ST W Z;
  ssh_channel_window_size : ST W Z;
  ssh_channel_open_session : ST W Z;
  ssh_channel_open_auth_agent : ST W Z;
  ssh_channel_open_forward : bytes -> Z -> bytes -> Z -> ST W Z;
  ssh_channel_open_forward_unix : bytes -> bytes -> Z -> ST W Z;
  ssh_channel_open_x11 : bytes -> Z -> ST W Z;
  ssh_channel_open_reverse_forward : bytes -> Z -> bytes -> Z -> ST W Z;
  ssh_channel_request_env : bytes -> bytes -> ST W Z;
  ssh_channel_request_exec : bytes -> ST W Z;
  ssh_channel_request_pty : ST W Z;
  ssh_channel_request_pty_size : bytes -> Z -> Z -> ST W Z;
  ssh_channel_request_pty_size_modes : bytes -> Z -> Z -> bytes -> Z -> ST W Z;
  ssh_channel_request_shell : ST W Z;
  ssh_channel_request_send_signal : bytes -> ST W Z;
  ssh_channel_request_send_break : Z -> ST W Z;
  ssh_channel_request_sftp : ST W Z;
  ssh_channel_request_subsystem : bytes -> ST W Z;
  ssh_channel_request_x11 : Z -> bytes -> bytes -> Z -> ST W Z;
  ssh_channel_request_auth_agent : ST W Z;
  ssh_channel_request_send_exit_status : Z -> ST W Z;
  ssh_channel_request_send_exit_signal : bytes -> Z -> bytes -> bytes -> ST W Z;
  ssh_channel_change_pty_size : Z -> Z -> ST W Z;
  ssh_channel_send_eof : ST W Z;
  (** [exit_code], [exit_signal] and [core_dumped] before and after the call *)
  ssh_channel_get_exit_state :
    Z * option bytes * Z -> ST W (Z * (Z * option bytes * Z));
  (** timeout and [is_stderr] *)
  ssh_channel_poll_timeout : Z -> Z -> ST W Z;
  (** count, [is_stderr] and timeout; the return value and the bytes written to
      the front of the buffer *)
  ssh_channel_read_timeout : Z -> Z -> Z -> ST W (Z * bytes);
  ssh_channel_write : bytes -> ST W Z;
  ssh_channel_write_stderr : bytes -> ST W Z
}.

Record exit_state := ExitState {
  es_exit_code : Z; es_exit_signal : bytes; es_core_dumped : bool }.

Definition no_exit_state : exit_state := ExitState 0 [] false.

(** ** Operations *)

Section Channel.
Context {W : Type} `{Transport W, !LibsshSession W, !LibsshChannel W}.

(** The constructor: the pointer the object then holds. *)
Definition new_channel : ST W (completion pointer) :=
  let* c := ssh_channel_new in
  if c =? nullptr then throw_last_error
  else ssh_channel_set_blocking c 0 ;;; st_ret (Returned c).

Definition is_open : ST W bool := let* r := ssh_channel_is_open in st_ret (negb (r =? 0)).
Definition eof : ST W bool := let* r := ssh_channel_is_eof in st_ret (negb (r =? 0)).
Definition window_size : ST W Z := ssh_channel_window_size.

(** [do_open_] *)
Definition open_verdict (rc : Z) : option (ST W error_code) :=
  if rc =? SSH_OK then Some (st_ret no_error)
  else if rc =? SSH_ERROR then
    Some (let* e := channel_error_code in st_ret (make_ssh_error_code e))
  else None.

Definition open_body (f : ST W Z) : W -> round W error_code :=
  retry_body open_verdict await_io (fun ec => ec) f.

Definition do_open_ (fuel : nat) (f : ST W Z) : W -> option (error_code * W) :=
  loop (open_body f) fuel.

Definition open_session fuel := do_open_ fuel ssh_channel_open_session.
Definition open_auth_agent fuel := do_open_ fuel ssh_channel_open_auth_agent.
Definition open_forward fuel (remotehost : bytes) (remoteport : Z) (sourcehost : bytes) (localport : Z) :=
  do_open_ fuel (ssh_channel_open_forward remotehost remoteport sourcehost localport).
Definition open_forward_unix fuel (remotepath sourcehost : bytes) (localport : Z) :=
  do_open_ fuel (ssh_channel_open_forward_unix remotepath sourcehost localport).
Definition open_x11 fuel (orig_addr : bytes) (orig_port : Z) :=
  do_open_ fuel (ssh_channel_open_x11 orig_addr orig_port).
Definition open_reverse_forward fuel (remotehost : bytes) (remoteport : Z) (sourcehost : bytes)
    (localport : Z) :=
  do_open_ fuel (ssh_channel_open_reverse_forward remotehost remoteport sourcehost localport).
Definition request_env fuel (name value : bytes) :=
  do_open_ fuel (ssh_channel_request_env name value).
Definition request_exec fuel (cmd : bytes) := do_open_ fuel (ssh_channel_request_exec cmd).
Definition request_pty fuel := do_open_ fuel ssh_channel_request_pty.
Definition request_pty_size fuel (term : bytes) (cols rows : Z) :=
  do_open_ fuel (ssh_channel_request_pty_size term cols rows).
Definition request_pty_size_modes fuel (term : bytes) (cols rows : Z) (modes : bytes) (modes_len : Z) :=
  do_open_ fuel (ssh_channel_request_pty_size_modes term cols rows modes modes_len).
Definition request_shell fuel := do_open_ fuel ssh_channel_request_shell.
Definition request_send_signal fuel (signum : bytes) :=
  do_open_ fuel (ssh_channel_request_send_signal signum).
Definition request_send_break fuel (length : Z) :=
  do_open_ fuel (ssh_channel_request_send_break length).
Definition request_sftp fuel := do_open_ fuel ssh_channel_request_sftp.
Definition request_subsystem fuel (subsystem : bytes) :=
  do_open_ fuel (ssh_channel_request_subsystem subsystem).
Definition request_x11 fuel (single_connection : Z) (protocol cookie : bytes) (screen_number : Z) :=
  do_open_ fuel (ssh_channel_request_x11 single_connection protocol cookie screen_number).
Definition request_auth_agent fuel := do_open_ fuel ssh_channel_request_auth_agent.
Definition request_send_exit_status fuel (exit_status : Z) :=
  do_open_ fuel (ssh_channel_request_send_exit_status exit_status).
Definition request_send_exit_signal fuel (signum : bytes) (core : Z) (errmsg lang : bytes) :=
  do_open_ fuel (ssh_channel_request_send_exit_signal signum core errmsg lang).
Definition change_pty_size fuel (cols rows : Z) :=
  do_open_ fuel (ssh_channel_change_pty_size cols rows).
Definition write_eof fuel := do_open_ fuel ssh_channel_send_eof.

(** [get_exit_state]: the three locals libssh writes are state of the loop. *)
Definition exit_vars : Type := Z * option bytes * Z.

Definition get_exit_state_call : ST (W * exit_vars) (Z * exit_vars) := fun '(w, vars) =>
  let '((rc, vars), w) := ssh_channel_get_exit_state vars w in
  ((rc, vars), (w, vars)).

Definition exit_state_of (vars : exit_vars) : exit_state :=
  let '(exit_code, exit_signal, core_dumped) := vars in
  ExitState exit_code (default [] exit_signal) (negb (core_dumped =? 0)).

Definition get_exit_state_verdict (r : Z * exit_vars)
    : option (ST (W * exit_vars) (error_code * exit_state)) :=
  let '(rc, vars) := r in
  if rc =? SSH_OK then Some (st_ret (no_error, exit_state_of vars))
  else if rc =? SSH_ERROR then
    Some (let* e := channel_error_code in st_ret (make_ssh_error_code e, no_exit_state))
  else None.

Definition get_exit_state_body : W * exit_vars -> round (W * exit_vars) (error_code * exit_state) :=
  retry_body get_exit_state_verdict await_io_or_spin (fun ec => (ec, no_exit_state))
    get_exit_state_call.

Definition get_exit_state (fuel : nat) (w : W) : option ((error_code * exit_state) * (W * exit_vars)) :=
  loop get_exit_state_body fuel (w, (0, None, 0)).

End Channel.

(** *** Reading and writing

    The callable's own state is part of the world [V] of the loop. *)

Section IoLoops.
Context {V : Type} `{Platform, Transport V}.

Definition some_io_verdict (rc : Z) : option (ST V (error_code * Z)) :=
  if rc =? 0 then Some (st_ret (capy_eof, 0))
  else if 0 <? rc then Some (st_ret (no_error, rc))
  else if rc =? SSH_ERROR then
    Some (let* e := channel_error_code in st_ret (make_ssh_error_code e, 0))
  else None.

Definition some_io_body (f : ST V Z) : V -> round V (error_code * Z) :=
  retry_body some_io_verdict (await_io_with (wait_timer 1) (st_ret no_error)) (fun ec => (ec, 0)) f.

Definition do_some_io_ (fuel : nat) (f : ST V Z) : V -> option ((error_code * Z) * V) :=
  loop (some_io_body f) fuel.

Definition io_verdict (rc : Z) : option (ST V (error_code * Z)) :=
  if rc =? 0 then Some (st_ret (capy_eof, 0))
  else if rc =? SSH_ERROR then
    Some (let* e := channel_error_code in st_ret (make_ssh_error_code e, 0))
  else None.

Definition io_body (f : ST V Z) : V -> round V (error_code * Z) :=
  retry_body io_verdict await_io_or_spin (fun ec => (ec, 0)) f.

Definition do_io_ (fuel : nat) (f : ST V Z) : V -> option ((error_code * Z) * V) :=
  loop (io_body f) fuel.

End IoLoops.

Section Io.
Context {W : Type} `{Platform, Transport W, !LibsshChannel W}.

Definition stderr_flag (is_stderr : bool) : Z := if is_stderr then 1 else 0.

(** The caller's memory after libssh has written [data] to its front. *)
Definition written_to (buffer data : bytes) : bytes := data ++ drop (length data) buffer.

(** The callable of [read_some]; [buffer] is the caller's memory. *)
Definition read_some_call (is_stderr : bool) : ST (W * bytes) Z := fun '(w, buffer) =>
  let '(to, w) := ssh_channel_poll_timeout 0 (stderr_flag is_stderr) w in
  if to =? 0 then (SSH_AGAIN, (w, buffer))
  else if to =? SSH_EOF then (SSH_EOF, (w, buffer))
  else
    let '((rc, data), w) :=
      ssh_channel_read_timeout (u32 (zlen buffer)) (stderr_flag is_stderr) 0 w in
    (rc, (w, written_to buffer data)).

Definition read_some (fuel : nat) (buffer : bytes) (is_stderr : bool) (w : W)
    : option ((error_code * Z) * (W * bytes)) :=
  do_some_io_ fuel (read_some_call is_stderr) (w, buffer).

(** The callable of [read]: [seen] is the part of the buffer already advanced
    over, [buffer] the rest, [m] the counter. *)
Definition read_call (is_stderr : bool) : ST (W * (bytes * bytes * Z)) Z :=
  fun '(w, (seen, buffer, m)) =>
    let '((n, data), w) :=
      ssh_channel_read_timeout (u32 (zlen buffer)) (stderr_flag is_stderr) 0 w in
    let buffer := written_to buffer data in
    if n <? 0 then (n, (w, (seen, buffer, m)))
    else
      let seen := seen ++ take (Z.to_nat n) buffer in
      let buffer := drop (Z.to_nat n) buffer in
      let m := i32 (m + n) in
      if n =? 0 then (m, (w, (seen, buffer, m)))
      else (SSH_AGAIN, (w, (seen, buffer, m))).

Definition read (fuel : nat) (buffer : bytes) (is_stderr : bool) (w : W)
    : option ((error_code * Z) * (W * bytes)) :=
  match do_io_ fuel (read_call is_stderr) (w, ([], buffer, 0)) with
  | Some (r, (w, (seen, buffer, _))) => Some (r, (w, seen ++ buffer))
  | None => None
  end.

(** What a write call is given: the length is converted to [uint32_t]. *)
Definition channel_write (is_stderr : bool) (buffer : bytes) : ST W Z :=
  let data := take (Z.to_nat (u32 (zlen buffer))) buffer in
  if is_stderr then ssh_channel_write_stderr data else ssh_channel_write data.

Definition write_some (fuel : nat) (buffer : bytes) (is_stderr : bool) (w : W)
    : option ((error_code * Z) * W) :=
  do_some_io_ fuel (channel_write is_stderr buffer) w.

(** The callable of [write]: the rest of the buffer and the counter. *)
Definition write_call (is_stderr : bool) : ST (W * (bytes * Z)) Z := fun '(w, (buffer, m)) =>
  let '(n, w) := channel_write is_stderr buffer w in
  if n <? 0 then (n, (w, (buffer, m)))
  else
    let buffer := drop (Z.to_nat n) buffer in
    let m := i32 (m + n) in
    if n =? 0 then (m, (w, (buffer, m))) else (SSH_AGAIN, (w, (buffer, m))).

Definition write (fuel : nat) (buffer : bytes) (is_stderr : bool) (w : W)
    : option ((error_code * Z) * W) :=
  match do_io_ fuel (write_call is_stderr) (w, (buffer, 0)) with
  | Some (r, (w, _)) => Some (r, w)
  | None => None
  end.

(** The overloads for a sequence of buffers. *)
Definition read_some_sequence (fuel : nat) (buffers : list bytes) (is_stderr : bool) (w : W)
    : option ((error_code * Z) * (W * list bytes)) :=
  if zlen (concat buffers) =? 0 then Some ((no_error, 0), (w, buffers))
  else match buffers with
  | [] => None
  | b :: rest =>
      match read_some fuel b is_stderr w with
      | Some (r, (w, b)) => Some (r, (w, b :: rest))
      | None => None
      end
  end.

Definition write_some_sequence (fuel : nat) (buffers : list bytes) (is_stderr : bool) (w : W)
    : option ((error_code * Z) * W) :=
  if zlen (concat buffers) =? 0 then Some ((no_error, 0), w)
  else match buffers with
  | [] => None
  | b :: _ => write_some fuel b is_stderr w
  end.

(** [if (!ec && eof()) ec = error::eof;] *)
Definition or_eof (ec : error_code) : ST W error_code :=
  if ec_bool ec then st_ret ec
  else let* e := eof in st_ret (if e then capy_eof else ec).

(** The loop over the buffers; the statement [m += n] leaves [n] as it is. *)
Fixpoint read_sequence (fuel : nat) (buffers : list bytes) (n : Z) (is_stderr : bool) (w : W)
    : option ((error_code * Z) * (W * list bytes)) :=
  match buffers with
  | [] => Some ((no_error, n), (w, []))
  | bf :: rest =>
      match read fuel bf is_stderr w with
      | None => None
      | Some ((ec, m), (w, bf)) =>
          let '(ec, w) := or_eof ec w in
          if ec_bool ec then Some ((ec, n), (w, bf :: rest))
          else match read_sequence fuel rest n is_stderr w with
               | Some (r, (w, rest)) => Some (r, (w, bf :: rest))
               | None => None
               end
      end
  end.

Fixpoint write_sequence (fuel : nat) (buffers : list bytes) (n : Z) (is_stderr : bool) (w : W)
    : option ((error_code * Z) * W) :=
  match buffers with
  | [] => Some ((no_error, n), w)
  | bf :: rest =>
      match write fuel bf is_stderr w with
      | None => None
      | Some ((ec, m), w) =>
          let '(ec, w) := or_eof ec w in
          if ec_bool ec then Some ((ec, n), w)
          else write_sequence fuel rest n is_stderr w
      end
  end.

(** [write_eof(CB)]: the buffers, then the end of file. *)
Definition write_eof_sequence (fuel : nat) (buffers : list bytes) (is_stderr : bool) (w : W)
    : option ((error_code * Z) * W) :=
  match write_sequence fuel buffers 0 is_stderr w with
  | Some ((ec, n), w) =>
      if ec_bool ec then Some ((ec, n), w)
      else match write_eof fuel w with
           | Some (ec, w) => Some ((ec, n), w)
           | None => None
           end
  | None => None
  end.

(** *** [stderr_t] *)

Definition stderr_read_some fuel (buffer : bytes) := read_some fuel buffer true.
Definition stderr_read fuel (buffer : bytes) := read fuel buffer true.
Definition stderr_write_some fuel (buffer : bytes) := write_some fuel buffer true.
Definition stderr_write fuel (buffer : bytes) := write fuel buffer true.
Definition stderr_read_some_sequence fuel (buffers : list bytes) := read_some_sequence fuel buffers true.
Definition stderr_read_sequence fuel (buffers : list bytes) := read_sequence fuel buffers 0 true.
Definition stderr_write_some_sequence fuel (buffers : list bytes) :=
  write_some_sequence fuel buffers true.
Definition stderr_write_sequence fuel (buffers : list bytes) := write_sequence fuel buffers 0 true.
Definition stderr_write_eof_sequence fuel (buffers : list bytes) :=
  write_eof_sequence fuel buffers true.

End Io.

(** ** The calls of the scripted world

    A read delivers as many zero bytes as its return value says, and a write is
    accepted as a whole. *)

#[export] Instance io_script_channel : LibsshChannel io_script := {|
  ssh_channel_new := next_call;
  ssh_channel_set_blocking _ _ s := (tt, s);
  ssh_channel_is_open s := (1, s);
  ssh_channel_is_eof s := (0, s);
  ssh_channel_window_size s := (0, s);
  ssh_channel_open_session := next_call;
  ssh_channel_open_auth_agent := next_call;
  ssh_channel_open_forward _ _ _ _ := next_call;
  ssh_channel_open_forward_unix _ _ _ := next_call;
  ssh_channel_open_x11 _ _ := next_call;
  ssh_channel_open_reverse_forward _ _ _ _ := next_call;
  ssh_channel_request_env _ _ := next_call;
  ssh_channel_request_exec _ := next_call;
  ssh_channel_request_pty := next_call;
  ssh_channel_request_pty_size _ _ _ := next_call;
  ssh_channel_request_pty_size_modes _ _ _ _ _ := next_call;
  ssh_channel_request_shell := next_call;
  ssh_channel_request_send_signal _ := next_call;
  ssh_channel_request_send_break _ := next_call;
  ssh_channel_request_sftp := next_call;
  ssh_channel_request_subsystem _ := next_call;
  ssh_channel_request_x11 _ _ _ _ := next_call;
  ssh_channel_request_auth_agent := next_call;
  ssh_channel_request_send_exit_status _ := next_call;
  ssh_channel_request_send_exit_signal _ _ _ _ := next_call;
  ssh_channel_change_pty_size _ _ := next_call;
  ssh_channel_send_eof := next_call;
  ssh_channel_get_exit_state vars := let* rc := next_call in st_ret (rc, vars);
  ssh_channel_poll_timeout _ _ := next_call;
  ssh_channel_read_timeout count _ _ :=
    let* rc := next_call in
    st_ret (Z.min rc count, replicate (Z.to_nat (Z.min rc count)) Byte.x00);
  ssh_channel_write data s := (zlen data, s);
  ssh_channel_write_stderr data s := (zlen data, s)
|}.

(** ** Lemmas *)

(** Libssh fails in [w] without naming an error. *)
Definition silent_error {V} `{Transport V} (w w' : V) : Prop := channel_error_code w = (0, w').

Section ChannelLemmas.
Context {V : Type} `{Platform, Transport V}.

(** What the result of a failing call is. *)
Lemma channel_error_result {A} (k : Z -> A) (w : V) a w' :
  (let* e := channel_error_code in st_ret (k e)) w = (a, w') ->
  exists e, channel_error_code w = (e, w') /\ a = k e.
Proof.
  unfold st_bind, st_ret. destruct (channel_error_code w) as [e w1]. intros [= <- <-]. eauto.
Qed.

Lemma make_ssh_silent e : ec_bool (make_ssh_error_code e) = false -> e = 0.
Proof. unfold ec_bool. cbn. by destruct (Z.eqb_spec e 0). Qed.

(** [do_io_] returns no byte count other than zero, and no success but for a
    silent failure. *)
Lemma io_returns (f : ST V Z) w ec n w' :
  ec_bool capy_eof = true -> returns (io_body f) w (ec, n) w' ->
  n = 0 /\ (ec_bool ec = false -> exists k w1 w2,
    rounds (io_body f) k w w1 /\ f w1 = (SSH_ERROR, w2) /\ silent_error w2 w').
Proof.
  intros Heof. unfold io_body at 1. rewrite retry_returns. unfold decided, waited.
  intros (k & w1 & Hr & [(rc & res & w2 & Hf & Hv & Hres)|(rc & e & _ & He & [= -> ->])]);
    [|split; [done|congruence]].
  unfold io_verdict in Hv. destruct (Z.eqb_spec rc 0) as [->|Hnz].
  { injection Hv as <-. injection Hres as <- <- <-. split; [done|congruence]. }
  destruct (Z.eqb_spec rc SSH_ERROR) as [->|]; [|done]. injection Hv as <-.
  apply (channel_error_result (fun e => (make_ssh_error_code e, 0))) in Hres
    as (e & He & [= -> ->]).
  split; [done|]. intros ->%make_ssh_silent. eauto 8.
Qed.

Lemma some_io_returns (f : ST V Z) w ec n w' :
  ec_bool capy_eof = true -> returns (some_io_body f) w (ec, n) w' -> ec_bool ec = false ->
  exists k w1, rounds (some_io_body f) k w w1 /\
    (0 < n /\ f w1 = (n, w') \/
     n = 0 /\ exists w2, f w1 = (SSH_ERROR, w2) /\ silent_error w2 w').
Proof.
  intros Heof. unfold some_io_body at 1. rewrite retry_returns. unfold decided, waited.
  intros (k & w1 & Hr & [(rc & res & w2 & Hf & Hv & Hres)|(rc & e & _ & He & [= -> ->])]) Hec;
    [|congruence].
  exists k, w1. split; [exact Hr|].
  unfold some_io_verdict in Hv. destruct (Z.eqb_spec rc 0) as [->|Hnz].
  { injection Hv as <-. injection Hres as <- <- <-. congruence. }
  destruct (Z.ltb_spec 0 rc) as [Hlt|Hle].
  { injection Hv as <-. injection Hres as <- <- <-. by left. }
  destruct (Z.eqb_spec rc SSH_ERROR) as [->|]; [|done]. injection Hv as <-.
  apply (channel_error_result (fun e => (make_ssh_error_code e, 0))) in Hres
    as (e & He & [= -> ->]).
  apply make_ssh_silent in Hec as ->. right. eauto.
Qed.

End ChannelLemmas.

(** The transport's waits do not see the callable's own state. *)
Lemma captured_await {W L} `{Transport W} (r o : ST W error_code) (o' : ST (W * L) error_code) w l :
  (forall w, o' (w, l) = lift_world o (w, l)) ->
  await_io_with (lift_world r) o' (w, l) = lift_world (await_io_with r o) (w, l).
Proof.
  intros Ho. unfold await_io_with, st_bind. cbn. destruct (ssh_get_poll_flags w) as [x w1].
  destruct (x =? _); [done|]. destruct (x =? _); [done|]. destruct (x =? _); [done|]. apply Ho.
Qed.

Lemma captured_await_state {W L} `{Transport W} (r : ST W error_code) w (l : L) ec v :
  await_io_with (lift_world r) (st_ret no_error) (w, l) = (ec, v) -> v.2 = l.
Proof.
  rewrite (captured_await r (st_ret no_error)) by done. cbn.
  destruct (await_io_with _ _ w). by intros [= <- <-].
Qed.

Section IoLemmas.
Context {W : Type} `{Platform, Transport W, !LibsshChannel W}.

(** What [ssh_channel_read_timeout] documents: it writes as many bytes as it
    returns, at most the count it was given. *)
Definition read_timeout_law : Prop :=
  forall count err t w rc data w',
    ssh_channel_read_timeout count err t w = ((rc, data), w') ->
    zlen data = Z.max 0 rc /\ (0 <= count -> zlen data <= count).

Lemma zlen_written_to buffer data :
  zlen data <= zlen buffer -> zlen (written_to buffer data) = zlen buffer.
Proof. unfold written_to, zlen. rewrite length_app, length_drop. lia. Qed.

Lemma read_some_call_cases is_stderr w buffer rc w' buffer' :
  read_timeout_law -> read_some_call is_stderr (w, buffer) = (rc, (w', buffer')) ->
  zlen buffer' = zlen buffer /\ (rc <= 0 -> buffer' = buffer) /\
  (0 < rc -> exists data, zlen data = rc /\ buffer' = written_to buffer data).
Proof.
  intros Hlaw. unfold read_some_call.
  destruct (ssh_channel_poll_timeout 0 _ w) as [to w1].
  destruct (to =? 0); [intros [= <- <- <-]; by split_and!|].
  destruct (to =? SSH_EOF); [intros [= <- <- <-]; by split_and!|].
  destruct (ssh_channel_read_timeout _ _ _ w1) as [[n data] w2] eqn:Hr. intros [= <- <- <-].
  destruct (Hlaw _ _ _ _ _ _ _ Hr) as [Hlen Hle].
  pose proof (u32_range (zlen buffer)) as Hu. unfold is_u32 in Hu.
  assert (zlen data <= zlen buffer) as Hd.
  { specialize (Hle ltac:(lia)). unfold u32 in Hle. pose proof (zlen_nonneg buffer).
    pose proof (Z.mod_le (zlen buffer) (2 ^ 32)). lia. }
  split_and!.
  - by apply zlen_written_to.
  - intros Hn. unfold zlen in Hlen. destruct data; [done|cbn in Hlen; lia].
  - intros Hn. exists data. split; [lia|done].
Qed.

Lemma read_some_rounds is_stderr k v v' :
  read_timeout_law -> rounds (some_io_body (read_some_call is_stderr)) k v v' -> v'.2 = v.2.
Proof.
  intros Hlaw. induction 1 as [v|k v v1 v2 Hb _ IH]; [done|]. rewrite IH. clear IH.
  apply retry_body_again in Hb as (rc & ec & ([w2 b2] & Hf & Hv & Hw) & _).
  destruct v as [w b]. apply read_some_call_cases in Hf as (_ & Hsame & _); [|done].
  assert (rc <= 0) as Hrc.
  { unfold some_io_verdict in Hv. destruct (Z.ltb_spec 0 rc); [by destruct (rc =? 0)|done]. }
  specialize (Hsame Hrc). subst b2.
  by apply captured_await_state in Hw.
Qed.

End IoLemmas.

Section Endings.
Context {W : Type} `{Platform, Transport W, !LibsshChannel W}.

(** In a state of [I] a wait succeeds and leads to a state of [I]. *)
Definition waits_succeed (wait : ST W error_code) (I : W -> Prop) : Prop :=
  forall w, I w -> exists ec w', wait w = (ec, w') /\ ec_bool ec = false /\ I w'.

Lemma captured_waits_succeed {L} (r : ST W error_code) (I : W -> Prop) w (l : L) :
  waits_succeed (await_io_with r (st_ret no_error)) I -> I w ->
  exists ec w', await_io_with (lift_world r) (st_ret no_error) (w, l) = (ec, (w', l)) /\
    ec_bool ec = false /\ I w'.
Proof.
  intros Hwait Hw. destruct (Hwait w Hw) as (ec & w' & Hec & Hok & Hw').
  exists ec, w'. split; [|done]. rewrite (captured_await r (st_ret no_error)) by done.
  cbn. by rewrite Hec.
Qed.

Lemma read_count fuel buffer is_stderr (w : W) ec n r :
  ec_bool capy_eof = true -> read fuel buffer is_stderr w = Some ((ec, n), r) -> n = 0.
Proof.
  intros Heof. unfold read, do_io_. destruct (loop _ _ _) as [[[e k] [w1 [[seen b] m]]]|] eqn:Hl; [|done].
  intros [= <- <- <-]. exact (proj1 (io_returns (read_call is_stderr) _ _ _ _ Heof (ex_intro _ fuel Hl))).
Qed.

Lemma write_count fuel buffer is_stderr (w : W) ec n r :
  ec_bool capy_eof = true -> write fuel buffer is_stderr w = Some ((ec, n), r) -> n = 0.
Proof.
  intros Heof. unfold write, do_io_. destruct (loop _ _ _) as [[[e k] [w1 l]]|] eqn:Hl; [|done].
  intros [= <- <- <-]. exact (proj1 (io_returns (write_call is_stderr) _ _ _ _ Heof (ex_intro _ fuel Hl))).
Qed.

Lemma read_sequence_count fuel buffers n is_stderr (w : W) ec m r :
  read_sequence fuel buffers n is_stderr w = Some ((ec, m), r) -> m = n.
Proof.
  revert w ec m r. induction buffers as [|b l IH]; intros w ec m r; cbn [read_sequence]; [congruence|].
  destruct (read fuel b is_stderr w) as [[[e k] [w1 b1]]|]; [|done].
  destruct (or_eof e w1) as [e2 w2]. destruct (ec_bool e2); [congruence|].
  destruct (read_sequence fuel l n is_stderr w2) as [[[e3 k3] [w3 l3]]|] eqn:Hrec; [|done].
  intros [= <- <- <-]. eapply IH, Hrec.
Qed.

Lemma write_sequence_count fuel buffers n is_stderr (w : W) ec m r :
  write_sequence fuel buffers n is_stderr w = Some ((ec, m), r) -> m = n.
Proof.
  revert w. induction buffers as [|b l IH]; intros w; cbn [write_sequence]; [congruence|].
  destruct (write fuel b is_stderr w) as [[[e k] w1]|]; [|done].
  destruct (or_eof e w1) as [e2 w2]. destruct (ec_bool e2); [congruence|]. apply IH.
Qed.

(** What the peer takes of a write, and what is left of it. *)
Lemma channel_write_all is_stderr buffer :
  zlen buffer < 2 ^ 31 ->
  take (Z.to_nat (u32 (zlen buffer))) buffer = buffer /\
  channel_write (W := W) is_stderr buffer =
    (if is_stderr then ssh_channel_write_stderr buffer else ssh_channel_write buffer).
Proof.
  intros Hlt. pose proof (zlen_nonneg buffer).
  assert (take (Z.to_nat (u32 (zlen buffer))) buffer = buffer) as Htake.
  { rewrite u32_small by (unfold is_u32; lia). apply take_ge. unfold zlen. lia. }
  split; [done|]. unfold channel_write. by rewrite Htake.
Qed.

End Endings.

(** ** Properties *)

Section Properties.
Context {W : Type} `{Platform, Transport W, !LibsshChannel W}.


(** At the end of the stream [read_some] does not return: while libssh keeps
    answering the poll with [SSH_EOF] and the waits succeed, [SSH_EOF] is taken
    for "try again". *)
Theorem read_some_eof_diverges (I : W -> Prop) buffer (is_stderr : bool) (w : W) :
  (forall w : W, I w -> exists w' : W, ssh_channel_poll_timeout 0 (stderr_flag is_stderr) w = (SSH_EOF, w') /\ I w') ->
  waits_succeed (await_io_with (wait_timer 1) (st_ret no_error)) I -> I w ->
  forall fuel, read_some fuel buffer is_stderr w = None.
Proof.
  intros Hpoll Hwait Hw.
  apply (retry_diverges some_io_verdict _ _ (read_some_call is_stderr)
    (fun v => I v.1 /\ v.2 = buffer) (w, buffer)); [done|].
  intros [w1 b1] [H1 Hb]. cbn in H1, Hb. subst b1.
  destruct (Hpoll w1 H1) as (w2 & Hp & H2).
  destruct (captured_waits_succeed (wait_timer 1) I w2 buffer Hwait H2) as (ec & w3 & Hec & Hok & H3).
  exists SSH_EOF, ec, (w3, buffer). split_and!; [|done..].
  exists (w2, buffer). split_and!; [|done..]. unfold read_some_call. by rewrite Hp.
Qed.

(** C39: A [write] whose whole buffer libssh accepts does not return while the
    waits succeed: neither the call that takes the bytes nor the one that finds
    nothing left to write ends the loop of [do_io_]. *)
Theorem write_all_diverges (I : W -> Prop) buffer (is_stderr : bool) (w : W) :
  0 < zlen buffer < 2 ^ 31 ->
  (forall (w : W) data, I w -> exists w' : W,
     (if is_stderr then ssh_channel_write_stderr data else ssh_channel_write data) w
     = (zlen data, w') /\ I w') ->
  waits_succeed await_io_or_spin I -> I w ->
  forall fuel, write fuel buffer is_stderr w = None.
Proof.
  intros Hlen Htakes Hwait Hw fuel. unfold write, do_io_.
  assert (diverges (io_body (write_call is_stderr)) (w, (buffer, 0))) as Hdiv; [|by rewrite Hdiv].
  apply (retry_diverges io_verdict _ _ (write_call is_stderr)
    (fun v : W * (bytes * Z) => I v.1 /\ (v.2 = (buffer, 0) \/ v.2 = ([], zlen buffer)))); [by auto|].
  intros [w1 [b1 m1]] [H1 Hb]. cbn in H1, Hb.
  assert (zlen b1 < 2 ^ 31) as Hsmall by (destruct Hb as [[= -> ->]|[= -> ->]]; [lia|done]).
  destruct (Htakes w1 b1 H1) as (w2 & Ht & H2).
  destruct (captured_waits_succeed wait_read I w2 ([] : bytes, zlen buffer) Hwait H2)
    as (ec & w3 & Hec & Hok & H3).
  assert (exists rc, write_call is_stderr (w1, (b1, m1)) = (rc, (w2, ([], zlen buffer))) /\
    io_verdict (V := W * (bytes * Z)) rc = None) as (rc & Hcall & Hv).
  { unfold write_call. destruct (channel_write_all is_stderr b1 Hsmall) as [_ ->]. rewrite Ht.
    destruct Hb as [[= -> ->]|[= -> ->]].
    - destruct (Z.ltb_spec (zlen buffer) 0); [lia|]. destruct (Z.eqb_spec (zlen buffer) 0); [lia|].
      exists SSH_AGAIN. rewrite drop_ge by (unfold zlen; lia). rewrite i32_small by lia.
      by rewrite Z.add_0_l.
    - exists (zlen buffer). cbn. rewrite Z.add_0_r, i32_small by lia. split; [done|].
      unfold io_verdict, SSH_ERROR. destruct (Z.eqb_spec (zlen buffer) 0); [lia|].
      by destruct (Z.eqb_spec (zlen buffer) (-1)); [lia|]. }
  exists rc, ec, (w3, ([], zlen buffer)). split_and!; [|done|done|by right].
  exists (w2, ([], zlen buffer)). by split_and!.
Qed.

(** C40: Reading or writing as a whole never reports a byte: whatever libssh
    does, [read], [write] and their overloads for several buffers return the
    count zero (the one from the loop of [do_io_], the other because the
    counts are added in the wrong direction). *)
Theorem whole_io_counts_nothing fuel is_stderr (w : W) :
  ec_bool capy_eof = true ->
  (forall buffer ec n r, read fuel buffer is_stderr w = Some ((ec, n), r) -> n = 0) /\
  (forall buffer ec n r, write fuel buffer is_stderr w = Some ((ec, n), r) -> n = 0) /\
  (forall buffers ec n r, read_sequence fuel buffers 0 is_stderr w = Some ((ec, n), r) -> n = 0) /\
  (forall buffers ec n r, write_eof_sequence fuel buffers is_stderr w = Some ((ec, n), r) -> n = 0).
Proof.
  intros Heof. split_and!; intros bs ec n r Hio.
  - by eapply read_count.
  - by eapply write_count.
  - by eapply read_sequence_count.
  - unfold write_eof_sequence in Hio.
    destruct (write_sequence fuel bs 0 is_stderr w) as [[[e k] w1]|] eqn:Hs; [|done].
    apply write_sequence_count in Hs as ->. destruct (ec_bool e); [congruence|].
    destruct (write_eof fuel w1) as [[e2 w2]|]; congruence.
Qed.

(** [get_exit_state] reports a state only when libssh has one: the code, the
    signal and the core flag are those libssh wrote in its last call, which
    returned [SSH_OK]; the one other success is a failure without an error
    code, which reports an empty state. *)
Theorem get_exit_state_outcome fuel (w : W) ec es w' vars :
  get_exit_state fuel w = Some ((ec, es), (w', vars)) -> ec_bool ec = false ->
  exists k w1 vars1, rounds get_exit_state_body k (w, (0, None, 0)) (w1, vars1) /\
    (ssh_channel_get_exit_state vars1 w1 = ((SSH_OK, vars), w') /\ es = exit_state_of vars \/
     es = no_exit_state /\ exists w2,
       ssh_channel_get_exit_state vars1 w1 = ((SSH_ERROR, vars), w2) /\
       channel_error_code w2 = (0, w')).
Proof.
  intros Hrun Hec. assert (returns get_exit_state_body (w, (0, None, 0)) (ec, es) (w', vars)) as Hret
    by by exists fuel.
  unfold get_exit_state_body in Hret. rewrite retry_returns in Hret. unfold decided, waited in Hret.
  destruct Hret as (k & [w1 vars1] & Hr & [([rc v] & res & [w2 v2] & Hf & Hv & Hres)|(rc & e & _ & He & [= -> ->])]);
    [|congruence].
  exists k, w1, vars1. split; [exact Hr|]. unfold get_exit_state_call in Hf.
  destruct (ssh_channel_get_exit_state vars1 w1) as [[rc1 v1] w3] eqn:Hcall. simplify_eq.
  unfold get_exit_state_verdict in Hv. destruct (Z.eqb_spec rc SSH_OK) as [->|Hne].
  { injection Hv as <-. injection Hres as <- <- <- <-. by left. }
  destruct (Z.eqb_spec rc SSH_ERROR) as [->|]; [|done]. injection Hv as <-.
  destruct (@channel_error_result (W * exit_vars) captured_transport _
    (fun e => (make_ssh_error_code e, no_exit_state)) _ _ _ Hres) as (e & He & [= -> ->]).
  apply make_ssh_silent in Hec as ->. right. split; [done|]. exists w2.
  cbn in He. destruct (channel_error_code w2) as [e2 w3]. by injection He as -> -> ->.
Qed.

End Properties.

(** ** Witnesses *)

#[local] Existing Instance linux_platform.

Lemma io_script_read_law : read_timeout_law (W := io_script).
Proof.
  intros count err t s rc data s'. cbn. unfold st_bind. destruct (next_call s) as [x s1].
  intros [= <- <- <-]. rewrite zlen_replicate. lia.
Qed.


Theorem read_some_eof_diverges_witness :
  read_some 1000 [Byte.x01] false (IoScript [SSH_EOF] SSH_READ_PENDING [] 0) = None.
Proof.
  apply (read_some_eof_diverges (fun s => s = IoScript [SSH_EOF] SSH_READ_PENDING [] 0));
    [|intros s ->|done].
  - intros s ->. eexists. by split.
  - eexists _, _. by split_and!.
Defined.

Theorem write_all_diverges_witness :
  write 1000 [Byte.x01] true (IoScript [] SSH_WRITE_PENDING [] 0) = None.
Proof.
  apply (write_all_diverges (fun s => s = IoScript [] SSH_WRITE_PENDING [] 0));
    [done| |intros s ->|done].
  - intros s data ->. eexists. by split.
  - eexists _, _. by split_and!.
Defined.

Theorem whole_io_counts_nothing_witness :
  read_sequence 1 [[Byte.x01]; [Byte.x02]] 0 false (IoScript [0] 0 [] 0)
    = Some ((capy_eof, 0), (IoScript [0] 0 [] 0, [[Byte.x01]; [Byte.x02]])) /\
  (forall buffer ec n r, read 5 buffer false (IoScript [0] 0 [] 0) = Some ((ec, n), r) -> n = 0).
Proof.
  split; [reflexivity|]. assert (ec_bool capy_eof = true) as He by reflexivity.
  exact (proj1 (whole_io_counts_nothing 5 false (IoScript [0] 0 [] 0) He)).
Defined.

Theorem get_exit_state_outcome_witness :
  exists k w1 vars1, rounds get_exit_state_body k
      (IoScript [SSH_AGAIN; SSH_OK] SSH_READ_PENDING [] 0, (0, None, 0)) (w1, vars1).
Proof.
  assert (get_exit_state 2 (IoScript [SSH_AGAIN; SSH_OK] SSH_READ_PENDING [] 0)
    = Some ((no_error, no_exit_state), (IoScript [SSH_OK] SSH_READ_PENDING [] 0, (0, None, 0))))
    as Hrun by reflexivity.
  destruct (get_exit_state_outcome _ _ _ _ _ _ Hrun eq_refl) as (k & w1 & v1 & Hr & _). eauto.
Defined.
