(* ===== verification/Acceptor.v ===== *)
(** * Acceptor: [acceptor] of [src/acceptor.cpp] and [include/corosh/acceptor.hpp]

    The listening side: an [ssh_bind] and a TCP acceptor.  [LibsshBind] names
    the calls on the two; [accept_hands_over] says what a successful [accept]
    has done to the session it is given. *)

From S2P Require Import Prelude Libssh ErrorCode Retry Options ServerOptions Session.

#[local] Open Scope Z_scope.

(** The address of an endpoint, as [to_string] prints it. *)
Inductive ip_address :=
| V4 (text : bytes)
| V6 (text : bytes)
| OtherAddress.

Record endpoint := Endpoint { ep_address : ip_address; ep_port : Z }.

Class LibsshBind (W : Type) := {
  ssh_bind_options_set : ssh_bind_options_e -> option_data -> ST W Z;
  (** [ssh_get_error_code] and [ssh_get_error] of the [ssh_bind] *)
  bind_error_code : ST W Z;
  bind_error : ST W bytes;
  (** the TCP acceptor; [acceptor_accept] fills the session's socket *)
  acceptor_bind : endpoint -> ST W error_code;
  acceptor_listen : ST W error_code;
  acceptor_accept : ST W error_code;
  (** on the session's [ssh_session] and the socket's handle *)
  ssh_bind_accept_fd : Z -> ST W Z
}.

(** ** Operations *)

Section Acceptor.
Context {W Endpoint : Type} `{!LibsshBind W, !LibsshSession W, !Socket W Endpoint}.

Definition bind_set_option {T} `{!SshOption ssh_bind_options_e T} (opt : T) : ST W (completion unit) :=
  let* rc := ssh_bind_options_set (option_of opt) (data_of opt) in
  if rc =? SSH_OK then st_ret (Returned tt)
  else
    let* e := bind_error_code in
    let* what := bind_error in
    st_ret (Threw (make_ssh_error_code e) what).

Definition address_text (ep : endpoint) : bytes :=
  match ep_address ep with
  | V4 text => text
  | V6 text => text
  | OtherAddress => []
  end.

Definition bind (ep : endpoint) : ST W (completion error_code) :=
  let* r := bind_set_option (cstring_new (Some (address_text ep)) : bind_addr) in
  match r with
  | Threw code what => st_ret (Threw code what)
  | Returned _ =>
      let* r := bind_set_option (integral_new (ep_port ep) : bind_port) in
      match r with
      | Threw code what => st_ret (Threw code what)
      | Returned _ => let* ec := acceptor_bind ep in st_ret (Returned ec)
      end
  end.

Definition listen : ST W error_code := acceptor_listen.

Definition accept : ST W error_code :=
  let* ec := acceptor_accept in
  if ec_bool ec then st_ret ec
  else
    let* fd := native_handle in
    let* rc := ssh_bind_accept_fd fd in
    let* ec :=
      if rc =? 0 then st_ret ec
      else let* e := bind_error_code in st_ret (make_ssh_error_code e) in
    ssh_set_blocking 0 ;;; st_ret ec.

End Acceptor.

(** ** Lemmas *)

Section AcceptorLemmas.
Context {W Endpoint : Type} `{!LibsshBind W, !LibsshSession W, !Socket W Endpoint}.

(** A successful [accept] took a connection, handed its socket to libssh and
    made the session non-blocking, in that order; the one exception is a
    hand-over that fails without an error code. *)
Lemma accept_hands_over (w : W) ec w' :
  accept w = (ec, w') -> ec_bool ec = false ->
  exists ec1 w1 fd w2 rc w3 w4,
    acceptor_accept w = (ec1, w1) /\ ec_bool ec1 = false /\ native_handle w1 = (fd, w2) /\
    ssh_bind_accept_fd fd w2 = (rc, w3) /\ (rc = 0 /\ w4 = w3 \/ bind_error_code w3 = (0, w4)) /\
    ssh_set_blocking 0 w4 = (tt, w').
Proof.
  unfold accept, st_bind, st_ret. intros Ha Hec.
  destruct (acceptor_accept w) as [ec1 w1] eqn:H1.
  destruct (ec_bool ec1) eqn:He1; [congruence|].
  destruct (native_handle w1) as [fd w2] eqn:H2.
  destruct (ssh_bind_accept_fd fd w2) as [rc w3] eqn:H3.
  destruct (Z.eqb_spec rc 0) as [->|Hrc].
  - destruct (ssh_set_blocking 0 w3) as [[] w4] eqn:H4. injection Ha as <- <-.
    exists ec1, w1, fd, w2, 0, w3, w3. split_and!; auto.
  - destruct (bind_error_code w3) as [e w4] eqn:H5.
    destruct (ssh_set_blocking 0 w4) as [[] w5] eqn:H4. injection Ha as <- <-.
    unfold ec_bool in Hec. cbn in Hec. destruct (Z.eqb_spec e 0) as [->|]; [|done].
    exists ec1, w1, fd, w2, rc, w3, w4. split_and!; auto.
Qed.

(** [bind] binds the acceptor only after libssh has taken both options. *)
Lemma bind_sets_options ep (w : W) ec w' :
  bind ep w = (Returned ec, w') ->
  exists w1 w2,
    ssh_bind_options_set SSH_BIND_OPTIONS_BINDADDR (StringData (Some (address_text ep))) w = (SSH_OK, w1) /\
    ssh_bind_options_set SSH_BIND_OPTIONS_BINDPORT (IntData CUnsignedInt (u32 (ep_port ep))) w1
      = (SSH_OK, w2) /\ acceptor_bind ep w2 = (ec, w').
Proof.
  unfold bind, bind_set_option, st_bind, st_ret. cbn [option_of data_of cstring_ssh_option integral_ssh_option].
  destruct (ssh_bind_options_set _ _ w) as [rc w1] eqn:H1.
  destruct (Z.eqb_spec rc SSH_OK) as [->|];
    [|by destruct (bind_error_code w1) as [e w2]; destruct (bind_error w2)].
  destruct (ssh_bind_options_set _ _ w1) as [rc w2] eqn:H2.
  destruct (Z.eqb_spec rc SSH_OK) as [->|];
    [|by destruct (bind_error_code w2) as [e w3]; destruct (bind_error w3)].
  destruct (acceptor_bind ep w2) as [ec1 w3] eqn:H3. intros [= <- <-]. eauto.
Qed.

End AcceptorLemmas.
