(* ===== verification/Callbacks.v ===== *)
(** * Callbacks: the tables of function pointers given to libssh

    [session::server_callbacks], [session::client_callbacks]
    ([src/session.cpp] 433-661) and [channel::callbacks] ([src/channel.cpp]
    523-662) are classes with virtual functions; their constructors fill a C
    struct [impl_] with functions that call them.  A class is the record of its
    virtual functions ([*_handlers], over the state [W] of the program), the struct
    a record of optional functions ([None] is a null pointer).

    The structs are members without initialisers: [impl0] is what they hold
    before the constructor runs, and [ssh_callbacks_init], a macro of libssh, a
    parameter. *)

From S2P Require Import Prelude Libssh ErrorCode Retry Session.

#[local] Open Scope Z_scope.

(** ** [session::server_callbacks] *)

Record server_handlers (W : Type) := ServerHandlers {
  auth_password : bytes -> bytes -> ST W Z;
  auth_none : bytes -> ST W Z;
  auth_pubkey : bytes -> pointer -> Z -> ST W Z;
  auth_gssapi_mic : bytes -> bytes -> ST W Z;
  service_request : bytes -> ST W bool;
  channel_open_request_session : ST W pointer;
  gssapi_select_oid : bytes -> Z -> pointer -> ST W pointer;
  gssapi_accept_sec_ctx : bytes -> pointer -> ST W Z;
  gssapi_verify_mic : bytes -> bytes -> ST W Z
}.
Arguments ServerHandlers {W}.
Arguments auth_password {W}.
Arguments auth_none {W}.
Arguments auth_pubkey {W}.
Arguments auth_gssapi_mic {W}.
Arguments service_request {W}.
Arguments channel_open_request_session {W}.
Arguments gssapi_select_oid {W}.
Arguments gssapi_accept_sec_ctx {W}.
Arguments gssapi_verify_mic {W}.

(** The function pointers of [ssh_server_callbacks_struct] the class uses. *)
Record server_table (W : Type) := ServerTable {
  auth_password_function : option (bytes -> bytes -> ST W Z);
  auth_none_function : option (bytes -> ST W Z);
  auth_pubkey_function : option (bytes -> pointer -> Z -> ST W Z);
  auth_gssapi_mic_function : option (bytes -> bytes -> ST W Z);
  service_request_function : option (bytes -> ST W Z);
  channel_open_request_session_function : option (ST W pointer);
  gssapi_select_oid_function : option (bytes -> Z -> pointer -> ST W pointer);
  gssapi_accept_sec_ctx_function : option (option bytes -> pointer -> ST W Z);
  gssapi_verify_mic_function : option (option bytes -> bytes -> ST W Z)
}.
Arguments ServerTable {W}.
Arguments gssapi_select_oid_function {W}.
Arguments gssapi_accept_sec_ctx_function {W}.
Arguments gssapi_verify_mic_function {W}.
Arguments auth_password_function {W}.
Arguments auth_none_function {W}.
Arguments auth_pubkey_function {W}.
Arguments auth_gssapi_mic_function {W}.
Arguments service_request_function {W}.
Arguments channel_open_request_session_function {W}.

(** [session::client_callbacks] *)
Record client_handlers (W : Type) := ClientHandlers {
  (** the prompt, the buffer, [echo] and [verify]; the answer is written to the
      buffer *)
  auth : bytes -> bytes -> bool -> bool -> ST W (bool * bytes);
  channel_open_request_x11 : bytes -> Z -> ST W pointer;
  channel_open_request_auth_agent : ST W pointer;
  channel_open_request_forwarded_tcpip : bytes -> Z -> bytes -> Z -> ST W pointer
}.
Arguments ClientHandlers {W}.
Arguments auth {W}.
Arguments channel_open_request_x11 {W}.
Arguments channel_open_request_auth_agent {W}.
Arguments channel_open_request_forwarded_tcpip {W}.

Record client_table (W : Type) := ClientTable {
  auth_function : option (bytes -> bytes -> Z -> Z -> ST W (Z * bytes));
  log_function : option pointer;
  connect_status_function : option pointer;
  global_request_function : option pointer;
  channel_open_request_x11_function : option (bytes -> Z -> ST W pointer);
  channel_open_request_auth_agent_function : option (ST W pointer);
  channel_open_request_forwarded_tcpip_function : option (bytes -> Z -> bytes -> Z -> ST W pointer)
}.
Arguments ClientTable {W}.
Arguments log_function {W}.
Arguments connect_status_function {W}.
Arguments global_request_function {W}.

(** [channel::callbacks] *)
Record channel_handlers (W : Type) := ChannelHandlers {
  signal : bytes -> ST W unit;
  exit_status : Z -> ST W unit;
  exit_signal : bytes -> Z -> bytes -> bytes -> ST W unit;
  x11_req : Z -> bytes -> bytes -> Z -> ST W unit;
  close : ST W unit;
  pty_request : bytes -> Z -> Z -> Z -> Z -> ST W bool;
  pty_window_change : Z -> Z -> Z -> Z -> ST W bool;
  shell_request : ST W bool;
  exec_request : bytes -> ST W bool;
  env_request : bytes -> bytes -> ST W bool;
  subsystem_request : bytes -> ST W bool
}.
Arguments ChannelHandlers {W}.
Arguments signal {W}.
Arguments exit_status {W}.
Arguments exit_signal {W}.
Arguments x11_req {W}.
Arguments close {W}.
Arguments pty_request {W}.
Arguments pty_window_change {W}.
Arguments shell_request {W}.
Arguments exec_request {W}.
Arguments env_request {W}.
Arguments subsystem_request {W}.

(** The constructor sets every pointer of [ssh_channel_callbacks_struct] the
    class uses, so here they are not optional. *)
Record channel_table (W : Type) := ChannelTable {
  channel_signal_function : bytes -> ST W unit;
  channel_exit_status_function : Z -> ST W unit;
  channel_exit_signal_function : bytes -> Z -> bytes -> bytes -> ST W unit;
  channel_x11_req_function : Z -> bytes -> bytes -> Z -> ST W unit;
  channel_close_function : ST W unit;
  channel_pty_request_function : bytes -> Z -> Z -> Z -> Z -> ST W Z;
  channel_pty_window_change_function : Z -> Z -> Z -> Z -> ST W Z;
  channel_shell_request_function : ST W Z;
  channel_exec_request_function : bytes -> ST W Z;
  channel_env_request_function : bytes -> bytes -> ST W Z;
  channel_subsystem_request_function : bytes -> ST W Z
}.
Arguments ChannelTable {W}.
Arguments channel_pty_request_function {W}.
Arguments channel_pty_window_change_function {W}.
Arguments channel_shell_request_function {W}.
Arguments channel_exec_request_function {W}.
Arguments channel_env_request_function {W}.
Arguments channel_subsystem_request_function {W}.

(** ** Operations *)

Section Callbacks.
Context {W : Type}.

(** [... ? 0 : -1] *)
Definition accepted (m : ST W bool) : ST W Z := let* b := m in st_ret (if b then 0 else -1).

(** The virtual functions of the base class. *)
Definition default_server_handlers : server_handlers W := {|
  auth_password _ _ := st_ret SSH_AUTH_DENIED;
  auth_none _ := st_ret SSH_AUTH_DENIED;
  auth_pubkey _ _ _ := st_ret SSH_AUTH_DENIED;
  auth_gssapi_mic _ _ := st_ret SSH_AUTH_DENIED;
  service_request _ := st_ret false;
  channel_open_request_session := st_ret nullptr;
  gssapi_select_oid _ _ _ := st_ret nullptr;
  gssapi_accept_sec_ctx _ _ := st_ret SSH_ERROR;
  gssapi_verify_mic _ _ := st_ret SSH_ERROR
|}.

(** The constructor; [h] are the virtual functions of the object. *)
Definition server_callbacks (init : server_table W -> server_table W) (impl0 : server_table W)
    (h : server_handlers W) : server_table W :=
  let impl := init impl0 in
  {| auth_password_function := Some (auth_password h);
     auth_none_function := Some (auth_none h);
     auth_pubkey_function := Some (auth_pubkey h);
     auth_gssapi_mic_function := Some (auth_gssapi_mic h);
     service_request_function := Some (fun service => accepted (service_request h service));
     channel_open_request_session_function := Some (channel_open_request_session h);
     gssapi_select_oid_function := gssapi_select_oid_function impl;
     gssapi_accept_sec_ctx_function := gssapi_accept_sec_ctx_function impl;
     gssapi_verify_mic_function := gssapi_verify_mic_function impl |}.

(** A null [ssh_string] becomes an empty view. *)
Definition enable_gssapi (h : server_handlers W) (impl : server_table W) : server_table W :=
  {| auth_password_function := auth_password_function impl;
     auth_none_function := auth_none_function impl;
     auth_pubkey_function := auth_pubkey_function impl;
     auth_gssapi_mic_function := auth_gssapi_mic_function impl;
     service_request_function := service_request_function impl;
     channel_open_request_session_function := channel_open_request_session_function impl;
     gssapi_select_oid_function := Some (gssapi_select_oid h);
     gssapi_accept_sec_ctx_function :=
       Some (fun input_token output_token =>
               gssapi_accept_sec_ctx h (default [] input_token) output_token);
     gssapi_verify_mic_function :=
       Some (fun mic mic_buffer => gssapi_verify_mic h (default [] mic) mic_buffer) |}.

Definition disable_gssapi (impl : server_table W) : server_table W :=
  {| auth_password_function := auth_password_function impl;
     auth_none_function := auth_none_function impl;
     auth_pubkey_function := auth_pubkey_function impl;
     auth_gssapi_mic_function := auth_gssapi_mic_function impl;
     service_request_function := service_request_function impl;
     channel_open_request_session_function := channel_open_request_session_function impl;
     gssapi_select_oid_function := None;
     gssapi_accept_sec_ctx_function := None;
     gssapi_verify_mic_function := None |}.

(** [~server_callbacks] *)
Definition destroy_server_callbacks (impl : server_table W) : server_table W :=
  ServerTable None None None None None None None None None.

Definition default_client_handlers : client_handlers W := {|
  auth _ buf _ _ := st_ret (false, buf);
  channel_open_request_x11 _ _ := st_ret nullptr;
  channel_open_request_auth_agent := st_ret nullptr;
  channel_open_request_forwarded_tcpip _ _ _ _ := st_ret nullptr
|}.

Definition client_callbacks (init : client_table W -> client_table W) (impl0 : client_table W)
    (h : client_handlers W) : client_table W :=
  let impl := init impl0 in
  {| auth_function := Some (fun prompt buf echo verify =>
       let* r := auth h prompt buf (negb (echo =? 0)) (negb (verify =? 0)) in
       st_ret (if fst r then 0 else -1, snd r));
     log_function := log_function impl;
     connect_status_function := connect_status_function impl;
     global_request_function := global_request_function impl;
     channel_open_request_x11_function := Some (channel_open_request_x11 h);
     channel_open_request_auth_agent_function := Some (channel_open_request_auth_agent h);
     channel_open_request_forwarded_tcpip_function := Some (channel_open_request_forwarded_tcpip h) |}.

(** [~client_callbacks] *)
Definition destroy_client_callbacks (impl : client_table W) : client_table W :=
  ClientTable None None None None None None None.

Definition default_channel_handlers : channel_handlers W := {|
  signal _ := st_ret tt;
  exit_status _ := st_ret tt;
  exit_signal _ _ _ _ := st_ret tt;
  x11_req _ _ _ _ := st_ret tt;
  close := st_ret tt;
  pty_request _ _ _ _ _ := st_ret false;
  pty_window_change _ _ _ _ := st_ret false;
  shell_request := st_ret false;
  exec_request _ := st_ret false;
  env_request _ _ := st_ret false;
  subsystem_request _ := st_ret false
|}.

Definition channel_callbacks (h : channel_handlers W) : channel_table W := {|
  channel_signal_function := signal h;
  channel_exit_status_function := exit_status h;
  channel_exit_signal_function := exit_signal h;
  channel_x11_req_function := x11_req h;
  channel_close_function := close h;
  channel_pty_request_function term width height pxwidth pwheight :=
    accepted (pty_request h term width height pxwidth pwheight);
  channel_pty_window_change_function width height pxwidth pwheight :=
    accepted (pty_window_change h width height pxwidth pwheight);
  channel_shell_request_function := accepted (shell_request h);
  channel_exec_request_function exec := accepted (exec_request h exec);
  channel_env_request_function env_name env_value := accepted (env_request h env_name env_value);
  channel_subsystem_request_function subsystem := accepted (subsystem_request h subsystem)
|}.

(** *** Installing *)

Context `{Transport W, !LibsshSession W}.

(** [set] is the libssh call on the new table; the unique pointer that keeps the
    old one alive is replaced when it succeeds. *)
Definition install_server_callbacks (set : server_table W -> ST W Z) (cb : server_table W)
    (old : option (server_table W)) : ST W (completion unit * option (server_table W)) :=
  let* rc := set cb in
  if rc =? SSH_OK then st_ret (Returned tt, Some cb)
  else let* r := throw_last_error in st_ret (r, old).

Definition install_client_callbacks (set : client_table W -> ST W Z) (cb : client_table W)
    (old : option (client_table W)) : ST W (completion unit * option (client_table W)) :=
  let* rc := set cb in
  if rc =? SSH_OK then st_ret (Returned tt, Some cb)
  else let* r := throw_last_error in st_ret (r, old).

(** [channel::add_callbacks]: [add] appends, [set] replaces. *)
Definition add_callbacks (add set : channel_table W -> ST W Z) (channel_error : ST W Z)
    (cb : channel_table W) (back : bool) : ST W (completion unit) :=
  let* rc := (if back then add else set) cb in
  if rc =? SSH_OK then st_ret (Returned tt)
  else
    let* e := channel_error in
    let* what := ssh_get_error in
    st_ret (Threw (make_ssh_error_code e) what).

(** [channel::callbacks::~callbacks]: [chan] is the channel the object was added
    to, [opened] and [remove] the libssh calls on it. *)
Definition destroy_channel_callbacks (chan : option pointer) (opened : pointer -> ST W Z)
    (remove : pointer -> ST W Z) : ST W unit :=
  match chan with
  | None => st_ret tt
  | Some c =>
      let* o := opened c in
      if o =? 0 then st_ret tt else remove c ;;; st_ret tt
  end.

End Callbacks.

(** ** Lemmas *)

Section CallbackLemmas.
Context {W : Type}.

(** Every result of [f], whatever its argument and the state, is [r]. *)
Definition always {A} (m : ST W A) (r : A) : Prop := forall w, fst (m w) = r /\ snd (m w) = w.

(** A server that overrides nothing lets nobody in and accepts no service and no
    channel. *)
Lemma default_server_denies init impl0 :
  let t := server_callbacks init impl0 (default_server_handlers (W := W)) in
  (exists f, auth_password_function t = Some f /\ forall u p, always (f u p) SSH_AUTH_DENIED) /\
  (exists f, auth_none_function t = Some f /\ forall u, always (f u) SSH_AUTH_DENIED) /\
  (exists f, auth_pubkey_function t = Some f /\ forall u k s, always (f u k s) SSH_AUTH_DENIED) /\
  (exists f, auth_gssapi_mic_function t = Some f /\ forall u p, always (f u p) SSH_AUTH_DENIED) /\
  (exists f, service_request_function t = Some f /\ forall s, always (f s) (-1)) /\
  (exists m, channel_open_request_session_function t = Some m /\ always m nullptr).
Proof. cbn. split_and!; eexists; (split; [done|]); done. Qed.

(** A channel whose object overrides nothing refuses every request. *)
Lemma default_channel_refuses :
  let t := channel_callbacks (default_channel_handlers (W := W)) in
  (forall a b c d e, always (channel_pty_request_function t a b c d e) (-1)) /\
  (forall a b c d, always (channel_pty_window_change_function t a b c d) (-1)) /\
  always (channel_shell_request_function t) (-1) /\
  (forall a, always (channel_exec_request_function t a) (-1)) /\
  (forall a b, always (channel_env_request_function t a b) (-1)) /\
  (forall a, always (channel_subsystem_request_function t a) (-1)).
Proof. by split_and!. Qed.

(** [disable_gssapi] takes back what [enable_gssapi] did, and nothing else. *)
Lemma disable_enable_gssapi h (impl : server_table W) :
  disable_gssapi (enable_gssapi h impl) = disable_gssapi impl.
Proof. done. Qed.

(** The constructor does not write the gssapi pointers: where the macro only
    stores the size of the struct, they are what the memory held before. *)
Lemma server_callbacks_uninitialised init impl0 (h : server_handlers W) :
  init impl0 = impl0 ->
  gssapi_select_oid_function (server_callbacks init impl0 h) = gssapi_select_oid_function impl0 /\
  gssapi_accept_sec_ctx_function (server_callbacks init impl0 h)
    = gssapi_accept_sec_ctx_function impl0 /\
  gssapi_verify_mic_function (server_callbacks init impl0 h) = gssapi_verify_mic_function impl0.
Proof. intros Hi. cbn. by rewrite Hi. Qed.

End CallbackLemmas.
