(* ===== verification/Lifetimes.v ===== *)
(** * Lifetimes: programs over objects that can outlive what they point to

    What [Ownership], [ChannelCallbacks], [Handles] and [ExampleTransfers] share: an operation of a
    program ends in a new world, is one the program cannot write there, or is
    undefined behaviour; a program is a list of operations; a discipline is what
    a program has to keep to.  [discipline_sound] carries an invariant through a
    disciplined program. *)

From S2P Require Import Prelude.

Inductive result (W : Type) :=
| Done (w : W)
| Undefined
| Refused.
Arguments Done {W} w.
Arguments Undefined {W}.
Arguments Refused {W}.

Definition result_bind {V W} (r : result V) (k : V -> result W) : result W :=
  match r with Done v => k v | Undefined => Undefined | Refused => Refused end.

(** What an operation of a disciplined program comes to. *)
Definition safe {W} (I : W -> Prop) (r : result W) : Prop :=
  match r with Done w => I w | Undefined => False | Refused => True end.

Section Programs.
Context {W Op : Type} (perform : Op -> W -> result W) (disciplined : Op -> W -> bool).

Fixpoint perform_all (l : list Op) (w : W) : result W :=
  match l with
  | [] => Done w
  | op :: l => result_bind (perform op w) (perform_all l)
  end.

(** A program that keeps to the discipline at each of its operations. *)
Fixpoint disciplined_all (l : list Op) (w : W) : bool :=
  match l with
  | [] => true
  | op :: l =>
      disciplined op w && match perform op w with Done w => disciplined_all l w | _ => true end
  end.

Lemma discipline_sound (I : W -> Prop) l w :
  (forall op w, I w -> disciplined op w = true -> safe I (perform op w)) ->
  I w -> disciplined_all l w = true -> safe I (perform_all l w).
Proof.
  intros Hop. revert w. induction l as [|op l IH]; intros w Hw Hd; cbn [perform_all disciplined_all] in *; [done|].
  apply andb_true_iff in Hd as [Hd Hl]. specialize (Hop op w Hw Hd).
  destruct (perform op w) as [w1| |]; cbn; [by apply IH|done..].
Qed.

End Programs.
