(* ===== verification/ChannelCallbacks.v ===== *)
(** * ChannelCallbacks: how long the callbacks of a channel stay registered
    ([channel.cpp] 644-662)

    A [channel::callbacks] keeps the [ssh_channel] it was added to ([chan_]) and
    takes itself off in its destructor, if that channel is open.  A [world] is
    the channels libssh has, with what is registered on them, and the callbacks
    objects of the program.  [Undefined] is a call of libssh on a channel that
    was freed, or of libssh into a callbacks object that is gone.

    What [ssh_set_channel_callbacks] and [ssh_add_channel_callbacks] make of the
    list of a channel is a parameter ([register]): the new entry and what there
    was before.  [ssh_remove_channel_callbacks] takes off one entry, and
    [ssh_channel_free] what is left. *)

From S2P Require Import Prelude Libssh Lifetimes.

(** ** The world *)

Record channel_state := ChannelState { c_open : bool; c_registered : list nat }.

Record world := World {
  channels : gmap pointer channel_state;
  callbacks : gmap nat (option pointer)   (** the [chan_] of each object *) }.

Definition empty_world : world := World ∅ ∅.

Definition with_channel (p : pointer) (c : channel_state) (w : world) : world :=
  World (<[p := c]> (channels w)) (callbacks w).

Fixpoint remove_one (cb : nat) (l : list nat) : list nat :=
  match l with
  | [] => []
  | x :: l => if decide (x = cb) then l else x :: remove_one cb l
  end.

(** ** Operations *)

Section Operations.
Context (register : bool -> nat -> list nat -> list nat).

(** [ssh_channel_new], the moments at which the channel opens and closes, and
    [ssh_channel_free]. *)
Definition make_channel (p : pointer) (w : world) : result world :=
  match channels w !! p with
  | Some _ => Refused
  | None => Done (with_channel p (ChannelState false []) w)
  end.

Definition set_open (p : pointer) (o : bool) (w : world) : result world :=
  match channels w !! p with
  | None => Refused
  | Some c => Done (with_channel p (ChannelState o (c_registered c)) w)
  end.

Definition ssh_channel_free (p : pointer) (w : world) : result world :=
  match channels w !! p with
  | None => Refused
  | Some _ => Done (World (delete p (channels w)) (callbacks w))
  end.

Definition construct_callbacks (cb : nat) (w : world) : result world :=
  match callbacks w !! cb with
  | Some _ => Refused
  | None => Done (World (channels w) (<[cb := None]> (callbacks w)))
  end.

(** [channel::add_callbacks]: [chan_] is set before libssh is asked, which may
    refuse ([ok]; the call then throws). *)
Definition add_callbacks (cb : nat) (p : pointer) (back ok : bool) (w : world) : result world :=
  match callbacks w !! cb, channels w !! p with
  | Some _, Some c =>
      let w := World (channels w) (<[cb := Some p]> (callbacks w)) in
      Done (if ok then with_channel p (ChannelState (c_open c) (register back cb (c_registered c))) w else w)
  | _, _ => Refused
  end.

(** [~callbacks] *)
Definition destroy_callbacks (cb : nat) (w : world) : result world :=
  match callbacks w !! cb with
  | None => Refused
  | Some chan_ =>
      let gone w := World (channels w) (delete cb (callbacks w)) in
      match chan_ with
      | None => Done (gone w)
      | Some p =>
          match channels w !! p with
          | None => Undefined
          | Some c =>
              Done (gone (if c_open c then with_channel p (ChannelState true (remove_one cb (c_registered c))) w
                          else w))
          end
      end
  end.

(** An event of the channel: libssh runs through what is registered. *)
Definition dispatch (p : pointer) (w : world) : result world :=
  match channels w !! p with
  | None => Refused
  | Some c =>
      if forallb (fun cb => bool_decide (callbacks w !! cb <> None)) (c_registered c) then Done w else Undefined
  end.

Inductive operation :=
| NewChannel (p : pointer)
| SetOpen (p : pointer) (o : bool)
| FreeChannel (p : pointer)
| NewCallbacks (cb : nat)
| AddCallbacks (cb : nat) (p : pointer) (back ok : bool)
| DestroyCallbacks (cb : nat)
| Dispatch (p : pointer).

Definition perform (op : operation) : world -> result world :=
  match op with
  | NewChannel p => make_channel p
  | SetOpen p o => set_open p o
  | FreeChannel p => ssh_channel_free p
  | NewCallbacks cb => construct_callbacks cb
  | AddCallbacks cb p back ok => add_callbacks cb p back ok
  | DestroyCallbacks cb => destroy_callbacks cb
  | Dispatch p => dispatch p
  end.

(** What a program has to keep to: callbacks are added once, and destroyed before
    the channel is freed, while it is open unless libssh had refused them. *)
Definition disciplined (op : operation) (w : world) : bool :=
  match op with
  | FreeChannel p => bool_decide (map_Forall (fun _ chan_ => chan_ <> Some p) (callbacks w))
  | AddCallbacks cb _ _ _ => bool_decide (callbacks w !! cb = Some None)
  | DestroyCallbacks cb =>
      match callbacks w !! cb with
      | Some (Some p) =>
          match channels w !! p with
          | Some c => c_open c || bool_decide (cb ∉ c_registered c)
          | None => true
          end
      | _ => true
      end
  | _ => true
  end.

End Operations.

(** ** Lemmas *)

Lemma elem_of_remove_one x cb l : x ∈ remove_one cb l -> x ∈ l.
Proof. induction l as [|y l IH]; cbn; [done|]. case_decide; set_solver. Qed.

Lemma remove_one_gone cb l : NoDup l -> cb ∉ remove_one cb l.
Proof.
  induction 1 as [|y l Hy Hl IH]; cbn; [set_solver|]. case_decide; [by subst|]. set_solver.
Qed.

Lemma NoDup_remove_one cb l : NoDup l -> NoDup (remove_one cb l).
Proof.
  induction 1 as [|y l Hy Hl IH]; cbn; [constructor|]. case_decide; [done|].
  constructor; [|done]. by intros ?%elem_of_remove_one.
Qed.

(** What is registered on a channel is there, has that channel, and is registered
    once; and the channel of a callbacks object is there. *)
Record wf (w : world) : Prop := {
  wf_registered p c cb : channels w !! p = Some c -> cb ∈ c_registered c -> callbacks w !! cb = Some (Some p);
  wf_once p c : channels w !! p = Some c -> NoDup (c_registered c);
  wf_channel cb p : callbacks w !! cb = Some (Some p) -> is_Some (channels w !! p)
}.

#[local] Abbreviation safe := (safe wf).

Lemma callbacks_empty_wf : wf empty_world.
Proof. by split. Qed.

(** A channel changes, or appears. *)
Lemma with_channel_wf p c w :
  wf w -> NoDup (c_registered c) ->
  (forall cb, cb ∈ c_registered c -> callbacks w !! cb = Some (Some p)) ->
  wf (with_channel p c w).
Proof.
  intros Hwf Hnd Hcb. split; cbn [channels callbacks with_channel].
  - intros q c' cb [[<- <-]|[_ Hq]]%lookup_insert_Some; [apply Hcb | by eapply wf_registered].
  - intros q c' [[<- <-]|[_ Hq]]%lookup_insert_Some; [done | by eapply wf_once].
  - intros cb q Hq. destruct (decide (p = q)) as [<-|]; [by rewrite lookup_insert_eq|].
    rewrite lookup_insert_ne by done. by eapply wf_channel.
Qed.

(** A callbacks object that is registered nowhere changes. *)
Lemma with_callbacks_wf cb chan w :
  wf w -> (forall p c, channels w !! p = Some c -> cb ∉ c_registered c) ->
  (forall p, chan = Some p -> is_Some (channels w !! p)) ->
  wf (World (channels w) (<[cb := chan]> (callbacks w))).
Proof.
  intros Hwf Hcb Hchan. split; cbn [channels callbacks].
  - intros p c cb' Hp Hin. rewrite lookup_insert_ne; [by eapply wf_registered|]. intros <-. by eapply Hcb.
  - apply (wf_once w Hwf).
  - intros cb' p [[<- ->]|[_ Hcb']]%lookup_insert_Some; [by apply Hchan | by eapply wf_channel].
Qed.

Lemma delete_callbacks_wf cb w :
  wf w -> (forall p c, channels w !! p = Some c -> cb ∉ c_registered c) ->
  wf (World (channels w) (delete cb (callbacks w))).
Proof.
  intros Hwf Hcb. split; cbn [channels callbacks].
  - intros p c cb' Hp Hin. rewrite lookup_delete_ne; [by eapply wf_registered|]. intros <-. by eapply Hcb.
  - apply (wf_once w Hwf).
  - intros cb' p [_ Hcb']%lookup_delete_Some. by eapply wf_channel.
Qed.

(** Nothing is registered but with its own channel. *)
Lemma not_registered cb chan w p c :
  wf w -> callbacks w !! cb = chan -> chan <> Some (Some p) -> channels w !! p = Some c -> cb ∉ c_registered c.
Proof. intros Hwf Hcb Hne Hp Hin. apply Hne. rewrite <- Hcb. by eapply wf_registered. Qed.

Lemma dispatch_gone p w c cb :
  channels w !! p = Some c -> cb ∈ c_registered c -> callbacks w !! cb = None -> dispatch p w = Undefined.
Proof.
  intros Hp Hin Hcb. unfold dispatch. rewrite Hp.
  replace (forallb _ _) with false; [done|]. symmetry. apply not_true_iff_false. intros Hall.
  rewrite forallb_forall in Hall. specialize (Hall cb ltac:(by apply list_elem_of_In)).
  by apply bool_decide_eq_true in Hall.
Qed.

Section Soundness.
Context (register : bool -> nat -> list nat -> list nat)
  (register_spec : forall back cb l, register back cb l ≡ₚ cb :: l \/ register back cb l = [cb]).

#[local] Abbreviation perform := (perform register).

Lemma register_elem back cb l x : x ∈ register back cb l -> x = cb \/ x ∈ l.
Proof. destruct (register_spec back cb l) as [-> | ->]; set_solver. Qed.

Lemma register_once back cb l : NoDup l -> cb ∉ l -> NoDup (register back cb l).
Proof.
  intros. destruct (register_spec back cb l) as [-> | ->]; [by constructor | apply NoDup_singleton].
Qed.

Lemma add_callbacks_safe cb p back ok w :
  wf w -> callbacks w !! cb = Some None -> safe (add_callbacks register cb p back ok w).
Proof.
  intros Hwf Hcb. unfold add_callbacks. rewrite Hcb. destruct (channels w !! p) as [c|] eqn:Hp; [|done].
  assert (Hno : forall q c', channels w !! q = Some c' -> cb ∉ c_registered c').
  { intros q c' Hq. by eapply not_registered. }
  set (w1 := World _ _).
  assert (Hw1 : wf w1) by (apply with_callbacks_wf; [done..|]; intros q [= <-]; eauto).
  cbn [Lifetimes.safe]. destruct ok; [|done]. apply with_channel_wf; [done|..]; cbn [c_registered].
  - apply register_once; [by eapply wf_once | by eapply Hno].
  - intros x [-> | Hx]%register_elem; cbn [callbacks w1]; [apply lookup_insert_eq|].
    rewrite lookup_insert_ne by (intros <-; by eapply Hno). by eapply wf_registered.
Qed.

Lemma destroy_channel_callbacks_safe cb w :
  wf w -> disciplined (DestroyCallbacks cb) w = true -> safe (destroy_callbacks cb w).
Proof.
  intros Hwf Hd. unfold destroy_callbacks. cbn in Hd. destruct (callbacks w !! cb) as [[p|]|] eqn:Hcb; [| |done].
  2:{ apply delete_callbacks_wf; [done|]. intros q c Hq. by eapply not_registered. }
  destruct (wf_channel w Hwf cb p Hcb) as [c Hp]. rewrite Hp in *. cbn [Lifetimes.safe].
  assert (Hother : forall q c', q <> p -> channels w !! q = Some c' -> cb ∉ c_registered c').
  { intros q c' Hq Hc'. eapply not_registered; [done..| |done]. congruence. }
  destruct (c_open c) eqn:Ho; apply delete_callbacks_wf; try done.
  - apply with_channel_wf; [done| |]; cbn [c_registered].
    + apply NoDup_remove_one. by eapply wf_once.
    + intros x Hx%elem_of_remove_one. by eapply wf_registered.
  - intros q c' Hc'. cbn [channels with_channel] in Hc'.
    apply lookup_insert_Some in Hc' as [[<- <-]|[Hq Hc']]; [|eauto]. apply remove_one_gone. by eapply wf_once.
  - apply bool_decide_eq_true in Hd. intros q c' Hc'. destruct (decide (q = p)) as [->|]; [congruence | eauto].
Qed.

Lemma callbacks_perform_safe op w : wf w -> disciplined op w = true -> safe (perform op w).
Proof.
  intros Hwf Hd. destruct op as [p|p o|p|cb|cb p back ok|cb|p]; cbn [ChannelCallbacks.perform].
  - unfold make_channel. destruct (channels w !! p) as [|] eqn:Hp; [done|].
    apply with_channel_wf; cbn [c_registered]; [done | constructor | by intros cb ?%elem_of_nil].
  - unfold set_open. destruct (channels w !! p) as [c|] eqn:Hp; [|done].
    apply with_channel_wf; cbn [c_registered]; [done | by eapply (wf_once w Hwf) | intros cb; by eapply (wf_registered w Hwf)].
  - unfold ssh_channel_free. destruct (channels w !! p) as [c|] eqn:Hp; [|done].
    apply bool_decide_eq_true in Hd. split; cbn [channels callbacks].
    + intros q c' cb [_ Hq]%lookup_delete_Some. by eapply wf_registered.
    + intros q c' [_ Hq]%lookup_delete_Some. by eapply wf_once.
    + intros cb q Hcb. rewrite lookup_delete_ne; [by eapply wf_channel|]. intros <-. by apply (Hd cb (Some p) Hcb).
  - unfold construct_callbacks. destruct (callbacks w !! cb) as [|] eqn:Hcb; [done|].
    apply with_callbacks_wf; [done| |done]. intros q c Hq. by eapply not_registered.
  - apply bool_decide_eq_true in Hd. by apply add_callbacks_safe.
  - by apply destroy_channel_callbacks_safe.
  - unfold dispatch. destruct (channels w !! p) as [c|] eqn:Hp; [|done].
    replace (forallb _ _) with true; [done|]. symmetry. apply forallb_forall. intros cb Hin%list_elem_of_In.
    apply bool_decide_eq_true. by rewrite (wf_registered w Hwf p c cb).
Qed.

(** ** Properties *)

(** C23: The callbacks of channels are sound under their discipline: if each
    callbacks object is added once, and destroyed while its channel is open and
    before it is freed, libssh never calls into an object that is gone and no
    destructor asks a freed channel; and once the callbacks are gone nothing is
    registered on any channel. *)
Theorem callbacks_sound l :
  disciplined_all perform disciplined l empty_world = true ->
  perform_all perform l empty_world <> Undefined /\
  forall w p c, perform_all perform l empty_world = Done w -> callbacks w = ∅ -> channels w !! p = Some c ->
    c_registered c = [].
Proof.
  intros Hd. pose proof (discipline_sound perform disciplined wf l empty_world callbacks_perform_safe callbacks_empty_wf Hd) as Hs.
  split; [by intros He; rewrite He in Hs|]. intros w p c Hw Hcb Hp. rewrite Hw in Hs. cbn in Hs.
  destruct (c_registered c) as [|cb r] eqn:Hr; [done|].
  assert (Hin : cb ∈ c_registered c) by (rewrite Hr; left).
  pose proof (wf_registered w Hs p c cb Hp Hin) as H. by rewrite Hcb in H.
Qed.

End Soundness.

(** C2: The destructor leaves callbacks registered on a channel that is not open:
    the next event of the channel (the peer's [CLOSE] after ours, for one) is
    delivered to the destroyed object. *)
Theorem closed_channel_keeps_callbacks (register : bool -> nat -> list nat -> list nat) w p l (cb : nat) :
  channels w !! p = Some (ChannelState false l) -> cb ∈ l -> callbacks w !! cb = Some (Some p) ->
  perform_all (perform register) [DestroyCallbacks cb; Dispatch p] w = Undefined.
Proof.
  intros Hp Hin Hcb. cbn [perform_all perform]. unfold destroy_callbacks. rewrite Hcb, Hp.
  cbn [c_open result_bind]. rewrite (dispatch_gone p _ (ChannelState false l) cb); [done..|apply lookup_delete_eq].
Qed.

(** Added to a second channel, an object forgets the first. *)
Lemma second_channel_dangles (register : bool -> nat -> list nat -> list nat) w p q c d (cb : nat) back :
  channels w !! p = Some c -> cb ∈ c_registered c -> channels w !! q = Some d -> p <> q ->
  is_Some (callbacks w !! cb) ->
  perform_all (perform register) [AddCallbacks cb q back true; DestroyCallbacks cb; Dispatch p] w = Undefined.
Proof.
  intros Hp Hin Hq Hpq [o Hcb]. cbn [perform_all perform]. unfold add_callbacks. rewrite Hcb, Hq.
  cbn [result_bind]. unfold destroy_callbacks. cbn [callbacks channels with_channel]. rewrite !lookup_insert_eq.
  cbn [result_bind]. rewrite (dispatch_gone p _ c cb); [done| |done|apply lookup_delete_eq].
  case_match; cbn; by rewrite !lookup_insert_ne.
Qed.

(** ** Witnesses *)

(** libssh's own: [set] in front, [add] at the end. *)
Definition demo_register (back : bool) (cb : nat) (l : list nat) : list nat :=
  if back then l ++ [cb] else cb :: l.

Lemma demo_register_spec back cb l : demo_register back cb l ≡ₚ cb :: l \/ demo_register back cb l = [cb].
Proof. left. destruct back; cbn; [|done]. symmetry. apply Permutation_cons_append. Qed.

Definition demo_operations : list operation :=
  [NewChannel 1; SetOpen 1 true; NewCallbacks 1; NewCallbacks 2; AddCallbacks 1 1 false true;
   AddCallbacks 2 1 true true; Dispatch 1; DestroyCallbacks 1; Dispatch 1; DestroyCallbacks 2;
   SetOpen 1 false; Dispatch 1; FreeChannel 1].

Lemma callbacks_sound_witness :
  perform_all (perform demo_register) demo_operations empty_world <> Undefined /\
  forall w p c, perform_all (perform demo_register) demo_operations empty_world = Done w ->
    callbacks w = ∅ -> channels w !! p = Some c -> c_registered c = [].
Proof.
  apply (callbacks_sound demo_register demo_register_spec demo_operations).
  by vm_compute.
Defined.

Lemma closed_channel_keeps_callbacks_witness :
  perform_all (perform demo_register) [DestroyCallbacks 2; Dispatch 1]
    (World {[ 1%Z := ChannelState false [1%nat; 2%nat] ]}
      (<[ 1%nat := Some 1%Z ]> {[ 2%nat := Some 1%Z ]})) = Undefined.
Proof.
  apply (closed_channel_keeps_callbacks demo_register _ 1 [1%nat; 2%nat] 2);
    [reflexivity | right; left | reflexivity].
Defined.
