(* ===== verification/Ownership.v ===== *)
(** * Ownership: the objects of the library and what libssh allocates for them

    [session], [channel], [message] and [acceptor] each hold one libssh object in
    a [std::unique_ptr] whose deleter gives it back.  A [world] is the objects
    of a program with the pointers they hold, and what libssh has allocated
    ([live]); an [operation] is one a program can write.  [Undefined] is a double
    free or a use after free.

    Of libssh the model takes what its documentation says: [ssh_free] frees the
    channels of the session with it, and a session calls the callbacks
    registered last until it is freed. *)

From S2P Require Import Prelude Libssh Lifetimes.

#[local] Open Scope Z_scope.

(** ** The world *)

Inductive kind := SessionKind | ChannelKind | MessageKind | AcceptorKind.

#[export] Instance kind_eq_dec : EqDecision kind.
Proof. solve_decision. Defined.

#[export] Instance kind_countable : Countable kind.
Proof.
  refine (inj_countable'
    (fun k => match k with SessionKind => 0%nat | ChannelKind => 1%nat | MessageKind => 2%nat
                         | AcceptorKind => 3%nat end)
    (fun n => match n with 0%nat => SessionKind | 1%nat => ChannelKind | 2%nat => MessageKind
                         | _ => AcceptorKind end) _).
  by intros [].
Defined.

(** What libssh allocates: a pointer of a kind. *)
#[local] Abbreviation resource := (kind * pointer)%type.

(** An object: the pointer in its [unique_ptr], and the callbacks a session owns
    ([server_callbacks_]). *)
Record object := Object { o_kind : kind; o_ptr : pointer; o_callbacks : option nat }.

Definition o_resource (o : object) : resource := (o_kind o, o_ptr o).

(** [objects] are the variables of the program, [live] maps what libssh has
    allocated to the session it belongs to (a channel's; null for the others),
    [registered] maps a session to the callbacks object libssh calls, [callbacks]
    are the callbacks objects that exist. *)
Record world := World {
  objects : gmap nat object;
  live : gmap resource pointer;
  registered : gmap pointer nat;
  callbacks : gset nat }.

Definition empty_world : world := World ∅ ∅ ∅ ∅.

(** ** Operations *)

Definition set_object (v : nat) (o : object) (w : world) : world :=
  World (<[v := o]> (objects w)) (live w) (registered w) (callbacks w).

(** [ssh_free]: the session, its channels, and what it knew of callbacks. *)
Definition ssh_free (s : pointer) (w : world) : world :=
  World (objects w) (filter (fun '(r, owner) => r <> (SessionKind, s) /\ ~ (r.1 = ChannelKind /\ owner = s)) (live w))
    (delete s (registered w)) (callbacks w).

(** The deleters: [ssh_free], [ssh_channel_free], [ssh_message_free] and
    [ssh_bind_free]; a null pointer is not deleted. *)
Definition deleter (r : resource) (w : world) : result world :=
  if bool_decide (r.2 = nullptr) then Done w
  else
    match live w !! r with
    | None => Undefined
    | Some _ =>
        Done (match r.1 with
              | SessionKind => ssh_free r.2 w
              | _ => World (objects w) (delete r (live w)) (registered w) (callbacks w)
              end)
    end.

(** The destruction of a callbacks object by the [unique_ptr] that owned it. *)
Definition drop_callbacks (cb : option nat) (w : world) : world :=
  match cb with
  | None => w
  | Some c => World (objects w) (live w) (registered w) (callbacks w ∖ {[c]})
  end.

(** What [ssh_new] and the like return is null or not yet in use. *)
Definition fresh (r : resource) (w : world) : bool :=
  bool_decide (live w !! r = None /\ r.2 <> nullptr).

(** The object [v] with a new resource. *)
Definition acquire (v : nat) (r : resource) (owner : pointer) (w : world) : result world :=
  if bool_decide (objects w !! v = None) && fresh r w then
    Done (World (<[v := Object r.1 r.2 None]> (objects w)) (<[r := owner]> (live w))
            (registered w) (callbacks w))
  else Refused.

(** The pointer in the object [v], which must be of kind [k]. *)
Definition pointer_of (k : kind) (v : nat) (w : world) : option pointer :=
  match objects w !! v with
  | Some o => if bool_decide (o_kind o = k) then Some (o_ptr o) else None
  | None => None
  end.

(** The constructors: [p] is what [ssh_new], [ssh_bind_new] or [ssh_channel_new]
    gave; for the null pointer they throw. *)
Definition construct_session (v : nat) (p : pointer) (w : world) : result world :=
  acquire v (SessionKind, p) nullptr w.
Definition construct_acceptor (v : nat) (p : pointer) (w : world) : result world :=
  acquire v (AcceptorKind, p) nullptr w.

Definition construct_channel (v s : nat) (p : pointer) (w : world) : result world :=
  match pointer_of SessionKind s w with
  | None => Refused
  | Some sp =>
      if bool_decide (sp = nullptr) then Refused
      else if bool_decide (live w !! (SessionKind, sp) = None) then Undefined
      else acquire v (ChannelKind, p) sp w
  end.

(** [session::get_message] that completed with the [ssh_message] [p]. *)
Definition construct_message (v s : nat) (p : pointer) (w : world) : result world :=
  match pointer_of SessionKind s w with
  | None => Refused
  | Some sp =>
      if bool_decide (sp = nullptr) then Refused
      else if bool_decide (live w !! (SessionKind, sp) = None) then Undefined
      else acquire v (MessageKind, p) nullptr w
  end.

(** [message()] *)
Definition default_message (v : nat) (w : world) : result world :=
  if bool_decide (objects w !! v = None) then Done (set_object v (Object MessageKind nullptr None) w)
  else Refused.

(** The move constructors.  The one of [session] moves [session_] and [socket_]
    and leaves the callbacks where they are. *)
Definition move_construct_object (v from : nat) (w : world) : result world :=
  match objects w !! from with
  | None => Refused
  | Some o =>
      if bool_decide (objects w !! v = None) then
        Done (set_object v (Object (o_kind o) (o_ptr o) None)
               (set_object from (Object (o_kind o) nullptr (o_callbacks o)) w))
      else Refused
  end.

(** Move assignment, which [channel] and [message] have: the pointer is taken
    over, then the old one deleted. *)
Definition move_assign_object (v from : nat) (w : world) : result world :=
  match objects w !! v, objects w !! from with
  | Some o, Some o' =>
      if bool_decide (o_kind o = o_kind o' /\ (o_kind o = ChannelKind \/ o_kind o = MessageKind)) then
        if bool_decide (v = from) then Done w
        else
          deleter (o_resource o)
            (set_object v (Object (o_kind o) (o_ptr o') None)
              (set_object from (Object (o_kind o') nullptr None) w))
      else Refused
  | _, _ => Refused
  end.

(** The destructors: the members in reverse order, so the callbacks before the
    session. *)
Definition destroy_object (v : nat) (w : world) : result world :=
  match objects w !! v with
  | None => Refused
  | Some o =>
      deleter (o_resource o)
        (drop_callbacks (o_callbacks o)
          (World (delete v (objects w)) (live w) (registered w) (callbacks w)))
  end.

(** [install_server_callbacks] that succeeds; [cb] is the object the argument
    owns. *)
Definition install (v cb : nat) (w : world) : result world :=
  match objects w !! v with
  | Some (Object SessionKind p old) =>
      if bool_decide (p = nullptr \/ cb ∈ callbacks w) then Refused
      else if bool_decide (live w !! (SessionKind, p) = None) then Undefined
      else
        Done (drop_callbacks old
          (World (<[v := Object SessionKind p (Some cb)]> (objects w)) (live w)
            (<[p := cb]> (registered w)) ({[cb]} ∪ callbacks w)))
  | _ => Refused
  end.

(** libssh, called through the session [v], calls back. *)
Definition dispatch (v : nat) (w : world) : result world :=
  match pointer_of SessionKind v w with
  | None => Refused
  | Some p =>
      if bool_decide (p = nullptr) then Refused
      else if bool_decide (live w !! (SessionKind, p) = None) then Undefined
      else
        match registered w !! p with
        | None => Done w
        | Some cb => if bool_decide (cb ∈ callbacks w) then Done w else Undefined
        end
  end.

(** [message::channel_request_channel]: a channel object over the [ssh_channel]
    the message is about, or over none. *)
Definition channel_request_channel (v m : nat) (c : pointer) (w : world) : result world :=
  match pointer_of MessageKind m w with
  | None => Refused
  | Some _ =>
      if bool_decide (objects w !! v <> None \/ c <> nullptr /\ live w !! (ChannelKind, c) = None) then Refused
      else Done (set_object v (Object ChannelKind c None) w)
  end.

(** [message::release] and [message::reset]: the pointer is the program's from
    then on, or the message's. *)
Definition release_message (v : nat) (w : world) : result world :=
  match objects w !! v with
  | Some (Object MessageKind _ cb) => Done (set_object v (Object MessageKind nullptr cb) w)
  | _ => Refused
  end.

Definition reset_message (v : nat) (m : pointer) (w : world) : result world :=
  match objects w !! v with
  | Some (Object MessageKind old cb) =>
      deleter (MessageKind, old) (set_object v (Object MessageKind m cb) w)
  | _ => Refused
  end.

Inductive operation :=
| NewSession (v : nat) (p : pointer)
| NewAcceptor (v : nat) (p : pointer)
| NewChannel (v s : nat) (p : pointer)
| GetMessage (v s : nat) (p : pointer)
| DefaultMessage (v : nat)
| Move (v from : nat)
| Assign (v from : nat)
| Destroy (v : nat)
| Install (v cb : nat)
| Dispatch (v : nat)
| ChannelRequestChannel (v m : nat) (c : pointer)
| ReleaseMessage (v : nat)
| ResetMessage (v : nat) (m : pointer).

Definition perform (op : operation) : world -> result world :=
  match op with
  | NewSession v p => construct_session v p
  | NewAcceptor v p => construct_acceptor v p
  | NewChannel v s p => construct_channel v s p
  | GetMessage v s p => construct_message v s p
  | DefaultMessage v => default_message v
  | Move v from => move_construct_object v from
  | Assign v from => move_assign_object v from
  | Destroy v => destroy_object v
  | Install v cb => install v cb
  | Dispatch v => dispatch v
  | ChannelRequestChannel v m c => channel_request_channel v m c
  | ReleaseMessage v => release_message v
  | ResetMessage v m => reset_message v m
  end.

#[local] Abbreviation perform_all := (perform_all perform).

(** ** Lemmas *)

(** One owner for everything libssh has allocated, a session for every channel,
    and a session object for every callbacks object libssh would call. *)
Record wf (w : world) : Prop := {
  wf_live v o : objects w !! v = Some o -> o_ptr o <> nullptr -> is_Some (live w !! o_resource o);
  wf_unique v1 v2 o1 o2 :
    objects w !! v1 = Some o1 -> objects w !! v2 = Some o2 -> o_resource o1 = o_resource o2 ->
    o_ptr o1 <> nullptr -> v1 = v2;
  wf_owned r owner :
    live w !! r = Some owner ->
    r.2 <> nullptr /\ exists v o, objects w !! v = Some o /\ o_resource o = r;
  wf_parent c s : live w !! (ChannelKind, c) = Some s -> is_Some (live w !! (SessionKind, s));
  wf_registered p cb :
    registered w !! p = Some cb ->
    p <> nullptr /\ exists v, objects w !! v = Some (Object SessionKind p (Some cb));
  wf_callbacks v o cb : objects w !! v = Some o -> o_callbacks o = Some cb ->
    cb ∈ callbacks w /\ o_kind o = SessionKind;
  wf_callbacks_unique v1 v2 o1 o2 cb :
    objects w !! v1 = Some o1 -> objects w !! v2 = Some o2 ->
    o_callbacks o1 = Some cb -> o_callbacks o2 = Some cb -> v1 = v2
}.

(** What a program has to keep to: a session goes after its channels, a session
    that has callbacks stays where it is, [channel_request_channel] is not used,
    and neither is a message made to give up its pointer or to take another
    ([release_reset] is the exception). *)
Definition childless (p : pointer) (w : world) : bool :=
  bool_decide (map_Forall (fun r owner => ~ (r.1 = ChannelKind /\ owner = p)) (live w)).

Definition disciplined (op : operation) (w : world) : bool :=
  match op with
  | Destroy v =>
      match objects w !! v with
      | Some (Object SessionKind p _) => bool_decide (p = nullptr) || childless p w
      | _ => true
      end
  | Move _ from =>
      match objects w !! from with
      | Some o => bool_decide (o_callbacks o = None)
      | None => true
      end
  | ChannelRequestChannel _ _ _ | ReleaseMessage _ => false
  | ResetMessage _ m => bool_decide (m = nullptr)
  | _ => true
  end.

Lemma disciplined_destroy v p cb w :
  disciplined (Destroy v) w = true -> objects w !! v = Some (Object SessionKind p cb) ->
  p = nullptr \/ forall c, live w !! (ChannelKind, c) <> Some p.
Proof.
  cbn. intros H Hv. rewrite Hv in H. apply orb_true_iff in H as [H|H]; apply bool_decide_eq_true in H; [auto|].
  right. intros c Hl. by apply (H (ChannelKind, c) p Hl).
Qed.

#[local] Abbreviation safe := (safe wf).

Lemma empty_world_wf : wf empty_world.
Proof. split; intros; done. Qed.

Lemma acquire_safe v r owner w :
  wf w -> (r.1 = ChannelKind -> is_Some (live w !! (SessionKind, owner))) -> safe (acquire v r owner w).
Proof.
  intros Hwf Hp. unfold acquire, fresh. destruct (bool_decide (objects w !! v = None)) eqn:Hv; [|done].
  apply bool_decide_eq_true in Hv. cbn [andb]. case_bool_decide as Hf; [|done]. destruct Hf as [Hr Hnn].
  destruct r as [k p]. cbn [fst snd] in *.
  assert (Hne : forall v' o, objects w !! v' = Some o -> v' <> v) by congruence.
  assert (Hor : forall v' o, objects w !! v' = Some o -> o_ptr o <> nullptr -> o_resource o <> (k, p)).
  { intros v' o Ho Hn He. destruct (wf_live w Hwf v' o Ho Hn) as [x Hx]. congruence. }
  split; cbn [objects live registered callbacks].
  - intros v' o [[<- <-]|[_ Ho]]%lookup_insert_Some Hn; [exists owner; apply lookup_insert_eq|].
    rewrite lookup_insert_ne by (symmetry; eauto). by eapply wf_live.
  - intros v1 v2 o1 o2 [[<- <-]|[_ H1]]%lookup_insert_Some [[<- <-]|[_ H2]]%lookup_insert_Some He Hn; [done| | |].
    + destruct (Hor v2 o2 H2); [|by symmetry]. injection He as _ He. by rewrite <- He.
    + by destruct (Hor v1 o1 H1).
    + by eapply (wf_unique w Hwf).
  - intros r own [[<- _]|[_ Hl]]%lookup_insert_Some.
    + split; [done|]. exists v. eexists. split; [apply lookup_insert_eq | done].
    + destruct (wf_owned w Hwf r own Hl) as (Hn & v' & o & Ho & Hres). split; [done|].
      exists v', o. split; [|done]. rewrite lookup_insert_ne; [done|]. intros <-. congruence.
  - intros c s H. destruct (decide ((k, p) = (SessionKind, s))) as [->|Hks].
    { exists owner. apply lookup_insert_eq. }
    rewrite (lookup_insert_ne _ _ (SessionKind, s)) by done.
    apply lookup_insert_Some in H as [[[= -> ->] <-]|[_ H]]; [auto | by eapply wf_parent].
  - intros p' cb H. destruct (wf_registered w Hwf p' cb H) as (Hn & v' & Ho). split; [done|].
    exists v'. rewrite lookup_insert_ne; [done|]. intros <-. congruence.
  - intros v' o cb [[<- <-]|[_ Ho]]%lookup_insert_Some; [done | by eapply (wf_callbacks w Hwf)].
  - intros v1 v2 o1 o2 cb [[<- <-]|[_ H1]]%lookup_insert_Some [[<- <-]|[_ H2]]%lookup_insert_Some; try done.
    by eapply (wf_callbacks_unique w Hwf).
Qed.

(** An object without a resource comes and goes freely. *)
Lemma null_object_wf v k w :
  wf w -> objects w !! v = None -> wf (set_object v (Object k nullptr None) w).
Proof.
  intros Hwf Hv. split; cbn [objects live registered callbacks set_object].
  - intros v' o [[<- <-]|[_ Ho]]%lookup_insert_Some Hn; [done | by eapply wf_live].
  - intros v1 v2 o1 o2 [[<- <-]|[_ H1]]%lookup_insert_Some [[<- <-]|[_ H2]]%lookup_insert_Some He Hn; try done.
    + injection He as _ He. congruence.
    + by eapply (wf_unique w Hwf).
  - intros r own Hl. destruct (wf_owned w Hwf r own Hl) as (Hn & v' & o & Ho & Hres). split; [done|].
    exists v', o. split; [|done]. rewrite lookup_insert_ne; [done|]. intros <-. congruence.
  - apply (wf_parent w Hwf).
  - intros p cb H. destruct (wf_registered w Hwf p cb H) as (Hn & v' & Ho). split; [done|].
    exists v'. rewrite lookup_insert_ne; [done|]. intros <-. congruence.
  - intros v' o cb [[<- <-]|[_ Ho]]%lookup_insert_Some; [done | by eapply (wf_callbacks w Hwf)].
  - intros v1 v2 o1 o2 cb [[<- <-]|[_ H1]]%lookup_insert_Some [[<- <-]|[_ H2]]%lookup_insert_Some; try done.
    by eapply (wf_callbacks_unique w Hwf).
Qed.

(** Moving is renaming, and leaves a null object. *)
Lemma move_wf v from o w :
  wf w -> objects w !! from = Some o -> objects w !! v = None -> o_callbacks o = None ->
  wf (set_object v (Object (o_kind o) (o_ptr o) None)
       (set_object from (Object (o_kind o) nullptr (o_callbacks o)) w)).
Proof.
  intros Hwf Hfrom Hv Hcb. rewrite Hcb.
  assert (Hvf : v <> from) by congruence.
  set (w' := set_object v _ _).
  (* what the new world holds, in terms of the old one *)
  assert (Hback : forall u o', objects w' !! u = Some o' -> o_ptr o' <> nullptr ->
    exists u' o'', objects w !! u' = Some o'' /\ o_resource o'' = o_resource o' /\
      u' = (if decide (u = v) then from else u)).
  { intros u o' Hu Hn. cbn in Hu. apply lookup_insert_Some in Hu as [[<- <-]|[Hu1 Hu]].
    - exists from, o. rewrite decide_True by done. done.
    - apply lookup_insert_Some in Hu as [[<- <-]|[Hu2 Hu]]; [done|].
      exists u, o'. rewrite decide_False by done. done. }
  assert (Hcbs : forall u o' cb, objects w' !! u = Some o' -> o_callbacks o' = Some cb ->
    objects w !! u = Some o').
  { intros u o' cb Hu Hc. cbn in Hu. apply lookup_insert_Some in Hu as [[<- <-]|[Hu1 Hu]]; [done|].
    apply lookup_insert_Some in Hu as [[<- <-]|[Hu2 Hu]]; done. }
  split.
  - intros u o' Hu Hn. destruct (Hback u o' Hu Hn) as (u' & o'' & Ho & Hr & _).
    cbn [live w' set_object]. rewrite <- Hr. apply (wf_live w Hwf u'); [done|].
    injection Hr as _ Hr. by rewrite Hr.
  - intros u1 u2 o1 o2 H1 H2 Hr Hn. assert (Hn2 : o_ptr o2 <> nullptr) by (injection Hr as _ Hr; congruence).
    destruct (Hback u1 o1 H1 Hn) as (x1 & y1 & Hx1 & Hy1 & E1), (Hback u2 o2 H2 Hn2) as (x2 & y2 & Hx2 & Hy2 & E2).
    assert (x1 = x2).
    { apply (wf_unique w Hwf x1 x2 y1 y2); [done..|congruence|]. injection Hy1 as _ Hy1. congruence. }
    assert (Hf : objects w' !! from = Some (Object (o_kind o) nullptr None)).
    { cbn. rewrite lookup_insert_ne by done. apply lookup_insert_eq. }
    repeat case_decide; subst; try done; rewrite Hf in *; simplify_eq; done.
  - intros r own Hl. cbn [live w' set_object] in Hl.
    destruct (wf_owned w Hwf r own Hl) as (Hn & u & o' & Ho & Hres). split; [done|].
    destruct (decide (u = from)) as [->|Hu].
    + exists v, (Object (o_kind o) (o_ptr o) None). split; [apply lookup_insert_eq|].
      by simplify_eq.
    + exists u, o'. split; [|done]. cbn. rewrite !lookup_insert_ne by congruence. done.
  - apply (wf_parent w Hwf).
  - intros p cb H. destruct (wf_registered w Hwf p cb H) as (Hn & u & Ho). split; [done|].
    assert (u <> from) by (intros ->; by simplify_eq).
    exists u. cbn. rewrite !lookup_insert_ne by congruence. done.
  - intros u o' cb Hu Hc. apply (wf_callbacks w Hwf u o' cb); [by eapply Hcbs | done].
  - intros u1 u2 o1 o2 cb H1 H2 Hc1 Hc2. apply (wf_callbacks_unique w Hwf u1 u2 o1 o2 cb); eauto.
Qed.

(** An object goes, with its resource and its callbacks. *)
Lemma remove_wf v o w live' registered' callbacks' :
  wf w -> objects w !! v = Some o ->
  (forall r owner, live' !! r = Some owner <-> live w !! r = Some owner /\ r <> o_resource o) ->
  (o_kind o = SessionKind -> forall c, live w !! (ChannelKind, c) <> Some (o_ptr o)) ->
  (forall p cb, registered' !! p = Some cb -> registered w !! p = Some cb /\ o_callbacks o <> Some cb) ->
  (forall cb, cb ∈ callbacks w -> o_callbacks o <> Some cb -> cb ∈ callbacks') ->
  wf (World (delete v (objects w)) live' registered' callbacks').
Proof.
  intros Hwf Hv Hlive Hsess Hreg Hcbs.
  split; cbn [objects live registered callbacks].
  - intros u o' [Hu Ho]%lookup_delete_Some Hn. destruct (wf_live w Hwf u o' Ho Hn) as [own Hl].
    exists own. apply Hlive. split; [done|]. intros He. destruct Hu.
    eapply (wf_unique w Hwf); [exact Hv | exact Ho | by symmetry|].
    injection He as _ He. by rewrite <- He.
  - intros u1 u2 o1 o2 [_ H1]%lookup_delete_Some [_ H2]%lookup_delete_Some. by apply (wf_unique w Hwf).
  - intros r own [Hl Hne]%Hlive. destruct (wf_owned w Hwf r own Hl) as (Hn & u & o' & Ho & Hr).
    split; [done|]. exists u, o'. split; [|done]. apply lookup_delete_Some. split; [|done].
    intros <-. congruence.
  - intros c s [Hl Hne]%Hlive. destruct (wf_parent w Hwf c s Hl) as [own Hs]. exists own.
    apply Hlive. split; [done|]. intros He. destruct o as [k p cb]. injection He as <- <-.
    by apply (Hsess eq_refl c).
  - intros p cb [Hr Hne]%Hreg. destruct (wf_registered w Hwf p cb Hr) as (Hn & u & Ho). split; [done|].
    exists u. apply lookup_delete_Some. split; [|done]. intros <-. by simplify_eq.
  - intros u o' cb [Hu Ho]%lookup_delete_Some Hc. destruct (wf_callbacks w Hwf u o' cb Ho Hc) as [Hin Hk].
    split; [|done]. apply Hcbs; [done|]. intros He. destruct Hu.
    by apply (wf_callbacks_unique w Hwf v u o o' cb).
  - intros u1 u2 o1 o2 cb [_ H1]%lookup_delete_Some [_ H2]%lookup_delete_Some.
    by apply (wf_callbacks_unique w Hwf).
Qed.

(** Nothing allocated has the null pointer, or is owned by the callbacks of another
    object. *)
Lemma null_not_live w k : wf w -> live w !! (k, nullptr) = None.
Proof.
  intros Hwf. destruct (live w !! (k, nullptr)) as [own|] eqn:Hl; [|done].
  by destruct (wf_owned w Hwf _ _ Hl) as [[] _].
Qed.

Lemma registered_owner w v o p cb :
  wf w -> objects w !! v = Some o -> registered w !! p = Some cb -> o_callbacks o = Some cb ->
  o_resource o = (SessionKind, p).
Proof.
  intros Hwf Hv Hr Hc. destruct (wf_registered w Hwf p cb Hr) as (_ & u & Ho).
  assert (v = u) as -> by (by eapply (wf_callbacks_unique w Hwf)). by simplify_eq.
Qed.

Lemma destroy_safe v w : wf w -> disciplined (Destroy v) w = true -> safe (destroy_object v w).
Proof.
  intros Hwf Hd. unfold destroy_object. destruct (objects w !! v) as [o|] eqn:Hv; [|done].
  set (w1 := drop_callbacks _ _).
  assert (Hw1 : objects w1 = delete v (objects w) /\ live w1 = live w /\ registered w1 = registered w).
  { unfold w1. by destruct (o_callbacks o). }
  destruct Hw1 as (Ho1 & Hl1 & Hr1).
  assert (Hcb : forall cb, cb ∈ callbacks w -> o_callbacks o <> Some cb -> cb ∈ callbacks w1).
  { intros cb Hin Hne. unfold w1. destruct (o_callbacks o) as [c|]; [|done]. cbn. set_solver. }
  unfold deleter. case_bool_decide as Hnull.
  { cbn [o_resource snd] in Hnull. replace w1 with (World (delete v (objects w)) (live w) (registered w) (callbacks w1))
      by (rewrite <- Ho1, <- Hl1, <- Hr1; by destruct w1).
    apply (remove_wf v o w); auto.
    - intros r own. split; [|by intros [? _]]. intros Hl. split; [done|]. intros ->.
      unfold o_resource in Hl. by rewrite Hnull, null_not_live in Hl.
    - intros Hk c Hl. rewrite Hnull in Hl. apply (wf_parent w Hwf) in Hl as [x Hx].
      by rewrite null_not_live in Hx.
    - intros p cb Hr. split; [done|]. intros Hc.
      pose proof (registered_owner w v o p cb Hwf Hv Hr Hc) as He. injection He as _ He.
      apply (wf_registered w Hwf) in Hr as [Hn _]. congruence. }
  destruct (wf_live w Hwf v o Hv Hnull) as [own Hl]. rewrite Hl1, Hl.
  destruct (decide (o_kind o = SessionKind)) as [Hk|Hk].
  - unfold o_resource at 1. rewrite Hk. cbn [fst snd o_resource].
    destruct o as [k p cbo]. cbn in Hk, Hnull. subst k. cbn [o_ptr].
    assert (Hnc : forall c, live w !! (ChannelKind, c) <> Some p).
    { by destruct (disciplined_destroy v p cbo w Hd Hv). }
    unfold ssh_free, safe. rewrite Ho1, Hl1, Hr1. apply (remove_wf v (Object SessionKind p cbo) w); auto.
    + intros r x. rewrite map_lookup_filter_Some. cbn [fst snd].
      split; [intros [H [H1 _]]; done|]. intros [H H1]. split; [done|]. split; [done|].
      destruct r as [k c]. intros [Hkc ->]. cbn in Hkc. subst k. by apply (Hnc c).
    + intros q cb [Hq Hr]%lookup_delete_Some. split; [done|]. intros Hc.
      pose proof (registered_owner w v _ q cb Hwf Hv Hr Hc) as He. by injection He as ->.
  - assert (Hnone : o_callbacks o = None).
    { destruct (o_callbacks o) as [cb|] eqn:Hc; [|done].
      destruct Hk. by eapply (wf_callbacks w Hwf). }
    replace (match (o_resource o).1 with SessionKind => _ | _ => _ end)
      with (World (delete v (objects w)) (delete (o_resource o) (live w)) (registered w) (callbacks w1)).
    2:{ unfold o_resource at 2. cbn [fst]. destruct (o_kind o); try done; by rewrite Ho1, ?Hl1, Hr1. }
    apply (remove_wf v o w); auto.
    + intros r x. rewrite lookup_delete_Some. split; [intros [H1 H2]|intros [H1 H2]]; split; congruence.
    + intros p cb Hr. split; [done|]. by rewrite Hnone.
Qed.

(** Only sessions own callbacks. *)
Lemma no_callbacks v o w :
  wf w -> objects w !! v = Some o -> o_kind o <> SessionKind -> o_callbacks o = None.
Proof.
  intros Hwf Hv Hk. destruct (o_callbacks o) as [cb|] eqn:Hc; [|done]. destruct Hk.
  by eapply (wf_callbacks w Hwf).
Qed.

(** Move assignment is the destruction of the old object and a move. *)
Lemma assign_destroy_move v from w :
  wf w -> v <> from ->
  move_assign_object v from w = Refused \/
  move_assign_object v from w
  = match destroy_object v w with Done w1 => move_construct_object v from w1 | r => r end.
Proof.
  intros Hwf Hne. unfold move_assign_object, destroy_object.
  destruct (objects w !! v) as [o|] eqn:Hv; [|by left].
  destruct (objects w !! from) as [o'|] eqn:Hf; [|by left].
  case_bool_decide as Hk; [|by left]. rewrite bool_decide_eq_false_2 by done. right.
  destruct Hk as [Hkk Hk].
  assert (Hk' : o_kind o <> SessionKind) by (by destruct Hk as [-> | ->]).
  pose proof (no_callbacks v o w Hwf Hv Hk') as Hn.
  pose proof (no_callbacks from o' w Hwf Hf ltac:(congruence)) as Hn'. rewrite Hn. cbn [drop_callbacks].
  assert (Hmove : forall l r c, move_construct_object v from (World (delete v (objects w)) l r c)
    = Done (World (<[v := Object (o_kind o) (o_ptr o') None]>
                    (<[from := Object (o_kind o') nullptr None]> (objects w))) l r c)).
  { intros l r c. unfold move_construct_object, set_object. cbn [objects live registered callbacks].
    rewrite lookup_delete_ne, Hf by done. rewrite lookup_delete_eq, bool_decide_eq_true_2 by done.
    rewrite Hn', Hkk. do 2 f_equal. rewrite !(insert_insert_ne _ v from) by done.
    by rewrite insert_delete_eq. }
  unfold deleter, set_object. cbn [objects live registered callbacks].
  case_bool_decide; [by rewrite Hmove|]. destruct (live w !! o_resource o); [|done].
  cbn [o_resource fst snd]. by destruct Hk as [Hk|Hk]; rewrite Hk in Hmove |- *; rewrite Hmove.
Qed.

Lemma assign_safe v from w : wf w -> safe (move_assign_object v from w).
Proof.
  intros Hwf. destruct (decide (v = from)) as [->|Hne].
  { unfold move_assign_object. destruct (objects w !! from); [|done].
    case_bool_decide; [|done]. by rewrite bool_decide_eq_true_2. }
  destruct (assign_destroy_move v from w Hwf Hne) as [Ha|Ha]; [by rewrite Ha|].
  destruct (objects w !! from) as [o'|] eqn:Hf.
  2:{ unfold move_assign_object. rewrite Hf. by destruct (objects w !! v). }
  destruct (objects w !! v) as [o|] eqn:Hv; [|by unfold move_assign_object; rewrite Hv].
  destruct (decide (o_kind o = o_kind o' /\ (o_kind o = ChannelKind \/ o_kind o = MessageKind))) as [Hk|Hk].
  2:{ unfold move_assign_object. by rewrite Hf, Hv, bool_decide_eq_false_2. }
  destruct Hk as [Hkk Hk]. rewrite Ha.
  assert (Hd : disciplined (Destroy v) w = true).
  { cbn. rewrite Hv. destruct o as [[] p cb]; try done. by destruct Hk. }
  pose proof (destroy_safe v w Hwf Hd) as Hs. destruct (destroy_object v w) as [w1| |] eqn:Hdes; [|done..].
  cbn [safe] in Hs. assert (Ho1 : objects w1 = delete v (objects w)).
  { unfold destroy_object in Hdes. rewrite Hv in Hdes. unfold deleter, drop_callbacks, ssh_free in Hdes.
    repeat case_match; simplify_eq; done. }
  unfold move_construct_object. rewrite Ho1, lookup_delete_ne, Hf by done.
  rewrite bool_decide_eq_true_2 by apply lookup_delete_eq. cbn [safe].
  apply move_wf; [done | by rewrite Ho1, lookup_delete_ne | by rewrite Ho1, lookup_delete_eq|].
  apply (no_callbacks from o' w Hwf Hf). by rewrite <- Hkk; destruct Hk as [-> | ->].
Qed.

Lemma pointer_of_Some k v p w :
  pointer_of k v w = Some p -> exists o, objects w !! v = Some o /\ o_kind o = k /\ o_ptr o = p.
Proof.
  unfold pointer_of. destruct (objects w !! v) as [o|]; [|done]. case_bool_decide; [|done].
  intros [= <-]. eauto.
Qed.

Lemma pointer_of_live k v p w :
  wf w -> pointer_of k v w = Some p -> p <> nullptr -> is_Some (live w !! (k, p)).
Proof.
  intros Hwf (o & Ho & <- & <-)%pointer_of_Some Hn. by apply (wf_live w Hwf v).
Qed.

Lemma install_safe v cb w : wf w -> safe (install v cb w).
Proof.
  intros Hwf. unfold install. destruct (objects w !! v) as [[[] p old]|] eqn:Hv; try done.
  case_bool_decide as Hc; [done|]. apply Decidable.not_or in Hc as [Hp Hcb].
  destruct (wf_live w Hwf v _ Hv Hp) as [own Hl]. unfold o_resource in Hl. cbn in Hl.
  rewrite bool_decide_eq_false_2 by congruence. cbn [safe].
  set (w1 := drop_callbacks _ _).
  assert (Hw1 : w1 = World (<[v := Object SessionKind p (Some cb)]> (objects w)) (live w)
                      (<[p := cb]> (registered w)) (callbacks w1)) by (unfold w1; by destruct old).
  assert (Hin : cb ∈ callbacks w1 /\ forall c, c ∈ callbacks w -> old <> Some c -> c ∈ callbacks w1).
  { unfold w1. destruct old as [c0|]; cbn; [|set_solver].
    assert (c0 ∈ callbacks w) by (by eapply (wf_callbacks w Hwf)). split; [set_solver|].
    intros c H1 H2. set_solver. }
  destruct Hin as [Hin Hrest]. rewrite Hw1. clearbody w1.
  assert (Hres : forall u o, (<[v := Object SessionKind p (Some cb)]> (objects w)) !! u = Some o ->
    exists o', objects w !! u = Some o' /\ o_resource o' = o_resource o).
  { intros u o [[<- <-]|[_ Ho]]%lookup_insert_Some; eauto. }
  assert (Hfresh : forall u o, objects w !! u = Some o -> o_callbacks o <> Some cb).
  { intros u o Ho He. by apply (wf_callbacks w Hwf u o cb Ho) in He as [? _]. }
  split; cbn [objects live registered callbacks].
  - intros u o Ho Hn. apply Hres in Ho as (o' & Ho & Hr). rewrite <- Hr. apply (wf_live w Hwf u); [done|].
    injection Hr as _ Hr. by rewrite Hr.
  - intros u1 u2 o1 o2 H1 H2 Hr Hn. apply Hres in H1 as (o1' & H1 & Hr1), H2 as (o2' & H2 & Hr2).
    apply (wf_unique w Hwf u1 u2 o1' o2'); [done..|congruence|]. injection Hr1 as _ Hr1. congruence.
  - intros r o Hlr. destruct (wf_owned w Hwf r o Hlr) as (Hn & u & o' & Ho & Hr). split; [done|].
    destruct (decide (u = v)) as [->|].
    + exists v. eexists. split; [apply lookup_insert_eq|]. simplify_eq. done.
    + exists u, o'. by rewrite lookup_insert_ne.
  - apply (wf_parent w Hwf).
  - intros q c [[<- <-]|[Hq Hr]]%lookup_insert_Some.
    + split; [done|]. exists v. apply lookup_insert_eq.
    + destruct (wf_registered w Hwf q c Hr) as (Hn & u & Ho). split; [done|]. exists u.
      rewrite lookup_insert_ne; [done|]. intros <-. congruence.
  - intros u o c [[<- <-]|[Hu Ho]]%lookup_insert_Some Hc; [by injection Hc as <-|].
    destruct (wf_callbacks w Hwf u o c Ho Hc) as [H1 H2]. split; [|done]. apply Hrest; [done|].
    intros ->. destruct Hu. by eapply (wf_callbacks_unique w Hwf).
  - intros u1 u2 o1 o2 c [[<- <-]|[_ H1]]%lookup_insert_Some [[<- <-]|[_ H2]]%lookup_insert_Some Hc1 Hc2; try done.
    + injection Hc1 as <-. by destruct (Hfresh u2 o2 H2).
    + injection Hc2 as <-. by destruct (Hfresh u1 o1 H1).
    + by eapply (wf_callbacks_unique w Hwf).
Qed.

(** [reset()] is the destruction of the message and a new one. *)
Lemma reset_null_safe v w : wf w -> safe (reset_message v nullptr w).
Proof.
  intros Hwf. unfold reset_message. destruct (objects w !! v) as [[[] old cb]|] eqn:Hv; try done.
  assert (Hcb : cb = None) by (by apply (no_callbacks v _ w Hwf Hv)). subst cb.
  assert (Hd : disciplined (Destroy v) w = true) by (cbn; by rewrite Hv).
  pose proof (destroy_safe v w Hwf Hd) as Hs. unfold destroy_object in Hs. rewrite Hv in Hs.
  unfold o_resource, set_object, deleter in *. cbn [o_callbacks drop_callbacks o_kind o_ptr fst snd live] in *.
  assert (Hback : forall l r c, wf (World (delete v (objects w)) l r c) ->
    wf (World (<[v := Object MessageKind nullptr None]> (objects w)) l r c)).
  { intros lv rg cbs H. rewrite <- insert_delete_eq.
    apply (null_object_wf v MessageKind _ H). apply lookup_delete_eq. }
  case_bool_decide; [by apply Hback|]. destruct (live w !! (MessageKind, old)); [by apply Hback | done].
Qed.

(** What one message releases another may take: that is the move. *)
Lemma release_reset v from m w o :
  objects w !! from = Some (Object MessageKind m None) -> objects w !! v = Some o ->
  o_kind o = MessageKind -> o_callbacks o = None -> v <> from ->
  perform_all [ReleaseMessage from; ResetMessage v m] w = move_assign_object v from w.
Proof.
  intros Hf Hv Hk Hc Hne. destruct o as [k p cb]. cbn in Hk, Hc. subst k cb.
  cbn [Lifetimes.perform_all result_bind perform]. unfold release_message, reset_message, move_assign_object.
  rewrite Hf, Hv. cbn [result_bind set_object objects].
  rewrite lookup_insert_ne, Hv by done. cbn [o_kind o_ptr o_resource].
  rewrite bool_decide_eq_true_2, bool_decide_eq_false_2 by auto.
  by destruct (deleter _ _).
Qed.

Lemma perform_safe op w : wf w -> disciplined op w = true -> safe (perform op w).
Proof.
  intros Hwf Hd. destruct op as [v p|v p|v s p|v s p|v|v from|v from|v|v cb|v|v m c|v|v m]; cbn [perform].
  - by apply acquire_safe.
  - by apply acquire_safe.
  - unfold construct_channel. destruct (pointer_of _ s w) as [sp|] eqn:Hs; [|done].
    case_bool_decide; [done|]. destruct (pointer_of_live _ _ _ _ Hwf Hs) as [own Hl]; [done|].
    rewrite bool_decide_eq_false_2 by congruence. apply acquire_safe; eauto.
  - unfold construct_message. destruct (pointer_of _ s w) as [sp|] eqn:Hs; [|done].
    case_bool_decide; [done|]. destruct (pointer_of_live _ _ _ _ Hwf Hs) as [own Hl]; [done|].
    rewrite bool_decide_eq_false_2 by congruence. by apply acquire_safe.
  - unfold default_message. case_bool_decide; [|done]. by apply null_object_wf.
  - unfold move_construct_object. destruct (objects w !! from) as [o|] eqn:Hf; [|done].
    cbn in Hd. rewrite Hf, bool_decide_eq_true in Hd. case_bool_decide; [|done]. by apply move_wf.
  - by apply assign_safe.
  - by apply destroy_safe.
  - by apply install_safe.
  - unfold dispatch. destruct (pointer_of _ v w) as [p|] eqn:Hv; [|done].
    case_bool_decide; [done|]. destruct (pointer_of_live _ _ _ _ Hwf Hv) as [own Hl]; [done|].
    rewrite bool_decide_eq_false_2 by congruence. destruct (registered w !! p) as [cb|] eqn:Hr; [|done].
    apply (wf_registered w Hwf) in Hr as (_ & u & Hu).
    rewrite bool_decide_eq_true_2; [done|]. by eapply (wf_callbacks w Hwf).
  - done.
  - done.
  - cbn in Hd. apply bool_decide_eq_true in Hd as ->. by apply reset_null_safe.
Qed.

#[local] Abbreviation disciplined_all := (disciplined_all perform disciplined).

(** ** Properties *)


(** [channel_request_channel] makes a second owner: the channel it returns and
    the one the program accepted are the same [ssh_channel], and destroying both
    frees it twice. *)
Theorem second_owner_double_free w m mp v1 c v2 s :
  pointer_of MessageKind m w = Some mp ->
  objects w !! v1 = Some (Object ChannelKind c None) -> c <> nullptr ->
  live w !! (ChannelKind, c) = Some s -> objects w !! v2 = None ->
  perform_all [ChannelRequestChannel v2 m c; Destroy v2; Destroy v1] w = Undefined.
Proof.
  intros Hm Hv1 Hc Hl Hv2. assert (Hne : v1 <> v2) by congruence.
  cbn [Lifetimes.perform_all result_bind perform]. unfold channel_request_channel. rewrite Hm.
  rewrite bool_decide_eq_false_2 by (intros [?|[? ?]]; congruence).
  unfold destroy_object at 1, set_object. cbn [result_bind objects live registered callbacks].
  rewrite lookup_insert_eq. cbn [o_callbacks drop_callbacks o_kind o_ptr].
  unfold deleter at 1, o_resource. cbn [fst snd o_kind o_ptr live]. rewrite bool_decide_eq_false_2 by done. rewrite Hl.
  unfold destroy_object. cbn [result_bind objects live registered callbacks].
  rewrite lookup_delete_ne, lookup_insert_ne, Hv1 by done.
  cbn [o_callbacks drop_callbacks o_kind o_ptr]. unfold deleter, o_resource. cbn [fst snd o_kind o_ptr live].
  by rewrite bool_decide_eq_false_2, lookup_delete_eq.
Qed.

(** A session that is moved loses its callbacks: they stay with the object it
    was moved from, and once that is destroyed libssh calls into freed memory. *)
Theorem moved_session_dangles w v v' p cb s :
  objects w !! v = Some (Object SessionKind p (Some cb)) -> p <> nullptr ->
  live w !! (SessionKind, p) = Some s -> registered w !! p = Some cb -> objects w !! v' = None ->
  perform_all [Move v' v; Destroy v; Dispatch v'] w = Undefined.
Proof.
  intros Hv Hp Hl Hr Hv'. assert (Hne : v <> v') by congruence.
  cbn [Lifetimes.perform_all result_bind perform]. unfold move_construct_object. rewrite Hv.
  rewrite bool_decide_eq_true_2 by done. cbn [o_kind o_ptr o_callbacks].
  unfold destroy_object, set_object. cbn [result_bind objects live registered callbacks].
  rewrite lookup_insert_ne, lookup_insert_eq by done.
  cbn [o_callbacks drop_callbacks o_kind o_ptr objects live registered callbacks].
  unfold deleter, o_resource. cbn [fst snd o_kind o_ptr]. rewrite bool_decide_eq_true_2 by done.
  unfold dispatch, pointer_of. cbn [result_bind objects live registered callbacks].
  rewrite lookup_delete_ne, lookup_insert_eq by done. cbn [o_kind o_ptr].
  rewrite bool_decide_eq_true_2, bool_decide_eq_false_2, bool_decide_eq_false_2 by (done || congruence).
  rewrite Hr. by rewrite bool_decide_eq_false_2 by set_solver.
Qed.

(** ** Witnesses *)

(** A server that accepts a channel, answers a message about it and ends. *)
Definition demo_operations : list operation :=
  [NewSession 1 100; Install 1 7; Dispatch 1; NewChannel 2 1 200; GetMessage 3 1 300;
   DefaultMessage 4; Assign 4 3; Move 5 2; Destroy 3; Destroy 2; Destroy 4; Destroy 5; Destroy 1].


Definition demo_world : world :=
  World {[ 1%nat := Object SessionKind 100 (Some 7%nat); 2%nat := Object ChannelKind 200 None;
           3%nat := Object MessageKind 300 None ]}
    {[ (SessionKind, 100) := nullptr; (ChannelKind, 200) := 100; (MessageKind, 300) := nullptr ]}
    {[ 100 := 7%nat ]} {[ 7%nat ]}.

Lemma second_owner_double_free_witness :
  perform_all [ChannelRequestChannel 9 3 200; Destroy 9; Destroy 2] demo_world = Undefined.
Proof.
  apply (second_owner_double_free demo_world 3 300 2 200 9 100).
  all: by vm_compute.
Defined.

Lemma moved_session_dangles_witness :
  perform_all [Move 9 1; Destroy 1; Dispatch 9] demo_world = Undefined.
Proof.
  apply (moved_session_dangles demo_world 1 9 100 7 nullptr).
  all: by vm_compute.
Defined.
