(* ===== verification/Stream.v ===== *)
(** * Stream: the asynchronous runtime the SFTP code is written against

    [boost::capy::any_stream], [read_until], [write] and [async_mutex] are not
    part of the repository: [Runtime] holds the three calls the code makes, over
    a state [E] of the world, and [RuntimeLaws] what the code relies on
    (the documented behaviour of those calls).  [script] is a concrete runtime,
    a peer whose bytes arrive in given chunks, on which the definitions of the
    development evaluate. *)

From S2P Require Import Prelude Libssh ErrorCode Codec.

#[local] Open Scope Z_scope.

(** A [std::vector<unsigned char>]: contents and capacity. *)
Record vec := Vec { v_data : bytes; v_capacity : Z }.

(** The bytes a view [[off, off + len)] into the vector's storage shows after
    [resize(n)]: none when the vector reallocated or the view is no longer
    inside it. *)
Definition view_bytes (v : vec) (off len n : Z) : option bytes :=
  if (n <=? v_capacity v) && (off + len <=? n)
  then Some (take (Z.to_nat len) (drop (Z.to_nat off) (vec_resize n (v_data v))))
  else None.

(** [rbuf.consume(n)] on a [dynamic_buffer] over a vector. *)
Definition consume (n : Z) (data : bytes) : bytes := drop (Z.to_nat n) data.

(** ** The interface *)

Class Runtime (E : Type) := {
  (** [co_await read_until(stream, dynamic_buffer(v), &match_packet)] on a
      vector with the given contents: error code, match position, the vector *)
  read_until : bytes -> ST E (error_code * Z * vec);
  (** [co_await write(stream, buffer)] *)
  write : bytes -> ST E error_code;
  (** [co_await mutex.lock()] *)
  lock : ST E error_code;
  (** [(co_await this_coro::stop_token).stop_requested()] *)
  stop_requested : ST E bool
}.

(** The observable part of the world: what the peer has sent and the program
    has not read, and what the program has written. *)
Class RuntimeLaws (E : Type) {R : Runtime E} := {
  incoming : E -> bytes;
  outgoing : E -> bytes;
  (** [read_until] appends what it receives and, when it succeeds, stops on a
      match *)
  read_until_law buf e ec n v e' :
    read_until buf e = ((ec, n, v), e') ->
    exists got, v_data v = buf ++ got /\ incoming e = got ++ incoming e' /\
      outgoing e' = outgoing e /\ (ec_bool ec = false -> match_packet (v_data v) = Some n);
  (** [write] writes everything or fails *)
  write_law buf e ec e' :
    write buf e = (ec, e') ->
    incoming e' = incoming e /\ (ec_bool ec = false -> outgoing e' = outgoing e ++ buf);
  lock_law e ec e' : lock e = (ec, e') -> incoming e' = incoming e /\ outgoing e' = outgoing e;
  stop_law e b e' :
    stop_requested e = (b, e') -> incoming e' = incoming e /\ outgoing e' = outgoing e
}.

(** ** A scripted peer *)

(** The chunks still to arrive, the bytes written so far, and the error that
    ends the stream. *)
Record script := Script { sc_chunks : list bytes; sc_written : bytes; sc_end : errc }.

Fixpoint script_read (chunks : list bytes) (buf : bytes) (fail : error_code)
  : error_code * Z * vec * list bytes :=
  match match_packet buf with
  | Some n => ((no_error, n, Vec buf (zlen buf)), chunks)
  | None =>
      match chunks with
      | [] => ((fail, 0, Vec buf (zlen buf)), [])
      | c :: rest => script_read rest (buf ++ c) fail
      end
  end.

#[export] Instance script_runtime : Runtime script := {|
  read_until buf e :=
    let '(res, chunks) := script_read (sc_chunks e) buf (make_error_code (sc_end e)) in
    (res, Script chunks (sc_written e) (sc_end e));
  write buf e := (no_error, Script (sc_chunks e) (sc_written e ++ buf) (sc_end e));
  lock e := (no_error, e);
  stop_requested e := (false, e)
|}.

Lemma script_read_spec chunks buf fail ec n v rest :
  script_read chunks buf fail = ((ec, n, v), rest) ->
  exists got, v_data v = buf ++ got /\ concat chunks = got ++ concat rest /\
    ((ec = no_error /\ match_packet (v_data v) = Some n) \/ ec = fail).
Proof.
  revert buf. induction chunks as [|c chunks IH]; intros buf; cbn [script_read].
  - destruct (match_packet buf) as [m|] eqn:Hm; intros [= <- <- <- <-];
      exists []; rewrite app_nil_r; auto.
  - destruct (match_packet buf) as [m|] eqn:Hm.
    + intros [= <- <- <- <-]. exists []. rewrite app_nil_r. auto.
    + intros H. apply IH in H as (got & Hv & Hc & Hor). exists (c ++ got).
      rewrite app_assoc. split; [done|]. split; [|done]. cbn [concat].
      by rewrite Hc, app_assoc.
Qed.

#[export] Instance script_laws : RuntimeLaws script.
Proof.
  refine {| incoming e := concat (sc_chunks e); outgoing e := sc_written e |}.
  - intros buf e ec n v e'. cbn [read_until script_runtime].
    destruct (script_read _ _ _) as [[[ec' n'] v'] rest] eqn:H. intros [= <- <- <- <-].
    apply script_read_spec in H as (got & Hv & Hc & Hor). exists got.
    split; [done|]. split; [done|]. split; [done|]. intros Hec.
    destruct Hor as [[_ Hm]| ->]; [done|]. by rewrite ec_bool_make in Hec.
  - intros buf e ec e'. cbn. by intros [= <- <-].
  - intros e ec e'. cbn. by intros [= <- <-].
  - intros e b e'. cbn. by intros [= <- <-].
Defined.

(** ** Lemmas: a frame that arrives is read, however it is cut *)

Lemma script_read_frame chunks buf fail body rest :
  zlen body < 2 ^ 32 - 4 -> buf ++ concat chunks = frame body ++ rest ->
  exists more chunks',
    script_read chunks buf fail =
      ((no_error, 4 + zlen body, Vec (frame body ++ more) (4 + zlen body + zlen more)), chunks') /\
    rest = more ++ concat chunks'.
Proof.
  intros Hb. revert buf. induction chunks as [|c chunks IH]; intros buf Heq; cbn [script_read].
  - cbn [concat] in Heq. rewrite app_nil_r in Heq. subst buf.
    rewrite match_packet_frame by done. exists rest, []. rewrite app_nil_r. split; [|done].
    by rewrite zlen_app, zlen_frame.
  - destruct (decide (zlen (frame body) <= zlen buf)) as [Hle|Hgt].
    + assert (Hbuf : buf = frame body ++ drop (length (frame body)) buf).
      { rewrite <- (take_drop (length (frame body)) buf) at 1. f_equal.
        unfold zlen in Hle. rewrite <- (take_app_le buf (concat (c :: chunks))) by lia.
        rewrite Heq. apply take_app_length. }
      rewrite Hbuf, match_packet_frame by done. rewrite Hbuf, <- app_assoc in Heq.
      apply app_inv_head in Heq. eexists _, _. split; [|by symmetry].
      by rewrite zlen_app, zlen_frame.
    + assert (Hpre : frame body = buf ++ drop (length buf) (frame body)).
      { rewrite <- (take_drop (length buf) (frame body)) at 1. f_equal.
        unfold zlen in Hgt. rewrite <- (take_app_le (frame body) rest) by lia.
        rewrite <- Heq. apply take_app_length. }
      rewrite (match_packet_partial body buf (drop (length buf) (frame body))); [|done|done|].
      * cbn [concat] in Heq. rewrite app_assoc in Heq. by apply IH.
      * intros H0. apply (f_equal length) in H0. rewrite length_drop in H0.
        unfold zlen in Hgt. cbn [length] in H0. lia.
Qed.
