(* ===== verification/ResponseQueue.v ===== *)
(** * ResponseQueue: [detail::response_queue] of [include/corosh/sftp.hpp]

    The queue is an intrusive list: its nodes are the [response] objects that
    live in the frames of the request coroutines.  They are modelled in a store
    indexed by address; a node leaves the store when its coroutine's frame is
    destroyed ([release]), and following a pointer to an address that holds no
    node is the outcome [Dangling] (undefined behaviour in the source).

    [queue_rep h q ls] is the state the operations are meant to maintain: the
    addresses [ls] are linked from [first] to [last].  [response] is what the
    derived class stores, [on_complete] its virtual [complete]. *)

From S2P Require Import Prelude Libssh ErrorCode.

#[local] Open Scope Z_scope.

Abbreviation address := positive.

(** Outcome of code that follows pointers. *)
Inductive access (A : Type) : Type :=
| Done (a : A)
| Dangling
| Spins.
Arguments Done {A} a.
Arguments Dangling {A}.
Arguments Spins {A}.

Definition access_bind {A B} (m : access A) (k : A -> access B) : access B :=
  match m with
  | Done a => k a
  | Dangling => Dangling
  | Spins => Spins
  end.

Notation "'deref*' x ':=' m 'in' k" := (access_bind m (fun x => k))
  (at level 10, x name, m at level 100, k at level 200) : corosh_scope.

Section Queue.

Context {response : Type}.
Context (on_complete : error_code -> Z -> bytes -> response -> response).

(** [struct response] with the derived object's data. *)
Record node := Node {
  n_prev : option address;
  n_next : option address;
  n_request_id : Z;
  n_response : response
}.

Abbreviation store := (gmap address node).

(** [struct response_queue]. *)
Record response_queue := ResponseQueue {
  first : option address;
  last : option address;
  request_id_gen : Z
}.

Definition empty_queue : response_queue := ResponseQueue None None 0.

Definition load (h : store) (l : address) : access node :=
  match h !! l with
  | Some n => Done n
  | None => Dangling
  end.

Definition set_next (n : node) (p : option address) : node :=
  Node (n_prev n) p (n_request_id n) (n_response n).

Definition set_response (n : node) (r : response) : node :=
  Node (n_prev n) (n_next n) (n_request_id n) r.

(** A response object constructed at [l] with its [request_id]; the base
    class initialises both links to [nullptr]. *)
Definition construct (h : store) (l : address) (id : Z) (r : response) : store :=
  <[l := Node None None id r]> h.

(** The coroutine frame that holds the response is destroyed. *)
Definition release (h : store) (l : address) : store := delete l h.

(** [get_request_id() { return request_id_gen++; }] *)
Definition get_request_id (q : response_queue) : Z * response_queue :=
  (request_id_gen q, ResponseQueue (first q) (last q) (u32 (request_id_gen q + 1))).

(** [enqueue_response] *)
Definition enqueue_response (h : store) (q : response_queue) (l : address)
  : access (store * response_queue) :=
  match last q with
  | None => Done (h, ResponseQueue (Some l) (Some l) (request_id_gen q))
  | Some p =>
      deref* n := load h p in
      Done (<[p := set_next n (Some l)]> h,
            ResponseQueue (first q) (Some l) (request_id_gen q))
  end.

(** The body of the matching branch of [complete]. *)
Definition complete_at (h : store) (q : response_queue) (l : address) (n : node)
  (tp : Z) (ec : error_code) (buf : bytes) : access (store * response_queue) :=
  deref* hq :=
    match n_prev n with
    | Some p =>
        deref* pn := load h p in
        Done (<[p := set_next pn (n_next n)]> h, q)
    | None =>
        Done (h, if decide (Some l = last q)
                 then ResponseQueue (first q) None (request_id_gen q)
                 else q)
    end in
  let '(h, q) := hq in
  deref* n := load h l in
  Done (<[l := set_response n (on_complete ec tp buf (n_response n))]> h, q).

(** [for (auto it = first; it != nullptr; it = it->next) ...] *)
Fixpoint complete_from (fuel : nat) (h : store) (q : response_queue) (it : option address)
  (id tp : Z) (ec : error_code) (buf : bytes) : access (bool * store * response_queue) :=
  match fuel with
  | O => Spins
  | S f =>
      match it with
      | None => Done (false, h, q)
      | Some l =>
          deref* n := load h l in
          if n_request_id n =? id then
            deref* hq := complete_at h q l n tp ec buf in
            Done (true, fst hq, snd hq)
          else complete_from f h q (n_next n) id tp ec buf
      end
  end.

(** [complete] *)
Definition complete (h : store) (q : response_queue) (id tp : Z) (ec : error_code)
  (buf : bytes) : access (bool * store * response_queue) :=
  complete_from (S (S (size h))) h q (first q) id tp ec buf.

(** [while (first != nullptr) ...] *)
Fixpoint cancel_from (fuel : nat) (h : store) (it : option address) (ec : error_code)
  : access store :=
  match fuel with
  | O => Spins
  | S f =>
      match it with
      | None => Done h
      | Some current =>
          deref* n := load h current in
          cancel_from f
            (<[current := set_response n (on_complete ec 0 [] (n_response n))]> h)
            (n_next n) ec
      end
  end.

(** [cancel_all] *)
Definition cancel_all (h : store) (q : response_queue) (ec : error_code)
  : access (store * response_queue) :=
  deref* h' := cancel_from (S (S (size h))) h (first q) ec in
  Done (h', ResponseQueue None None (request_id_gen q)).

(** [~response_queue()] *)
Definition destroy (h : store) (q : response_queue) : access store :=
  deref* hq := cancel_all h q (make_error_code broken_pipe) in
  Done (fst hq).

(** [response_queue(response_queue && rhs)]: the new queue and what is left in
    [rhs]; [last] keeps its default initialiser. *)
Definition move_construct (rhs : response_queue) : response_queue * response_queue :=
  (ResponseQueue (first rhs) None (request_id_gen rhs),
   ResponseQueue None (last rhs) (request_id_gen rhs)).

(** [operator=(response_queue && rhs)] *)
Definition move_assign (h : store) (q rhs : response_queue)
  : access (store * (response_queue * response_queue)) :=
  deref* hq := cancel_all h q (make_error_code broken_pipe) in
  Done (fst hq, (ResponseQueue (first rhs) (last (snd hq)) (request_id_gen rhs),
                 ResponseQueue None (last rhs) (request_id_gen rhs))).

(** ** The intended representation *)

(** The addresses [ls] are linked by [next] from [p] to a null pointer; no
    [prev] link is ever set. *)
Fixpoint chain (h : store) (p : option address) (ls : list address) : Prop :=
  match ls with
  | [] => p = None
  | l :: ls' =>
      p = Some l /\
      exists n, h !! l = Some n /\ n_prev n = None /\ chain h (n_next n) ls'
  end.

Definition queue_rep (h : store) (q : response_queue) (ls : list address) : Prop :=
  NoDup ls /\ chain h (first q) ls /\ last q = list.last ls.

(** Request ids of the linked nodes. *)
Definition node_id (h : store) (l : address) : option Z := n_request_id <$> h !! l.

End Queue.

Arguments node : clear implicits.
Arguments Node {response} _ _ _ _.

(** ** Lemmas *)

Create HintDb queue.

Section QueueLemmas.

Context {response : Type} (on_complete : error_code -> Z -> bytes -> response -> response).
Implicit Types (h : gmap address (node response)) (ls : list address).

Lemma chain_lookup h p ls l :
  chain h p ls -> l ∈ ls -> exists n, h !! l = Some n /\ n_prev n = None.
Proof.
  revert p. induction ls as [|k ls IH]; intros p; cbn [chain]; [set_solver|].
  intros (-> & n & Hn & Hp & Hc) Hin. apply elem_of_cons in Hin as [->|Hin]; eauto.
Qed.

Lemma chain_agree h h' p ls :
  chain h p ls -> (forall l, l ∈ ls -> h' !! l = h !! l) -> chain h' p ls.
Proof.
  revert p. induction ls as [|k ls IH]; intros p; cbn [chain]; [done|].
  intros (-> & n & Hn & Hp & Hc) Hag. split; [done|]. exists n. split; [|split; [done|]].
  - rewrite Hag; [done | set_solver].
  - apply IH; [done|]. intros l Hl. apply Hag. set_solver.
Qed.

Lemma chain_insert_ne h p ls l n : l ∉ ls -> chain h p ls -> chain (<[l := n]> h) p ls.
Proof.
  intros Hl Hc. eapply chain_agree; [done|]. intros k Hk.
  apply lookup_insert_ne. set_solver.
Qed.

Lemma chain_delete_ne h p ls l : l ∉ ls -> chain h p ls -> chain (delete l h) p ls.
Proof.
  intros Hl Hc. eapply chain_agree; [done|]. intros k Hk.
  apply lookup_delete_ne. set_solver.
Qed.

Lemma chain_set_response h p ls l n r :
  h !! l = Some n -> chain h p ls -> chain (<[l := set_response n r]> h) p ls.
Proof.
  intros Hl. revert p. induction ls as [|k ls IH]; intros p; cbn [chain]; [done|].
  intros (-> & m & Hm & Hp & Hc). split; [done|].
  destruct (decide (l = k)) as [<-|Hne].
  - simplify_map_eq. eexists. split; [done|]. split; [done|]. by apply IH.
  - exists m. simplify_map_eq. split; [done|]. split; [done|]. by apply IH.
Qed.

(** Linking a fresh node after the last one. *)
Lemma chain_snoc h p ls k l n nl :
  NoDup (ls ++ [k]) -> l ∉ ls ++ [k] -> h !! k = Some n ->
  h !! l = Some nl -> n_prev nl = None -> n_next nl = None ->
  chain h p (ls ++ [k]) ->
  chain (<[k := set_next n (Some l)]> h) p (ls ++ [k] ++ [l]).
Proof.
  intros Hnd Hl Hk Hnl Hpl Hxl. revert p Hnd Hl.
  induction ls as [|j ls IH]; intros p Hnd Hl; cbn [app chain].
  - intros (-> & m & Hm & Hp & Hc). split; [done|]. rewrite Hk in Hm. injection Hm as <-.
    eexists. rewrite lookup_insert_eq. split; [done|]. split; [done|]. cbn [n_next set_next].
    split; [done|]. exists nl. rewrite lookup_insert_ne by set_solver. auto.
  - intros (-> & m & Hm & Hp & Hc). apply NoDup_cons in Hnd as [Hj Hnd].
    split; [done|]. exists m. rewrite lookup_insert_ne by set_solver.
    split; [done|]. split; [done|].
    apply IH; [done | by apply not_elem_of_cons in Hl as [_ Hl] | done].
Qed.

Lemma chain_length h p ls : NoDup ls -> chain h p ls -> (length ls <= size h)%nat.
Proof.
  intros Hnd Hc. rewrite <- (size_list_to_set (C := gset address)) by done.
  rewrite <- size_dom. apply subseteq_size. intros l Hl.
  apply elem_of_list_to_set in Hl. apply elem_of_dom.
  destruct (chain_lookup _ _ _ _ Hc Hl) as (n & Hn & _). eauto.
Qed.

(** Scanning a chain none of whose nodes has the id. *)
Lemma complete_from_miss h q it ls fuel id tp ec buf :
  chain h it ls -> (length ls < fuel)%nat ->
  (forall l, l ∈ ls -> node_id h l <> Some id) ->
  complete_from on_complete fuel h q it id tp ec buf = Done (false, h, q).
Proof.
  revert it fuel. induction ls as [|l ls IH]; intros it fuel Hc Hf Hid;
    (destruct fuel as [|fuel]; [cbn in Hf; lia|]); cbn [complete_from chain length] in *.
  - by rewrite Hc.
  - destruct Hc as (-> & n & Hn & Hp & Hc). unfold load. rewrite Hn. cbn [access_bind].
    destruct (Z.eqb_spec (n_request_id n) id) as [He|He].
    + exfalso. apply (Hid l); [set_solver|]. unfold node_id. by rewrite Hn, <- He.
    + apply IH; [done | lia | set_solver].
Qed.

(** Scanning a chain to the first node with the id. *)
Lemma complete_from_hit h q it pre l post fuel id tp ec buf n :
  chain h it (pre ++ l :: post) -> (length pre < fuel)%nat ->
  (forall k, k ∈ pre -> node_id h k <> Some id) ->
  h !! l = Some n -> n_request_id n = id ->
  complete_from on_complete fuel h q it id tp ec buf =
    Done (true, <[l := set_response n (on_complete ec tp buf (n_response n))]> h,
          if decide (Some l = last q)
          then ResponseQueue (first q) None (request_id_gen q) else q).
Proof.
  intros Hc Hf Hpre Hl Hid. revert it fuel Hc Hf Hpre.
  induction pre as [|k pre IH]; intros it fuel Hc Hf Hpre;
    (destruct fuel as [|fuel]; [cbn in Hf; lia|]); cbn [complete_from app chain length] in *;
    destruct Hc as (-> & m & Hm & Hp & Hc); unfold load; rewrite Hm; cbn [access_bind].
  - rewrite Hl in Hm. injection Hm as <-. rewrite Hid, Z.eqb_refl.
    unfold complete_at. rewrite Hp. cbn [access_bind]. unfold load. rewrite Hl. done.
  - destruct (Z.eqb_spec (n_request_id m) id) as [He|He].
    + exfalso. apply (Hpre k); [set_solver|]. unfold node_id. by rewrite Hm, <- He.
    + apply IH; [done | lia | set_solver].
Qed.

(** A scan that reaches an address whose frame is gone is undefined. *)
Lemma complete_from_dangling h q l fuel id tp ec buf :
  h !! l = None -> complete_from on_complete (S fuel) h q (Some l) id tp ec buf = Dangling.
Proof. intros Hl. cbn [complete_from]. unfold load. by rewrite Hl. Qed.

Lemma cancel_from_chain h it ls fuel ec :
  chain h it ls -> NoDup ls -> (length ls < fuel)%nat ->
  exists h', cancel_from on_complete fuel h it ec = Done h' /\
    (forall l n, l ∈ ls -> h !! l = Some n ->
       h' !! l = Some (set_response n (on_complete ec 0 [] (n_response n)))) /\
    (forall l, l ∉ ls -> h' !! l = h !! l).
Proof.
  revert h it fuel. induction ls as [|l ls IH]; intros h it fuel Hc Hnd Hf;
    (destruct fuel as [|fuel]; [cbn in Hf; lia|]); cbn [cancel_from chain length] in *.
  - rewrite Hc. exists h. split; [done|]. set_solver.
  - destruct Hc as (-> & n & Hn & Hp & Hc). apply NoDup_cons in Hnd as [Hl Hnd].
    unfold load. rewrite Hn. cbn [access_bind].
    edestruct (IH (<[l := set_response n (on_complete ec 0 [] (n_response n))]> h)
      (n_next n) fuel) as (h' & Hh' & Hin & Hout); [by apply chain_insert_ne | done | lia |].
    exists h'. split; [exact Hh'|]. split.
    + intros k m Hk Hm. apply elem_of_cons in Hk as [->|Hk].
      * rewrite Hout by done. simplify_map_eq. done.
      * apply Hin; [done|]. rewrite lookup_insert_ne; [done | set_solver].
    + intros k Hk. rewrite Hout by set_solver. apply lookup_insert_ne. set_solver.
Qed.

(** ** The operations on a represented queue *)

Lemma empty_queue_rep h : queue_rep h empty_queue [].
Proof. split; [constructor|]. done. Qed.

(** A representation survives the construction of an unlinked node. *)
Lemma construct_rep h q ls l id r :
  l ∉ ls -> queue_rep h q ls -> queue_rep (construct h l id r) q ls.
Proof.
  intros Hl (Hnd & Hc & Hlast). split; [done|]. split; [|done]. by apply chain_insert_ne.
Qed.

Lemma enqueue_rep h q ls l nl :
  queue_rep h q ls -> l ∉ ls -> h !! l = Some nl -> n_prev nl = None -> n_next nl = None ->
  exists h' q', enqueue_response h q l = Done (h', q') /\ queue_rep h' q' (ls ++ [l]) /\
    (forall k, node_id h' k = node_id h k) /\ request_id_gen q' = request_id_gen q.
Proof.
  intros (Hnd & Hc & Hlast) Hl Hnl Hp Hx. unfold enqueue_response.
  destruct ls as [|k ls _] using rev_ind.
  - rewrite Hlast. cbn. do 2 eexists. split; [done|]. split; [|done].
    split; [apply NoDup_singleton|]. split; [|done]. cbn. split; [done|]. eauto.
  - rewrite Hlast, last_snoc.
    destruct (chain_lookup _ _ _ k Hc) as (n & Hn & _); [set_solver|].
    unfold load. rewrite Hn. cbn [access_bind]. do 2 eexists. split; [done|].
    split; [|split; [|done]].
    + split; [|split; cbn [first last]].
      * apply NoDup_app. split; [done|]. split; [set_solver | apply NoDup_singleton].
      * rewrite <- app_assoc. by apply (chain_snoc _ _ ls k l n nl).
      * by rewrite last_snoc.
    + intros j. unfold node_id. destruct (decide (k = j)) as [<-|Hne].
      * by rewrite lookup_insert_eq, Hn.
      * by rewrite lookup_insert_ne.
Qed.

(** A queue whose [last] is null restarts at the new node, whatever [first]
    still points to. *)
Lemma enqueue_restart h q l nl :
  last q = None -> h !! l = Some nl -> n_prev nl = None -> n_next nl = None ->
  enqueue_response h q l = Done (h, ResponseQueue (Some l) (Some l) (request_id_gen q)) /\
  queue_rep h (ResponseQueue (Some l) (Some l) (request_id_gen q)) [l].
Proof.
  intros Hlast Hnl Hp Hx. unfold enqueue_response. rewrite Hlast. split; [done|].
  split; [apply NoDup_singleton|]. split; [|done]. cbn. split; [done|]. eauto.
Qed.

Lemma complete_rep_miss h q ls id tp ec buf :
  queue_rep h q ls -> (forall l, l ∈ ls -> node_id h l <> Some id) ->
  complete on_complete h q id tp ec buf = Done (false, h, q).
Proof.
  intros (Hnd & Hc & Hlast) Hid. eapply complete_from_miss; [done| |done].
  pose proof (chain_length _ _ _ Hnd Hc). lia.
Qed.

Lemma complete_rep_hit h q pre l post id tp ec buf n :
  queue_rep h q (pre ++ l :: post) -> (forall k, k ∈ pre -> node_id h k <> Some id) ->
  h !! l = Some n -> n_request_id n = id ->
  complete on_complete h q id tp ec buf =
    Done (true, <[l := set_response n (on_complete ec tp buf (n_response n))]> h,
          if decide (post = []) then ResponseQueue (first q) None (request_id_gen q) else q).
Proof.
  intros (Hnd & Hc & Hlast) Hpre Hl Hid. unfold complete.
  rewrite (complete_from_hit _ _ _ pre l post _ _ _ _ _ n); [|done| |done..].
  - do 3 f_equal. rewrite Hlast. apply NoDup_app in Hnd as (_ & _ & Hnd).
    apply NoDup_cons in Hnd as [Hlp _].
    destruct post as [|k post _] using rev_ind.
    + rewrite last_snoc, decide_True by done. by rewrite decide_True.
    + rewrite app_comm_cons, app_assoc, last_snoc.
      rewrite decide_False by (intros [=]; set_solver).
      rewrite decide_False; [done|]. by destruct post.
  - pose proof (chain_length _ _ _ Hnd Hc) as H. rewrite length_app in H. lia.
Qed.

Lemma cancel_all_rep h q ls ec :
  queue_rep h q ls ->
  exists h', cancel_all on_complete h q ec = Done (h', ResponseQueue None None (request_id_gen q)) /\
    (forall l n, l ∈ ls -> h !! l = Some n ->
       h' !! l = Some (set_response n (on_complete ec 0 [] (n_response n)))) /\
    (forall l, l ∉ ls -> h' !! l = h !! l).
Proof.
  intros (Hnd & Hc & Hlast). unfold cancel_all.
  destruct (cancel_from_chain h (first q) ls (S (S (size h))) ec) as (h' & -> & Hin & Hout);
    [done..| |].
  - pose proof (chain_length _ _ _ Hnd Hc). lia.
  - cbn [access_bind]. eauto.
Qed.

Lemma get_request_id_rep h q ls :
  queue_rep h q ls -> queue_rep h (snd (get_request_id q)) ls.
Proof. done. Qed.

End QueueLemmas.

(** ** Properties *)

Section Properties.

Context {response : Type} (on_complete : error_code -> Z -> bytes -> response -> response).
Implicit Types (h : gmap address (node response)) (ls : list address).

(** C30: The contract of the queue while it is well linked: a response that is
    enqueued is found by its request id among any number of responses with
    other ids, its [complete] is called exactly once with the reply's type, error
    code and payload, no other response is touched, and a reply to an id nobody
    waits for changes nothing. *)
Theorem enqueue_then_complete h q ls l id r tp ec buf :
  queue_rep h q ls -> h !! l = None -> (forall k, k ∈ ls -> node_id h k <> Some id) ->
  exists h1 q1 h2 q2 n,
    enqueue_response (construct h l id r) q l = Done (h1, q1) /\
    queue_rep h1 q1 (ls ++ [l]) /\
    complete on_complete h1 q1 id tp ec buf = Done (true, h2, q2) /\
    h2 !! l = Some n /\ n_response n = on_complete ec tp buf r /\
    (forall k, k <> l -> h2 !! k = h1 !! k) /\
    (forall id', (forall k, k ∈ ls ++ [l] -> node_id h1 k <> Some id') ->
       complete on_complete h1 q1 id' tp ec buf = Done (false, h1, q1)).
Proof.
  intros Hq Hl Hids.
  assert (Hlls : l ∉ ls).
  { intros Hin. destruct Hq as (_ & Hc & _). destruct (chain_lookup _ _ _ _ Hc Hin) as (n & Hn & _).
    congruence. }
  pose proof (construct_rep h q ls l id r Hlls Hq) as Hq0.
  assert (Hnl : construct h l id r !! l = Some (Node None None id r)) by apply lookup_insert_eq.
  destruct (enqueue_rep _ q ls l _ Hq0 Hlls Hnl eq_refl eq_refl) as (h1 & q1 & He & Hq1 & Hid1 & _).
  assert (Hn1 : exists n1, h1 !! l = Some n1 /\ n_response n1 = r).
  { unfold enqueue_response in He. destruct (last q) as [p|].
    - unfold load in He. destruct (construct h l id r !! p) as [np|] eqn:Hp; [|done].
      injection He as <- <-. destruct (decide (p = l)) as [->|Hne].
      + rewrite lookup_insert_eq. eexists. split; [done|]. rewrite Hnl in Hp. by injection Hp as <-.
      + rewrite lookup_insert_ne by done. rewrite Hnl. by eexists.
    - injection He as <- <-. rewrite Hnl. by eexists. }
  destruct Hn1 as (n1 & Hn1 & Hr1).
  assert (Hidl : n_request_id n1 = id).
  { specialize (Hid1 l). unfold node_id in Hid1. rewrite Hn1, Hnl in Hid1. by injection Hid1. }
  pose proof (complete_rep_hit on_complete h1 q1 ls l [] id tp ec buf n1 Hq1) as Hc.
  do 5 eexists. split; [exact He|]. split; [exact Hq1|]. split; [apply Hc|].
  - intros k Hk. rewrite Hid1. unfold node_id, construct.
    rewrite lookup_insert_ne by set_solver. by apply Hids.
  - exact Hn1.
  - exact Hidl.
  - split; [apply lookup_insert_eq|]. split; [cbn; by rewrite Hr1|]. split.
    + intros k Hk. by apply lookup_insert_ne.
    + intros id' Hid'. by eapply complete_rep_miss.
Qed.

(** Answering the most recent request while older ones are pending loses the
    older ones: [complete] clears [last] instead of unlinking the node, so the
    next request that is enqueued becomes the whole queue, and the replies to
    the older requests no longer find anyone. *)
Theorem completing_last_loses_pending h q pre l n k nk tp ec buf old tp' ec' buf' :
  queue_rep h q (pre ++ [l]) -> h !! l = Some n ->
  (forall j, j ∈ pre -> node_id h j <> Some (n_request_id n)) ->
  k ∉ pre ++ [l] -> h !! k = Some nk -> n_prev nk = None -> n_next nk = None ->
  n_request_id nk <> old ->
  exists h1 q1 q2,
    complete on_complete h q (n_request_id n) tp ec buf = Done (true, h1, q1) /\
    enqueue_response h1 q1 k = Done (h1, q2) /\
    complete on_complete h1 q2 old tp' ec' buf' = Done (false, h1, q2).
Proof.
  intros Hq Hl Hpre Hk Hnk Hp Hx Hold.
  pose proof (complete_rep_hit on_complete h q pre l [] (n_request_id n) tp ec buf n Hq Hpre Hl eq_refl)
    as Hc. rewrite decide_True in Hc by done.
  set (h1 := <[l := _]> h) in Hc. set (q1 := ResponseQueue _ _ _) in Hc.
  assert (Hk1 : h1 !! k = Some nk) by (unfold h1; rewrite lookup_insert_ne; [done | set_solver]).
  destruct (enqueue_restart h1 q1 k nk eq_refl Hk1 Hp Hx) as [He Hrep].
  do 3 eexists. split; [exact Hc|]. split; [exact He|].
  eapply complete_rep_miss; [exact Hrep|]. intros j Hj.
  apply list_elem_of_singleton in Hj as ->. unfold node_id. rewrite Hk1. cbn. congruence.
Qed.

(** A response that was answered stays linked from [first].  Once its
    coroutine has returned, the next reply, whomever it is for, and the
    destructor of the queue both follow the pointer into the destroyed frame
    (unless another request was enqueued on the emptied queue in between). *)
Theorem answered_response_dangles h q l post n tp ec buf :
  queue_rep h q (l :: post) -> h !! l = Some n ->
  exists h1 q1,
    complete on_complete h q (n_request_id n) tp ec buf = Done (true, h1, q1) /\
    (forall id' tp' ec' buf',
       complete on_complete (release h1 l) q1 id' tp' ec' buf' = Dangling) /\
    destroy on_complete (release h1 l) q1 = Dangling.
Proof.
  intros Hq Hl. pose proof Hq as (_ & (Hf & _) & _).
  pose proof (complete_rep_hit on_complete h q [] l post (n_request_id n) tp ec buf n Hq) as Hc.
  do 2 eexists. split; [apply Hc; [set_solver|done|done]|].
  match goal with |- context [release ?h l] => set (h1 := h) end.
  assert (release h1 l !! l = None) as Hno by apply lookup_delete_eq.
  assert (forall q1, first q1 = Some l -> destroy on_complete (release h1 l) q1 = Dangling) as Hd.
  { intros q1 Hq1. unfold destroy, cancel_all. rewrite Hq1. cbn [cancel_from]. unfold load. by rewrite Hno. }
  split; [intros id' tp' ec' buf'; unfold complete|apply Hd]; destruct (decide (post = [])); cbn [first];
    rewrite ?Hf; try done; by apply complete_from_dangling.
Qed.

(** Moving a queue with pending requests loses them: the move constructor
    leaves [last] null, so the next request that is enqueued on the new queue
    replaces the pending ones. *)
Theorem moved_queue_loses_pending h q ls k nk old tp ec buf :
  queue_rep h q ls -> h !! k = Some nk -> n_prev nk = None -> n_next nk = None ->
  n_request_id nk <> old ->
  let '(q1, rhs) := move_construct q in
  first rhs = None /\
  exists q2, enqueue_response h q1 k = Done (h, q2) /\
    complete on_complete h q2 old tp ec buf = Done (false, h, q2).
Proof.
  intros Hq Hnk Hp Hx Hold. cbn. split; [done|].
  destruct (enqueue_restart h (ResponseQueue (first q) None (request_id_gen q)) k nk eq_refl Hnk Hp Hx)
    as [He Hrep].
  eexists. split; [exact He|]. eapply complete_rep_miss; [exact Hrep|]. intros j Hj.
  apply list_elem_of_singleton in Hj as ->. unfold node_id. rewrite Hnk. cbn. congruence.
Qed.

End Properties.

(** ** Witnesses *)

(** Responses that record the types they were completed with; a store with two
    linked ones and a third that is not linked. *)
Definition demo_complete (ec : error_code) (tp : Z) (buf : bytes) (r : list Z) : list Z := tp :: r.
Definition demo_store : gmap address (node (list Z)) :=
  <[3%positive := Node None None 12 []]>
  (<[2%positive := Node None None 11 []]>
  (<[1%positive := Node None (Some 2%positive) 10 []]> ∅)).
Definition demo_queue : response_queue := ResponseQueue (Some 1%positive) (Some 2%positive) 13.

Lemma demo_queue_rep : queue_rep demo_store demo_queue [1%positive; 2%positive].
Proof.
  split; [apply (bool_decide_unpack _); by vm_compute|]. split; [|done].
  cbn. split; [done|]. eexists. split; [by vm_compute|]. split; [done|].
  split; [done|]. eexists. split; [by vm_compute|]. done.
Qed.

Lemma enqueue_then_complete_witness :
  exists h1 q1 h2 q2 n,
    enqueue_response (construct demo_store 4%positive 13 []) demo_queue 4%positive = Done (h1, q1) /\
    queue_rep h1 q1 ([1%positive; 2%positive] ++ [4%positive]) /\
    complete demo_complete h1 q1 13 101 no_error [] = Done (true, h2, q2) /\
    h2 !! 4%positive = Some n /\ n_response n = demo_complete no_error 101 [] [] /\
    (forall k, k <> 4%positive -> h2 !! k = h1 !! k) /\
    (forall id', (forall k, k ∈ [1%positive; 2%positive] ++ [4%positive] -> node_id h1 k <> Some id') ->
       complete demo_complete h1 q1 id' 101 no_error [] = Done (false, h1, q1)).
Proof.
  apply (enqueue_then_complete demo_complete demo_store demo_queue [1%positive; 2%positive]).
  - apply demo_queue_rep.
  - by vm_compute.
  - intros k Hk. repeat (apply elem_of_cons in Hk as [->|Hk]); [by vm_compute..|].
    by apply not_elem_of_nil in Hk.
Defined.

Lemma completing_last_loses_pending_witness :
  exists h1 q1 q2,
    complete demo_complete demo_store demo_queue 11 101 no_error [] = Done (true, h1, q1) /\
    enqueue_response h1 q1 3%positive = Done (h1, q2) /\
    complete demo_complete h1 q2 10 101 no_error [] = Done (false, h1, q2).
Proof.
  apply (completing_last_loses_pending demo_complete demo_store demo_queue [1%positive] 2%positive
    (Node None None 11 []) 3%positive (Node None None 12 [])).
  - apply demo_queue_rep.
  - by vm_compute.
  - intros j Hj. apply list_elem_of_singleton in Hj as ->. by vm_compute.
  - apply (bool_decide_unpack _). by vm_compute.
  - by vm_compute.
  - done.
  - done.
  - done.
Defined.

Lemma answered_response_dangles_witness :
  exists h1 q1,
    complete demo_complete demo_store demo_queue 10 101 no_error [] = Done (true, h1, q1) /\
    (forall id' tp' ec' buf',
       complete demo_complete (release h1 1%positive) q1 id' tp' ec' buf' = Dangling) /\
    destroy demo_complete (release h1 1%positive) q1 = Dangling.
Proof.
  apply (answered_response_dangles demo_complete demo_store demo_queue 1%positive [2%positive]
    (Node None (Some 2%positive) 10 [])).
  - apply demo_queue_rep.
  - by vm_compute.
Defined.

Lemma moved_queue_loses_pending_witness :
  let '(q1, rhs) := move_construct demo_queue in
  first rhs = None /\
  exists q2, enqueue_response demo_store q1 3%positive = Done (demo_store, q2) /\
    complete demo_complete demo_store q2 10 101 no_error [] = Done (false, demo_store, q2).
Proof.
  apply (moved_queue_loses_pending demo_complete demo_store demo_queue [1%positive; 2%positive]
    3%positive (Node None None 12 [])).
  - apply demo_queue_rep.
  - by vm_compute.
  - done.
  - done.
  - done.
Defined.
