(* ===== verification/Responses.v ===== *)
(** * Responses: the six [ssh_fxp_*_response] handlers of [src/sftp.cpp]

    Each handler is a [detail::response] whose virtual [complete(ec, type,
    payload)] decodes one reply into the waiting coroutine's frame.  [response]
    is the sum of the six derived classes; [on_complete] is the virtual
    dispatch, in the form [ResponseQueue] expects.

    A [dir::entry] response refers to the [dir]'s own [buffer_], a data response
    to the caller's buffer: the record holds the contents of that vector or
    buffer while the request is pending. *)

From S2P Require Import Prelude Libssh ErrorCode Codec.

#[local] Open Scope Z_scope.

(** ** The response objects *)

Record status_response := StatusResponse {
  st_completed : bool; st_ec : error_code; st_message : bytes; st_language_tag : bytes }.

Record handle_response := HandleResponse {
  hd_completed : bool; hd_ec : error_code; hd_handle : bytes }.

Record dir_entry_response := DirEntryResponse {
  de_completed : bool; de_ec : error_code; de_entries : list entry }.

Record data_response := DataResponse {
  da_completed : bool; da_ec : error_code; da_dest : bytes; da_n : Z }.

Record attrs_response := AttrsResponse {
  at_completed : bool; at_ec : error_code; at_attr : attributes }.

Record name_response := NameResponse {
  nm_completed : bool; nm_ec : error_code; nm_name : bytes }.

Inductive response :=
| RStatus (r : status_response)
| RHandle (r : handle_response)
| RDirEntry (r : dir_entry_response)
| RData (r : data_response)
| RAttrs (r : attrs_response)
| RName (r : name_response).

(** The constructors' initial states. *)
Definition new_status_response : status_response := StatusResponse false no_error [] [].
Definition new_handle_response : handle_response := HandleResponse false no_error [].
Definition new_dir_entry_response (entries : list entry) : dir_entry_response :=
  DirEntryResponse false no_error entries.
Definition new_data_response (dest : bytes) : data_response :=
  DataResponse false no_error dest 0.
Definition new_attrs_response : attrs_response :=
  AttrsResponse false no_error empty_attributes.
Definition new_name_response : name_response := NameResponse false no_error [].

(** ** The handlers *)

(** [if (!ec && type != expected) ec.assign(SSH_FX_BAD_MESSAGE, sftp_category());] *)
Definition expect_type (ok : bool) (ec : error_code) : error_code :=
  if negb (ec_bool ec) && negb ok then bad_message_ec else ec.

(** [if (!ec && error != SSH_FX_OK) ec.assign(error, sftp_category());] *)
Definition assign_status (error : Z) (ec : error_code) : error_code :=
  if negb (ec_bool ec) && negb (error =? SSH_FX_OK)
  then ErrorCode (i32 error) sftp_category else ec.

(** The [SSH_FXP_STATUS] branch all handlers but the first share: the error
    code it leaves. *)
Definition status_ec (ec : error_code) (payload : bytes) : error_code :=
  let '(error, r) := take_u32 (Reader payload ec) in assign_status error (rd_ec r).

Definition complete_status (ec_ : error_code) (type : Z) (payload : bytes)
  (self : status_response) : status_response :=
  let ec := expect_type (type =? SSH_FXP_STATUS) ec_ in
  let '(error, r) := take_u32 (Reader payload ec) in
  let '(message, language_tag, r) :=
    if 0 <? zlen (rd_buf r) then
      let '(message, r) := take_str r in
      let '(language_tag, r) := take_str r in
      (message, language_tag, r)
    else (st_message self, st_language_tag self, r) in
  StatusResponse true (assign_status error (rd_ec r)) message language_tag.

Definition complete_handle (ec_ : error_code) (type : Z) (payload : bytes)
  (self : handle_response) : handle_response :=
  if negb (ec_bool ec_) && (type =? SSH_FXP_STATUS)
  then HandleResponse true (status_ec ec_ payload) (hd_handle self)
  else
    let ec := expect_type (type =? SSH_FXP_HANDLE) ec_ in
    if ec_bool ec then HandleResponse true ec (hd_handle self)
    else
      let '(h, r) := take_str (Reader payload ec) in
      HandleResponse true (rd_ec r) (if ec_bool (rd_ec r) then hd_handle self else h).

(** The loop of the directory handler: state [(count, entries), reader]. *)
Definition entries_cond (s : (Z * list entry) * reader) : bool :=
  negb (ec_bool (rd_ec (snd s))) && (0 <? fst (fst s)).

Definition take_entry : ST reader entry :=
  let* fn := take_str in
  let* ln := take_str in
  let* at_ := take_attrs in
  st_ret (Entry at_ fn ln).

Definition entries_body (s : (Z * list entry) * reader) : (Z * list entry) * reader :=
  let '((count, entries), r) := s in
  let '(e, r) := take_entry r in
  if ec_bool (rd_ec r) then ((count, entries), r)
  else ((count - 1, entries ++ [e]), r).

Definition complete_dir_entry (ec_ : error_code) (type : Z) (payload : bytes)
  (self : dir_entry_response) : dir_entry_response :=
  if negb (ec_bool ec_) && (type =? SSH_FXP_STATUS)
  then DirEntryResponse true (status_ec ec_ payload) (de_entries self)
  else
    let ec := expect_type (type =? SSH_FXP_NAME) ec_ in
    if ec_bool ec then DirEntryResponse true ec (de_entries self)
    else
      let '(count, r) := take_u32 (Reader payload ec) in
      let r := if negb (ec_bool (rd_ec r)) && (count =? 0)
               then Reader (rd_buf r) bad_message_ec else r in
      let '((_, entries), r) :=
        while entries_cond entries_body (read_fuel r) ((count, de_entries self), r) in
      DirEntryResponse true (rd_ec r) entries.

(** [std::memcpy(dest.data(), data.data(), n)]. *)
Definition memcpy (dest data : bytes) (n : Z) : bytes :=
  take (Z.to_nat n) data ++ drop (Z.to_nat n) dest.

Section WithPlatform.
Context {P : Platform}.

Definition complete_data (ec_ : error_code) (type : Z) (payload : bytes)
  (self : data_response) : data_response :=
  if negb (ec_bool ec_) && (type =? SSH_FXP_STATUS)
  then
    let '(error, r) := take_u32 (Reader payload ec_) in
    let ec :=
      if ec_bool (rd_ec r) then rd_ec r
      else if error =? SSH_FX_EOF then capy_eof
      else if negb (error =? SSH_FX_OK) then ErrorCode (i32 error) sftp_category
      else rd_ec r in
    DataResponse true ec (da_dest self) (da_n self)
  else
    let ec := expect_type (type =? SSH_FXP_DATA) ec_ in
    if ec_bool ec then DataResponse true ec (da_dest self) (da_n self)
    else
      let '(data, r) := take_str (Reader payload ec) in
      if ec_bool (rd_ec r) then DataResponse true (rd_ec r) (da_dest self) (da_n self)
      else
        let n := Z.min (zlen data) (zlen (da_dest self)) in
        DataResponse true (rd_ec r) (memcpy (da_dest self) data n) n.

Definition complete_attrs (ec_ : error_code) (type : Z) (payload : bytes)
  (self : attrs_response) : attrs_response :=
  if negb (ec_bool ec_) && (type =? SSH_FXP_STATUS)
  then AttrsResponse true (status_ec ec_ payload) (at_attr self)
  else
    let ec := expect_type (type =? SSH_FXP_ATTRS) ec_ in
    if ec_bool ec then AttrsResponse true ec (at_attr self)
    else
      let '(attr, r) := take_attrs (Reader payload ec) in
      AttrsResponse true (rd_ec r) attr.

Definition complete_name (ec_ : error_code) (type : Z) (payload : bytes)
  (self : name_response) : name_response :=
  if negb (ec_bool ec_) && (type =? SSH_FXP_STATUS)
  then NameResponse true (status_ec ec_ payload) (nm_name self)
  else
    let ec := expect_type ((type =? SSH_FXP_NAME) || (type =? SSH_FXP_EXTENDED_REPLY)) ec_ in
    if ec_bool ec then NameResponse true ec (nm_name self)
    else
      let r :=
        if type =? SSH_FXP_NAME then
          let '(count, r) := take_u32 (Reader payload ec) in
          if negb (ec_bool (rd_ec r)) && (count =? 0)
          then Reader (rd_buf r) bad_message_ec else r
        else Reader payload ec in
      let '(fn, r) := take_str r in
      NameResponse true (rd_ec r) (if ec_bool (rd_ec r) then nm_name self else fn).

(** The virtual call. *)
Definition on_complete (ec : error_code) (type : Z) (payload : bytes) (r : response) : response :=
  match r with
  | RStatus r => RStatus (complete_status ec type payload r)
  | RHandle r => RHandle (complete_handle ec type payload r)
  | RDirEntry r => RDirEntry (complete_dir_entry ec type payload r)
  | RData r => RData (complete_data ec type payload r)
  | RAttrs r => RAttrs (complete_attrs ec type payload r)
  | RName r => RName (complete_name ec type payload r)
  end.

End WithPlatform.

Definition completed (r : response) : bool :=
  match r with
  | RStatus r => st_completed r
  | RHandle r => hd_completed r
  | RDirEntry r => de_completed r
  | RData r => da_completed r
  | RAttrs r => at_completed r
  | RName r => nm_completed r
  end.

Definition response_ec (r : response) : error_code :=
  match r with
  | RStatus r => st_ec r
  | RHandle r => hd_ec r
  | RDirEntry r => de_ec r
  | RData r => da_ec r
  | RAttrs r => at_ec r
  | RName r => nm_ec r
  end.

(** ** Reply bodies (what follows the request id) as a specification *)

Definition status_body (code : Z) (message tag : bytes) : bytes :=
  be_encode 4 code ++ str_bytes message ++ str_bytes tag.

Definition entry_bytes (e : entry) : bytes :=
  str_bytes (e_name e) ++ str_bytes (e_long_name e) ++ attrs_bytes (e_attr e).

Definition name_body (l : list entry) : bytes :=
  be_encode 4 (zlen l) ++ concat (map entry_bytes l).

(** An entry whose fields fit the wire format and whose attributes do not
    claim an extension. *)
Definition entry_wf (e : entry) : Prop :=
  str_wf (e_name e) /\ str_wf (e_long_name e) /\ attrs_wf (e_attr e) /\
  has_bit (a_flags (e_attr e)) SSH_FILEXFER_ATTR_EXTENDED = false.

Definition entry_on_wire (e : entry) : entry :=
  Entry (attrs_on_wire (e_attr e)) (e_name e) (e_long_name e).

(** ** Lemmas *)

Lemma expect_type_error ok ec : ec_bool ec = true -> expect_type ok ec = ec.
Proof. intros H. unfold expect_type. by rewrite H. Qed.

Lemma expect_type_true ec : expect_type true ec = ec.
Proof. unfold expect_type. by rewrite andb_false_r. Qed.

Lemma take_u32_sticky r : ec_bool (rd_ec r) = true -> take_u32 r = (0, r).
Proof. intros H. unfold take_u32, require_bytes. rewrite H. cbn [negb andb]. by rewrite H. Qed.

Lemma take_str_sticky r : ec_bool (rd_ec r) = true -> take_str r = ([], r).
Proof.
  intros H. unfold take_str, st_bind. rewrite take_u32_sticky by done. cbv beta zeta.
  unfold require_bytes. rewrite H. cbn [negb andb]. by rewrite H.
Qed.

(** Every handler finishes the request, whatever it is given. *)
Lemma on_complete_completed {P : Platform} ec type payload r :
  completed (on_complete ec type payload r) = true.
Proof.
  destruct r; cbn [on_complete completed];
    unfold complete_status, complete_handle, complete_dir_entry, complete_data,
      complete_attrs, complete_name;
    repeat (done || case_match || cbn [st_completed hd_completed de_completed da_completed
      at_completed nm_completed]).
Qed.

(** A transport error is reported unchanged and nothing is decoded. *)
Lemma on_complete_error {P : Platform} ec type payload r :
  ec_bool ec = true -> response_ec (on_complete ec type payload r) = ec.
Proof.
  intros He. destruct r; cbn [on_complete response_ec];
    unfold complete_status, complete_handle, complete_dir_entry, complete_data,
      complete_attrs, complete_name, assign_status;
    rewrite ?expect_type_error, ?He by done; cbn [negb andb hd_ec de_ec da_ec at_ec nm_ec]; [|done..].
  rewrite take_u32_sticky by done. cbn [rd_buf rd_ec].
  destruct (0 <? zlen payload).
  - rewrite !take_str_sticky by done. cbn [st_ec rd_ec]. by rewrite He.
  - cbn [st_ec rd_ec]. by rewrite He.
Qed.

(** The status code of a reply, as every handler understands it. *)
Lemma status_ec_body code rest :
  is_u32 code ->
  status_ec no_error (be_encode 4 code ++ rest) =
    if code =? SSH_FX_OK then no_error else ErrorCode (i32 code) sftp_category.
Proof.
  intros Hc. unfold status_ec. rewrite takes_u32 by done. unfold assign_status.
  cbn [rd_ec]. rewrite ec_bool_no_error. cbn [negb andb]. by destruct (_ =? _).
Qed.

Lemma complete_status_body code m t self :
  is_u32 code -> str_wf m -> str_wf t ->
  complete_status no_error SSH_FXP_STATUS (status_body code m t) self =
    StatusResponse true
      (if code =? SSH_FX_OK then no_error else ErrorCode (i32 code) sftp_category) m t.
Proof.
  intros Hc Hm Ht. unfold complete_status, status_body.
  rewrite Z.eqb_refl, expect_type_true, takes_u32 by done. cbn [rd_buf].
  destruct (Z.ltb_spec 0 (zlen (str_bytes m ++ str_bytes t))); [|zlen_lia].
  rewrite takes_str by done. rewrite <- (app_nil_r (str_bytes t)), takes_str by done.
  unfold assign_status. cbn [rd_ec]. rewrite ec_bool_no_error. cbn [negb andb].
  by destruct (_ =? _).
Qed.

Lemma complete_handle_body h self :
  str_wf h ->
  complete_handle no_error SSH_FXP_HANDLE (str_bytes h) self = HandleResponse true no_error h.
Proof.
  intros Hh. unfold complete_handle. rewrite Z.eqb_refl, expect_type_true, ec_bool_no_error.
  cbn [negb andb Z.eqb SSH_FXP_HANDLE SSH_FXP_STATUS Pos.eqb].
  by rewrite <- (app_nil_r (str_bytes h)), takes_str by done.
Qed.

Lemma takes_entry e : entry_wf e -> takes take_entry (entry_bytes e) (entry_on_wire e).
Proof.
  intros (Hn & Hl & Ha & Hx). unfold take_entry, entry_bytes.
  rewrite <- (app_nil_r (attrs_bytes _)).
  repeat (eapply takes_bind; [by auto with wire|]). apply takes_ret.
Qed.

Lemma well_behaved_entry : well_behaved take_entry.
Proof.
  unfold take_entry.
  repeat (apply well_behaved_bind; [by auto with wire | intros ?]). apply well_behaved_ret.
Qed.

Lemma entries_decreases s :
  entries_cond s = true -> (read_measure (snd (entries_body s)) < read_measure (snd s))%nat.
Proof.
  destruct s as [[count es] r]. unfold entries_cond, entries_body. cbn [fst snd].
  intros Hc. apply andb_prop in Hc as [Hec _]. rewrite negb_true_iff in Hec.
  pose proof (take_str_decreases (let* ln := take_str in let* at_ := take_attrs in
    st_ret tt) r) as H.
  assert (Hs : snd ((take_str ;;; (let* ln := take_str in let* at_ := take_attrs in st_ret tt)) r)
    = snd (take_entry r)).
  { unfold take_entry, st_bind, st_ret. destruct (take_str r) as [? r1].
    destruct (take_str r1) as [? r2]. by destruct (take_attrs r2). }
  rewrite Hs in H. destruct (take_entry r) as [e r1]. cbn [snd] in *.
  destruct (ec_bool (rd_ec r1)); cbn [snd]; apply H; auto with wire.
Qed.

(** The directory loop ends because its condition is false, however large the
    count the peer declares. *)
Lemma entries_terminates count es r :
  entries_cond (while entries_cond entries_body (read_fuel r) ((count, es), r)) = false.
Proof.
  apply (while_exit _ _ (fun s => read_measure (snd s))).
  - apply entries_decreases.
  - apply read_measure_fuel.
Qed.

Lemma entries_takes l es count rest fuel :
  Forall entry_wf l -> count = zlen l -> (length l < fuel)%nat ->
  while entries_cond entries_body fuel
    ((count, es), Reader (concat (map entry_bytes l) ++ rest) no_error)
  = ((0, es ++ map entry_on_wire l), Reader rest no_error).
Proof.
  intros Hl. revert es count fuel. induction Hl as [|e l He Hl IH]; intros es count fuel -> Hf;
    (destruct fuel as [|fuel]; [cbn in Hf; lia|]); cbn [while].
  - unfold entries_cond. cbn. by rewrite app_nil_r.
  - unfold entries_cond at 1. cbn [fst snd rd_ec]. rewrite ec_bool_no_error. cbn [negb andb].
    destruct (Z.ltb_spec 0 (zlen (e :: l))); [|zlen_lia].
    unfold entries_body at 2. cbn [map concat]. rewrite <- app_assoc, takes_entry by done.
    cbn [rd_ec]. rewrite ec_bool_no_error.
    rewrite IH; [|zlen_lia|cbn in Hf; lia]. by rewrite <- app_assoc.
Qed.

Lemma length_entries_bytes l : (length l <= length (concat (map entry_bytes l)))%nat.
Proof.
  induction l as [|e l IH]; [done|]. cbn [map concat length]. rewrite length_app.
  assert (1 <= length (entry_bytes e))%nat; [|lia].
  unfold entry_bytes, str_bytes. rewrite !length_app, !length_be_encode. lia.
Qed.

Lemma complete_dir_entry_body l self :
  l <> [] -> Forall entry_wf l -> is_u32 (zlen l) ->
  complete_dir_entry no_error SSH_FXP_NAME (name_body l) self =
    DirEntryResponse true no_error (de_entries self ++ map entry_on_wire l).
Proof.
  intros Hne Hl Hu. unfold complete_dir_entry, name_body.
  rewrite Z.eqb_refl, expect_type_true, ec_bool_no_error.
  cbn [negb andb Z.eqb SSH_FXP_NAME SSH_FXP_STATUS Pos.eqb].
  rewrite takes_u32 by done. cbn [rd_ec rd_buf]. rewrite ec_bool_no_error. cbn [negb andb].
  destruct (Z.eqb_spec (zlen l) 0) as [H0|H0].
  { destruct l; [done | zlen_lia]. }
  rewrite <- (app_nil_r (concat (map entry_bytes l))).
  rewrite entries_takes; [done..|].
  unfold read_fuel. cbn [rd_buf]. rewrite length_app. pose proof (length_entries_bytes l). lia.
Qed.

(** Whatever arrives, entries already buffered stay in front, and at most the
    declared number is appended. *)
Lemma entries_grow fuel count es r :
  exists new, snd (fst (while entries_cond entries_body fuel ((count, es), r))) = es ++ new.
Proof.
  apply (while_inv _ _ (fun s => exists new, snd (fst s) = es ++ new)).
  - intros [[c es'] r'] (new & Hnew) _. cbn [fst snd] in Hnew. unfold entries_body.
    destruct (take_entry r') as [e r1]. destruct (ec_bool (rd_ec r1)); cbn [fst snd].
    + eauto.
    + exists (new ++ [e]). by rewrite Hnew, <- app_assoc.
  - exists []. by rewrite app_nil_r.
Qed.

Lemma complete_dir_entry_grow ec type payload self :
  exists new, de_entries (complete_dir_entry ec type payload self) = de_entries self ++ new.
Proof.
  unfold complete_dir_entry.
  destruct (_ && _); [exists []; by rewrite app_nil_r|].
  destruct (ec_bool (expect_type _ _)); [exists []; by rewrite app_nil_r|].
  destruct (take_u32 _) as [count r].
  match goal with |- context [while entries_cond entries_body ?f ((?c, ?es), ?r)] =>
    pose proof (entries_grow f c es r) as H; destruct (while _ _ _ _) as [[c' es'] r'] end.
  exact H.
Qed.

Section DataLemmas.
Context {P : Platform}.

Lemma zlen_memcpy dest data n :
  0 <= n -> n <= zlen data -> n <= zlen dest -> zlen (memcpy dest data n) = zlen dest.
Proof. intros H0 H1 H2. unfold memcpy. zlen_lia. Qed.

Lemma drop_memcpy dest data n :
  0 <= n <= zlen data -> drop (Z.to_nat n) (memcpy dest data n) = drop (Z.to_nat n) dest.
Proof.
  intros Hn. unfold memcpy. rewrite drop_app_length'; [done|].
  rewrite length_take. unfold zlen in Hn. lia.
Qed.

(** C26: No reply makes the read handler write past the caller's buffer: whatever
    type and payload arrive, the buffer keeps its size, the count stays within
    it, and bytes behind the count are untouched. *)
Theorem complete_data_bounds ec type payload self :
  0 <= da_n self <= zlen (da_dest self) ->
  let self' := complete_data ec type payload self in
  zlen (da_dest self') = zlen (da_dest self) /\ 0 <= da_n self' <= zlen (da_dest self) /\
  (da_n self <= da_n self' ->
   drop (Z.to_nat (da_n self')) (da_dest self') = drop (Z.to_nat (da_n self')) (da_dest self)).
Proof.
  intros Hn. unfold complete_data. cbv zeta.
  destruct (_ && _); [by destruct (take_u32 _)|].
  destruct (ec_bool (expect_type _ _)); [done|].
  destruct (take_str _) as [data r]. destruct (ec_bool (rd_ec r)); [done|].
  cbn [da_dest da_n]. pose proof (zlen_nonneg data). rewrite zlen_memcpy by lia.
  split; [done|]. split; [lia|]. intros _. apply drop_memcpy. lia.
Qed.

Lemma complete_data_body d dest :
  str_wf d ->
  complete_data no_error SSH_FXP_DATA (str_bytes d) (new_data_response dest) =
    DataResponse true no_error (memcpy dest d (Z.min (zlen d) (zlen dest)))
      (Z.min (zlen d) (zlen dest)).
Proof.
  intros Hd. unfold complete_data. rewrite Z.eqb_refl, expect_type_true, ec_bool_no_error.
  cbn [negb andb Z.eqb SSH_FXP_DATA SSH_FXP_STATUS Pos.eqb].
  by rewrite <- (app_nil_r (str_bytes d)), takes_str by done.
Qed.

End DataLemmas.

Lemma complete_attrs_body a self :
  attrs_wf a -> has_bit (a_flags a) SSH_FILEXFER_ATTR_EXTENDED = false ->
  complete_attrs no_error SSH_FXP_ATTRS (attrs_bytes a) self =
    AttrsResponse true no_error (attrs_on_wire a).
Proof.
  intros Ha Hx. unfold complete_attrs. rewrite Z.eqb_refl, expect_type_true, ec_bool_no_error.
  cbn [negb andb Z.eqb SSH_FXP_ATTRS SSH_FXP_STATUS Pos.eqb].
  by rewrite <- (app_nil_r (attrs_bytes a)), takes_attrs by done.
Qed.

(** A name reply delivers the first name, whatever follows it. *)
Lemma complete_name_body n name rest self :
  is_u32 n -> n <> 0 -> str_wf name ->
  complete_name no_error SSH_FXP_NAME (be_encode 4 n ++ str_bytes name ++ rest) self =
    NameResponse true no_error name.
Proof.
  intros Hn H0 Hs. unfold complete_name.
  cbn [negb andb orb Z.eqb SSH_FXP_NAME SSH_FXP_STATUS SSH_FXP_EXTENDED_REPLY Pos.eqb].
  rewrite expect_type_true, ec_bool_no_error. cbn [negb andb].
  rewrite takes_u32 by done. cbn [rd_ec]. rewrite ec_bool_no_error. cbn [negb andb].
  destruct (Z.eqb_spec n 0); [done|]. by rewrite takes_str.
Qed.

(** ** Properties *)

(** C31: The directory handler ends by its loop's own condition for every payload
    and every entry count a server declares, keeps the entries that were already
    buffered in front, and marks the request complete. *)
Theorem dir_entries_terminate ec type payload self :
  (forall count r,
    entries_cond (while entries_cond entries_body (read_fuel r) ((count, de_entries self), r))
      = false) /\
  (exists new, de_entries (complete_dir_entry ec type payload self) = de_entries self ++ new) /\
  de_completed (complete_dir_entry ec type payload self) = true.
Proof.
  split; [intros count r; apply entries_terminates|].
  split; [apply complete_dir_entry_grow|].
  exact (on_complete_completed (P := linux_platform) ec type payload (RDirEntry self)).
Qed.

(** ** Witnesses *)

Lemma complete_data_bounds_witness :
  let self' := complete_data (P := linux_platform) no_error SSH_FXP_DATA (str_bytes (lit "hello"))
    (new_data_response (lit "abc")) in
  zlen (da_dest self') = 3 /\ 0 <= da_n self' <= 3 /\
  (0 <= da_n self' ->
   drop (Z.to_nat (da_n self')) (da_dest self') = drop (Z.to_nat (da_n self')) (lit "abc")).
Proof.
  apply (complete_data_bounds (P := linux_platform) no_error SSH_FXP_DATA
    (str_bytes (lit "hello")) (new_data_response (lit "abc"))).
  by vm_compute.
Defined.
