(* ===== verification/Requests.v ===== *)
(** * Requests: the packets the SFTP client sends ([src/sftp.cpp])

    One definition per client operation: the length computation, the
    [small_buffer<1024>] and the sequence of [put_*] calls of that member
    function.  The rest of each member function (the exchange with the server)
    is in [Client].  [request] and [request_body] are the abstract requests and
    their wire format, which [client_packet_frame] shows the code produces. *)

From S2P Require Import Prelude Libssh ErrorCode Codec.

#[local] Open Scope Z_scope.

(** ** The packets *)

Section Packets.
Context (b : small_buffer) (id : Z).

Definition unlink_packet (filename : bytes) : bytes * error_code :=
  let length := 1 + 4 + (4 + zlen filename) in
  fill (small_buffer_get b (4 + length))
    (put_u32 (u32 length) ;;; put_u8 SSH_FXP_REMOVE ;;; put_u32 id ;;; put_str filename).

Definition mkdir_packet (path : bytes) (mode : Z) : bytes * error_code :=
  let attrs_len := 4 + 4 in
  let length := 1 + 4 + (4 + zlen path) + attrs_len in
  fill (small_buffer_get b (4 + length))
    (put_u32 (u32 length) ;;; put_u8 SSH_FXP_MKDIR ;;; put_u32 id ;;; put_str path ;;;
     put_u32 SSH_FILEXFER_ATTR_PERMISSIONS ;;; put_u32 (u32 mode)).

Definition rmdir_packet (path : bytes) : bytes * error_code :=
  let length := 1 + 4 + (4 + zlen path) in
  fill (small_buffer_get b (4 + length))
    (put_u32 (u32 length) ;;; put_u8 SSH_FXP_RMDIR ;;; put_u32 id ;;; put_str path).

Definition rename_packet (oldpath newpath : bytes) : bytes * error_code :=
  let length := 1 + 4 + (4 + zlen oldpath) + (4 + zlen newpath) in
  fill (small_buffer_get b (4 + length))
    (put_u32 (u32 length) ;;; put_u8 SSH_FXP_RENAME ;;; put_u32 id ;;;
     put_str oldpath ;;; put_str newpath).

Definition chmod_packet (path : bytes) (mode : Z) : bytes * error_code :=
  let attrs_len := 4 + 4 in
  let length := 1 + 4 + (4 + zlen path) + attrs_len in
  fill (small_buffer_get b (4 + length))
    (put_u32 (u32 length) ;;; put_u8 SSH_FXP_SETSTAT ;;; put_u32 id ;;; put_str path ;;;
     put_u32 SSH_FILEXFER_ATTR_PERMISSIONS ;;; put_u32 (u32 mode)).

Definition chown_packet (path : bytes) (owner group : Z) : bytes * error_code :=
  let attrs_len := 4 + 4 + 4 in
  let length := 1 + 4 + (4 + zlen path) + attrs_len in
  fill (small_buffer_get b (4 + length))
    (put_u32 (u32 length) ;;; put_u8 SSH_FXP_SETSTAT ;;; put_u32 id ;;; put_str path ;;;
     put_u32 SSH_FILEXFER_ATTR_UIDGID ;;; put_u32 (u32 owner) ;;; put_u32 (u32 group)).

Definition symlink_packet (target dest : bytes) : bytes * error_code :=
  let length := 1 + 4 + (4 + zlen target) + (4 + zlen dest) in
  fill (small_buffer_get b (4 + length))
    (put_u32 (u32 length) ;;; put_u8 SSH_FXP_SYMLINK ;;; put_u32 id ;;;
     put_str target ;;; put_str dest).

Definition hardlink_ext_name : bytes := lit "hardlink@openssh.com".

Definition hardlink_packet (oldpath newpath : bytes) : bytes * error_code :=
  let ext_name := hardlink_ext_name in
  let length := 1 + 4 + (4 + zlen ext_name) + (4 + zlen oldpath) + (4 + zlen newpath) in
  fill (small_buffer_get b (4 + length))
    (put_u32 (u32 length) ;;; put_u8 SSH_FXP_EXTENDED ;;; put_u32 id ;;;
     put_str ext_name ;;; put_str oldpath ;;; put_str newpath).

Definition setstat_packet (path : bytes) (attr : attributes) : bytes * error_code :=
  let attrs_len := attrs_length attr in
  let length := 1 + 4 + (4 + zlen path) + attrs_len in
  fill (small_buffer_get b (4 + length))
    (put_u32 (u32 length) ;;; put_u8 SSH_FXP_SETSTAT ;;; put_u32 id ;;;
     put_str path ;;; put_attrs attr).

Definition opendir_packet (path : bytes) : bytes * error_code :=
  let length := 1 + 4 + (4 + zlen path) in
  fill (small_buffer_get b (4 + length))
    (put_u32 (u32 length) ;;; put_u8 SSH_FXP_OPENDIR ;;; put_u32 id ;;; put_str path).

Definition open_packet (path : bytes) (accesstype mode : Z) : bytes * error_code :=
  let attrs_len := 4 + 4 in
  let length := 1 + 4 + (4 + zlen path) + 4 + attrs_len in
  fill (small_buffer_get b (4 + length))
    (put_u32 (u32 length) ;;; put_u8 SSH_FXP_OPEN ;;; put_u32 id ;;; put_str path ;;;
     put_u32 (u32 accesstype) ;;; put_u32 SSH_FILEXFER_ATTR_PERMISSIONS ;;;
     put_u32 (u32 mode)).

Definition readdir_packet (handle_ : bytes) : bytes * error_code :=
  let length := 1 + 4 + (4 + zlen handle_) in
  fill (small_buffer_get b (4 + length))
    (put_u32 (u32 length) ;;; put_u8 SSH_FXP_READDIR ;;; put_u32 id ;;; put_str handle_).

(** [dir::close] and [file::close] build the same packet. *)
Definition close_packet (handle_ : bytes) : bytes * error_code :=
  let length := 1 + 4 + (4 + zlen handle_) in
  fill (small_buffer_get b (4 + length))
    (put_u32 (u32 length) ;;; put_u8 SSH_FXP_CLOSE ;;; put_u32 id ;;; put_str handle_).

(** [size] is [buffer.size()]. *)
Definition read_packet (handle_ : bytes) (offset size : Z) : bytes * error_code :=
  let length := 1 + 4 + (4 + zlen handle_) + 8 + 4 in
  fill (small_buffer_get b (4 + length))
    (put_u32 (u32 length) ;;; put_u8 SSH_FXP_READ ;;; put_u32 id ;;; put_str handle_ ;;;
     put_u64 offset ;;; put_u32 (u32 size)).

Definition write_packet (handle_ : bytes) (offset : Z) (buffer : bytes) : bytes * error_code :=
  let length := 1 + 4 + (4 + zlen handle_) + 8 + (4 + zlen buffer) in
  fill (small_buffer_get b (4 + length))
    (put_u32 (u32 length) ;;; put_u8 SSH_FXP_WRITE ;;; put_u32 id ;;; put_str handle_ ;;;
     put_u64 offset ;;; put_str buffer).

Definition stat_packet (path : bytes) : bytes * error_code :=
  let length := 1 + 4 + (4 + zlen path) in
  fill (small_buffer_get b (4 + length))
    (put_u32 (u32 length) ;;; put_u8 SSH_FXP_STAT ;;; put_u32 id ;;; put_str path).

Definition lstat_packet (path : bytes) : bytes * error_code :=
  let length := 1 + 4 + (4 + zlen path) in
  fill (small_buffer_get b (4 + length))
    (put_u32 (u32 length) ;;; put_u8 SSH_FXP_LSTAT ;;; put_u32 id ;;; put_str path).

Definition readlink_packet (path : bytes) : bytes * error_code :=
  let length := 1 + 4 + (4 + zlen path) in
  fill (small_buffer_get b (4 + length))
    (put_u32 (u32 length) ;;; put_u8 SSH_FXP_READLINK ;;; put_u32 id ;;; put_str path).

Definition canonicalize_path_packet (path : bytes) : bytes * error_code :=
  let length := 1 + 4 + (4 + zlen path) in
  fill (small_buffer_get b (4 + length))
    (put_u32 (u32 length) ;;; put_u8 SSH_FXP_REALPATH ;;; put_u32 id ;;; put_str path).

Definition expand_path_ext_name : bytes := lit "expand-path@openssh.com".

Definition expand_path_packet (path : bytes) : bytes * error_code :=
  let ext_name := expand_path_ext_name in
  let length := 1 + 4 + (4 + zlen ext_name) + (4 + zlen path) in
  fill (small_buffer_get b (4 + length))
    (put_u32 (u32 length) ;;; put_u8 SSH_FXP_EXTENDED ;;; put_u32 id ;;;
     put_str ext_name ;;; put_str path).

Definition home_directory_ext_name : bytes := lit "home-directory".

Definition home_directory_packet (username : bytes) : bytes * error_code :=
  let ext_name := home_directory_ext_name in
  let length := 1 + 4 + (4 + zlen ext_name) + (4 + zlen username) in
  fill (small_buffer_get b (4 + length))
    (put_u32 (u32 length) ;;; put_u8 SSH_FXP_EXTENDED ;;; put_u32 id ;;;
     put_str ext_name ;;; put_str username).

End Packets.

(** ** The abstract requests *)

Inductive request :=
| Remove (filename : bytes)
| Mkdir (path : bytes) (mode : Z)
| Rmdir (path : bytes)
| Rename (oldpath newpath : bytes)
| Chmod (path : bytes) (mode : Z)
| Chown (path : bytes) (owner group : Z)
| Symlink (target dest : bytes)
| Hardlink (oldpath newpath : bytes)
| Setstat (path : bytes) (attr : attributes)
| Opendir (path : bytes)
| Open (path : bytes) (accesstype mode : Z)
| Readdir (handle : bytes)
| Close (handle : bytes)
| Read (handle : bytes) (offset size : Z)
| Write (handle : bytes) (offset : Z) (data : bytes)
| Stat (path : bytes)
| Lstat (path : bytes)
| Readlink (path : bytes)
| Realpath (path : bytes)
| ExpandPath (path : bytes)
| HomeDirectory (username : bytes).

(** The member function that issues each request. *)
Definition client_packet (b : small_buffer) (id : Z) (req : request) : bytes * error_code :=
  match req with
  | Remove filename => unlink_packet b id filename
  | Mkdir path mode => mkdir_packet b id path mode
  | Rmdir path => rmdir_packet b id path
  | Rename oldpath newpath => rename_packet b id oldpath newpath
  | Chmod path mode => chmod_packet b id path mode
  | Chown path owner group => chown_packet b id path owner group
  | Symlink target dest => symlink_packet b id target dest
  | Hardlink oldpath newpath => hardlink_packet b id oldpath newpath
  | Setstat path attr => setstat_packet b id path attr
  | Opendir path => opendir_packet b id path
  | Open path accesstype mode => open_packet b id path accesstype mode
  | Readdir handle => readdir_packet b id handle
  | Close handle => close_packet b id handle
  | Read handle offset size => read_packet b id handle offset size
  | Write handle offset data => write_packet b id handle offset data
  | Stat path => stat_packet b id path
  | Lstat path => lstat_packet b id path
  | Readlink path => readlink_packet b id path
  | Realpath path => canonicalize_path_packet b id path
  | ExpandPath path => expand_path_packet b id path
  | HomeDirectory username => home_directory_packet b id username
  end.

(** Attributes with only permissions, or only owner and group. *)
Definition permissions_attrs (mode : Z) : attributes :=
  Attributes SSH_FILEXFER_ATTR_PERMISSIONS 0 0 0 0 [] [] (u32 mode) 0 0 0 0 0 0 0 0 [].
Definition uidgid_attrs (owner group : Z) : attributes :=
  Attributes SSH_FILEXFER_ATTR_UIDGID 0 0 (u32 owner) (u32 group) [] [] 0 0 0 0 0 0 0 0 0 [].

Definition request_type (req : request) : Z :=
  match req with
  | Remove _ => SSH_FXP_REMOVE
  | Mkdir _ _ => SSH_FXP_MKDIR
  | Rmdir _ => SSH_FXP_RMDIR
  | Rename _ _ => SSH_FXP_RENAME
  | Chmod _ _ | Chown _ _ _ | Setstat _ _ => SSH_FXP_SETSTAT
  | Symlink _ _ => SSH_FXP_SYMLINK
  | Hardlink _ _ | ExpandPath _ | HomeDirectory _ => SSH_FXP_EXTENDED
  | Opendir _ => SSH_FXP_OPENDIR
  | Open _ _ _ => SSH_FXP_OPEN
  | Readdir _ => SSH_FXP_READDIR
  | Close _ => SSH_FXP_CLOSE
  | Read _ _ _ => SSH_FXP_READ
  | Write _ _ _ => SSH_FXP_WRITE
  | Stat _ => SSH_FXP_STAT
  | Lstat _ => SSH_FXP_LSTAT
  | Readlink _ => SSH_FXP_READLINK
  | Realpath _ => SSH_FXP_REALPATH
  end.

(** The fields after the request id, as the protocol lays them out. *)
Definition request_fields (req : request) : bytes :=
  match req with
  | Remove p | Rmdir p | Opendir p | Readdir p | Close p | Stat p | Lstat p
  | Readlink p | Realpath p => str_bytes p
  | Mkdir path mode => str_bytes path ++ attrs_bytes (permissions_attrs mode)
  | Rename oldpath newpath => str_bytes oldpath ++ str_bytes newpath
  | Chmod path mode => str_bytes path ++ attrs_bytes (permissions_attrs mode)
  | Chown path owner group => str_bytes path ++ attrs_bytes (uidgid_attrs owner group)
  | Symlink target dest => str_bytes target ++ str_bytes dest
  | Hardlink oldpath newpath =>
      str_bytes hardlink_ext_name ++ str_bytes oldpath ++ str_bytes newpath
  | Setstat path attr => str_bytes path ++ attrs_bytes attr
  | Open path accesstype mode =>
      str_bytes path ++ be_encode 4 (u32 accesstype) ++ attrs_bytes (permissions_attrs mode)
  | Read handle offset size =>
      str_bytes handle ++ be_encode 8 offset ++ be_encode 4 (u32 size)
  | Write handle offset data => str_bytes handle ++ be_encode 8 offset ++ str_bytes data
  | ExpandPath path => str_bytes expand_path_ext_name ++ str_bytes path
  | HomeDirectory username => str_bytes home_directory_ext_name ++ str_bytes username
  end.

Definition request_body (id : Z) (req : request) : bytes :=
  [byte_of_Z (request_type req)] ++ be_encode 4 id ++ request_fields req.

(** Requests whose fields and packet fit the 32-bit sizes of the protocol. *)
Definition request_wf (req : request) : Prop :=
  zlen (request_fields req) + 5 < 2 ^ 32 - 4 /\
  match req with
  | Setstat _ attr =>
      attrs_wf attr /\ has_bit (a_flags attr) SSH_FILEXFER_ATTR_EXTENDED = false
  | Read _ offset _ | Write _ offset _ => is_u64 offset
  | _ => True
  end.

(** ** Lemmas *)

Lemma attrs_bytes_permissions mode :
  attrs_bytes (permissions_attrs mode)
  = be_encode 4 SSH_FILEXFER_ATTR_PERMISSIONS ++ be_encode 4 (u32 mode).
Proof. reflexivity. Qed.

Lemma attrs_bytes_uidgid owner group :
  attrs_bytes (uidgid_attrs owner group)
  = be_encode 4 SSH_FILEXFER_ATTR_UIDGID ++ be_encode 4 (u32 owner) ++ be_encode 4 (u32 group).
Proof. reflexivity. Qed.

(** A packet whose declared length is the length of what follows. *)
Lemma fill_frame b len m body :
  small_buffer_wf b -> puts m body -> len = zlen body ->
  fill (small_buffer_get b (4 + len)) (put_u32 (u32 len) ;;; m) = (frame body, no_error).
Proof.
  intros Hb Hm ->. pose proof (zlen_nonneg body). apply fill_puts.
  - unfold frame. apply puts_bind; [|done].
    eapply puts_eq; [apply puts_u32 | apply be_encode4_u32].
  - rewrite small_buffer_get_len by (done || lia). by rewrite zlen_frame.
Qed.

(** The packet of every client operation is the frame of its request: the
    buffer is exactly filled, no [put_*] fails, nothing of the uninitialised
    buffer is sent. *)
Lemma client_packet_frame b id req :
  small_buffer_wf b -> client_packet b id req = (frame (request_body id req), no_error).
Proof.
  intros Hb.
  destruct req; cbn [client_packet];
    (apply fill_frame; unfold request_body; cbn [request_type request_fields];
     rewrite ?attrs_bytes_permissions, ?attrs_bytes_uidgid;
     [done | auto 20 with wire | autorewrite with zlen; lia]).
Qed.

Lemma zlen_request_body id req : zlen (request_body id req) = 5 + zlen (request_fields req).
Proof. unfold request_body. zlen_lia. Qed.

(** ** Properties *)

(** C17: Every request packet of the client is exact: no [put_*] runs out of
    room, not one byte of the uninitialised stack buffer (or of the vector used
    for long packets) reaches the wire, and the declared length is the length of
    what follows. *)
Theorem client_packet_exact b b' id req :
  small_buffer_wf b -> small_buffer_wf b' -> request_wf req ->
  client_packet b id req = client_packet b' id req /\
  snd (client_packet b id req) = no_error /\
  zlen (fst (client_packet b id req)) =
    4 + be_decode (take 4 (fst (client_packet b id req))).
Proof.
  intros Hb Hb' [Hz _]. rewrite !client_packet_frame by done. split; [done|]. split; [done|].
  cbn [fst]. rewrite zlen_frame, zlen_request_body. unfold frame.
  rewrite take_app_length' by (by rewrite length_be_encode).
  rewrite be_decode_encode, zlen_request_body, Z.mod_small; [done|].
  pose proof (zlen_nonneg (request_fields req)). change (8 * Z.of_nat 4) with 32. lia.
Qed.

(** ** Witnesses *)

Lemma client_packet_exact_witness :
  let b := SmallBuffer (replicate 1024 Byte.xaa) [] in
  let b' := SmallBuffer (replicate 1024 Byte.x55) [] in
  let req := Rename (lit "old") (replicate 2000 Byte.x41) in
  client_packet b 7 req = client_packet b' 7 req /\
  snd (client_packet b 7 req) = no_error /\
  zlen (fst (client_packet b 7 req)) = 4 + be_decode (take 4 (fst (client_packet b 7 req))).
Proof. apply client_packet_exact; by vm_compute. Defined.
