(* ===== verification/Server.v ===== *)
(** * Server: the SFTP server of [src/sftp.cpp] (lines 1815-2474)

    [sftp_server S] is the abstract class [sftp::server] of
    [include/corosh/sftp.hpp]: what a backend with state [S] answers.  The code
    calls it and the development quantifies over it.  [handle_packet] is the
    [switch] of [serve_worker] on one request, with one [serve_*] definition per
    [case]; the other definitions are [build_status], the version handshake
    and the read phase of a worker.

    A request is parsed out of the worker's own [my_buffer], which the reply then
    overwrites.  Every case but [SSH_FXP_READ] hands its arguments to the backend
    before it resizes the vector; [serve_read] resizes first, so there the handle
    is modelled as the view into [my_buffer] it is ([view_bytes]). *)

From S2P Require Import Prelude Libssh ErrorCode Codec Stream Requests Responses.

#[local] Open Scope Z_scope.

(** ** The backend *)

(** An [io_result<T>]: the error code and the value that comes with it. *)
Record io_result (A : Type) := IoResult { io_ec : error_code; io_value : A }.
Arguments IoResult {A} _ _.
Arguments io_ec {A} _.
Arguments io_value {A} _.

Record sftp_server (S : Type) := SftpServer {
  srv_open : bytes -> Z -> Z -> ST S (io_result bytes);
  (** [read_at]: the result and the contents it leaves in the buffer *)
  srv_read_at : bytes -> Z -> bytes -> ST S (io_result Z * bytes);
  srv_write_at : bytes -> Z -> bytes -> ST S (io_result Z);
  srv_fstat : bytes -> ST S (io_result attributes);
  srv_fsync : bytes -> ST S error_code;
  srv_close : bytes -> ST S error_code;
  srv_opendir : bytes -> ST S (io_result bytes);
  srv_readdir : bytes -> ST S (io_result (list entry));
  srv_stat : bytes -> ST S (io_result attributes);
  srv_lstat : bytes -> ST S (io_result attributes);
  srv_unlink : bytes -> ST S error_code;
  srv_mkdir : bytes -> Z -> ST S error_code;
  srv_rmdir : bytes -> ST S error_code;
  srv_rename : bytes -> bytes -> ST S error_code;
  srv_chmod : bytes -> Z -> ST S error_code;
  srv_chown : bytes -> Z -> Z -> ST S error_code;
  srv_symlink : bytes -> bytes -> ST S error_code;
  srv_hardlink : bytes -> bytes -> ST S error_code;
  srv_setstat : bytes -> attributes -> ST S error_code;
  srv_fsetstat : bytes -> attributes -> ST S error_code;
  srv_readlink : bytes -> ST S (io_result bytes);
  srv_canonicalize_path : bytes -> ST S (io_result bytes);
  srv_expand_path : bytes -> ST S (io_result bytes);
  srv_home_directory : bytes -> ST S (io_result bytes)
}.
Arguments SftpServer {S}.
Arguments srv_open {S}.
Arguments srv_read_at {S}.
Arguments srv_write_at {S}.
Arguments srv_fstat {S}.
Arguments srv_fsync {S}.
Arguments srv_close {S}.
Arguments srv_opendir {S}.
Arguments srv_readdir {S}.
Arguments srv_stat {S}.
Arguments srv_lstat {S}.
Arguments srv_unlink {S}.
Arguments srv_mkdir {S}.
Arguments srv_rmdir {S}.
Arguments srv_rename {S}.
Arguments srv_chmod {S}.
Arguments srv_chown {S}.
Arguments srv_symlink {S}.
Arguments srv_hardlink {S}.
Arguments srv_setstat {S}.
Arguments srv_fsetstat {S}.
Arguments srv_readlink {S}.
Arguments srv_canonicalize_path {S}.
Arguments srv_expand_path {S}.
Arguments srv_home_directory {S}.

(** What one request makes the worker do. *)
Inductive outcome :=
| Respond (response : bytes)
| Stop (ec : error_code)
| UseAfterFree.

Section WithPlatform.
Context {P : Platform}.

(** ** [build_status] *)

(** The [if]/[else if] cascade that picks the status code. *)
Definition status_of (reported_ec : error_code) : Z :=
  let is_errc e := ec_eq_cond reported_ec (make_error_condition e) in
  if bool_decide (ec_category reported_ec = sftp_category) || negb (ec_bool reported_ec)
  then u32 (ec_value reported_ec)
  else if ec_eq_cond reported_ec capy_cond_eof then SSH_FX_EOF
  else if ec_eq_cond reported_ec capy_cond_not_found then SSH_FX_NO_SUCH_PATH
  else if is_errc not_connected then SSH_FX_NO_CONNECTION
  else if is_errc no_such_file_or_directory then SSH_FX_NO_SUCH_FILE
  else if is_errc permission_denied then SSH_FX_PERMISSION_DENIED
  else if is_errc bad_message then SSH_FX_BAD_MESSAGE
  else if is_errc connection_aborted || is_errc connection_reset then SSH_FX_CONNECTION_LOST
  else if is_errc operation_not_supported || is_errc function_not_supported then SSH_FX_OP_UNSUPPORTED
  else if is_errc bad_file_descriptor then SSH_FX_INVALID_HANDLE
  else if is_errc file_exists then SSH_FX_FILE_ALREADY_EXISTS
  else if is_errc read_only_file_system then SSH_FX_WRITE_PROTECT
  else if is_errc no_such_device || is_errc no_such_device_or_address then SSH_FX_NO_MEDIA
  else SSH_FX_FAILURE.

Definition build_status (buffer : bytes) (request_id : Z) (reported_ec ec : error_code)
  : bytes * error_code :=
  let msg := ec_message reported_ec in
  let body_len := u32 (1 + 4 + 4 + 4 + u32 (zlen msg) + 4) in
  let buffer := vec_resize (u32 (4 + body_len)) buffer in
  let status := status_of reported_ec in
  fill_with ec buffer
    (put_u32 body_len ;;; put_u8 SSH_FXP_STATUS ;;; put_u32 request_id ;;; put_u32 status ;;;
     put_str msg ;;; put_str []).

(** ** The successful replies *)

(** [SSH_FXP_HANDLE] (open, opendir). *)
Definition build_handle (my_buffer : bytes) (request_id : Z) (h : bytes) (ec : error_code)
  : bytes * error_code :=
  let res_size := 1 + 4 + (4 + zlen h) in
  fill_with ec (vec_resize (res_size + 4) my_buffer)
    (put_u32 (u32 res_size) ;;; put_u8 SSH_FXP_HANDLE ;;; put_u32 request_id ;;; put_str h).

(** [SSH_FXP_ATTRS] (stat, lstat, fstat). *)
Definition build_attrs (my_buffer : bytes) (request_id : Z) (attr : attributes)
  (ec : error_code) : bytes * error_code :=
  let res_size := u32 (1 + 4 + u32 (attrs_length attr)) in
  fill_with ec (vec_resize (u32 (res_size + 4)) my_buffer)
    (put_u32 res_size ;;; put_u8 SSH_FXP_ATTRS ;;; put_u32 request_id ;;; put_attrs attr).

(** [SSH_FXP_NAME] with one name (realpath, readlink, expand-path). *)
Definition build_name (my_buffer : bytes) (request_id : Z) (name : bytes) (ec : error_code)
  : bytes * error_code :=
  let res_size := u32 (1 + 4 + 4 + 4 + u32 (zlen name) + 4 + 4) in
  fill_with ec (vec_resize (u32 (res_size + 4)) my_buffer)
    (put_u32 res_size ;;; put_u8 SSH_FXP_NAME ;;; put_u32 request_id ;;; put_u32 1 ;;;
     put_str name ;;; put_str [] ;;; put_u32 0).

(** [for (const auto & e : entries) { put_str; put_str; put_attrs; }] *)
Fixpoint put_entries (entries : list entry) : ST writer unit :=
  match entries with
  | [] => st_ret tt
  | e :: rest =>
      (put_str (e_name e) ;;; put_str (e_long_name e) ;;; put_attrs (e_attr e)) ;;;
      put_entries rest
  end.

(** [SSH_FXP_NAME] with a directory batch (readdir). *)
Definition names_size (entries : list entry) : Z :=
  foldl (fun res_size e =>
    u32 (res_size + (4 + u32 (zlen (e_name e)) + 4 + u32 (zlen (e_long_name e))
                     + u32 (attrs_length (e_attr e)))))
    (1 + 4 + 4) entries.

Definition build_names (my_buffer : bytes) (request_id : Z) (entries : list entry)
  (ec : error_code) : bytes * error_code :=
  let res_size := names_size entries in
  fill_with ec (vec_resize (u32 (res_size + 4)) my_buffer)
    (put_u32 res_size ;;; put_u8 SSH_FXP_NAME ;;; put_u32 request_id ;;;
     put_u32 (u32 (zlen entries)) ;;; put_entries entries).

(** ** The cases of [serve_worker] *)

(** [if (ec) co_return ec;] after the [switch], else the reply is written. *)
Definition finish (reply : bytes * error_code) : outcome :=
  if ec_bool (snd reply) then Stop (snd reply) else Respond (fst reply).

Section Cases.
Context {S : Type} (srv : sftp_server S).
Context (my_buffer : vec) (request_id : Z) (cb : bytes) (ec : error_code).

(** [if (!r.ec) r = co_await s.op(...);] for the operations without a value
    and with one. *)
Definition call_if_ok (r_ec : error_code) (op : ST S error_code) : ST S error_code :=
  if ec_bool r_ec then st_ret r_ec else op.

Definition call_if_ok_value {A} (r_ec : error_code) (d : A) (op : ST S (io_result A))
  : ST S (io_result A) :=
  if ec_bool r_ec then st_ret (IoResult r_ec d) else op.

(** [response = build_status(my_buffer, request_id, r.ec, ec);] *)
Definition reply_status (r_ec : error_code) : ST S outcome :=
  st_ret (finish (build_status (v_data my_buffer) request_id r_ec ec)).

(** [if (r.ec) response = build_status(...); else { ... }] *)
Definition reply_value {A} (r : io_result A) (build : A -> bytes * error_code)
  : ST S outcome :=
  if ec_bool (io_ec r) then reply_status (io_ec r)
  else st_ret (finish (build (io_value r))).

Definition serve_open : ST S outcome :=
  let '(fn, r) := take_str (Reader cb no_error) in
  let '(pflags, r) := take_u32 r in
  let '(attrs, r) := take_attrs r in
  let* res := call_if_ok_value (rd_ec r) []
                (srv_open srv fn (i32 pflags) (a_permissions attrs)) in
  reply_value res (fun h => build_handle (v_data my_buffer) request_id h ec).

Definition serve_close : ST S outcome :=
  let '(handle, r) := take_str (Reader cb no_error) in
  let* r_ec := call_if_ok (rd_ec r) (srv_close srv handle) in
  reply_status r_ec.

(** The data of the reply starts after the size, type, id and length. *)
Definition data_offset : Z := 4 + 1 + 4 + 4.

Definition read_limit : Z := 1024 * 1024 * 1024.

(** [mb] after the four [put]s is what [make_buffer(mb)] sends. *)
Definition build_data (my_buffer : bytes) (res_size actual_len : Z) : bytes * error_code :=
  let '(_, mb) :=
    (put_u32 res_size ;;; put_u8 SSH_FXP_DATA ;;; put_u32 request_id ;;;
     put_u32 (u32 actual_len)) (Writer [] my_buffer ec) in
  (wr_room mb, wr_ec mb).

(** The handle's bytes start right after the request's size, type, id and
    string length: at [data_offset] of [my_buffer]. *)
Definition serve_read : ST S outcome :=
  let '(handle, r) := take_str (Reader cb no_error) in
  let '(offset, r) := take_u64 r in
  let '(len, r) := take_u32 r in
  let r_ec := if read_limit <? len then bad_message_ec else rd_ec r in
  let res_size := u32 (1 + 4 + u32 (4 + len)) in
  if ec_bool r_ec then reply_status r_ec
  else
    let buffer := vec_resize (res_size + 4) (v_data my_buffer) in
    match view_bytes my_buffer data_offset (zlen handle) (res_size + 4) with
    | None => st_ret UseAfterFree
    | Some handle =>
        let mb := drop (Z.to_nat data_offset) buffer in
        let* res := srv_read_at srv handle offset mb in
        let '(res, mb) := res in
        let buffer := take (Z.to_nat data_offset) buffer ++ mb in
        if ec_bool (io_ec res)
        then st_ret (finish (build_status buffer request_id (io_ec res) ec))
        else
          let actual_len := io_value res in
          let res_size := if actual_len <? len then u32 (res_size - (len - actual_len))
                          else res_size in
          let buffer := if actual_len <? len then vec_resize (u32 (res_size + 4)) buffer
                        else buffer in
          st_ret (finish (build_data buffer res_size actual_len))
    end.

Definition serve_write : ST S outcome :=
  let '(handle, r) := take_str (Reader cb no_error) in
  let '(offset, r) := take_u64 r in
  let '(data, r) := take_str r in
  let r_ec := if read_limit <? zlen data then bad_message_ec else rd_ec r in
  let* res := call_if_ok_value r_ec 0 (srv_write_at srv handle offset data) in
  reply_status (io_ec res).

Definition serve_lstat : ST S outcome :=
  let '(path, r) := take_str (Reader cb no_error) in
  let* res := call_if_ok_value (rd_ec r) empty_attributes (srv_lstat srv path) in
  reply_value res (fun attr => build_attrs (v_data my_buffer) request_id attr ec).

Definition serve_fstat : ST S outcome :=
  let '(handle, r) := take_str (Reader cb no_error) in
  let* res := call_if_ok_value (rd_ec r) empty_attributes (srv_fstat srv handle) in
  reply_value res (fun attr => build_attrs (v_data my_buffer) request_id attr ec).

Definition serve_setstat : ST S outcome :=
  let '(path, r) := take_str (Reader cb no_error) in
  let '(attr, r) := take_attrs r in
  let* r_ec := call_if_ok (rd_ec r) (srv_setstat srv path attr) in
  reply_status r_ec.

Definition serve_fsetstat : ST S outcome :=
  let '(handle, r) := take_str (Reader cb no_error) in
  let '(attr, r) := take_attrs r in
  let* r_ec := call_if_ok (rd_ec r) (srv_fsetstat srv handle attr) in
  reply_status r_ec.

Definition serve_opendir : ST S outcome :=
  let '(path, r) := take_str (Reader cb no_error) in
  let* res := call_if_ok_value (rd_ec r) [] (srv_opendir srv path) in
  reply_value res (fun h => build_handle (v_data my_buffer) request_id h ec).

Definition serve_readdir : ST S outcome :=
  let '(handle, r) := take_str (Reader cb no_error) in
  let* res := call_if_ok_value (rd_ec r) [] (srv_readdir srv handle) in
  reply_value res (fun entries => build_names (v_data my_buffer) request_id entries ec).

Definition serve_remove : ST S outcome :=
  let '(path, r) := take_str (Reader cb no_error) in
  let* r_ec := call_if_ok (rd_ec r) (srv_unlink srv path) in
  reply_status r_ec.

Definition serve_mkdir : ST S outcome :=
  let '(path, r) := take_str (Reader cb no_error) in
  let '(attr, r) := take_attrs r in
  let mode := if has_bit (a_flags attr) SSH_FILEXFER_ATTR_PERMISSIONS
              then a_permissions attr else 493 (* 0755 *) in
  let* r_ec := call_if_ok (rd_ec r) (srv_mkdir srv path mode) in
  reply_status r_ec.

Definition serve_rmdir : ST S outcome :=
  let '(path, r) := take_str (Reader cb no_error) in
  let* r_ec := call_if_ok (rd_ec r) (srv_rmdir srv path) in
  reply_status r_ec.

Definition serve_realpath : ST S outcome :=
  let '(path, r) := take_str (Reader cb no_error) in
  let* res := call_if_ok_value (rd_ec r) [] (srv_canonicalize_path srv path) in
  reply_value res (fun name => build_name (v_data my_buffer) request_id name ec).

Definition serve_stat : ST S outcome :=
  let '(path, r) := take_str (Reader cb no_error) in
  let* res := call_if_ok_value (rd_ec r) empty_attributes (srv_stat srv path) in
  reply_value res (fun attr => build_attrs (v_data my_buffer) request_id attr ec).

Definition serve_rename : ST S outcome :=
  let '(oldpath, r) := take_str (Reader cb no_error) in
  let '(newpath, r) := take_str r in
  let* r_ec := call_if_ok (rd_ec r) (srv_rename srv oldpath newpath) in
  reply_status r_ec.

Definition serve_readlink : ST S outcome :=
  let '(path, r) := take_str (Reader cb no_error) in
  let* res := call_if_ok_value (rd_ec r) [] (srv_readlink srv path) in
  reply_value res (fun target => build_name (v_data my_buffer) request_id target ec).

Definition serve_symlink : ST S outcome :=
  let '(target, r) := take_str (Reader cb no_error) in
  let '(dest, r) := take_str r in
  let* r_ec := call_if_ok (rd_ec r) (srv_symlink srv target dest) in
  reply_status r_ec.

Definition serve_extended : ST S outcome :=
  let '(ext_name, r) := take_str (Reader cb no_error) in
  if ec_bool (rd_ec r) then reply_status (rd_ec r)
  else if bool_decide (ext_name = hardlink_ext_name) then
    let '(oldpath, r) := take_str r in
    let '(newpath, r) := take_str r in
    let* r_ec := call_if_ok (rd_ec r) (srv_hardlink srv oldpath newpath) in
    reply_status r_ec
  else if bool_decide (ext_name = expand_path_ext_name) then
    let '(path, r) := take_str r in
    let* res := call_if_ok_value (rd_ec r) [] (srv_expand_path srv path) in
    reply_value res (fun name => build_name (v_data my_buffer) request_id name ec)
  else
    reply_status (ErrorCode SSH_FX_OP_UNSUPPORTED sftp_category).

End Cases.

(** The [switch (tp)]; [None] is its [default]. *)
Definition serve_case {S} (srv : sftp_server S) (my_buffer : vec) (tp : Z)
  : option (Z -> bytes -> error_code -> ST S outcome) :=
  if tp =? SSH_FXP_OPEN then Some (serve_open srv my_buffer)
  else if tp =? SSH_FXP_CLOSE then Some (serve_close srv my_buffer)
  else if tp =? SSH_FXP_READ then Some (serve_read srv my_buffer)
  else if tp =? SSH_FXP_WRITE then Some (serve_write srv my_buffer)
  else if tp =? SSH_FXP_LSTAT then Some (serve_lstat srv my_buffer)
  else if tp =? SSH_FXP_FSTAT then Some (serve_fstat srv my_buffer)
  else if tp =? SSH_FXP_SETSTAT then Some (serve_setstat srv my_buffer)
  else if tp =? SSH_FXP_FSETSTAT then Some (serve_fsetstat srv my_buffer)
  else if tp =? SSH_FXP_OPENDIR then Some (serve_opendir srv my_buffer)
  else if tp =? SSH_FXP_READDIR then Some (serve_readdir srv my_buffer)
  else if tp =? SSH_FXP_REMOVE then Some (serve_remove srv my_buffer)
  else if tp =? SSH_FXP_MKDIR then Some (serve_mkdir srv my_buffer)
  else if tp =? SSH_FXP_RMDIR then Some (serve_rmdir srv my_buffer)
  else if tp =? SSH_FXP_REALPATH then Some (serve_realpath srv my_buffer)
  else if tp =? SSH_FXP_STAT then Some (serve_stat srv my_buffer)
  else if tp =? SSH_FXP_RENAME then Some (serve_rename srv my_buffer)
  else if tp =? SSH_FXP_READLINK then Some (serve_readlink srv my_buffer)
  else if tp =? SSH_FXP_SYMLINK then Some (serve_symlink srv my_buffer)
  else if tp =? SSH_FXP_EXTENDED then Some (serve_extended srv my_buffer)
  else None.

(** The request handling of one round of [serve_worker]: [cb] is the packet
    without its length prefix. *)
Definition handle_packet {S} (srv : sftp_server S) (my_buffer : vec) (cb : bytes)
  : ST S outcome :=
  let '(tp, r) := take_u8 (Reader cb no_error) in
  let '(request_id, r) := take_u32 r in
  match serve_case srv my_buffer tp with
  | Some case => case request_id (rd_buf r) (rd_ec r)
  | None => st_ret (Stop bad_message_ec)
  end.

End WithPlatform.

(** ** The handshake *)

(** The [unordered_map] of [init_server], in some iteration order. *)
Definition server_extensions : list (bytes * bytes) :=
  [(lit "hardlink@openssh.com", lit "1"); (lit "expand-path@openssh.com", lit "1")].

(** [for (auto const & [name, data] : extensions)], twice. *)
Definition extensions_size (extensions : list (bytes * bytes)) : Z :=
  foldl (fun ext_bytes '(name, data) => ext_bytes + (4 + zlen name + 4 + zlen data)) 0 extensions.

Fixpoint put_extensions (extensions : list (bytes * bytes)) : ST writer unit :=
  match extensions with
  | [] => st_ret tt
  | (name, data) :: rest => (put_str name ;;; put_str data) ;;; put_extensions rest
  end.

Definition version_packet (extensions : list (bytes * bytes)) (ec : error_code)
  : bytes * error_code :=
  let ext_bytes := extensions_size extensions in
  let body_len := u32 (1 + 4 + u32 ext_bytes) in
  fill_with ec (vec_resize (u32 (4 + body_len)) [])
    (put_u32 body_len ;;; put_u8 SSH_FXP_VERSION ;;; put_u32 LIBSFTP_VERSION ;;;
     put_extensions extensions).

(** [make_buffer(rbuf.data(), sz + 4u)], then [cb += 4u]. *)
Definition packet_body (data : bytes) : bytes :=
  let sz := be_decode (take 4 data) in
  drop 4 (take (Z.to_nat (u32 (sz + 4))) data).

(** The check of the first packet of the client. *)
Definition check_init (data : bytes) (ec : error_code) : error_code :=
  let '(type, r) := take_u8 (Reader (packet_body data) ec) in
  let '(client_version, r) := take_u32 r in
  if negb (ec_bool (rd_ec r)) && negb (type =? SSH_FXP_INIT)
  then make_ssh_error_code SSH_FATAL else rd_ec r.

Section Serving.
Context {E : Type} {R : Runtime E}.

Definition init_server (extensions : list (bytes * bytes)) : ST E error_code :=
  let* res := read_until [] in
  let '(ec, n, buffer) := res in
  if ec_bool ec then st_ret ec
  else
    let ec := check_init (v_data buffer) ec in
    if ec_bool ec then st_ret ec
    else
      let '(out, ec) := version_packet extensions ec in
      if ec_bool ec then st_ret ec
      else write out.

(** ** One round of [serve_worker] *)

(** What the block under [read_mutex] produces. *)
Inductive read_result :=
| ReadError (ec : error_code)
| AssertionFailed
| OutOfRange
| Packet (my_buffer : vec) (cb buffer : bytes).

(** [my_buffer.begin() + sz + 4u] is pointer arithmetic, [rbuf.data(), sz + 4u]
    a 32-bit sum.  [assertions] says whether [assert] is compiled in. *)
Definition receive_packet (assertions : bool) (buffer : bytes) : ST E read_result :=
  let* res := read_until buffer in
  let '(ec, n, my_buffer) := res in
  st_ret
    (if ec_bool ec then ReadError ec
     else if assertions && negb (4 <? n) then AssertionFailed
     else
       let sz := be_decode (take 4 (v_data my_buffer)) in
       if zlen (v_data my_buffer) <? sz + 4 then OutOfRange
       else Packet my_buffer (packet_body (v_data my_buffer))
              (drop (Z.to_nat (sz + 4)) (v_data my_buffer))).

(** How a worker ends. *)
Inductive worker_end :=
| Stopped (ec : error_code)
| Undefined.

(** The world, the backend and the buffer the workers share. *)
Record serve_state (S : Type) := ServeState { sv_env : E; sv_backend : S; sv_buffer : bytes }.
Arguments ServeState {S} _ _ _.
Arguments sv_env {S} _.
Arguments sv_backend {S} _.
Arguments sv_buffer {S} _.

Context {P : Platform} {S : Type} (srv : sftp_server S) (assertions : bool).

(** The part after the [switch]: take [write_mutex] and send the response. *)
Definition send_response (response : bytes) (st : serve_state S)
  : round (serve_state S) worker_end :=
  let '(ll, e) := lock (sv_env st) in
  let st := ServeState e (sv_backend st) (sv_buffer st) in
  if ec_bool ll then Return (Stopped ll) st
  else
    let '(ec, e) := write response (sv_env st) in
    let st := ServeState e (sv_backend st) (sv_buffer st) in
    if ec_bool ec then Return (Stopped ec) st else Again st.

Definition serve_worker (st : serve_state S) : round (serve_state S) worker_end :=
  let '(stop, e) := stop_requested (sv_env st) in
  if stop then Return (Stopped capy_canceled) (ServeState e (sv_backend st) (sv_buffer st))
  else
    let '(l, e) := lock e in
    if ec_bool l then Return (Stopped l) (ServeState e (sv_backend st) (sv_buffer st))
    else
      let '(res, e) := receive_packet assertions (sv_buffer st) e in
      match res with
      | ReadError ec => Return (Stopped ec) (ServeState e (sv_backend st) (sv_buffer st))
      | AssertionFailed | OutOfRange => Return Undefined (ServeState e (sv_backend st) (sv_buffer st))
      | Packet my_buffer cb buffer =>
          let '(out, s) := handle_packet srv my_buffer cb (sv_backend st) in
          let st := ServeState e s buffer in
          match out with
          | Respond response => send_response response st
          | Stop ec => Return (Stopped ec) st
          | UseAfterFree => Return Undefined st
          end
      end.

End Serving.

Arguments ServeState {E S} _ _ _.
Arguments sv_env {E S} _.
Arguments sv_backend {E S} _.
Arguments sv_buffer {E S} _.
