(* ===== verification/Backends.v ===== *)
(** * Backends: concrete [sftp::server]s

    Two backends on which the definitions of the development evaluate: a flat
    directory of names ([demo_server]) and one that supports nothing
    ([null_server]).  The platform is [linux_platform]. *)

From S2P Require Import Prelude Libssh ErrorCode Codec Requests Responses Server.

#[local] Open Scope Z_scope.

#[export] Existing Instance linux_platform.

(** A backend to evaluate the definitions on: a flat directory of names. *)
Definition demo_unlink (p : bytes) : ST (list bytes) error_code := fun s =>
  if bool_decide (p ∈ s) then (no_error, filter (fun q => q <> p) s)
  else (make_error_code no_such_file_or_directory, s).

Definition demo_fail {A} (d : A) : ST (list bytes) (io_result A) := fun s =>
  (IoResult (make_error_code function_not_supported) d, s).

Definition demo_refuse : ST (list bytes) error_code := fun s =>
  (make_error_code permission_denied, s).

Definition demo_server : sftp_server (list bytes) := {|
  srv_open p _ _ := fun s => (IoResult no_error p, p :: s);
  srv_read_at _ _ mb := fun s => ((IoResult no_error 2, lit "hello" ++ drop 5 mb), s);
  srv_write_at _ _ d := fun s => (IoResult no_error (zlen d), s);
  srv_fstat _ := demo_fail empty_attributes;
  srv_fsync _ := demo_refuse;
  srv_close _ := fun s => (no_error, s);
  srv_opendir p := fun s => (IoResult no_error p, s);
  srv_readdir _ := fun s => (IoResult no_error (map (fun q => Entry empty_attributes q q) s), s);
  srv_stat _ := fun s => (IoResult no_error (permissions_attrs 420), s);
  srv_lstat _ := demo_fail empty_attributes;
  srv_unlink := demo_unlink;
  srv_mkdir p _ := fun s => (no_error, p :: s);
  srv_rmdir _ := demo_refuse;
  srv_rename _ _ := demo_refuse;
  srv_chmod _ _ := demo_refuse;
  srv_chown _ _ _ := demo_refuse;
  srv_symlink _ _ := demo_refuse;
  srv_hardlink _ _ := demo_refuse;
  srv_setstat _ _ := demo_refuse;
  srv_fsetstat _ _ := demo_refuse;
  srv_readlink p := fun s => (IoResult no_error p, s);
  srv_canonicalize_path p := fun s => (IoResult no_error p, s);
  srv_expand_path _ := demo_fail [];
  srv_home_directory _ := demo_fail []
|}.

Definition null_value {A} (d : A) : ST unit (io_result A) := fun s =>
  (IoResult (make_error_code function_not_supported) d, s).
Definition null_op : ST unit error_code := fun s => (make_error_code function_not_supported, s).

Definition null_server : sftp_server unit := {|
  srv_open _ _ _ := null_value [];
  srv_read_at _ _ mb := fun s => ((IoResult (make_error_code function_not_supported) 0, mb), s);
  srv_write_at _ _ _ := null_value 0;
  srv_fstat _ := null_value empty_attributes;
  srv_fsync _ := null_op;
  srv_close _ := null_op;
  srv_opendir _ := null_value [];
  srv_readdir _ := null_value [];
  srv_stat _ := null_value empty_attributes;
  srv_lstat _ := null_value empty_attributes;
  srv_unlink _ := null_op;
  srv_mkdir _ _ := null_op;
  srv_rmdir _ := null_op;
  srv_rename _ _ := null_op;
  srv_chmod _ _ := null_op;
  srv_chown _ _ _ := null_op;
  srv_symlink _ _ := null_op;
  srv_hardlink _ _ := null_op;
  srv_setstat _ _ := null_op;
  srv_fsetstat _ _ := null_op;
  srv_readlink _ := null_value [];
  srv_canonicalize_path _ := null_value [];
  srv_expand_path _ := null_value [];
  srv_home_directory _ := null_value []
|}.

(** An uninitialised buffer with some contents. *)
Definition demo_buffer : small_buffer := SmallBuffer (replicate 1024 Byte.xaa) [].

Lemma demo_buffer_wf : small_buffer_wf demo_buffer.
Proof. by vm_compute. Qed.
