(* ===== verification/Path.v ===== *)
(** * Path: the part of [std::filesystem::path] the example server uses

    POSIX paths: [operator/], [relative_path], [lexically_normal] and
    [lexically_relative], as the C++ standard defines them ([fs.path]).  A path is the
    string it was made from; its elements are the names between the slashes.

    [names_append] says what joining two paths does to the names, [normal_names]
    what normalising does, in terms of [walk], which follows the names one by
    one from a directory. *)

From S2P Require Import Prelude.

#[local] Open Scope Z_scope.

(** ** Definitions *)

Definition slash : Byte.byte := Byte.x2f.
Definition dot : bytes := lit ".".
Definition dot_dot : bytes := lit "..".

(** What is between the slashes, the empty strings included. *)
Fixpoint split_slashes (p : bytes) : list bytes :=
  match p with
  | [] => [[]]
  | c :: p' =>
      if bool_decide (c = slash) then [] :: split_slashes p'
      else match split_slashes p' with
           | h :: t => (c :: h) :: t
           | [] => [[c]]
           end
  end.

Definition names (p : bytes) : list bytes := filter (fun n => n <> []) (split_slashes p).

Definition is_absolute (p : bytes) : bool := bool_decide (head p = Some slash).

(** The path ends in a separator, that is, it has no filename. *)
Definition ends_in_slash (p : bytes) : bool := bool_decide (last p = Some slash).

Fixpoint relative_path (p : bytes) : bytes :=
  match p with
  | [] => []
  | c :: p' => if bool_decide (c = slash) then relative_path p' else p
  end.

(** [p / q] *)
Definition append (p q : bytes) : bytes :=
  if is_absolute q then q
  else if bool_decide (p = []) || ends_in_slash p then p ++ q
  else p ++ [slash] ++ q.

Fixpoint join_names (l : list bytes) : bytes :=
  match l with
  | [] => []
  | [n] => n
  | n :: l' => n ++ [slash] ++ join_names l'
  end.

(** One name of a path: [st] are the names so far, the last one first; the flag
    says that a separator is left at the end. *)
Definition normal_step (rooted : bool) (st : list bytes * bool) (n : bytes) : list bytes * bool :=
  let '(st, _) := st in
  if bool_decide (n = dot) then (st, true)
  else if bool_decide (n = dot_dot) then
    match st with
    | [] => if rooted then ([], true) else ([dot_dot], false)
    | top :: st' => if bool_decide (top = dot_dot) then (dot_dot :: st, false) else (st', true)
    end
  else (n :: st, false).

Definition lexically_normal (p : bytes) : bytes :=
  if bool_decide (p = []) then []
  else
    let rooted := is_absolute p in
    let '(st, trailing) := foldl (normal_step rooted) ([], false) (names p) in
    let keeps_slash := match st with
                       | [] => false
                       | top :: _ => (trailing || ends_in_slash p) && negb (bool_decide (top = dot_dot))
                       end in
    let result := (if rooted then [slash] else []) ++ join_names (reverse st)
                  ++ (if keeps_slash then [slash] else []) in
    if bool_decide (result = []) then dot else result.

(** [p.filename()] *)
Definition filename (p : bytes) : bytes := default [] (last (split_slashes p)).

(** [p.lexically_relative(base)] for two absolute paths without empty
    filenames: back to the common prefix and down again. *)
Fixpoint strip_common (p base : list bytes) : list bytes * list bytes :=
  match p, base with
  | a :: p', b :: base' => if bool_decide (a = b) then strip_common p' base' else (p, base)
  | _, _ => (p, base)
  end.

Definition lexically_relative (p base : bytes) : bytes :=
  let '(down, up) := strip_common (names p) (names base) in
  if bool_decide (up = []) && bool_decide (down = []) then dot
  else join_names (replicate (length up) dot_dot ++ down).

(** ** Names *)

(** What the system makes of a path, symbolic links aside: the directory it
    leads to from the directory [st] (the last name first). *)
Definition walk (st : list bytes) (l : list bytes) : list bytes :=
  foldl (fun st n => if bool_decide (n = dot) then st
                     else if bool_decide (n = dot_dot) then tail st else n :: st) st l.

(** Never above the directory the walk starts from, [d] levels down now. *)
Fixpoint stays_below (d : nat) (l : list bytes) : bool :=
  match l with
  | [] => true
  | n :: l' =>
      if bool_decide (n = dot) then stays_below d l'
      else if bool_decide (n = dot_dot) then
        match d with O => false | S d' => stays_below d' l' end
      else stays_below (S d) l'
  end.

Definition is_name (n : bytes) : Prop := n <> [] /\ slash ∉ n.
Definition plain (n : bytes) : Prop := n <> dot /\ n <> dot_dot.

(** ** Lemmas *)

Lemma split_slashes_nonempty p : split_slashes p <> [].
Proof. destruct p as [|c p]; cbn; [done|]. case_bool_decide; [done|]. by destruct (split_slashes p). Qed.

Lemma split_slashes_app p q :
  split_slashes (p ++ slash :: q) = split_slashes p ++ split_slashes q.
Proof.
  induction p as [|c p IH]; cbn.
  - by rewrite bool_decide_eq_true_2.
  - rewrite IH. case_bool_decide; [done|].
    pose proof (split_slashes_nonempty p). by destruct (split_slashes p).
Qed.

Lemma split_slashes_name n : slash ∉ n -> split_slashes n = [n].
Proof.
  induction n as [|c n IH]; intros Hn; cbn; [done|]. apply not_elem_of_cons in Hn as [Hc Hn].
  rewrite bool_decide_eq_false_2 by congruence. by rewrite IH.
Qed.

Lemma names_app_slash p q : names (p ++ slash :: q) = names p ++ names q.
Proof. unfold names. by rewrite split_slashes_app, filter_app. Qed.

Lemma names_nil : names [] = [].
Proof. done. Qed.

Lemma names_slash_cons p : names (slash :: p) = names p.
Proof. apply (names_app_slash []). Qed.

Lemma names_name n : is_name n -> names n = [n].
Proof. intros [Hne Hs]. unfold names. by rewrite split_slashes_name, filter_cons_True. Qed.

Lemma names_relative_path p : names (relative_path p) = names p.
Proof.
  induction p as [|c p IH]; cbn [relative_path]; [done|].
  case_bool_decide as Hc; [|done]. subst c. by rewrite names_slash_cons.
Qed.

Lemma relative_path_not_absolute p : is_absolute (relative_path p) = false.
Proof.
  induction p as [|c p IH]; [done|]. cbn [relative_path]. case_bool_decide as Hc; [done|].
  unfold is_absolute. apply bool_decide_eq_false_2. cbn. congruence.
Qed.

Lemma ends_in_slash_inv p : ends_in_slash p = true -> exists q, p = q ++ [slash].
Proof.
  unfold ends_in_slash. rewrite bool_decide_eq_true. intros Hl.
  destruct p as [|c p _] using rev_ind; [done|]. rewrite last_snoc in Hl. injection Hl as ->. eauto.
Qed.

Lemma names_append p q :
  is_absolute q = false -> names (append p q) = names p ++ names q.
Proof.
  intros Hq. unfold append. rewrite Hq. destruct (bool_decide_reflect (p = [])) as [->|Hp]; [done|].
  cbn [orb]. destruct (ends_in_slash p) eqn:Hs.
  - apply ends_in_slash_inv in Hs as [r ->]. rewrite <- app_assoc. cbn [app].
    rewrite !names_app_slash. by rewrite names_nil, app_nil_r.
  - apply names_app_slash.
Qed.

Lemma is_absolute_append p q :
  is_absolute p = true -> is_absolute q = false -> is_absolute (append p q) = true.
Proof.
  intros Hp Hq. unfold append. rewrite Hq. unfold is_absolute in *.
  destruct p as [|c p]; [done|]. cbn [bool_decide orb]. by destruct (_ || _).
Qed.

Lemma names_are_names p : Forall is_name (names p).
Proof.
  apply Forall_forall. intros n Hn. unfold names in Hn.
  apply list_elem_of_filter in Hn as [Hne Hn]. split; [done|]. clear Hne.
  revert n Hn. induction p as [|c p IH]; cbn; intros n Hn.
  - apply list_elem_of_singleton in Hn as ->. set_solver.
  - case_bool_decide as Hc.
    + apply elem_of_cons in Hn as [->|Hn]; [set_solver | by apply IH].
    + pose proof (split_slashes_nonempty p). destruct (split_slashes p) as [|h t]; [done|].
      apply elem_of_cons in Hn as [->|Hn]; [|apply IH; by right].
      apply not_elem_of_cons. split; [congruence|]. apply IH. by left.
Qed.

Lemma names_join l : Forall is_name l -> names (join_names l) = l.
Proof.
  induction 1 as [|n l Hn Hl IH]; [done|]. destruct l as [|m l]; [by apply names_name|].
  change (join_names (n :: m :: l)) with (n ++ slash :: join_names (m :: l)).
  by rewrite names_app_slash, IH, names_name.
Qed.

Lemma join_names_relative l : Forall is_name l -> is_absolute (join_names l) = false.
Proof.
  unfold is_absolute. intros Hl. apply bool_decide_eq_false_2. destruct Hl as [|n l [Hne Hs] Hl]; [done|].
  destruct n as [|c n]; [done|]. assert (c <> slash) by set_solver.
  destruct l; cbn; congruence.
Qed.

(** ** Lemmas: walking and normalising *)

Lemma walk_app st l1 l2 : walk st (l1 ++ l2) = walk (walk st l1) l2.
Proof. apply foldl_app. Qed.

Lemma walk_cons st n l :
  walk st (n :: l) = walk (if bool_decide (n = dot) then st
                           else if bool_decide (n = dot_dot) then tail st else n :: st) l.
Proof. done. Qed.

Lemma walk_plain st l : Forall plain l -> walk st l = reverse l ++ st.
Proof.
  intros Hl. revert st. induction Hl as [|n l [Hd Hdd] Hl IH]; intros st; [done|].
  rewrite walk_cons, !bool_decide_eq_false_2 by done.
  by rewrite IH, reverse_cons, <- app_assoc.
Qed.

Lemma walk_from_root k : walk [] (replicate k dot_dot) = [].
Proof. induction k; [done|]. exact IHk. Qed.

Lemma walk_up k st : walk st (replicate k dot_dot) = drop k st.
Proof.
  revert st. induction k as [|k IH]; intros st; [done|].
  change (walk (tail st) (replicate k dot_dot) = drop (S k) st). rewrite IH. by destruct st; destruct k.
Qed.

Lemma walk_forall (Q : bytes -> Prop) st l : Forall Q st -> Forall Q l -> Forall Q (walk st l).
Proof.
  intros Hst Hl. revert st Hst. induction Hl as [|n l Hn Hl IH]; intros st Hst; [done|].
  rewrite walk_cons. apply IH. case_bool_decide; [done|].
  case_bool_decide; [by destruct Hst | by constructor].
Qed.

Lemma walk_no_dots st l : Forall plain st -> Forall plain (walk st l).
Proof.
  revert st. induction l as [|n l IH]; intros st Hst; [done|]. rewrite walk_cons. apply IH.
  case_bool_decide; [done|]. case_bool_decide; [by destruct Hst|]. by constructor.
Qed.

(** A walk that stays below its start does not depend on what is above it. *)
Lemma walk_stays_below below base l :
  stays_below (length below) l = true -> walk (below ++ base) l = walk below l ++ base.
Proof.
  revert below. induction l as [|n l IH]; intros below Hl; [done|].
  rewrite !walk_cons. cbn [stays_below] in Hl.
  case_bool_decide; [by apply IH|]. case_bool_decide.
  - destruct below as [|m below]; [done|]. by apply IH.
  - by apply (IH (n :: below)).
Qed.

Lemma normal_step_walk l st f :
  Forall (fun n => n <> dot_dot) st ->
  fst (foldl (normal_step true) (st, f) l) = walk st l.
Proof.
  revert st f. induction l as [|n l IH]; intros st f Hst; [done|]. cbn [foldl].
  rewrite walk_cons. unfold normal_step at 2. case_bool_decide; [by apply IH|]. case_bool_decide.
  - destruct Hst as [|top st Htop Hst]; [by apply IH|].
    rewrite bool_decide_eq_false_2 by done. by apply IH.
  - apply IH. by constructor.
Qed.

(** The normal form of an absolute path names the directory its names lead to
    from the root. *)
Lemma normal_names p :
  is_absolute p = true ->
  is_absolute (lexically_normal p) = true /\
  names (lexically_normal p) = reverse (walk [] (names p)).
Proof.
  intros Hp. unfold lexically_normal. rewrite bool_decide_eq_false_2 by (by intros ->).
  rewrite Hp. pose proof (normal_step_walk (names p) [] false ltac:(constructor)) as Hw.
  destruct (foldl _ _ _) as [st trailing] eqn:Hf. cbn [fst] in Hw. subst st.
  cbn [app]. rewrite bool_decide_eq_false_2 by done. split; [done|].
  assert (Hn : Forall is_name (reverse (walk [] (names p)))).
  { apply Forall_reverse, walk_forall; [constructor | apply names_are_names]. }
  rewrite names_slash_cons. destruct (match walk [] (names p) with [] => _ | _ => _ end).
  - by rewrite names_app_slash, names_join, app_nil_r.
  - by rewrite app_nil_r, names_join.
Qed.
