(* ===== verification/BackendSim.v ===== *)
(** * BackendSim: replacing one backend of the server by another

    The server is the same program over every [sftp::server].  [backend_sim]
    relates two backends, call by call, by what the code that calls them can
    pass: values of the C++ parameter types ([handle_packet_sim]).  Three uses:
    the calls are well typed ([handle_packet_typed]), a worker over a backend
    that implements another one cannot be told from a worker over that one
    ([serve_worker_sim]), and what every call preserves a packet preserves
    ([handle_packet_step]). *)

From S2P Require Import Prelude Libssh ErrorCode Codec Stream Requests Responses Server Backends.

#[local] Open Scope Z_scope.

(** ** Related computations *)

(** From states related by [Pre], equal results and states related by [Post]. *)
Definition sim {S1 S2 A} (Pre Post : S1 -> S2 -> Prop) (m1 : ST S1 A) (m2 : ST S2 A) : Prop :=
  forall s1 s2, Pre s1 s2 -> fst (m1 s1) = fst (m2 s2) /\ Post (snd (m1 s1)) (snd (m2 s2)).

(** Two backends: the calls [serve_worker] makes, on arguments of their types. *)
Record backend_sim {S1 S2} (Pre Post : S1 -> S2 -> Prop)
    (srv1 : sftp_server S1) (srv2 : sftp_server S2) : Prop := BackendSim {
  sim_open p flags mode : str_wf p -> - 2 ^ 31 <= flags < 2 ^ 31 -> is_u32 mode ->
    sim Pre Post (srv_open srv1 p flags mode) (srv_open srv2 p flags mode);
  sim_read_at h off mb : str_wf h -> is_u64 off -> zlen mb <= read_limit ->
    sim Pre Post (srv_read_at srv1 h off mb) (srv_read_at srv2 h off mb);
  sim_write_at h off d : str_wf h -> is_u64 off -> zlen d <= read_limit ->
    sim Pre Post (srv_write_at srv1 h off d) (srv_write_at srv2 h off d);
  sim_fstat h : str_wf h -> sim Pre Post (srv_fstat srv1 h) (srv_fstat srv2 h);
  sim_close h : str_wf h -> sim Pre Post (srv_close srv1 h) (srv_close srv2 h);
  sim_opendir p : str_wf p -> sim Pre Post (srv_opendir srv1 p) (srv_opendir srv2 p);
  sim_readdir h : str_wf h -> sim Pre Post (srv_readdir srv1 h) (srv_readdir srv2 h);
  sim_stat p : str_wf p -> sim Pre Post (srv_stat srv1 p) (srv_stat srv2 p);
  sim_lstat p : str_wf p -> sim Pre Post (srv_lstat srv1 p) (srv_lstat srv2 p);
  sim_unlink p : str_wf p -> sim Pre Post (srv_unlink srv1 p) (srv_unlink srv2 p);
  sim_mkdir p mode : str_wf p -> is_u32 mode ->
    sim Pre Post (srv_mkdir srv1 p mode) (srv_mkdir srv2 p mode);
  sim_rmdir p : str_wf p -> sim Pre Post (srv_rmdir srv1 p) (srv_rmdir srv2 p);
  sim_rename o n : str_wf o -> str_wf n ->
    sim Pre Post (srv_rename srv1 o n) (srv_rename srv2 o n);
  sim_symlink t d : str_wf t -> str_wf d ->
    sim Pre Post (srv_symlink srv1 t d) (srv_symlink srv2 t d);
  sim_hardlink o n : str_wf o -> str_wf n ->
    sim Pre Post (srv_hardlink srv1 o n) (srv_hardlink srv2 o n);
  sim_setstat p a : str_wf p -> attrs_wf a ->
    sim Pre Post (srv_setstat srv1 p a) (srv_setstat srv2 p a);
  sim_fsetstat h a : str_wf h -> attrs_wf a ->
    sim Pre Post (srv_fsetstat srv1 h a) (srv_fsetstat srv2 h a);
  sim_readlink p : str_wf p -> sim Pre Post (srv_readlink srv1 p) (srv_readlink srv2 p);
  sim_canonicalize_path p : str_wf p ->
    sim Pre Post (srv_canonicalize_path srv1 p) (srv_canonicalize_path srv2 p);
  sim_expand_path p : str_wf p -> sim Pre Post (srv_expand_path srv1 p) (srv_expand_path srv2 p)
}.

Create HintDb sim.

(** ** Lemmas: what the parsers hand on *)

Section Typed.

Lemma take_u64_range r : is_u64 (fst (take_u64 r)).
Proof.
  cbv beta zeta delta [take_u64]. destruct (ec_bool _); cbn [fst]; [by vm_compute|].
  pose proof (be_decode_range (take 4 (rd_buf (require_bytes 8 r)))) as Hh.
  pose proof (be_decode_range (take 4 (drop 4 (rd_buf (require_bytes 8 r))))) as Hl.
  rewrite zlen_take in Hh, Hl.
  assert (H4 : forall z, 2 ^ (8 * Z.min (Z.of_nat 4) z) <= 2 ^ 32)
    by (intros z; apply Z.pow_le_mono_r; lia).
  pose proof (H4 (zlen (rd_buf (require_bytes 8 r)))).
  pose proof (H4 (zlen (drop 4 (rd_buf (require_bytes 8 r))))).
  unfold is_u64. rewrite lor_shiftl_add by lia. nia.
Qed.

Lemma take_str_wf r : str_wf (fst (take_str r)).
Proof.
  cbv beta zeta delta [take_str st_bind]. pose proof (take_u32_range r) as Hsz.
  destruct (take_u32 r) as [sz r']. cbn [fst] in Hsz. destruct (ec_bool _); cbn [fst].
  - by vm_compute.
  - unfold str_wf, is_u32 in *. rewrite zlen_take. pose proof (zlen_nonneg (rd_buf (require_bytes sz r'))). lia.
Qed.

End Typed.

Lemma take_attrs_wf r : attrs_wf (fst (take_attrs r)).
Proof.
  unfold take_attrs, st_bind. pose proof (take_u32_range r) as Hf.
  destruct (take_u32 r) as [flags r0]. cbn [fst] in Hf.
  repeat (match goal with |- context [has_bit flags ?k] => destruct (has_bit flags k) eqn:? end;
    cbv [st_ret st_when]);
  repeat match goal with
  | |- context [take_u64 ?r] =>
      pose proof (take_u64_range r); destruct (take_u64 r) as [? ?]
  | |- context [take_u32 ?r] =>
      pose proof (take_u32_range r); destruct (take_u32 r) as [? ?]
  | |- context [take_extended ?r] => destruct (take_extended r) as [? ?]
  end; cbn [fst] in *; by split_and!.
Qed.

Lemma i32_range z : - 2 ^ 31 <= i32 z < 2 ^ 31.
Proof. unfold i32. pose proof (Z.mod_pos_bound (z + 2 ^ 31) (2 ^ 32) ltac:(lia)). lia. Qed.

(** ** Lemmas: related computations *)

Section Sim.
Context {S1 S2 : Type} (Pre Post : S1 -> S2 -> Prop) (Hsub : forall s1 s2, Pre s1 s2 -> Post s1 s2).

Lemma sim_ret {A} (a : A) : sim Pre Post (st_ret a) (st_ret a).
Proof using Hsub. intros s1 s2 Hs. split; [done | by apply Hsub]. Qed.

(** After the backend has been called, only the reply is computed. *)
Lemma sim_bind_pure {A B} (m1 : ST S1 A) (m2 : ST S2 A) (k1 : A -> ST S1 B) (k2 : A -> ST S2 B) :
  sim Pre Post m1 m2 ->
  (forall a s1 s2, fst (k1 a s1) = fst (k2 a s2) /\ snd (k1 a s1) = s1 /\ snd (k2 a s2) = s2) ->
  sim Pre Post (st_bind m1 k1) (st_bind m2 k2).
Proof using.
  intros Hm Hk s1 s2 Hs. unfold st_bind. destruct (Hm s1 s2 Hs) as [Ha Hp].
  destruct (m1 s1) as [a s1'], (m2 s2) as [a' s2']. cbn in Ha, Hp. subst a'.
  by destruct (Hk a s1' s2') as (Hf & -> & ->).
Qed.

Lemma sim_call (r_ec : error_code) (m1 : ST S1 error_code) (m2 : ST S2 error_code) :
  sim Pre Post m1 m2 -> sim Pre Post (call_if_ok r_ec m1) (call_if_ok r_ec m2).
Proof using Hsub. intros Hm. unfold call_if_ok. destruct (ec_bool r_ec); [apply sim_ret | done]. Qed.

Lemma sim_call_value {A} (r_ec : error_code) (d : A) m1 m2 :
  (ec_bool r_ec = false -> sim Pre Post m1 m2) ->
  sim Pre Post (call_if_ok_value r_ec d m1) (call_if_ok_value r_ec d m2).
Proof using Hsub.
  intros Hm. unfold call_if_ok_value. destruct (ec_bool r_ec); [apply sim_ret | by apply Hm].
Qed.

Context {P : Platform}.

Lemma sim_status buf id ec r_ec m1 m2 :
  sim Pre Post m1 m2 ->
  sim Pre Post (let* x := call_if_ok r_ec m1 in reply_status buf id ec x)
    (let* x := call_if_ok r_ec m2 in reply_status buf id ec x).
Proof using Hsub. intros Hm. apply sim_bind_pure; [by apply sim_call|done]. Qed.

Lemma sim_value {A} buf id ec r_ec (d : A) m1 m2 build :
  sim Pre Post m1 m2 ->
  sim Pre Post (let* x := call_if_ok_value r_ec d m1 in reply_value buf id ec x build)
    (let* x := call_if_ok_value r_ec d m2 in reply_value buf id ec x build).
Proof using Hsub.
  intros Hm. apply sim_bind_pure; [by apply sim_call_value|].
  intros a s1 s2. unfold reply_value. by destruct (ec_bool _).
Qed.

End Sim.

#[export] Hint Resolve take_str_wf take_u32_range take_u64_range take_attrs_wf i32_range : sim.

(** A case: name what is parsed, then the call. *)
Ltac parsed_args :=
  repeat match goal with
  | |- context [let '(_, _) := take_str ?r in _] =>
      pose proof (take_str_wf r); destruct (take_str r) as [? ?]
  | |- context [let '(_, _) := take_u32 ?r in _] =>
      pose proof (take_u32_range r); destruct (take_u32 r) as [? ?]
  | |- context [let '(_, _) := take_u64 ?r in _] =>
      pose proof (take_u64_range r); destruct (take_u64 r) as [? ?]
  | |- context [let '(_, _) := take_attrs ?r in _] =>
      pose proof (take_attrs_wf r); destruct (take_attrs r) as [? ?]
  end; cbn [fst] in *.

Ltac case_limit :=
  match goal with |- context [read_limit <? ?n] => destruct (Z.ltb_spec read_limit n) end.

Section Cases.
Context {P : Platform} {S1 S2 : Type} (Pre Post : S1 -> S2 -> Prop).
Context (Hsub : forall s1 s2, Pre s1 s2 -> Post s1 s2).
Context (srv1 : sftp_server S1) (srv2 : sftp_server S2) (Hsrv : backend_sim Pre Post srv1 srv2).

Lemma sim_write buf id cb ec :
  sim Pre Post (serve_write srv1 buf id cb ec) (serve_write srv2 buf id cb ec).
Proof using Hsub Hsrv.
  unfold serve_write. parsed_args.
  apply sim_bind_pure; [|done]. apply sim_call_value; [done|]. intros Hec.
  revert Hec. case_limit; [done|]. intros _. by eapply sim_write_at.
Qed.

Lemma sim_extended buf id cb ec :
  sim Pre Post (serve_extended srv1 buf id cb ec) (serve_extended srv2 buf id cb ec).
Proof using Hsub Hsrv.
  unfold serve_extended. parsed_args. destruct (ec_bool _); [by apply sim_ret|].
  case_bool_decide; [|case_bool_decide; [|by apply sim_ret]]; parsed_args.
  - apply sim_status; [done|]. by eapply sim_hardlink.
  - apply sim_value; [done|]. by eapply sim_expand_path.
Qed.

Lemma sim_read buf id cb ec :
  sim Pre Post (serve_read srv1 buf id cb ec) (serve_read srv2 buf id cb ec).
Proof using Hsub Hsrv.
  unfold serve_read. pose proof (take_str_wf (Reader cb no_error)).
  destruct (take_str _) as [handle r]. pose proof (take_u64_range r).
  destruct (take_u64 r) as [offset r1]. pose proof (take_u32_range r1).
  destruct (take_u32 r1) as [len r2]. cbn [fst] in *. case_limit; [by apply sim_ret|].
  destruct (ec_bool _); [by apply sim_ret|].
  assert (Hsz : u32 (1 + 4 + u32 (4 + len)) = 9 + len).
  { unfold read_limit in *. rewrite (u32_small (4 + len)) by (unfold is_u32 in *; lia).
    rewrite u32_small by (unfold is_u32 in *; lia). lia. }
  rewrite Hsz. destruct (view_bytes _ _ _ _) as [h|] eqn:Hv; [|by apply sim_ret].
  apply sim_bind_pure.
  - eapply sim_read_at; [done| |done|].
    + unfold view_bytes in Hv. destruct (_ && _); [|done]. injection Hv as <-.
      unfold str_wf, is_u32 in *. rewrite zlen_take. zlen_lia.
    + rewrite zlen_drop, zlen_vec_resize by (unfold is_u32 in *; lia). unfold data_offset, is_u32 in *. lia.
  - intros [res mb] s1 s2. by destruct (ec_bool (io_ec res)).
Qed.

(** Every [case], on any bytes. *)
Lemma serve_case_sim buf tp :
  match serve_case srv1 buf tp, serve_case srv2 buf tp with
  | Some c1, Some c2 => forall id cb ec, sim Pre Post (c1 id cb ec) (c2 id cb ec)
  | None, None => True
  | _, _ => False
  end.
Proof using Hsub Hsrv.
  unfold serve_case.
  repeat match goal with
  | |- context [tp =? ?k] => destruct (tp =? k); [intros id cb ec|]
  end; [..|done]; try apply sim_read; try apply sim_write; try apply sim_extended;
  unfold serve_open, serve_close, serve_lstat, serve_fstat, serve_setstat, serve_fsetstat,
    serve_opendir, serve_readdir, serve_remove, serve_mkdir, serve_rmdir, serve_realpath,
    serve_stat, serve_rename, serve_readlink, serve_symlink; parsed_args;
  first [apply sim_status; [done|] | apply sim_value; [done|]].
  all: try match goal with H : attrs_wf ?a |- _ =>
    assert (is_u32 (a_permissions a)) by (unfold attrs_wf in H; tauto) end.
  all: destruct Hsrv; auto with sim.
  apply sim_mkdir0; [done|]. by case_match.
Qed.

End Cases.

(** ** Lemmas: packets and workers *)

Section Packets.
Context {P : Platform} {S1 S2 : Type} (Pre Post : S1 -> S2 -> Prop).
Context (Hsub : forall s1 s2, Pre s1 s2 -> Post s1 s2).
Context (srv1 : sftp_server S1) (srv2 : sftp_server S2) (Hsrv : backend_sim Pre Post srv1 srv2).

Lemma handle_packet_sim buf cb :
  sim Pre Post (handle_packet srv1 buf cb) (handle_packet srv2 buf cb).
Proof using Hsub Hsrv.
  unfold handle_packet. destruct (take_u8 _) as [tp r]. destruct (take_u32 r) as [id r'].
  pose proof (serve_case_sim Pre Post Hsub srv1 srv2 Hsrv buf tp) as Hc.
  destruct (serve_case srv1 buf tp), (serve_case srv2 buf tp); [apply Hc|done..|by apply sim_ret].
Qed.

End Packets.

(** What every backend call does to the state, a packet does, or nothing. *)
Section Step.
Context {P : Platform} {S : Type} (srv : sftp_server S) (T : S -> S -> Prop).
Context (Trefl : forall s, T s s).

Definition starts_at (s0 s1 s2 : S) : Prop := s1 = s0 /\ s2 = s0.
Definition stepped (s0 s1 s2 : S) : Prop := s1 = s2 /\ T s0 s1.

Lemma handle_packet_step buf cb s :
  backend_sim (starts_at s) (stepped s) srv srv -> T s (snd (handle_packet srv buf cb s)).
Proof using Trefl.
  intros Hsrv. assert (Hsub : forall s1 s2, starts_at s s1 s2 -> stepped s s1 s2).
  { intros s1 s2 [-> ->]. by split. }
  by destruct (handle_packet_sim _ _ Hsub _ _ Hsrv buf cb s s) as (_ & _ & H).
Qed.

(** Such a call, in terms of the call alone. *)
Lemma sim_step {A} s (m : ST S A) : T s (snd (m s)) -> sim (starts_at s) (stepped s) m m.
Proof using. intros H s1 s2 [-> ->]. by repeat split. Qed.

End Step.

Section WorkerSim.
Context {E S1 S2 : Type} {R : Runtime E} {P : Platform} (Rs : S1 -> S2 -> Prop).
Context (srv1 : sftp_server S1) (srv2 : sftp_server S2) (Hsrv : backend_sim Rs Rs srv1 srv2).

(** Two workers that differ in the backend's state only. *)
Definition same_worker (st1 : serve_state (E := E) S1) (st2 : serve_state (E := E) S2) : Prop :=
  sv_env st1 = sv_env st2 /\ sv_buffer st1 = sv_buffer st2 /\ Rs (sv_backend st1) (sv_backend st2).

Definition same_round (r1 : round (serve_state (E := E) S1) worker_end)
    (r2 : round (serve_state (E := E) S2) worker_end) : Prop :=
  match r1, r2 with
  | Again st1, Again st2 => same_worker st1 st2
  | Return x1 st1, Return x2 st2 => x1 = x2 /\ same_worker st1 st2
  | _, _ => False
  end.

Lemma send_response_sim response st1 st2 :
  same_worker st1 st2 -> same_round (send_response response st1) (send_response response st2).
Proof using.
  destruct st1 as [e1 s1 b1], st2 as [e2 s2 b2]. intros (He & Hb & Hs). cbn in He, Hb, Hs.
  subst e2 b2. unfold send_response. cbn [sv_env sv_backend sv_buffer].
  destruct (lock e1) as [ll e]. destruct (ec_bool ll); [done|].
  destruct (write response e) as [ec e']. by destruct (ec_bool ec).
Qed.

Lemma serve_worker_sim assertions st1 st2 :
  same_worker st1 st2 ->
  same_round (serve_worker srv1 assertions st1) (serve_worker srv2 assertions st2).
Proof using Hsrv.
  destruct st1 as [e1 s1 b1], st2 as [e2 s2 b2]. intros (He & Hb & Hs). cbn in He, Hb, Hs.
  subst e2 b2. unfold serve_worker. cbn [sv_env sv_backend sv_buffer].
  destruct (stop_requested e1) as [stop e]. destruct stop; [done|].
  destruct (lock e) as [l e']. destruct (ec_bool l); [done|].
  destruct (receive_packet assertions b1 e') as [res e'']. destruct res as [ec| | |buf cb buffer]; try done.
  destruct (handle_packet_sim Rs Rs (fun _ _ H => H) srv1 srv2 Hsrv buf cb s1 s2 Hs) as [Ho Hs'].
  destruct (handle_packet srv1 buf cb s1) as [o s1'], (handle_packet srv2 buf cb s2) as [o' s2'].
  cbn in Ho, Hs'. subst o'. destruct o as [response|ec|]; [by apply send_response_sim|done..].
Qed.

End WorkerSim.

(** ** A monitor of the calls *)

#[export] Instance is_u32_dec z : Decision (is_u32 z).
Proof. unfold is_u32. apply _. Defined.
#[export] Instance is_u64_dec z : Decision (is_u64 z).
Proof. unfold is_u64. apply _. Defined.
#[export] Instance str_wf_dec s : Decision (str_wf s).
Proof. unfold str_wf. apply _. Defined.
#[export] Instance attrs_wf_dec a : Decision (attrs_wf a).
Proof. unfold attrs_wf. apply _. Defined.

Section Monitor.
Context {S : Type}.

(** Make the call and note whether its arguments are of their types. *)
Definition noting {A} (ok : Prop) `{!Decision ok} (m : ST S A) : ST (S * bool) A := fun '(s, good) =>
  let '(a, s) := m s in (a, (s, good && bool_decide ok)).

Definition monitored (srv : sftp_server S) : sftp_server (S * bool) := {|
  srv_open p flags mode :=
    noting (str_wf p /\ (- 2 ^ 31 <= flags < 2 ^ 31) /\ is_u32 mode) (srv_open srv p flags mode);
  srv_read_at h off mb :=
    noting (str_wf h /\ is_u64 off /\ zlen mb <= read_limit) (srv_read_at srv h off mb);
  srv_write_at h off d :=
    noting (str_wf h /\ is_u64 off /\ zlen d <= read_limit) (srv_write_at srv h off d);
  srv_fstat h := noting (str_wf h) (srv_fstat srv h);
  srv_fsync h := noting (str_wf h) (srv_fsync srv h);
  srv_close h := noting (str_wf h) (srv_close srv h);
  srv_opendir p := noting (str_wf p) (srv_opendir srv p);
  srv_readdir h := noting (str_wf h) (srv_readdir srv h);
  srv_stat p := noting (str_wf p) (srv_stat srv p);
  srv_lstat p := noting (str_wf p) (srv_lstat srv p);
  srv_unlink p := noting (str_wf p) (srv_unlink srv p);
  srv_mkdir p mode := noting (str_wf p /\ is_u32 mode) (srv_mkdir srv p mode);
  srv_rmdir p := noting (str_wf p) (srv_rmdir srv p);
  srv_rename o n := noting (str_wf o /\ str_wf n) (srv_rename srv o n);
  srv_chmod p mode := noting (str_wf p /\ is_u32 mode) (srv_chmod srv p mode);
  srv_chown p o g := noting (str_wf p /\ is_u32 o /\ is_u32 g) (srv_chown srv p o g);
  srv_symlink t d := noting (str_wf t /\ str_wf d) (srv_symlink srv t d);
  srv_hardlink o n := noting (str_wf o /\ str_wf n) (srv_hardlink srv o n);
  srv_setstat p a := noting (str_wf p /\ attrs_wf a) (srv_setstat srv p a);
  srv_fsetstat h a := noting (str_wf h /\ attrs_wf a) (srv_fsetstat srv h a);
  srv_readlink p := noting (str_wf p) (srv_readlink srv p);
  srv_canonicalize_path p := noting (str_wf p) (srv_canonicalize_path srv p);
  srv_expand_path p := noting (str_wf p) (srv_expand_path srv p);
  srv_home_directory u := noting (str_wf u) (srv_home_directory srv u)
|}.

Definition unharmed (s : S) (s2 : S * bool) : Prop := s2 = (s, true).

Lemma noting_sim {A} (ok : Prop) `{!Decision ok} (m : ST S A) :
  ok -> sim unharmed unharmed m (noting ok m).
Proof.
  intros Hok s s2 ->. unfold noting. destruct (m s) as [a s']. split; [done|].
  unfold unharmed. cbn. by rewrite bool_decide_eq_true_2.
Qed.

Lemma monitored_sim (srv : sftp_server S) : backend_sim unharmed unharmed srv (monitored srv).
Proof. split; intros; apply noting_sim; tauto. Qed.

End Monitor.

(** ** Properties *)

(** C15: Every call the server makes on its backend is well typed: whatever bytes
    a packet holds, a monitor of the arguments (strings below 4 GB, [int] open
    flags, 32-bit modes, 64-bit offsets, attributes of the widths of the struct,
    at most 1 GB of data) sees nothing wrong and changes nothing. *)
Theorem handle_packet_typed {P : Platform} {S : Type} (srv : sftp_server S) buf cb s :
  handle_packet (monitored srv) buf cb (s, true)
  = (fst (handle_packet srv buf cb s), (snd (handle_packet srv buf cb s), true)).
Proof.
  destruct (handle_packet_sim _ _ (fun _ _ H => H) _ _ (monitored_sim srv) buf cb s (s, true) eq_refl)
    as [Ho Hs]. unfold unharmed in Hs. by rewrite Ho, <- Hs, <- surjective_pairing.
Qed.


(** ** Witnesses *)

Definition demo_remove : bytes :=
  frame ([byte_of_Z SSH_FXP_REMOVE] ++ be_encode 4 7 ++ str_bytes (lit "a")).

