(* ===== verification/ExampleServer.v ===== *)
(** * ExampleServer: the [sftp::server] of [src/example/server.cpp]

    A backend over the file system below [root_path]: it keeps the open files and
    directory iterators under handles it numbers ([example_state]) and maps every
    path of a request into its directory ([sftp_to_local]).

    What the operating system and corosio's [random_access_file] do is the class
    [FileSystem]; [std::filesystem::path] is [Path].  [example_server] is the
    object as a [sftp_server], so everything proved of [handle_packet], of a
    worker and of a session holds of it. *)

From stdpp Require Import pretty.
From S2P Require Import Prelude Libssh ErrorCode Codec Server Path.

#[local] Open Scope Z_scope.

(** ** The file system *)

(** [corosio::file_base::flags], one field per flag. *)
Record open_flags := OpenFlags {
  read_only : bool; write_only : bool; append_flag : bool;
  create : bool; truncate_flag : bool; exclusive : bool }.

(** What [struct stat] holds of a file. *)
Record file_stat := FileStat {
  st_size : Z; st_uid : Z; st_gid : Z; st_mode : Z; st_atime : Z; st_mtime : Z }.

(** The calls the server makes.  [D] is [std::filesystem::directory_iterator], a
    file is its [native_handle].  A system call gives [Some errno] when it fails. *)
Class FileSystem (W D : Type) := {
  (** [random_access_file]: [open] gives the error code it throws; [read_some_at]
      what it put at the front of the buffer *)
  file_open : bytes -> open_flags -> ST W (error_code + Z);
  file_read_some_at : Z -> Z -> Z -> ST W (error_code * bytes);
  file_write_some_at : Z -> Z -> bytes -> ST W (error_code * Z);
  file_sync_all : Z -> ST W (option error_code);
  file_close : Z -> ST W unit;
  sys_stat : bytes -> ST W (Z + file_stat);
  sys_lstat : bytes -> ST W (Z + file_stat);
  sys_fstat : Z -> ST W (Z + file_stat);
  sys_ftruncate : Z -> Z -> ST W (option Z);
  sys_fchmod : Z -> Z -> ST W (option Z);
  sys_fchown : Z -> Z -> Z -> ST W (option Z);
  sys_futimens : Z -> Z -> Z -> ST W (option Z);
  sys_truncate : bytes -> Z -> ST W (option Z);
  sys_chmod : bytes -> Z -> ST W (option Z);
  sys_chown : bytes -> Z -> Z -> ST W (option Z);
  sys_utimensat : bytes -> Z -> Z -> ST W (option Z);
  sys_unlink : bytes -> ST W (option Z);
  sys_mkdir : bytes -> Z -> ST W (option Z);
  sys_rmdir : bytes -> ST W (option Z);
  sys_rename : bytes -> bytes -> ST W (option Z);
  sys_symlink : bytes -> bytes -> ST W (option Z);
  sys_link : bytes -> bytes -> ST W (option Z);
  (** [std::filesystem] *)
  dir_open : bytes -> ST W (error_code * D);
  dir_at_end : D -> bool;
  dir_path : D -> bytes;
  dir_increment : D -> ST W (error_code * D);
  read_symlink : bytes -> ST W (error_code * bytes);
  weakly_canonical : bytes -> ST W (error_code * bytes);
  relative : bytes -> bytes -> ST W bytes
}.

(** [std::to_string] *)
Definition to_string (n : Z) : bytes := lit (pretty n).

(** The object: [root_path] does not change. *)
Record example_state (W D : Type) := ExampleState {
  handle_gen : Z;
  open_files : gmap bytes Z;
  dirs : gmap bytes D;
  fs_world : W }.
Arguments ExampleState {W D} _ _ _ _.
Arguments handle_gen {W D} _.
Arguments open_files {W D} _.
Arguments dirs {W D} _.
Arguments fs_world {W D} _.

(** ** The operations *)

Section Example.
Context {P : Platform} {W D : Type} `{!FileSystem W D} (root_path : bytes).

#[local] Abbreviation state := (example_state W D).

Definition in_world {A} (m : ST W A) : ST state A := fun s =>
  let '(a, w) := m (fs_world s) in (a, ExampleState (handle_gen s) (open_files s) (dirs s) w).

Definition sftp_to_local (pt : bytes) : bytes :=
  lexically_normal (append root_path (relative_path pt)).

Definition local_to_sftp (pt : bytes) : ST W bytes :=
  let* r := relative pt root_path in st_ret (append [slash] r).

(** [if (call != 0) co_return std::error_code(errno, std::generic_category());] *)
Definition errno_code (r : option Z) : error_code :=
  match r with
  | Some errno => ErrorCode errno generic_category
  | None => no_error
  end.

Definition checked (call : ST W (option Z)) : ST state error_code :=
  let* r := in_world call in st_ret (errno_code r).

Definition bad_handle : error_code := make_error_code bad_file_descriptor.

(** The translation of [SSH_FXF_*]. *)
Definition open_file_flags (accesstype : Z) : open_flags := {|
  read_only := has_bit accesstype SSH_FXF_READ;
  write_only := has_bit accesstype SSH_FXF_WRITE;
  append_flag := has_bit accesstype SSH_FXF_APPEND;
  create := has_bit accesstype SSH_FXF_CREAT;
  truncate_flag := has_bit accesstype SSH_FXF_TRUNC;
  exclusive := has_bit accesstype SSH_FXF_EXCL |}.

Definition next_handle : ST state Z := fun s =>
  let gen := u64 (handle_gen s + 1) in
  (gen, ExampleState gen (open_files s) (dirs s) (fs_world s)).

(** [map.emplace(handle, ...)], which gives up the new object when the key is
    taken. *)
Definition emplace_file (handle : bytes) (file : Z) : ST state unit := fun s =>
  match open_files s !! handle with
  | Some _ => in_world (file_close file) s
  | None => (tt, ExampleState (handle_gen s) (<[handle := file]> (open_files s)) (dirs s) (fs_world s))
  end.

Definition emplace_dir (handle : bytes) (dit : D) : ST state unit := fun s =>
  match dirs s !! handle with
  | Some _ => (tt, s)
  | None => (tt, ExampleState (handle_gen s) (open_files s) (<[handle := dit]> (dirs s)) (fs_world s))
  end.

Definition open (path : bytes) (accesstype mode : Z) : ST state (io_result bytes) :=
  let f := open_file_flags accesstype in
  let* r := in_world (file_open (sftp_to_local path) f) in
  match r with
  | inl code => st_ret (IoResult code [])
  | inr file =>
      let* gen := next_handle in
      let handle := to_string gen in
      emplace_file handle file ;;; st_ret (IoResult no_error handle)
  end.

(** [while (buffer.size() > 0u)] of [read_at]: [buffer] is what is left of the
    caller's buffer, [filled] the part before it.  A round that goes on takes at
    least one byte, so the buffer's length bounds the rounds. *)
Fixpoint read_loop (fuel : nat) (file offset : Z) (filled buffer : bytes)
    : ST W (io_result Z * bytes) :=
  match fuel with
  | O => st_ret (IoResult no_error (zlen filled), filled ++ buffer)
  | S fuel =>
      if zlen buffer =? 0 then st_ret (IoResult no_error (zlen filled), filled)
      else
        let* r := file_read_some_at file (u64 (offset + zlen filled)) (zlen buffer) in
        let '(ec, data) := r in
        let data := take (length buffer) data in
        let rest := drop (length data) buffer in
        if ec_bool ec then st_ret (IoResult ec (zlen filled), filled ++ data ++ rest)
        else if zlen data =? 0 then st_ret (IoResult no_error (zlen filled), filled ++ buffer)
        else read_loop fuel file offset (filled ++ data) rest
  end.

Definition read_at (handle : bytes) (offset : Z) (buffer : bytes) : ST state (io_result Z * bytes) :=
  fun s => match open_files s !! handle with
  | None => ((IoResult bad_handle 0, buffer), s)
  | Some f => in_world (read_loop (S (length buffer)) f offset [] buffer) s
  end.

(** The loop of [write_at]; [n] bytes of the buffer went out. *)
Fixpoint write_loop (fuel : nat) (file offset total : Z) (buffer : bytes) : ST W (io_result Z) :=
  match fuel with
  | O => st_ret (IoResult no_error total)
  | S fuel =>
      if zlen buffer =? 0 then st_ret (IoResult no_error total)
      else
        let* r := file_write_some_at file (u64 (offset + total)) buffer in
        let '(ec, n) := r in
        if ec_bool ec then st_ret (IoResult ec total)
        else if n =? 0 then st_ret (IoResult (make_error_code io_error) total)
        else write_loop fuel file offset (total + n) (drop (Z.to_nat n) buffer)
  end.

Definition write_at (handle : bytes) (offset : Z) (buffer : bytes) : ST state (io_result Z) :=
  fun s => match open_files s !! handle with
  | None => (IoResult bad_handle 0, s)
  | Some f => in_world (write_loop (S (length buffer)) f offset 0 buffer) s
  end.

Definition to_attributes (st : file_stat) : attributes :=
  Attributes
    (Z.lor (Z.lor (Z.lor SSH_FILEXFER_ATTR_SIZE SSH_FILEXFER_ATTR_UIDGID)
              SSH_FILEXFER_ATTR_PERMISSIONS) SSH_FILEXFER_ATTR_ACMODTIME)
    0 (u64 (st_size st)) (st_uid st) (st_gid st) [] [] (st_mode st)
    0 (u32 (st_atime st)) 0 0 0 0 (u32 (st_mtime st)) 0 [].

Definition stat_result (r : Z + file_stat) : io_result attributes :=
  match r with
  | inl errno => IoResult (ErrorCode errno generic_category) empty_attributes
  | inr st => IoResult no_error (to_attributes st)
  end.

Definition stat (path : bytes) : ST state (io_result attributes) :=
  let* r := in_world (sys_stat (sftp_to_local path)) in st_ret (stat_result r).

Definition lstat (path : bytes) : ST state (io_result attributes) :=
  let* r := in_world (sys_lstat (sftp_to_local path)) in st_ret (stat_result r).

Definition fstat (handle : bytes) : ST state (io_result attributes) := fun s =>
  match open_files s !! handle with
  | None => (IoResult bad_handle empty_attributes, s)
  | Some f => (let* r := in_world (sys_fstat f) in st_ret (stat_result r)) s
  end.

Definition fsync (handle : bytes) : ST state error_code := fun s =>
  match open_files s !! handle with
  | None => (bad_handle, s)
  | Some f => (let* r := in_world (file_sync_all f) in st_ret (default no_error r)) s
  end.

Definition close (handle : bytes) : ST state error_code := fun s =>
  match open_files s !! handle with
  | None =>
      match dirs s !! handle with
      | None => (bad_handle, s)
      | Some _ =>
          (no_error, ExampleState (handle_gen s) (open_files s) (delete handle (dirs s)) (fs_world s))
      end
  | Some f =>
      (in_world (file_close f) ;;; st_ret no_error)
        (ExampleState (handle_gen s) (delete handle (open_files s)) (dirs s) (fs_world s))
  end.

(** The four steps of [setstat] and [fsetstat]; the first that fails ends it. *)
Definition step_if (c : bool) (call : ST W (option Z)) (next : ST state error_code)
    : ST state error_code :=
  if c then let* ec := checked call in if ec_bool ec then st_ret ec else next else next.

Definition fsetstat (handle : bytes) (attr : attributes) : ST state error_code := fun s =>
  match open_files s !! handle with
  | None => (bad_handle, s)
  | Some fd =>
      (step_if (has_bit (a_flags attr) SSH_FILEXFER_ATTR_SIZE) (sys_ftruncate fd (i64 (a_size attr)))
      (step_if (has_bit (a_flags attr) SSH_FILEXFER_ATTR_PERMISSIONS)
         (sys_fchmod fd (a_permissions attr))
      (step_if (has_bit (a_flags attr) SSH_FILEXFER_ATTR_UIDGID)
         (sys_fchown fd (a_uid attr) (a_gid attr))
      (step_if (has_bit (a_flags attr) SSH_FILEXFER_ATTR_ACMODTIME)
         (sys_futimens fd (a_atime attr) (a_mtime attr))
      (st_ret no_error))))) s
  end.

Definition setstat (path : bytes) (attr : attributes) : ST state error_code :=
  let cpath := sftp_to_local path in
  step_if (has_bit (a_flags attr) SSH_FILEXFER_ATTR_SIZE) (sys_truncate cpath (i64 (a_size attr)))
  (step_if (has_bit (a_flags attr) SSH_FILEXFER_ATTR_PERMISSIONS)
     (sys_chmod cpath (a_permissions attr))
  (step_if (has_bit (a_flags attr) SSH_FILEXFER_ATTR_UIDGID)
     (sys_chown cpath (a_uid attr) (a_gid attr))
  (step_if (has_bit (a_flags attr) SSH_FILEXFER_ATTR_ACMODTIME)
     (sys_utimensat cpath (a_atime attr) (a_mtime attr))
  (st_ret no_error)))).

Definition opendir (path : bytes) : ST state (io_result bytes) :=
  let* r := in_world (dir_open (sftp_to_local path)) in
  let '(ec, dit) := r in
  if ec_bool ec then st_ret (IoResult ec [])
  else
    let* gen := next_handle in
    let handle := lit "d" ++ to_string gen in
    emplace_dir handle dit ;;; st_ret (IoResult no_error handle).

Definition max_batch : nat := 64.

(** One entry: [lstat] that fails leaves the attributes empty. *)
Definition dir_entry (dit : D) : ST W entry :=
  let name := filename (dir_path dit) in
  let* r := sys_lstat (dir_path dit) in
  st_ret (Entry (match r with inr st => to_attributes st | inl _ => empty_attributes end) name name).

(** [while (dit != end && entries.size() < max_batch)], with room for [room]
    entries; [dit] is a reference into [dirs]. *)
Fixpoint read_batch (room : nat) (entries : list entry) (dit : D) : ST W (list entry * D) :=
  match room with
  | O => st_ret (entries, dit)
  | S room =>
      if dir_at_end dit then st_ret (entries, dit)
      else
        let* e := dir_entry dit in
        let entries := entries ++ [e] in
        let* r := dir_increment dit in
        let '(inc_ec, dit) := r in
        if ec_bool inc_ec then st_ret (entries, dit) else read_batch room entries dit
  end.

Definition readdir (handle : bytes) : ST state (io_result (list entry)) := fun s =>
  match dirs s !! handle with
  | None => (IoResult bad_handle [], s)
  | Some dit =>
      let '((entries, dit), w) := read_batch max_batch [] dit (fs_world s) in
      (if bool_decide (entries = []) then IoResult capy_eof [] else IoResult no_error entries,
       ExampleState (handle_gen s) (open_files s) (<[handle := dit]> (dirs s)) w)
  end.

Definition readlink (path : bytes) : ST state (io_result bytes) :=
  let* r := in_world (read_symlink (sftp_to_local path)) in
  let '(ec, target) := r in
  st_ret (if ec_bool ec then IoResult ec [] else IoResult no_error target).

Definition canonicalize_path (path : bytes) : ST state (io_result bytes) :=
  let* r := in_world (weakly_canonical (sftp_to_local path)) in
  let '(ec, resolved) := r in
  if ec_bool ec then st_ret (IoResult ec [])
  else let* p := in_world (local_to_sftp resolved) in st_ret (IoResult no_error p).

Definition expand_path (path : bytes) : ST state (io_result bytes) :=
  st_ret (IoResult no_error (lexically_normal path)).

Definition home_directory (username : bytes) : ST state (io_result bytes) :=
  st_ret (IoResult no_error (lit "/")).

Definition unlink (path : bytes) : ST state error_code := checked (sys_unlink (sftp_to_local path)).
Definition mkdir (path : bytes) (mode : Z) : ST state error_code :=
  checked (sys_mkdir (sftp_to_local path) mode).
Definition rmdir (path : bytes) : ST state error_code := checked (sys_rmdir (sftp_to_local path)).
Definition rename (original newname : bytes) : ST state error_code :=
  checked (sys_rename (sftp_to_local original) (sftp_to_local newname)).
Definition chmod (path : bytes) (mode : Z) : ST state error_code :=
  checked (sys_chmod (sftp_to_local path) mode).
Definition chown (path : bytes) (owner group : Z) : ST state error_code :=
  checked (sys_chown (sftp_to_local path) owner group).
Definition symlink (target dest : bytes) : ST state error_code :=
  checked (sys_symlink target (sftp_to_local dest)).
Definition hardlink (oldpath newpath : bytes) : ST state error_code :=
  checked (sys_link (sftp_to_local oldpath) (sftp_to_local newpath)).

(** The object as a backend of [serve]. *)
Definition example_server : sftp_server state := {|
  srv_open := open;
  srv_read_at := read_at;
  srv_write_at := write_at;
  srv_fstat := fstat;
  srv_fsync := fsync;
  srv_close := close;
  srv_opendir := opendir;
  srv_readdir := readdir;
  srv_stat := stat;
  srv_lstat := lstat;
  srv_unlink := unlink;
  srv_mkdir := mkdir;
  srv_rmdir := rmdir;
  srv_rename := rename;
  srv_chmod := chmod;
  srv_chown := chown;
  srv_symlink := symlink;
  srv_hardlink := hardlink;
  srv_setstat := setstat;
  srv_fsetstat := fsetstat;
  srv_readlink := readlink;
  srv_canonicalize_path := canonicalize_path;
  srv_expand_path := expand_path;
  srv_home_directory := home_directory
|}.

End Example.
