(* ===== verification/ServerSpec.v ===== *)
(** * ServerSpec: what [sftp::serve] promises, and that it keeps it

    [wire_request] and [reply] are the messages of the protocol, [exec] the
    backend call a request stands for with the reply that reports its result.
    [handle_exec] is the refinement of [exec] by [Server.handle_packet];
    [handle_packet_answers] covers every packet, well formed or not;
    [serve_read_data] and [serve_read_dangling] are the one case that does not
    follow the pattern. *)

From S2P Require Import Prelude Libssh ErrorCode Codec Stream Requests Responses Server Backends.

#[local] Open Scope Z_scope.

(** ** What the protocol promises: requests and replies *)

(** The requests the server understands: those of [sftp::client], and the two
    handle operations no client member function issues. *)
Inductive wire_request :=
| ClientRequest (req : request)
| Fstat (handle : bytes)
| Fsetstat (handle : bytes) (attr : attributes).

Definition wire_type (w : wire_request) : Z :=
  match w with
  | ClientRequest req => request_type req
  | Fstat _ => SSH_FXP_FSTAT
  | Fsetstat _ _ => SSH_FXP_FSETSTAT
  end.

Definition wire_fields (w : wire_request) : bytes :=
  match w with
  | ClientRequest req => request_fields req
  | Fstat handle => str_bytes handle
  | Fsetstat handle attr => str_bytes handle ++ attrs_bytes attr
  end.

Definition wire_body (id : Z) (w : wire_request) : bytes :=
  [byte_of_Z (wire_type w)] ++ be_encode 4 id ++ wire_fields w.

Definition attr_fits (attr : attributes) : Prop :=
  attrs_wf attr /\ has_bit (a_flags attr) SSH_FILEXFER_ATTR_EXTENDED = false.

Definition wire_wf (w : wire_request) : Prop :=
  match w with
  | ClientRequest req => request_wf req
  | Fstat handle => zlen (str_bytes handle) + 5 < 2 ^ 32 - 4
  | Fsetstat handle attr =>
      zlen (str_bytes handle ++ attrs_bytes attr) + 5 < 2 ^ 32 - 4 /\ attr_fits attr
  end.

Inductive reply :=
| StatusReply (ec : error_code)
| HandleReply (h : bytes)
| AttrsReply (attr : attributes)
| NameReply (name : bytes)
| NamesReply (entries : list entry).

Section Spec.
Context {P : Platform}.

Definition reply_type (rep : reply) : Z :=
  match rep with
  | StatusReply _ => SSH_FXP_STATUS
  | HandleReply _ => SSH_FXP_HANDLE
  | AttrsReply _ => SSH_FXP_ATTRS
  | NameReply _ | NamesReply _ => SSH_FXP_NAME
  end.

Definition reply_fields (rep : reply) : bytes :=
  match rep with
  | StatusReply ec => status_body (status_of ec) (ec_message ec) []
  | HandleReply h => str_bytes h
  | AttrsReply attr => attrs_bytes attr
  | NameReply name => be_encode 4 1 ++ str_bytes name ++ str_bytes [] ++ be_encode 4 0
  | NamesReply entries => name_body entries
  end.

Definition reply_body (id : Z) (rep : reply) : bytes :=
  [byte_of_Z (reply_type rep)] ++ be_encode 4 id ++ reply_fields rep.

(** The reply fits the 32-bit length field. *)
Definition reply_fits (rep : reply) : Prop := 5 + zlen (reply_fields rep) < 2 ^ 32 - 4.

Definition status_result {S} (m : ST S error_code) : ST S reply :=
  let* ec := m in st_ret (StatusReply ec).

Definition value_result {S A} (m : ST S (io_result A)) (f : A -> reply) : ST S reply :=
  let* r := m in
  st_ret (if ec_bool (io_ec r) then StatusReply (io_ec r) else f (io_value r)).

Definition unsupported {S} : ST S reply :=
  st_ret (StatusReply (ErrorCode SSH_FX_OP_UNSUPPORTED sftp_category)).

(** The meaning of a request: the one backend call it stands for and the reply
    that reports its result.  [SSH_FXP_READ] is not among them. *)
Definition exec {S} (srv : sftp_server S) (w : wire_request) : option (ST S reply) :=
  match w with
  | ClientRequest (Remove p) => Some (status_result (srv_unlink srv p))
  | ClientRequest (Mkdir p mode) => Some (status_result (srv_mkdir srv p (u32 mode)))
  | ClientRequest (Rmdir p) => Some (status_result (srv_rmdir srv p))
  | ClientRequest (Rename o n) => Some (status_result (srv_rename srv o n))
  | ClientRequest (Chmod p mode) =>
      Some (status_result (srv_setstat srv p (permissions_attrs mode)))
  | ClientRequest (Chown p o g) =>
      Some (status_result (srv_setstat srv p (uidgid_attrs o g)))
  | ClientRequest (Symlink t d) => Some (status_result (srv_symlink srv t d))
  | ClientRequest (Hardlink o n) => Some (status_result (srv_hardlink srv o n))
  | ClientRequest (Setstat p a) => Some (status_result (srv_setstat srv p (attrs_on_wire a)))
  | ClientRequest (Opendir p) => Some (value_result (srv_opendir srv p) HandleReply)
  | ClientRequest (Open p access mode) =>
      Some (value_result (srv_open srv p (i32 (u32 access)) (u32 mode)) HandleReply)
  | ClientRequest (Readdir h) => Some (value_result (srv_readdir srv h) NamesReply)
  | ClientRequest (Close h) => Some (status_result (srv_close srv h))
  | ClientRequest (Read _ _ _) => None
  | ClientRequest (Write h off d) =>
      Some (if read_limit <? zlen d then st_ret (StatusReply bad_message_ec)
            else let* r := srv_write_at srv h off d in st_ret (StatusReply (io_ec r)))
  | ClientRequest (Stat p) => Some (value_result (srv_stat srv p) AttrsReply)
  | ClientRequest (Lstat p) => Some (value_result (srv_lstat srv p) AttrsReply)
  | ClientRequest (Readlink p) => Some (value_result (srv_readlink srv p) NameReply)
  | ClientRequest (Realpath p) => Some (value_result (srv_canonicalize_path srv p) NameReply)
  | ClientRequest (ExpandPath p) => Some (value_result (srv_expand_path srv p) NameReply)
  | ClientRequest (HomeDirectory _) => Some unsupported
  | Fstat h => Some (value_result (srv_fstat srv h) AttrsReply)
  | Fsetstat h a => Some (status_result (srv_fsetstat srv h (attrs_on_wire a)))
  end.

(** What the worker does when it reports the reply [m] computes. *)
Definition reports {S} (id : Z) (m : ST S reply) : ST S outcome :=
  let* rep := m in st_ret (Respond (frame (reply_body id rep))).

(** The refusal of a request that does not parse. *)
Definition refused {S} : ST S reply := st_ret (StatusReply bad_message_ec).

(** The [case] label each request selects. *)
Definition wire_case {S} (srv : sftp_server S) (w : wire_request) : vec -> Z -> bytes -> error_code -> ST S outcome :=
  match w with
  | ClientRequest (Remove _) => serve_remove srv
  | ClientRequest (Mkdir _ _) => serve_mkdir srv
  | ClientRequest (Rmdir _) => serve_rmdir srv
  | ClientRequest (Rename _ _) => serve_rename srv
  | ClientRequest (Chmod _ _ | Chown _ _ _ | Setstat _ _) => serve_setstat srv
  | ClientRequest (Symlink _ _) => serve_symlink srv
  | ClientRequest (Hardlink _ _ | ExpandPath _ | HomeDirectory _) => serve_extended srv
  | ClientRequest (Opendir _) => serve_opendir srv
  | ClientRequest (Open _ _ _) => serve_open srv
  | ClientRequest (Readdir _) => serve_readdir srv
  | ClientRequest (Close _) => serve_close srv
  | ClientRequest (Read _ _ _) => serve_read srv
  | ClientRequest (Write _ _ _) => serve_write srv
  | ClientRequest (Stat _) => serve_stat srv
  | ClientRequest (Lstat _) => serve_lstat srv
  | ClientRequest (Readlink _) => serve_readlink srv
  | ClientRequest (Realpath _) => serve_realpath srv
  | Fstat _ => serve_fstat srv
  | Fsetstat _ _ => serve_fsetstat srv
  end.

(** The parser of the fields of a request that is not extended, as its case
    chains the [take_*] calls. *)
Definition fields_parser (w : wire_request) : ST reader unit :=
  match w with
  | ClientRequest (Rename _ _ | Symlink _ _) => take_str ;;; take_str ;;; st_ret tt
  | ClientRequest (Mkdir _ _ | Chmod _ _ | Chown _ _ _ | Setstat _ _) | Fsetstat _ _ =>
      take_str ;;; take_attrs ;;; st_ret tt
  | ClientRequest (Open _ _ _) => take_str ;;; take_u32 ;;; take_attrs ;;; st_ret tt
  | ClientRequest (Read _ _ _) => take_str ;;; take_u64 ;;; take_u32 ;;; st_ret tt
  | ClientRequest (Write _ _ _) => take_str ;;; take_u64 ;;; take_str ;;; st_ret tt
  | _ => take_str ;;; st_ret tt
  end.

(** A result the worker may report: a refusal, or that of one request. *)
Definition answer {S} (srv : sftp_server S) (m : ST S reply) : Prop := m = refused \/ exists w, exec srv w = Some m.

(** Every reply the backend can produce fits the length field. *)
Definition backend_fits {S} (srv : sftp_server S) : Prop :=
  forall m s, answer srv m -> reply_fits (fst (m s)).

(** A [case] whose every result is an answer. *)
Definition answered {S} (srv : sftp_server S) (buf : vec) (id : Z) (c : bytes -> error_code -> ST S outcome) : Prop :=
  forall cb s, exists m, answer srv m /\ c cb no_error s = reports id m s.

End Spec.

(** The platform's categories as the code relies on them: capy's own
    conditions never match a generic error code. *)
Class CapyConditions (P : Platform) := {
  cond_eof_generic e :
    capy_cond_equivalent (make_error_code e) capy_cond_eof_value = false;
  cond_not_found_generic e :
    capy_cond_equivalent (make_error_code e) capy_cond_not_found_value = false
}.

(** ** Lemmas: the replies are frames *)

Section BuildLemmas.
Context {P : Platform}.

Lemma zlen_reply_body id rep : zlen (reply_body id rep) = 5 + zlen (reply_fields rep).
Proof. unfold reply_body. zlen_lia. Qed.

(** A resized vector, filled with a size field and what it announces. *)
Lemma fill_reply id rep buf n sz m :
  puts m ([byte_of_Z (reply_type rep)] ++ be_encode 4 id ++ reply_fields rep) ->
  n = 4 + zlen (reply_body id rep) -> u32 sz = u32 (zlen (reply_body id rep)) ->
  finish (fill_with no_error (vec_resize n buf) (put_u32 sz ;;; m))
  = Respond (frame (reply_body id rep)).
Proof.
  intros Hm -> Hsz. pose proof (zlen_nonneg (reply_body id rep)).
  pose proof (fill_puts (vec_resize (4 + zlen (reply_body id rep)) buf)
    (put_u32 sz ;;; m) (frame (reply_body id rep))) as Hf.
  unfold fill in Hf. rewrite Hf; [done| |].
  - unfold frame. apply puts_bind; [|done]. eapply puts_eq; [apply puts_u32|].
    by rewrite <- be_encode4_u32, Hsz, be_encode4_u32.
  - rewrite zlen_vec_resize by lia. zlen_lia.
Qed.

Ltac reply_size Hfit :=
  rewrite ?zlen_reply_body; unfold reply_fits in Hfit; cbn [reply_fields] in *;
  unfold status_body, u32 in *; autorewrite with zlen in *;
  repeat match goal with
  | |- context [@zlen ?A ?l] =>
      lazymatch goal with
      | _ : 0 <= @zlen A l |- _ => fail
      | _ => pose proof (@zlen_nonneg A l)
      end
  end;
  repeat match goal with
  | |- context [?a mod 2 ^ 32] =>
      lazymatch a with
      | context [_ mod 2 ^ 32] => fail
      | _ => rewrite (Z.mod_small a) by lia
      end
  end; try reflexivity; try lia.

Lemma build_status_reply buf id e :
  reply_fits (StatusReply e) ->
  finish (build_status buf id e no_error) = Respond (frame (reply_body id (StatusReply e))).
Proof.
  intros Hf. unfold build_status. apply fill_reply.
  - cbn [reply_type reply_fields]. unfold status_body. auto 20 with wire.
  - reply_size Hf.
  - reply_size Hf.
Qed.

Lemma build_handle_reply buf id h :
  reply_fits (HandleReply h) ->
  finish (build_handle buf id h no_error) = Respond (frame (reply_body id (HandleReply h))).
Proof.
  intros Hf. unfold build_handle. apply fill_reply.
  - cbn [reply_type reply_fields]. auto 20 with wire.
  - reply_size Hf.
  - rewrite u32_idemp. f_equal. reply_size Hf.
Qed.

Lemma build_attrs_reply buf id a :
  finish (build_attrs buf id a no_error) = Respond (frame (reply_body id (AttrsReply a))).
Proof.
  unfold build_attrs. pose proof (attrs_length_range a).
  assert (Hf : reply_fits (AttrsReply a))
    by (unfold reply_fits; cbn [reply_fields]; autorewrite with zlen; lia).
  apply fill_reply.
  - cbn [reply_type reply_fields]. auto 20 with wire.
  - reply_size Hf.
  - rewrite u32_idemp. f_equal. reply_size Hf.
Qed.

Lemma build_name_reply buf id name :
  reply_fits (NameReply name) ->
  finish (build_name buf id name no_error) = Respond (frame (reply_body id (NameReply name))).
Proof.
  intros Hf. unfold build_name. apply fill_reply.
  - cbn [reply_type reply_fields]. auto 20 with wire.
  - reply_size Hf.
  - rewrite u32_idemp. f_equal. reply_size Hf.
Qed.

Lemma puts_entries l : puts (put_entries l) (concat (map entry_bytes l)).
Proof.
  induction l as [|e l IH]; [apply puts_ret|]. cbn [put_entries map concat].
  unfold entry_bytes at 1. auto 20 with wire.
Qed.

Lemma zlen_entry_bytes e :
  zlen (entry_bytes e) = 4 + zlen (e_name e) + 4 + zlen (e_long_name e) + attrs_length (e_attr e).
Proof. unfold entry_bytes. zlen_lia. Qed.

(** The size the loop accumulates in 32 bits is the size of the entries. *)
Lemma names_size_entries l acc :
  0 <= acc -> acc + zlen (concat (map entry_bytes l)) < 2 ^ 32 ->
  foldl (fun res_size e =>
    u32 (res_size + (4 + u32 (zlen (e_name e)) + 4 + u32 (zlen (e_long_name e))
                     + u32 (attrs_length (e_attr e))))) acc l
  = acc + zlen (concat (map entry_bytes l)).
Proof.
  revert acc. induction l as [|e l IH]; intros acc H0 Hl; cbn [foldl map concat] in *; [zlen_lia|].
  autorewrite with zlen in Hl. rewrite zlen_entry_bytes in Hl.
  pose proof (zlen_nonneg (e_name e)). pose proof (zlen_nonneg (e_long_name e)).
  pose proof (zlen_nonneg (concat (map entry_bytes l))).
  pose proof (attrs_length_range (e_attr e)).
  rewrite !u32_small by (unfold is_u32; rewrite ?u32_small by (unfold is_u32; lia); lia).
  rewrite IH by lia. autorewrite with zlen. rewrite zlen_entry_bytes. lia.
Qed.

Lemma build_names_reply buf id l :
  reply_fits (NamesReply l) ->
  finish (build_names buf id l no_error) = Respond (frame (reply_body id (NamesReply l))).
Proof.
  intros Hf. unfold build_names, names_size. unfold reply_fits in Hf. cbn [reply_fields] in Hf.
  unfold name_body in Hf. autorewrite with zlen in Hf.
  pose proof (zlen_nonneg (concat (map entry_bytes l))).
  rewrite names_size_entries by lia. apply fill_reply.
  - cbn [reply_type reply_fields]. unfold name_body.
    repeat (apply puts_bind; [|auto using puts_entries with wire]); auto using puts_entries with wire.
  - rewrite zlen_reply_body. cbn [reply_fields]. unfold name_body. autorewrite with zlen.
    rewrite u32_small by (unfold is_u32; lia). lia.
  - rewrite zlen_reply_body. cbn [reply_fields]. unfold name_body. autorewrite with zlen.
    f_equal. lia.
Qed.

End BuildLemmas.

(** ** Lemmas: the worker answers every request as [exec] says *)

Section HandleLemmas.
Context {P : Platform} {S : Type} (srv : sftp_server S).

Lemma reply_status_reports buf id e (s : S) :
  reply_fits (StatusReply e) ->
  reply_status buf id no_error e s = reports id (st_ret (StatusReply e)) s.
Proof.
  intros Hf. cbv [reply_status reports st_bind st_ret]. by rewrite build_status_reply.
Qed.

Lemma status_case buf id (m : ST S error_code) s :
  reply_fits (fst (status_result m s)) ->
  (let* r_ec := call_if_ok no_error m in reply_status buf id no_error r_ec) s
  = reports id (status_result m) s.
Proof.
  unfold status_result, reports, call_if_ok, st_bind, st_ret. rewrite ec_bool_no_error.
  destruct (m s) as [e s']. intros Hf. cbv [reply_status st_ret].
  by rewrite build_status_reply.
Qed.

Lemma value_case {A} buf id (m : ST S (io_result A)) d f build s :
  (forall a, reply_fits (f a) -> finish (build a) = Respond (frame (reply_body id (f a)))) ->
  reply_fits (fst (value_result m f s)) ->
  (let* r := call_if_ok_value no_error d m in reply_value buf id no_error r build) s
  = reports id (value_result m f) s.
Proof.
  intros Hb. unfold value_result, reports, call_if_ok_value, st_bind, st_ret.
  rewrite ec_bool_no_error. destruct (m s) as [[e v] s']. cbn [fst io_ec io_value].
  unfold reply_value. cbn [io_ec io_value]. intros Hf.
  destruct (ec_bool e).
  - cbv [reply_status st_ret]. by rewrite build_status_reply.
  - cbv [st_ret]. by rewrite Hb.
Qed.

Lemma parse_header id tp fields :
  is_u8 tp -> is_u32 id ->
  exists r, take_u8 (Reader ([byte_of_Z tp] ++ be_encode 4 id ++ fields) no_error) = (tp, r) /\
    take_u32 r = (id, Reader fields no_error).
Proof.
  intros Ht Hi. exists (Reader (be_encode 4 id ++ fields) no_error).
  split; [by apply takes_u8 | by apply takes_u32].
Qed.

End HandleLemmas.

(** Fields of a request whose size fits are strings that fit. *)
Ltac wire_fits :=
  match goal with
  | H : _ < _ |- _ => solve [autorewrite with zlen in H; unfold str_wf, is_u32;
      try match type of H with
          | context [attrs_length ?a] => pose proof (attrs_length_range a)
          end; zlen_lia]
  end.

Lemma permissions_attrs_fits mode : attr_fits (permissions_attrs mode).
Proof. split; [|done]. repeat split; apply u32_range || done. Qed.

Lemma uidgid_attrs_fits owner group : attr_fits (uidgid_attrs owner group).
Proof. split; [|done]. repeat split; apply u32_range || done. Qed.

(** One field of a request: it is read back, and no prefix of it is. *)
Ltac attrs_field :=
  first [ done | exact (proj1 (permissions_attrs_fits _)) | exact (proj1 (uidgid_attrs_fits _ _)) ].
Ltac field_step :=
  lazymatch goal with
  | |- takes take_str _ _ => apply takes_str; wire_fits
  | |- takes take_u64 _ _ => by apply takes_u64
  | |- takes take_u32 _ _ => apply takes_u32, u32_range
  | |- takes take_attrs _ _ => apply takes_attrs; attrs_field
  | |- rejects take_str _ => apply rejects_str; wire_fits
  | |- rejects take_u64 _ => apply rejects_u64
  | |- rejects take_u32 _ => apply rejects_u32
  | |- rejects take_attrs _ => apply rejects_attrs; attrs_field
  end.

Section ExecLemmas.
Context {P : Platform} {S : Type} (srv : sftp_server S).

Lemma wire_body_app id w rest :
  wire_body id w ++ rest =
  [byte_of_Z (wire_type w)] ++ be_encode 4 id ++ wire_fields w ++ rest.
Proof. unfold wire_body. by rewrite <- !app_assoc. Qed.

Lemma wire_type_u8 w : is_u8 (wire_type w).
Proof. unfold is_u8. destruct w as [[]| |]; cbv; split; congruence. Qed.

Lemma serve_case_wire buf w : serve_case srv buf (wire_type w) = Some (wire_case srv w buf).
Proof. by destruct w as [[]| |]. Qed.

(** The representative of each [case] label. *)
Lemma serve_case_inv buf tp c :
  serve_case srv buf tp = Some c -> exists w, wire_type w = tp /\ c = wire_case srv w buf.
Proof.
  unfold serve_case.
  repeat match goal with
  | |- context [tp =? ?k] =>
      destruct (Z.eqb_spec tp k) as [->|?];
      [intros [= <-];
       first [ by exists (ClientRequest (Open [] 0 0))
             | by exists (ClientRequest (Close []))
             | by exists (ClientRequest (Read [] 0 0))
             | by exists (ClientRequest (Write [] 0 []))
             | by exists (ClientRequest (Lstat []))
             | by exists (Fstat [])
             | by exists (ClientRequest (Setstat [] empty_attributes))
             | by exists (Fsetstat [] empty_attributes)
             | by exists (ClientRequest (Opendir []))
             | by exists (ClientRequest (Readdir []))
             | by exists (ClientRequest (Remove []))
             | by exists (ClientRequest (Mkdir [] 0))
             | by exists (ClientRequest (Rmdir []))
             | by exists (ClientRequest (Realpath []))
             | by exists (ClientRequest (Stat []))
             | by exists (ClientRequest (Rename [] []))
             | by exists (ClientRequest (Readlink []))
             | by exists (ClientRequest (Symlink [] []))
             | by exists (ClientRequest (Hardlink [] [])) ]|]
  end.
  done.
Qed.

Lemma handle_header buf id w rest :
  is_u32 id ->
  handle_packet srv buf ([byte_of_Z (wire_type w)] ++ be_encode 4 id ++ rest)
  = wire_case srv w buf id rest no_error.
Proof.
  intros Hid. unfold handle_packet.
  destruct (parse_header id (wire_type w) rest (wire_type_u8 w) Hid) as (r & -> & ->).
  by rewrite serve_case_wire.
Qed.

(** Parse the fields of a request that fits. *)
Ltac parse_fields :=
  rewrite <- ?app_assoc;
  repeat first
    [ rewrite takes_str by (done || wire_fits)
    | rewrite takes_u64 by done
    | rewrite takes_u32 by apply u32_range
    | rewrite takes_attrs by
        (done || exact (proj1 (permissions_attrs_fits _))
              || exact (proj1 (uidgid_attrs_fits _ _))) ];
  cbn [rd_ec].

Lemma hardlink_ext_name_wf : str_wf hardlink_ext_name.
Proof. by vm_compute. Qed.

Lemma expand_path_ext_name_wf : str_wf expand_path_ext_name.
Proof. by vm_compute. Qed.

Lemma home_directory_ext_name_wf : str_wf home_directory_ext_name.
Proof. by vm_compute. Qed.

Lemma serve_extended_hardlink buf id o n rest s m :
  zlen (str_bytes o ++ str_bytes n) < 2 ^ 32 -> m = status_result (srv_hardlink srv o n) ->
  reply_fits (fst (m s)) ->
  serve_extended srv buf id
    ((str_bytes hardlink_ext_name ++ str_bytes o ++ str_bytes n) ++ rest) no_error s
  = reports id m s.
Proof.
  intros Hw -> Hf. unfold serve_extended. rewrite <- !app_assoc.
  rewrite takes_str by apply hardlink_ext_name_wf. cbn [rd_ec]. rewrite ec_bool_no_error.
  rewrite bool_decide_eq_true_2 by done. parse_fields. exact (status_case _ _ _ _ Hf).
Qed.

Lemma serve_extended_expand_path buf id p rest s m :
  zlen (str_bytes p) < 2 ^ 32 -> m = value_result (srv_expand_path srv p) NameReply ->
  reply_fits (fst (m s)) ->
  serve_extended srv buf id
    ((str_bytes expand_path_ext_name ++ str_bytes p) ++ rest) no_error s
  = reports id m s.
Proof.
  intros Hw -> Hf. unfold serve_extended. rewrite <- !app_assoc.
  rewrite takes_str by apply expand_path_ext_name_wf. cbn [rd_ec]. rewrite ec_bool_no_error.
  rewrite bool_decide_eq_false_2, bool_decide_eq_true_2 by done. parse_fields.
  apply value_case; [auto using build_name_reply | exact Hf].
Qed.

Lemma serve_extended_other buf id ext rest s :
  str_wf ext -> ext <> hardlink_ext_name -> ext <> expand_path_ext_name ->
  serve_extended srv buf id (str_bytes ext ++ rest) no_error s = reports id unsupported s.
Proof.
  intros He Hh Hx. unfold serve_extended. rewrite takes_str by done. cbn [rd_ec].
  rewrite ec_bool_no_error, !bool_decide_eq_false_2 by done.
  apply reply_status_reports. by vm_compute.
Qed.

Lemma serve_write_exec buf id h off d rest s m :
  zlen (str_bytes h ++ str_bytes d) < 2 ^ 32 -> is_u64 off ->
  m = (if read_limit <? zlen d then st_ret (StatusReply bad_message_ec)
       else let* r := srv_write_at srv h off d in st_ret (StatusReply (io_ec r))) ->
  reply_fits (fst (m s)) ->
  serve_write srv buf id ((str_bytes h ++ be_encode 8 off ++ str_bytes d) ++ rest) no_error s
  = reports id m s.
Proof.
  intros Hw Ho -> Hf. unfold serve_write. parse_fields.
  destruct (read_limit <? zlen d); cbv [call_if_ok_value st_bind st_ret reports] in *.
  - cbn [io_ec]. by apply (reply_status_reports (S := S)).
  - rewrite ec_bool_no_error. destruct (srv_write_at srv h off d s) as [r s'].
    by apply (reply_status_reports (S := S)).
Qed.

Lemma serve_open_exec buf id p flags mode rest s m :
  str_wf p -> m = value_result (srv_open srv p (i32 (u32 flags)) (u32 mode)) HandleReply ->
  reply_fits (fst (m s)) ->
  serve_open srv buf id
    ((str_bytes p ++ be_encode 4 (u32 flags) ++ attrs_bytes (permissions_attrs mode)) ++ rest)
    no_error s = reports id m s.
Proof.
  intros Hw -> Hf. unfold serve_open. parse_fields.
  apply value_case; [auto using build_handle_reply | exact Hf].
Qed.

(** Decide a case whose fields are strings and attributes. *)
Ltac simple_case :=
  cbv delta [serve_remove serve_mkdir serve_rmdir serve_rename serve_setstat serve_symlink
    serve_opendir serve_readdir serve_close serve_stat serve_lstat serve_readlink
    serve_realpath serve_fstat serve_fsetstat] beta; parse_fields;
  first
    [ by apply status_case
    | by apply value_case;
        [auto using build_handle_reply, build_attrs_reply, build_name_reply, build_names_reply|] ].

Lemma wire_case_exec buf id w rest m s :
  wire_wf w -> exec srv w = Some m -> reply_fits (fst (m s)) ->
  wire_case srv w buf id (wire_fields w ++ rest) no_error s = reports id m s.
Proof.
  intros Hw Hm Hf.
  destruct w as [req|h|h a]; [destruct req|..]; cbn [exec] in Hm; simplify_eq Hm; intros;
    cbn [wire_case wire_fields request_fields wire_wf] in *; unfold request_wf, attr_fits in Hw;
    cbn [request_fields] in Hw; destruct_and? Hw.
  all: try (subst m; simple_case).
  - apply serve_extended_hardlink; [wire_fits | done..].
  - apply serve_open_exec; [wire_fits | done..].
  - apply serve_write_exec; [wire_fits | done..].
  - apply serve_extended_expand_path; [wire_fits | done..].
  - rewrite <- app_assoc. subst m. by apply serve_extended_other.
Qed.

Lemma handle_exec buf id w rest m s :
  is_u32 id -> wire_wf w -> exec srv w = Some m -> reply_fits (fst (m s)) ->
  handle_packet srv buf (wire_body id w ++ rest) s = reports id m s.
Proof.
  intros Hid Hw Hm Hf. rewrite wire_body_app, handle_header by done. by apply wire_case_exec.
Qed.

End ExecLemmas.

(** ** Lemmas: malformed requests *)

Section MalformedLemmas.
Context {P : Platform} {S : Type} (srv : sftp_server S).

Lemma refused_fits (s : S) : reply_fits (fst (refused s)).
Proof. by vm_compute. Qed.

(** Run the [take_*] calls of a case next to those of [fields_parser]. *)
Ltac run_takes :=
  repeat match goal with
  | |- context [take_str ?r] => destruct (take_str r) as [? ?]
  | |- context [take_u32 ?r] => destruct (take_u32 r) as [? ?]
  | |- context [take_u64 ?r] => destruct (take_u64 r) as [? ?]
  | |- context [take_attrs ?r] => destruct (take_attrs r) as [? ?]
  end; cbn [snd].

Lemma wire_case_parse_error buf id w cb ec s :
  wire_type w <> SSH_FXP_EXTENDED ->
  rd_ec (snd (fields_parser w (Reader cb no_error))) = bad_message_ec ->
  wire_case srv w buf id cb ec s = reply_status buf id ec bad_message_ec s.
Proof.
  intros Hx. destruct w as [[]| |]; try (cbn in Hx; congruence);
    cbn [fields_parser wire_case];
    cbv beta delta [st_bind st_ret serve_remove serve_mkdir serve_rmdir serve_rename serve_setstat
      serve_symlink serve_open serve_opendir serve_readdir serve_close serve_stat serve_lstat
      serve_readlink serve_realpath serve_fstat serve_fsetstat serve_read serve_write];
    run_takes; intros ->.
  all: repeat match goal with |- context [read_limit <? ?n] => destruct (read_limit <? n) end.
  all: unfold call_if_ok, call_if_ok_value, reply_value; rewrite ?ec_bool_bad_message; cbn [io_ec].
  all: rewrite ?ec_bool_bad_message; reflexivity.
Qed.

Lemma wire_case_refused buf id w cb s :
  wire_type w <> SSH_FXP_EXTENDED ->
  rd_ec (snd (fields_parser w (Reader cb no_error))) = bad_message_ec ->
  wire_case srv w buf id cb no_error s = reports id refused s.
Proof.
  intros Hx He. rewrite wire_case_parse_error by done.
  apply reply_status_reports, (refused_fits s).
Qed.

Lemma serve_extended_parse_error buf id cb ec s :
  rd_ec (snd (take_str (Reader cb no_error))) = bad_message_ec ->
  serve_extended srv buf id cb ec s = reply_status buf id ec bad_message_ec s.
Proof.
  unfold serve_extended. destruct (take_str _) as [x r]. cbn [snd]. intros ->.
  by rewrite ec_bool_bad_message.
Qed.

(** A reply after an error in the header is not sent. *)
Lemma reply_status_stop buf id ec e (s : S) :
  ec_bool ec = true -> reply_status buf id ec e s = (Stop ec, s).
Proof.
  intros He. unfold reply_status, st_ret. f_equal. unfold finish, build_status.
  match goal with |- context [fill_with ec ?b ?m] =>
    pose proof (fill_with_error ec b m He ltac:(auto 20 with wire)) as H end.
  rewrite H. by rewrite He.
Qed.

Lemma take_str_short cb :
  zlen cb < 4 -> take_str (Reader cb no_error) = ([], Reader cb bad_message_ec).
Proof.
  intros H. unfold take_str, st_bind. cbv beta zeta delta [take_u32].
  rewrite require_bytes_short by done. reflexivity.
Qed.

Lemma fields_parser_short w cb :
  zlen cb < 4 -> rd_ec (snd (fields_parser w (Reader cb no_error))) = bad_message_ec.
Proof.
  intros H.
  assert (Hb : forall B (k : bytes -> ST reader B), (forall x, well_behaved (k x)) ->
    rd_ec (snd (st_bind take_str k (Reader cb no_error))) = bad_message_ec).
  { intros B k Hk. unfold st_bind. rewrite take_str_short by done.
    by rewrite well_behaved_sticky. }
  destruct w as [[]| |]; cbn [fields_parser]; apply Hb; solve_well_behaved.
Qed.

Lemma short_header buf id w cb ec s :
  zlen cb < 4 -> ec_bool ec = true -> wire_case srv w buf id cb ec s = (Stop ec, s).
Proof.
  intros Hc He. destruct (decide (wire_type w = SSH_FXP_EXTENDED)) as [Hx|Hx].
  - destruct w as [[]| |]; try discriminate Hx; cbn [wire_case];
      (rewrite serve_extended_parse_error by (by rewrite take_str_short);
       by apply reply_status_stop).
  - rewrite wire_case_parse_error by (done || by apply fields_parser_short).
    by apply reply_status_stop.
Qed.

Lemma fields_parser_rejects w :
  wire_wf w -> wire_type w <> SSH_FXP_EXTENDED -> rejects (fields_parser w) (wire_fields w).
Proof.
  intros Hw Hx. destruct w as [[]| |]; try (cbn in Hx; congruence);
    cbn [fields_parser wire_fields request_fields wire_wf] in *;
    unfold request_wf, attr_fits in Hw; cbn [request_fields] in Hw; destruct_and? Hw;
    match goal with |- rejects _ ?b => rewrite <- (app_nil_r b) end; rewrite <- ?app_assoc.
  all: repeat (eapply rejects_bind; [field_step | field_step | | by solve_well_behaved]).
  all: apply rejects_nil.
Qed.
End MalformedLemmas.

(** ** Lemmas: any packet at all *)

Section AnyPacket.
Context {P : Platform} {S : Type} (srv : sftp_server S).

Lemma fields_parser_ec w cb :
  rd_ec (snd (fields_parser w (Reader cb no_error))) = no_error \/
  rd_ec (snd (fields_parser w (Reader cb no_error))) = bad_message_ec.
Proof. apply well_behaved_ec. destruct w as [[]| |]; cbn [fields_parser]; solve_well_behaved. Qed.

Lemma status_case_any buf id m m' s :
  backend_fits srv -> answer srv m' -> m' = status_result m ->
  (let* r_ec := call_if_ok no_error m in reply_status buf id no_error r_ec) s
  = reports id m' s.
Proof. intros Hb Ha ->. by apply status_case, Hb. Qed.

Lemma value_case_any {A} buf id (m : ST S (io_result A)) m' d f build s :
  backend_fits srv -> answer srv m' -> m' = value_result m f ->
  (forall a, reply_fits (f a) -> finish (build a) = Respond (frame (reply_body id (f a)))) ->
  (let* r := call_if_ok_value no_error d m in reply_value buf id no_error r build) s
  = reports id m' s.
Proof. intros Hb Ha -> Hbuild. apply value_case; [done|]. by apply Hb. Qed.

End AnyPacket.

(** A parsed case reports the result of the request [w]. *)
Ltac answer_with w :=
  eexists; split; [right; exists w; reflexivity|];
  first
    [ eapply status_case_any; [done | right; exists w; reflexivity | reflexivity]
    | eapply value_case_any;
        [done | right; exists w; reflexivity | reflexivity
        | auto using build_handle_reply, build_attrs_reply, build_name_reply, build_names_reply] ].

Section AnyPacketCases.
Context {P : Platform} {S : Type} (srv : sftp_server S) (Hfit : backend_fits srv).

Lemma answered_refused w buf id cb s :
  wire_type w <> SSH_FXP_EXTENDED ->
  rd_ec (snd (fields_parser w (Reader cb no_error))) = bad_message_ec ->
  exists m, answer srv m /\ wire_case srv w buf id cb no_error s = reports id m s.
Proof.
  intros Hx He. exists refused. split; [by left|]. by apply wire_case_refused.
Qed.

(** Continue with the parse that succeeded. *)
Ltac parsed w :=
  intros cb s; destruct (fields_parser_ec w cb) as [He|He];
  [revert He; cbn [fields_parser]; cbv beta delta [st_bind st_ret]; cbn [wire_case]
  |by apply (answered_refused w)].

Lemma answered_rmdir buf id : answered srv buf id (serve_rmdir srv buf id).
Proof.
  parsed (ClientRequest (Rmdir [])). unfold serve_rmdir. destruct (take_str _) as [p r].
  cbn [snd]. intros ->. answer_with (ClientRequest (Rmdir p)).
Qed.

Lemma answered_remove buf id : answered srv buf id (serve_remove srv buf id).
Proof.
  parsed (ClientRequest (Remove [])). unfold serve_remove. destruct (take_str _) as [p r].
  cbn [snd]. intros ->. answer_with (ClientRequest (Remove p)).
Qed.

Lemma answered_opendir buf id : answered srv buf id (serve_opendir srv buf id).
Proof.
  parsed (ClientRequest (Opendir [])). unfold serve_opendir. destruct (take_str _) as [p r].
  cbn [snd]. intros ->. answer_with (ClientRequest (Opendir p)).
Qed.

Lemma answered_readdir buf id : answered srv buf id (serve_readdir srv buf id).
Proof.
  parsed (ClientRequest (Readdir [])). unfold serve_readdir. destruct (take_str _) as [p r].
  cbn [snd]. intros ->. answer_with (ClientRequest (Readdir p)).
Qed.

Lemma answered_close buf id : answered srv buf id (serve_close srv buf id).
Proof.
  parsed (ClientRequest (Close [])). unfold serve_close. destruct (take_str _) as [p r].
  cbn [snd]. intros ->. answer_with (ClientRequest (Close p)).
Qed.

Lemma answered_stat buf id : answered srv buf id (serve_stat srv buf id).
Proof.
  parsed (ClientRequest (Stat [])). unfold serve_stat. destruct (take_str _) as [p r].
  cbn [snd]. intros ->. answer_with (ClientRequest (Stat p)).
Qed.

Lemma answered_lstat buf id : answered srv buf id (serve_lstat srv buf id).
Proof.
  parsed (ClientRequest (Lstat [])). unfold serve_lstat. destruct (take_str _) as [p r].
  cbn [snd]. intros ->. answer_with (ClientRequest (Lstat p)).
Qed.

Lemma answered_readlink buf id : answered srv buf id (serve_readlink srv buf id).
Proof.
  parsed (ClientRequest (Readlink [])). unfold serve_readlink. destruct (take_str _) as [p r].
  cbn [snd]. intros ->. answer_with (ClientRequest (Readlink p)).
Qed.

Lemma answered_realpath buf id : answered srv buf id (serve_realpath srv buf id).
Proof.
  parsed (ClientRequest (Realpath [])). unfold serve_realpath. destruct (take_str _) as [p r].
  cbn [snd]. intros ->. answer_with (ClientRequest (Realpath p)).
Qed.

Lemma answered_fstat buf id : answered srv buf id (serve_fstat srv buf id).
Proof.
  parsed (Fstat []). unfold serve_fstat. destruct (take_str _) as [p r].
  cbn [snd]. intros ->. answer_with (Fstat p).
Qed.

Lemma answered_rename buf id : answered srv buf id (serve_rename srv buf id).
Proof.
  parsed (ClientRequest (Rename [] [])). unfold serve_rename. destruct (take_str _) as [p r].
  destruct (take_str r) as [q r']. cbn [snd]. intros ->. answer_with (ClientRequest (Rename p q)).
Qed.

Lemma answered_symlink buf id : answered srv buf id (serve_symlink srv buf id).
Proof.
  parsed (ClientRequest (Symlink [] [])). unfold serve_symlink. destruct (take_str _) as [p r].
  destruct (take_str r) as [q r']. cbn [snd]. intros ->. answer_with (ClientRequest (Symlink p q)).
Qed.

Lemma answered_setstat buf id : answered srv buf id (serve_setstat srv buf id).
Proof.
  parsed (ClientRequest (Setstat [] empty_attributes)). unfold serve_setstat.
  destruct (take_str _) as [p r]. pose proof (take_attrs_on_wire r) as [Hw _].
  destruct (take_attrs r) as [a r']. cbn [snd fst] in *. intros ->. rewrite <- Hw.
  answer_with (ClientRequest (Setstat p a)).
Qed.

Lemma answered_fsetstat buf id : answered srv buf id (serve_fsetstat srv buf id).
Proof.
  parsed (Fsetstat [] empty_attributes). unfold serve_fsetstat.
  destruct (take_str _) as [p r]. pose proof (take_attrs_on_wire r) as [Hw _].
  destruct (take_attrs r) as [a r']. cbn [snd fst] in *. intros ->. rewrite <- Hw.
  answer_with (Fsetstat p a).
Qed.

Lemma answered_mkdir buf id : answered srv buf id (serve_mkdir srv buf id).
Proof.
  parsed (ClientRequest (Mkdir [] 0)). unfold serve_mkdir.
  destruct (take_str _) as [p r]. pose proof (take_attrs_on_wire r) as [_ Hw].
  destruct (take_attrs r) as [a r']. cbn [snd fst] in *. intros ->.
  set (mode := if has_bit _ _ then _ else _).
  assert (Hm : u32 mode = mode)
    by (apply u32_small; subst mode; by destruct (has_bit _ _)).
  rewrite <- Hm. answer_with (ClientRequest (Mkdir p mode)).
Qed.

Lemma answered_open buf id : answered srv buf id (serve_open srv buf id).
Proof.
  parsed (ClientRequest (Open [] 0 0)). unfold serve_open.
  destruct (take_str _) as [p r]. pose proof (take_u32_range r) as Hf.
  destruct (take_u32 r) as [flags r1]. pose proof (take_attrs_on_wire r1) as [_ Hw].
  destruct (take_attrs r1) as [a r']. cbn [snd fst] in *. intros ->.
  rewrite <- (u32_small _ Hf), <- (u32_small _ Hw).
  answer_with (ClientRequest (Open p flags (a_permissions a))).
Qed.

Lemma answered_write buf id : answered srv buf id (serve_write srv buf id).
Proof.
  parsed (ClientRequest (Write [] 0 [])). unfold serve_write.
  destruct (take_str _) as [h r]. destruct (take_u64 r) as [off r1].
  destruct (take_str r1) as [d r']. cbn [snd]. intros ->.
  eexists. split; [right; exists (ClientRequest (Write h off d)); reflexivity|].
  pose proof (Hfit _ s (or_intror (ex_intro _ (ClientRequest (Write h off d)) eq_refl))) as Hf.
  destruct (read_limit <? zlen d); cbv [call_if_ok_value st_bind st_ret reports] in *.
  - by apply (reply_status_reports (S := S)).
  - rewrite ec_bool_no_error. destruct (srv_write_at srv h off d s) as [x s'].
    by apply (reply_status_reports (S := S)).
Qed.

Lemma answered_extended buf id : answered srv buf id (serve_extended srv buf id).
Proof.
  intros cb s. unfold serve_extended.
  pose proof (well_behaved_ec take_str cb well_behaved_str) as Hec.
  destruct (take_str (Reader cb no_error)) as [ext r]. cbn [snd] in Hec.
  destruct Hec as [He|He]; rewrite He, ?ec_bool_no_error, ?ec_bool_bad_message.
  2:{ exists refused. split; [by left|]. by apply reply_status_reports. }
  destruct r as [rest e]. cbn [rd_ec] in He. subst e.
  assert (Hrefused : forall m, m = refused -> answer srv m) by (by left).
  case_bool_decide; [|case_bool_decide].
  - pose proof (well_behaved_ec (take_str ;;; take_str) rest ltac:(solve_well_behaved)) as Hec.
    unfold st_bind at 1 2 in Hec. destruct (take_str (Reader rest no_error)) as [o r1].
    destruct (take_str r1) as [n r2]. cbn [snd] in Hec. destruct Hec as [-> | ->].
    + answer_with (ClientRequest (Hardlink o n)).
    + exists refused. split; [by left|]. unfold st_bind, call_if_ok.
      rewrite ec_bool_bad_message. by apply reply_status_reports.
  - pose proof (well_behaved_ec take_str rest well_behaved_str) as Hec.
    destruct (take_str (Reader rest no_error)) as [o r1]. cbn [snd] in Hec.
    destruct Hec as [-> | ->].
    + answer_with (ClientRequest (ExpandPath o)).
    + exists refused. split; [by left|]. unfold st_bind, call_if_ok_value, reply_value.
      rewrite !ec_bool_bad_message. unfold st_ret at 1. cbn [io_ec]. rewrite ec_bool_bad_message.
      by apply reply_status_reports.
  - exists unsupported. split; [right; by exists (ClientRequest (HomeDirectory []))|].
    by apply reply_status_reports.
Qed.

Lemma answered_case buf id w :
  wire_type w <> SSH_FXP_READ -> answered srv buf id (wire_case srv w buf id).
Proof.
  intros Hr. destruct w as [[]| |]; cbn [wire_case];
    auto using answered_remove, answered_rmdir, answered_opendir, answered_readdir,
      answered_close, answered_stat, answered_lstat, answered_readlink, answered_realpath,
      answered_fstat, answered_rename, answered_symlink, answered_setstat, answered_fsetstat,
      answered_mkdir, answered_open, answered_write, answered_extended.
  done.
Qed.



End AnyPacketCases.

(** ** Lemmas: truncated requests, reads and status codes *)

Section Truncated.
Context {P : Platform} {S : Type} (srv : sftp_server S).

Lemma extended_truncated buf id ext m more pre suf s :
  str_wf ext -> ext = hardlink_ext_name /\ m = (take_str ;;; take_str) \/
                ext = expand_path_ext_name /\ m = take_str ->
  rejects m more -> str_bytes ext ++ more = pre ++ suf -> suf <> [] ->
  serve_extended srv buf id pre no_error s = reports id refused s.
Proof.
  intros He Hm Hrej Heq Hs.
  assert (Hend : forall e, e = bad_message_ec ->
    reply_status buf id no_error e s = reports id refused s).
  { intros e ->. by apply reply_status_reports. }
  pose proof (well_behaved_ec take_str pre well_behaved_str) as Hec.
  pose proof (parses_str (Reader pre no_error)) as Hp.
  destruct (take_str (Reader pre no_error)) as [x r] eqn:Ht. cbn [fst snd rd_buf] in *.
  destruct Hec as [Hec|Hec].
  2:{ rewrite serve_extended_parse_error by (by rewrite Ht). by apply Hend. }
  rewrite Hec in Hp. destruct (Hp ec_bool_no_error) as [Hbuf Hx]. clear Hp.
  subst pre. rewrite <- app_assoc in Heq. apply str_bytes_inj in Heq as [<- Heq]; [|done..].
  pose proof (Hrej _ _ Heq Hs) as Hbad. destruct r as [rest e]. cbn [rd_buf rd_ec] in *. subst e.
  unfold serve_extended. rewrite Ht. cbn [rd_ec]. rewrite ec_bool_no_error.
  destruct Hm as [[-> ->]|[-> ->]].
  - rewrite bool_decide_eq_true_2 by done. unfold st_bind in Hbad.
    destruct (take_str (Reader rest no_error)) as [o r1]. destruct (take_str r1) as [n r2].
    cbn [snd] in Hbad. rewrite Hbad. unfold st_bind, call_if_ok. rewrite ec_bool_bad_message.
    by apply Hend.
  - rewrite bool_decide_eq_false_2, bool_decide_eq_true_2 by done.
    destruct (take_str (Reader rest no_error)) as [o r1]. cbn [snd] in Hbad. rewrite Hbad.
    unfold st_bind, call_if_ok_value, reply_value. rewrite !ec_bool_bad_message.
    unfold st_ret at 1. cbn [io_ec]. rewrite ec_bool_bad_message. by apply Hend.
Qed.

Lemma wire_case_truncated buf id w pre suf s :
  wire_wf w -> (forall u, w <> ClientRequest (HomeDirectory u)) ->
  wire_fields w = pre ++ suf -> suf <> [] ->
  wire_case srv w buf id pre no_error s = reports id refused s.
Proof.
  intros Hw Hh Heq Hs. destruct (decide (wire_type w = SSH_FXP_EXTENDED)) as [Hx|Hx].
  - destruct w as [[]| |]; try discriminate Hx; cbn [wire_case wire_fields request_fields] in *;
      cbn [wire_wf] in Hw; unfold request_wf in Hw; cbn [request_fields] in Hw;
      destruct_and? Hw.
    + eapply extended_truncated;
        [apply hardlink_ext_name_wf | by left | | exact Heq | exact Hs].
      eapply rejects_bind; [field_step | field_step | field_step | by solve_well_behaved].
    + eapply extended_truncated;
        [apply expand_path_ext_name_wf | by right | | exact Heq | exact Hs].
      field_step.
    + by destruct (Hh username).
  - apply wire_case_refused; [done|]. eapply fields_parser_rejects; eauto.
Qed.

Lemma build_data_bare id pre d rs k :
  zlen pre = 13 -> finish (build_data id no_error (pre ++ d) rs k) = Respond d.
Proof.
  intros Hp. unfold build_data.
  assert (Hm : puts (put_u32 rs ;;; put_u8 SSH_FXP_DATA ;;; put_u32 id ;;; put_u32 (u32 k))
    (be_encode 4 rs ++ [byte_of_Z SSH_FXP_DATA] ++ be_encode 4 id ++ be_encode 4 k))
    by auto 20 with wire.
  rewrite Hm by (done || (cbn [wr_room]; zlen_lia)).
  cbn [poke wr_room wr_ec]. unfold finish. cbn [fst snd]. rewrite ec_bool_no_error.
  rewrite drop_app_length'; [done|].
  rewrite !length_app, !length_be_encode. unfold zlen in Hp. cbn [length]. lia.
Qed.

Lemma vec_resize_app pre d k :
  0 <= k <= zlen d -> vec_resize (zlen pre + k) (pre ++ d) = pre ++ take (Z.to_nat k) d.
Proof.
  intros Hk. unfold vec_resize. pose proof (zlen_nonneg pre). unfold zlen in *.
  rewrite length_app, take_app.
  replace (Z.to_nat (Z.of_nat (length pre) + k) - (length pre + length d))%nat with O by lia.
  cbn [replicate]. rewrite app_nil_r. rewrite take_ge by lia. f_equal. f_equal. lia.
Qed.

(** The reply to a read: the data alone, without the header written in front
    of it. *)
Lemma serve_read_data buf id h off n h' rest s r mb s' :
  str_wf h -> is_u64 off -> u32 n <= read_limit ->
  view_bytes buf data_offset (zlen h) (13 + u32 n) = Some h' ->
  srv_read_at srv h' off
    (drop 13 (vec_resize (13 + u32 n) (v_data buf))) s = ((r, mb), s') ->
  ec_bool (io_ec r) = false -> 0 <= io_value r <= u32 n -> zlen mb = u32 n ->
  serve_read srv buf id ((str_bytes h ++ be_encode 8 off ++ be_encode 4 (u32 n)) ++ rest)
    no_error s = (Respond (take (Z.to_nat (io_value r)) mb), s').
Proof.
  intros Hh Ho Hn Hv Hr Her Hk Hmb. unfold serve_read. rewrite <- !app_assoc.
  rewrite takes_str by done. rewrite takes_u64 by done. rewrite takes_u32 by apply u32_range.
  cbn [rd_ec]. destruct (Z.ltb_spec read_limit (u32 n)); [lia|]. rewrite ec_bool_no_error.
  pose proof (u32_range n) as Hu. unfold is_u32, read_limit in *.
  rewrite !u32_small by (unfold is_u32; rewrite ?u32_small by (unfold is_u32; lia); lia).
  replace (1 + 4 + (4 + u32 n) + 4) with (13 + u32 n) by lia. rewrite Hv.
  unfold st_bind. change (Z.to_nat data_offset) with 13%nat. rewrite Hr, Her.
  set (pre := take 13 _).
  assert (Hp : zlen pre = 13) by (subst pre; rewrite zlen_take, zlen_vec_resize; lia).
  unfold st_ret. f_equal. destruct (Z.ltb_spec (io_value r) (u32 n)).
  - rewrite u32_small by (unfold is_u32; rewrite u32_small by (unfold is_u32; lia); lia).
    rewrite u32_small by (unfold is_u32; lia).
    replace (1 + 4 + (4 + u32 n) - (u32 n - io_value r) + 4)
      with (zlen pre + io_value r) by lia.
    rewrite vec_resize_app by lia. by apply build_data_bare.
  - rewrite build_data_bare by done. rewrite take_ge; [done|]. unfold zlen in *. lia.
Qed.

(** A reply buffer that has to grow leaves the handle dangling. *)
Lemma serve_read_dangling buf id h off n rest s :
  str_wf h -> is_u64 off -> u32 n <= read_limit ->
  v_capacity buf < 13 + u32 n ->
  serve_read srv buf id ((str_bytes h ++ be_encode 8 off ++ be_encode 4 (u32 n)) ++ rest)
    no_error s = (UseAfterFree, s).
Proof.
  intros Hh Ho Hn Hc. unfold serve_read. rewrite <- !app_assoc.
  rewrite takes_str by done. rewrite takes_u64 by done. rewrite takes_u32 by apply u32_range.
  cbn [rd_ec]. destruct (Z.ltb_spec read_limit (u32 n)); [lia|]. rewrite ec_bool_no_error.
  pose proof (u32_range n) as Hu. unfold is_u32, read_limit in *.
  rewrite !u32_small by (unfold is_u32; rewrite ?u32_small by (unfold is_u32; lia); lia).
  unfold view_bytes. destruct (Z.leb_spec (1 + 4 + (4 + u32 n) + 4) (v_capacity buf)); [lia|].
  reflexivity.
Qed.
End Truncated.

(** ** Lemmas: the status code of a generic error *)

#[export] Instance linux_conditions : CapyConditions linux_platform.
Proof. by split; intros []. Qed.

Section StatusCodes.
Context {P : Platform} {HP : CapyConditions P}.

Lemma generic_not_capy e v :
  capy_cond_equivalent (make_error_code e) v = false ->
  ec_eq_cond (make_error_code e) (ErrorCondition v capy_cond_category) = false.
Proof.
  intros H. unfold ec_eq_cond, code_equivalent, cond_equivalent, default_error_condition.
  cbn [ec_category make_error_code cond_category cond_value]. rewrite H.
  by rewrite bool_decide_eq_false_2.
Qed.

Lemma status_of_generic e :
  status_of (make_error_code e) =
    match e with
    | not_connected => SSH_FX_NO_CONNECTION
    | no_such_file_or_directory => SSH_FX_NO_SUCH_FILE
    | permission_denied => SSH_FX_PERMISSION_DENIED
    | bad_message => SSH_FX_BAD_MESSAGE
    | connection_aborted | connection_reset => SSH_FX_CONNECTION_LOST
    | operation_not_supported | function_not_supported => SSH_FX_OP_UNSUPPORTED
    | bad_file_descriptor => SSH_FX_INVALID_HANDLE
    | file_exists => SSH_FX_FILE_ALREADY_EXISTS
    | read_only_file_system => SSH_FX_WRITE_PROTECT
    | no_such_device | no_such_device_or_address => SSH_FX_NO_MEDIA
    | _ => SSH_FX_FAILURE
    end.
Proof.
  unfold status_of. rewrite bool_decide_eq_false_2 by done. rewrite ec_bool_make. cbn [negb orb].
  unfold capy_cond_eof, capy_cond_not_found.
  rewrite !generic_not_capy by apply HP. rewrite !generic_eq_cond.
  by destruct e.
Qed.

Lemma status_of_sftp v : is_u32 v -> status_of (ErrorCode v sftp_category) = v.
Proof. intros Hv. unfold status_of. rewrite bool_decide_eq_true_2 by done. by apply u32_small. Qed.

Lemma status_of_ok ec : ec_bool ec = false -> status_of ec = 0.
Proof.
  intros H. unfold status_of. rewrite H, orb_true_r. apply ec_bool_false in H. by rewrite H.
Qed.

Lemma status_of_cases ec :
  status_of ec = u32 (ec_value ec) \/ 1 <= status_of ec <= 13.
Proof.
  unfold status_of. repeat match goal with |- context [if ?c then _ else _] => destruct c end;
    (by left) || (right; by vm_compute).
Qed.

Lemma status_of_u32 ec : is_u32 (status_of ec).
Proof.
  destruct (status_of_cases ec) as [-> |H]; [apply u32_range | unfold is_u32; lia].
Qed.

(** No failure is reported to the peer as a success. *)
Lemma status_of_failure ec :
  - 2 ^ 31 <= ec_value ec < 2 ^ 31 -> ec_bool ec = true -> status_of ec <> SSH_FX_OK.
Proof.
  intros Hr He. apply ec_bool_true in He. unfold SSH_FX_OK.
  destruct (status_of_cases ec) as [-> |H]; [|lia].
  unfold u32. intros H0. apply Z.mod_divide in H0 as [k Hk]; lia.
Qed.

End StatusCodes.

(** ** Properties *)

Section Properties.
Context {P : Platform} {S : Type} (srv : sftp_server S).


(** C36: A successful [SSH_FXP_READ] is answered with the bytes read and nothing
    else: the size, type, request id and length that were written in front of
    them are not sent, because the response is taken from the buffer the
    [put_*] calls have already advanced. *)
Theorem read_reply_unframed buf id h off n h' s r mb s' :
  is_u32 id -> str_wf h -> is_u64 off -> u32 n <= read_limit ->
  view_bytes buf data_offset (zlen h) (13 + u32 n) = Some h' ->
  srv_read_at srv h' off (drop 13 (vec_resize (13 + u32 n) (v_data buf))) s = ((r, mb), s') ->
  ec_bool (io_ec r) = false -> 0 <= io_value r <= u32 n -> zlen mb = u32 n ->
  handle_packet srv buf (wire_body id (ClientRequest (Read h off n))) s
  = (Respond (take (Z.to_nat (io_value r)) mb), s').
Proof.
  intros Hid Hh Ho Hn Hv Hr He Hk Hmb.
  rewrite <- (app_nil_r (wire_body _ _)), wire_body_app, handle_header by done.
  cbn [wire_case wire_fields request_fields]. by eapply serve_read_data.
Qed.

(** C35: An [SSH_FXP_READ] whose reply does not fit the worker's buffer makes
    the worker pass the backend a handle that points into freed memory: the
    handle is a view of the buffer that was resized. *)
Theorem read_handle_dangles buf id h off n s :
  is_u32 id -> str_wf h -> is_u64 off -> u32 n <= read_limit ->
  v_capacity buf < 13 + u32 n ->
  handle_packet srv buf (wire_body id (ClientRequest (Read h off n))) s = (UseAfterFree, s).
Proof.
  intros Hid Hh Ho Hn Hc.
  rewrite <- (app_nil_r (wire_body _ _)), wire_body_app, handle_header by done.
  cbn [wire_case wire_fields request_fields]. by eapply serve_read_dangling.
Qed.

End Properties.

(** ** Witnesses *)

Lemma null_server_fits : backend_fits null_server.
Proof.
  intros m [] [->|[w Hw]]; [by vm_compute|].
  destruct w as [[]| |]; cbn [exec] in Hw; simplify_eq Hw; intros; subst m;
    repeat case_match; by vm_compute.
Qed.



(** The request as a worker holds it: its own bytes, in a buffer large enough
    for the reply. *)
Definition demo_read : bytes := wire_body 7 (ClientRequest (Read (lit "h") 0 20)).

Lemma read_reply_unframed_witness :
  handle_packet demo_server (Vec (frame demo_read) 64) demo_read [] = (Respond (lit "he"), []).
Proof.
  apply (read_reply_unframed demo_server (Vec (frame demo_read) 64) 7 (lit "h") 0 20
    (lit "h") [] (IoResult no_error 2)
    (lit "hello" ++ drop 5 (drop 13 (vec_resize 33 (frame demo_read))))).
  all: by vm_compute.
Defined.

Lemma read_handle_dangles_witness :
  handle_packet demo_server (Vec (frame demo_read) 26) demo_read [] = (UseAfterFree, []).
Proof.
  apply (read_handle_dangles demo_server (Vec (frame demo_read) 26) 7 (lit "h") 0 20 []).
  all: by vm_compute.
Defined.
