(* ===== verification/ExampleSpec.v ===== *)
(** * ExampleSpec: what the example server does

    Over any file system, as far as the server itself decides it:
    [sandbox_confines] and [sandbox_escapes] (where the paths of requests lead),
    [example_handles] (the handles of a session), [open_then_close] (their life),
    [unknown_handle_refused] (requests with any other string).  With a file
    system that keeps its promises ([ReadsFile], [WritesFile], [Lists]):
    [read_at_whole], [write_at_all] and [readdir_enumerates] hide its short reads,
    short writes and batches. *)

From Stdlib Require Import Ascii.
From stdpp Require Import pretty.
From S2P Require Import Prelude Libssh ErrorCode Codec Stream Requests Responses Server Backends.
From S2P Require Import Path BackendSim ServerSpec ExampleServer.

#[local] Open Scope Z_scope.

(** ** Lemmas: paths *)

Section Sandbox.
Context (root_path : bytes) (Habs : is_absolute root_path = true)
  (Hplain : Forall plain (names root_path)).

Lemma local_names p :
  is_absolute (sftp_to_local root_path p) = true /\
  names (sftp_to_local root_path p)
  = reverse (walk (reverse (names root_path)) (names p)).
Proof using Habs Hplain.
  unfold sftp_to_local.
  destruct (normal_names (append root_path (relative_path p))) as [Ha Hn].
  { apply is_absolute_append; [done | apply relative_path_not_absolute]. }
  split; [done|]. rewrite Hn, names_append by apply relative_path_not_absolute.
  by rewrite walk_app, (walk_plain [] (names root_path)), app_nil_r, names_relative_path.
Qed.

End Sandbox.

(** ** Lemmas: handles *)

Lemma lit_inj a b : lit a = lit b -> a = b.
Proof.
  unfold lit. intros H. rewrite <- (String.string_of_list_byte_of_string a), H.
  apply String.string_of_list_byte_of_string.
Qed.

Lemma to_string_inj a b : to_string a = to_string b -> a = b.
Proof. intros H. by apply lit_inj, (inj pretty) in H. Qed.

(** A decimal numeral does not start with a letter. *)
Lemma pretty_N_go_head x s :
  (forall c r, s = String.String c r -> c <> "d"%char) ->
  forall c r, pretty_N_go x s = String.String c r -> c <> "d"%char.
Proof.
  revert s. induction (N.lt_wf_0 x) as [x _ IH]; intros s Hs.
  destruct (decide (x = 0)%N) as [->|Hx]; [by rewrite pretty_N_go_0|].
  rewrite pretty_N_go_step by lia. apply IH; [by apply N.div_lt; lia|].
  intros c r [= <- _]. unfold pretty_N_char. by repeat case_match.
Qed.

Lemma to_string_not_d n k : to_string n <> lit "d" ++ to_string k.
Proof.
  intros H. change (lit "d" ++ to_string k) with (lit (String.String "d" (pretty k))) in H.
  apply lit_inj in H. destruct n as [|n|n]; [done| |done].
  change (pretty (Z.pos n)) with (pretty_N (N.pos n)) in H. unfold pretty_N in H.
  destruct (decide _); [done|]. by apply pretty_N_go_head in H.
Qed.

Section Handles.
Context {W D : Type}.
Implicit Types (s : example_state W D).

(** Every handle is the numeral, or ["d"] and the numeral, of a number given out
    before. *)
Definition handles_wf s : Prop :=
  0 <= handle_gen s /\
  (forall h f, open_files s !! h = Some f -> exists i, h = to_string i /\ 0 < i <= handle_gen s) /\
  (forall h d, dirs s !! h = Some d -> exists i, h = lit "d" ++ to_string i /\ 0 < i <= handle_gen s).

(** The two handles of a number. *)
Definition named (i : Z) (h : bytes) : Prop := h = to_string i \/ h = lit "d" ++ to_string i.

Definition given_out s (h : bytes) : Prop := is_Some (open_files s !! h) \/ is_Some (dirs s !! h).

#[export] Instance given_out_dec s h : Decision (given_out s h).
Proof. unfold given_out. apply _. Defined.

Lemma fresh_file s i : handles_wf s -> handle_gen s < i -> ~ given_out s (to_string i).
Proof.
  intros (_ & Hf & Hd) Hi [[f H]|[d H]].
  - apply Hf in H as (j & Hj & Hr). apply to_string_inj in Hj. lia.
  - apply Hd in H as (j & Hj & Hr). by apply to_string_not_d in Hj.
Qed.

Lemma fresh_dir s i : handles_wf s -> handle_gen s < i -> ~ given_out s (lit "d" ++ to_string i).
Proof.
  intros (_ & Hf & Hd) Hi [[f H]|[d H]].
  - apply Hf in H as (j & Hj & Hr). symmetry in Hj. by apply to_string_not_d in Hj.
  - apply Hd in H as (j & Hj & Hr). apply (app_inv_head (lit "d")), to_string_inj in Hj. lia.
Qed.

(** What a call may do to the handles. *)
Definition handles_step s s' : Prop :=
  handles_wf s -> handle_gen s + 1 < 2 ^ 64 ->
  handles_wf s' /\ handle_gen s <= handle_gen s' <= handle_gen s + 1 /\
  (forall h, given_out s' h -> given_out s h \/ handle_gen s < handle_gen s' /\ named (handle_gen s') h) /\
  (forall h f, open_files s !! h = Some f -> open_files s' !! h = Some f \/ open_files s' !! h = None).

(** A call that touches the world alone. *)
Definition same_handles s s' : Prop :=
  handle_gen s' = handle_gen s /\ open_files s' = open_files s /\ dirs s' = dirs s.

Lemma same_handles_step s s' : same_handles s s' -> handles_step s s'.
Proof.
  intros (Hg & Hf & Hd) Hwf _. unfold handles_wf, given_out in *. rewrite Hg, Hf, Hd.
  split; [done|]. split; [lia|]. split; auto.
Qed.

(** A handle of an earlier number that is not there now does not come back. *)
Lemma handles_step_gone s s' i h :
  handles_step s s' -> handles_wf s -> handle_gen s + 1 < 2 ^ 64 ->
  i <= handle_gen s -> named i h -> ~ given_out s h -> ~ given_out s' h.
Proof.
  intros Hstep Hwf Hb Hi Hh Hn Hg. destruct (Hstep Hwf Hb) as (_ & _ & Hnew & _).
  destruct (Hnew h Hg) as [Hold|[Hlt Hnamed]]; [done|].
  destruct Hh as [ -> | -> ], Hnamed as [He|He].
  - apply to_string_inj in He. lia.
  - by apply to_string_not_d in He.
  - symmetry in He. by apply to_string_not_d in He.
  - apply (app_inv_head (lit "d")), to_string_inj in He. lia.
Qed.

Lemma same_handles_refl s : same_handles s s.
Proof. done. Qed.

Lemma same_handles_trans s1 s2 s3 : same_handles s1 s2 -> same_handles s2 s3 -> same_handles s1 s3.
Proof. unfold same_handles. intuition congruence. Qed.

End Handles.

(** *** What the operations do to the handles *)

Section Operations.
Context {P : Platform} {W D : Type} `{!FileSystem W D} (root_path : bytes).

#[local] Abbreviation state := (example_state W D).
Implicit Types (s : state).

(** Operations on the world. *)
Definition keeps_handles {A} (m : ST state A) : Prop := forall s, same_handles s (snd (m s)).

Lemma keeps_ret {A} (a : A) : keeps_handles (st_ret a).
Proof using. by intros s. Qed.

Lemma keeps_in_world {A} (m : ST W A) : keeps_handles (in_world m).
Proof using. intros s. unfold in_world. by destruct (m (fs_world s)). Qed.

Lemma keeps_bind {A B} (m : ST state A) (k : A -> ST state B) :
  keeps_handles m -> (forall a, keeps_handles (k a)) -> keeps_handles (st_bind m k).
Proof using.
  intros Hm Hk s. unfold st_bind. specialize (Hm s). destruct (m s) as [a s1].
  eapply same_handles_trans; [exact Hm | apply Hk].
Qed.

Lemma keeps_if {A} (c : bool) (m n : ST state A) :
  keeps_handles m -> keeps_handles n -> keeps_handles (if c then m else n).
Proof using. by destruct c. Qed.

Lemma keeps_checked call : keeps_handles (checked call).
Proof using. apply keeps_bind; [apply keeps_in_world|]. intros a. apply keeps_ret. Qed.

Lemma keeps_step_if c call next : keeps_handles next -> keeps_handles (step_if c call next).
Proof using.
  intros Hn. unfold step_if. apply keeps_if; [|done]. apply keeps_bind; [apply keeps_checked|].
  intros ec. apply keeps_if; [apply keeps_ret | done].
Qed.

(** Operations on the file of a handle. *)
Lemma keeps_file {A} h (a : A) (m : Z -> ST state A) :
  (forall f, keeps_handles (m f)) ->
  keeps_handles (fun s => match open_files s !! h with None => (a, s) | Some f => m f s end).
Proof using. intros Hm s. destruct (open_files s !! h); [apply Hm | done]. Qed.

Lemma next_handle_step s :
  handles_wf s -> handle_gen s + 1 < 2 ^ 64 ->
  next_handle s = (handle_gen s + 1, ExampleState (handle_gen s + 1) (open_files s) (dirs s) (fs_world s)).
Proof using.
  intros [Hg _] Hb. unfold next_handle. by rewrite u64_small by (unfold is_u64; lia).
Qed.

Lemma same_handles_wf s s' : same_handles s s' -> handles_wf s -> handles_wf s'.
Proof using. intros (Hg & Hf & Hd). unfold handles_wf. by rewrite Hg, Hf, Hd. Qed.

(** [open]: the error of the file system, or a new handle for the file. *)
Lemma open_spec path accesstype mode s :
  handles_wf s -> handle_gen s + 1 < 2 ^ 64 ->
  exists r w, file_open (sftp_to_local root_path path) (open_file_flags accesstype) (fs_world s) = (r, w) /\
    open root_path path accesstype mode s =
      match r with
      | inl code => (IoResult code [], ExampleState (handle_gen s) (open_files s) (dirs s) w)
      | inr file =>
          let h := to_string (handle_gen s + 1) in
          (IoResult no_error h,
           ExampleState (handle_gen s + 1) (<[h := file]> (open_files s)) (dirs s) w)
      end.
Proof using.
  intros Hwf Hb. destruct (file_open _ _ (fs_world s)) as [r w] eqn:Hopen. exists r, w. split; [done|].
  unfold open, st_bind, in_world. rewrite Hopen. destruct r as [code|file]; [done|].
  rewrite next_handle_step by done. cbn [open_files dirs handle_gen fs_world].
  unfold emplace_file. cbn [open_files dirs handle_gen fs_world].
  destruct (open_files s !! _) eqn:Hl; [|done].
  destruct (fresh_file s (handle_gen s + 1) Hwf ltac:(lia)). left. eauto.
Qed.

Lemma opendir_spec path s :
  handles_wf s -> handle_gen s + 1 < 2 ^ 64 ->
  exists ec dit w, dir_open (sftp_to_local root_path path) (fs_world s) = ((ec, dit), w) /\
    opendir root_path path s =
      if ec_bool ec then (IoResult ec [], ExampleState (handle_gen s) (open_files s) (dirs s) w)
      else
        let h := lit "d" ++ to_string (handle_gen s + 1) in
        (IoResult no_error h,
         ExampleState (handle_gen s + 1) (open_files s) (<[h := dit]> (dirs s)) w).
Proof using.
  intros Hwf Hb. destruct (dir_open _ (fs_world s)) as [[ec dit] w] eqn:Hopen.
  exists ec, dit, w. split; [done|].
  unfold opendir, st_bind, in_world. rewrite Hopen. destruct (ec_bool ec); [done|].
  rewrite next_handle_step by done. cbn [open_files dirs handle_gen fs_world].
  unfold emplace_dir. cbn [open_files dirs handle_gen fs_world].
  destruct (dirs s !! _) eqn:Hl; [|done].
  destruct (fresh_dir s (handle_gen s + 1) Hwf ltac:(lia)). right. eauto.
Qed.

Lemma open_step path accesstype mode s : handles_step s (snd (open root_path path accesstype mode s)).
Proof using.
  intros Hwf Hb. destruct (open_spec path accesstype mode s Hwf Hb) as (r & w & _ & ->).
  destruct r as [code|file]; [by apply same_handles_step|]. destruct Hwf as (Hg & Hf & Hd).
  cbn [snd]. unfold handles_wf, given_out. cbn [handle_gen open_files dirs]. split_and!; try lia.
  - intros h f [[<- <-]|[_ H]]%lookup_insert_Some; [eexists; split; [done|]; lia|].
    apply Hf in H as (i & ? & ?). eauto with lia.
  - intros h d H. apply Hd in H as (i & ? & ?). eauto with lia.
  - intros h [[f [[<- _]|[_ H]]%lookup_insert_Some]|H]; [|left; left; eauto|left; by right].
    right. split; [lia|]. by left.
  - intros h f H. left. rewrite lookup_insert_ne; [done|]. intros <-.
    apply Hf in H as (i & Hi%to_string_inj & ?). lia.
Qed.

Lemma opendir_step path s : handles_step s (snd (opendir root_path path s)).
Proof using.
  intros Hwf Hb. destruct (opendir_spec path s Hwf Hb) as (ec & dit & w & _ & ->).
  destruct (ec_bool ec); [by apply same_handles_step|]. destruct Hwf as (Hg & Hf & Hd).
  cbn [snd]. unfold handles_wf, given_out. cbn [handle_gen open_files dirs]. split_and!; try lia.
  - intros h f H. apply Hf in H as (i & ? & ?). eauto with lia.
  - intros h d [[<- <-]|[_ H]]%lookup_insert_Some; [eexists; split; [done|]; lia|].
    apply Hd in H as (i & ? & ?). eauto with lia.
  - intros h [H|[d [[<- _]|[_ H]]%lookup_insert_Some]]; [left; by left| |left; right; eauto].
    right. split; [lia|]. by right.
  - intros h f H. by left.
Qed.

(** [close]: the handle goes, whatever it is of. *)
Lemma close_spec h s :
  exists w,
  close h s =
    (if bool_decide (given_out s h) then no_error else bad_handle,
     ExampleState (handle_gen s) (delete h (open_files s))
       (match open_files s !! h with Some _ => dirs s | None => delete h (dirs s) end) w).
Proof using.
  unfold close. destruct (open_files s !! h) as [f|] eqn:Hf.
  - unfold st_bind, in_world. cbn [fs_world handle_gen open_files dirs].
    destruct (file_close f (fs_world s)) as [u w]. exists w.
    rewrite bool_decide_eq_true_2 by (left; eauto). done.
  - exists (fs_world s). rewrite (delete_id (open_files s)) by done. destruct (dirs s !! h) as [d|] eqn:Hd.
    + by rewrite bool_decide_eq_true_2 by (right; eauto).
    + rewrite bool_decide_eq_false_2 by (intros [[]|[]]; congruence).
      rewrite delete_id by done. by destruct s.
Qed.

Lemma close_step h s : handles_step s (snd (close h s)).
Proof using.
  intros (Hg & Hf & Hd) Hb. destruct (close_spec h s) as [w ->]. cbn [snd].
  assert (Hdirs : forall k d, match open_files s !! h with Some _ => dirs s | None => delete h (dirs s) end
    !! k = Some d -> dirs s !! k = Some d).
  { intros k d. destruct (open_files s !! h); [done|]. by intros [_ H]%lookup_delete_Some. }
  unfold handles_wf, given_out. cbn [handle_gen open_files dirs]. split_and!; try lia.
  - intros k f [_ H]%lookup_delete_Some. by apply Hf in H.
  - intros k d H. by apply Hdirs, Hd in H.
  - intros k [[f H]|[d H]].
    + apply lookup_delete_Some in H as [_ H]. left. left. eauto.
    + left. right. eauto.
  - intros k f H. destruct (decide (h = k)) as [<-|]; [right; apply lookup_delete_eq|].
    left. by rewrite lookup_delete_ne.
Qed.

Lemma readdir_step h s : handles_step s (snd (readdir h s)).
Proof using.
  unfold readdir. destruct (dirs s !! h) as [dit|] eqn:Hd; [|by apply same_handles_step].
  destruct (read_batch _ _ _ _) as [[entries dit'] w]. intros (Hg & Hf & Hdw) Hb. cbn [snd].
  unfold handles_wf, given_out. cbn [handle_gen open_files dirs]. split_and!; auto; try lia.
  - intros k d [[<- _]|[_ H]]%lookup_insert_Some; by eapply Hdw.
  - intros k [H|[d H]]; [by left; left|]. left. right.
    apply lookup_insert_Some in H as [[<- _]|[_ H]]; eauto.
Qed.

End Operations.

(** *** Every call, and every packet *)

Section Packets.
Context {P : Platform} {W D : Type} `{!FileSystem W D} (root_path : bytes).

Lemma keeps_step {A} (m : ST (example_state W D) A) s : keeps_handles m -> handles_step s (snd (m s)).
Proof using. intros Hm. apply same_handles_step, Hm. Qed.

(** Descend to the calls on the world. *)
Ltac keeps :=
  repeat first
    [ apply keeps_ret | apply keeps_in_world | apply keeps_checked
    | apply keeps_step_if | apply keeps_bind; [|intros ?] | apply keeps_if
    | match goal with |- keeps_handles (let '(_, _) := ?x in _) => destruct x end ].

Lemma example_calls_step s :
  backend_sim (starts_at s) (stepped handles_step s) (example_server root_path) (example_server root_path).
Proof using.
  split; intros; apply sim_step; cbn [srv_open srv_read_at srv_write_at srv_fstat srv_close srv_opendir
    srv_readdir srv_stat srv_lstat srv_unlink srv_mkdir srv_rmdir srv_rename srv_symlink srv_hardlink
    srv_setstat srv_fsetstat srv_readlink srv_canonicalize_path srv_expand_path example_server].
  - apply open_step.
  - apply keeps_step, keeps_file. intros f. keeps.
  - apply keeps_step, keeps_file. intros f. keeps.
  - apply keeps_step, keeps_file. intros f. keeps.
  - apply close_step.
  - apply opendir_step.
  - apply readdir_step.
  - apply keeps_step. unfold stat. keeps.
  - apply keeps_step. unfold lstat. keeps.
  - apply keeps_step. unfold unlink. keeps.
  - apply keeps_step. unfold mkdir. keeps.
  - apply keeps_step. unfold rmdir. keeps.
  - apply keeps_step. unfold rename. keeps.
  - apply keeps_step. unfold symlink. keeps.
  - apply keeps_step. unfold hardlink. keeps.
  - apply keeps_step. unfold setstat. keeps.
  - apply keeps_step, keeps_file. intros f. keeps.
  - apply keeps_step. unfold readlink. keeps.
  - apply keeps_step. unfold canonicalize_path. keeps.
  - apply keeps_step. unfold expand_path. keeps.
Qed.

End Packets.

(** ** Lemmas: the contents of a file *)

(** [file] holds [content] and does not change while it is read; a read gives a
    part of what is there, and nothing only at the end. *)
Definition ReadsFile {W D} `{!FileSystem W D} (file : Z) (content : bytes) (I : W -> Prop) : Prop :=
  forall w off len, I w -> 0 <= off -> 0 < len ->
  exists n w', file_read_some_at file off len w =
      ((no_error, take n (drop (Z.to_nat off) content)), w') /\ I w' /\
    Z.of_nat n <= len /\ (n = 0%nat -> zlen content <= off).

(** [data] put at [off]: a gap is filled with zeros, writing nothing does
    nothing. *)
Definition overwrite (off : Z) (data content : bytes) : bytes :=
  match data with
  | [] => content
  | _ => vec_resize off content ++ data ++ drop (Z.to_nat off + length data) content
  end.

(** [content] of the file in a world, and what a write does to it: it puts some of
    the bytes there, or fails and leaves it alone. *)
Definition WritesFile {W D} `{!FileSystem W D} (file : Z) (content : W -> bytes) : Prop :=
  forall w off data, 0 <= off -> data <> [] ->
  exists ec n w', file_write_some_at file off data w = ((ec, Z.of_nat n), w') /\
    (n <= length data)%nat /\
    content w' = if ec_bool ec then content w else overwrite off (take n data) (content w).

Lemma overwrite_eq off data content :
  data <> [] ->
  overwrite off data content
  = vec_resize off content ++ data ++ drop (Z.to_nat off + length data) content.
Proof. by destruct data. Qed.

Lemma overwrite_app off x y content :
  0 <= off -> overwrite (off + zlen x) y (overwrite off x content) = overwrite off (x ++ y) content.
Proof.
  intros Hoff. destruct (decide (x = [])) as [->|Hx]; [autorewrite with zlen; by rewrite Z.add_0_r|].
  destruct (decide (y = [])) as [->|Hy]; [by rewrite app_nil_r|].
  rewrite !overwrite_eq by (done || by destruct x).
  set (pad := vec_resize off content).
  assert (Hpad : length pad = Z.to_nat off) by
    (unfold pad, vec_resize; rewrite length_app, length_take, length_replicate; lia).
  assert (Hn : Z.to_nat (off + zlen x) = length (pad ++ x)) by
    (rewrite length_app, Hpad; unfold zlen; lia).
  unfold vec_resize. rewrite Hn, (app_assoc pad x), take_app_length.
  rewrite <- (drop_drop _ (length y) (length (pad ++ x))), drop_app_length, drop_drop.
  replace (length (pad ++ x) - length ((pad ++ x) ++ drop (Z.to_nat off + length x) content))%nat
    with 0%nat by (rewrite (length_app (pad ++ x)); lia).
  cbn [replicate]. rewrite app_nil_r, <- !app_assoc. do 4 f_equal. rewrite length_app. lia.
Qed.

Section Contents.
Context {P : Platform} {W D : Type} `{!FileSystem W D}.

(** The whole of what is asked for and there. *)
Lemma read_loop_spec fuel file content I offset filled buffer w :
  ReadsFile file content I -> I w -> 0 <= offset ->
  offset + zlen filled + zlen buffer < 2 ^ 64 ->
  filled = take (length filled) (drop (Z.to_nat offset) content) ->
  (length buffer < fuel)%nat ->
  exists w', read_loop fuel file offset filled buffer w =
      (let data := take (length filled + length buffer) (drop (Z.to_nat offset) content) in
       ((IoResult no_error (zlen data),
         data ++ drop (length data - length filled) buffer), w')) /\ I w'.
Proof using.
  intros Hr. revert filled buffer w. induction fuel as [|fuel IH]; intros filled buffer w Hw Hoff Hsz Hf Hfuel;
    [lia|]. cbn [read_loop]. destruct (Z.eqb_spec (zlen buffer) 0) as [Hb|Hb].
  { destruct buffer; [|autorewrite with zlen in Hb; pose proof (zlen_nonneg buffer); lia].
    exists w. cbn [length]. rewrite Nat.add_0_r, <- Hf, drop_nil, app_nil_r. done. }
  pose proof (zlen_nonneg buffer). pose proof (zlen_nonneg filled).
  rewrite u64_small by (unfold is_u64; lia). cbv beta zeta delta [st_bind].
  destruct (Hr w (offset + zlen filled) (zlen buffer) Hw ltac:(lia) ltac:(lia))
    as (n & w' & -> & Hw' & Hn & Hend).
  rewrite ec_bool_no_error. unfold zlen in Hn.
  set (rest := drop (Z.to_nat offset) content) in *.
  assert (Hdrop : drop (Z.to_nat (offset + zlen filled)) content = drop (length filled) rest).
  { unfold rest. rewrite drop_drop. f_equal. unfold zlen. lia. }
  rewrite Hdrop, take_take.
  replace (length buffer `min` n)%nat with n by lia.
  destruct (Z.eqb_spec (zlen (take n (drop (length filled) rest))) 0) as [Hz|Hz].
  - assert (Hall : (length rest <= length filled)%nat).
    { unfold zlen in Hz. rewrite length_take, length_drop in Hz.
      destruct (decide (n = 0%nat)) as [->|]; [|lia].
      specialize (Hend eq_refl). unfold rest. rewrite length_drop. unfold zlen in Hend. lia. }
    exists w'. split; [|done]. unfold st_ret. rewrite (take_ge rest) by lia.
    rewrite take_ge in Hf by lia. rewrite <- Hf, Nat.sub_diag. done.
  - set (data := take n (drop (length filled) rest)) in *.
    assert (Hd : (0 < length data <= length buffer)%nat).
    { unfold zlen in Hz. split; [lia|]. unfold data. rewrite length_take. lia. }
    destruct (IH (filled ++ data) (drop (length data) buffer) w') as (w2 & Hrun & Hw2); try done.
    { unfold zlen in *. rewrite length_app, length_drop. lia. }
    { rewrite length_app, <- take_take_drop, <- Hf. f_equal. unfold data.
      by rewrite length_take, take_min_length. }
    { rewrite length_drop. lia. }
    exists w2. split; [|done]. rewrite Hrun. rewrite !length_app, length_drop.
    replace (length filled + length data + (length buffer - length data))%nat
      with (length filled + length buffer)%nat by lia.
    cbv zeta. rewrite drop_drop. do 4 f_equal. rewrite length_take.
    assert (length data <= length rest - length filled)%nat by
      (unfold data; rewrite length_take, length_drop; lia).
    lia.
Qed.

(** The bytes that went out are in the file, from the front of the buffer, and
    without an error all of them did. *)
Lemma write_loop_spec fuel file (content : W -> bytes) offset total buffer w :
  WritesFile file content -> 0 <= offset -> 0 <= total ->
  offset + total + zlen buffer < 2 ^ 64 -> (length buffer < fuel)%nat ->
  exists ec k w', write_loop fuel file offset total buffer w = (IoResult ec (total + Z.of_nat k), w') /\
    (k <= length buffer)%nat /\ content w' = overwrite (offset + total) (take k buffer) (content w) /\
    (ec_bool ec = false -> k = length buffer).
Proof using.
  intros Hw Hoff. revert total buffer w. induction fuel as [|fuel IH]; intros total buffer w Ht Hsz Hfuel;
    [lia|]. cbn [write_loop]. destruct (Z.eqb_spec (zlen buffer) 0) as [Hb|Hb].
  { destruct buffer; [|autorewrite with zlen in Hb; pose proof (zlen_nonneg buffer); lia].
    exists no_error, 0%nat, w. by rewrite Z.add_0_r. }
  pose proof (zlen_nonneg buffer). rewrite u64_small by (unfold is_u64; lia).
  destruct (Hw w (offset + total) buffer ltac:(lia) ltac:(by intros ->))
    as (ec & n & w1 & Hrun & Hn & Hc). unfold st_bind. rewrite Hrun.
  destruct (ec_bool ec) eqn:Hec.
  { exists ec, 0%nat, w1. rewrite Z.add_0_r. split; [done|]. split; [lia|]. split; [done|congruence]. }
  destruct (Z.eqb_spec (Z.of_nat n) 0) as [Hz|Hz].
  { exists (make_error_code io_error), 0%nat, w1. rewrite Z.add_0_r. split; [done|]. split; [lia|].
    replace n with 0%nat in Hc by lia. by rewrite ec_bool_make. }
  rewrite Nat2Z.id. destruct (IH (total + Z.of_nat n) (drop n buffer) w1) as (ec2 & k & w2 & -> & Hk & Hc2 & Hall).
  { lia. }
  { rewrite zlen_drop. unfold zlen in *. lia. }
  { rewrite length_drop. lia. }
  rewrite length_drop in *. exists ec2, (n + k)%nat, w2. split; [do 2 f_equal; lia|]. split; [lia|].
  split; [|intros He; specialize (Hall He); lia]. rewrite Hc2, Hc, <- (take_take_drop buffer n k).
  rewrite <- overwrite_app by lia. f_equal. rewrite zlen_take. unfold zlen. lia.
Qed.

End Contents.

(** ** Lemmas: directories *)

(** An iterator goes through the paths [listing] gives, whatever happens to the
    rest of the world ([I]). *)
Record Lists {W D} `{!FileSystem W D} (listing : D -> list bytes) (I : W -> Prop) : Prop := {
  lists_end d : dir_at_end d = bool_decide (listing d = []);
  lists_next d p l : listing d = p :: l -> dir_path d = p /\
    forall w, I w -> exists d' w', dir_increment d w = ((no_error, d'), w') /\ listing d' = l /\ I w';
  lists_lstat p w : I w -> I (snd (sys_lstat p w))
}.

Section Directories.
Context {P : Platform} {W D : Type} `{!FileSystem W D}.
Context (listing : D -> list bytes) (I : W -> Prop) (Hl : Lists listing I).

Lemma read_batch_spec room entries dit w :
  I w -> exists es d' w', read_batch room entries dit w = ((entries ++ es, d'), w') /\
    map e_name es = map filename (take room (listing dit)) /\
    listing d' = drop room (listing dit) /\ I w'.
Proof using Hl.
  revert entries dit w. induction room as [|room IH]; intros entries dit w Hw; cbn [read_batch].
  { exists [], dit, w. rewrite app_nil_r, take_0, drop_0. done. }
  rewrite (lists_end _ _ Hl). destruct (listing dit) as [|p l] eqn:Hd.
  { rewrite bool_decide_eq_true_2 by done. exists [], dit, w. by rewrite app_nil_r. }
  rewrite bool_decide_eq_false_2 by done. unfold dir_entry. cbv beta zeta delta [st_bind st_ret].
  destruct (lists_next _ _ Hl dit p l Hd) as [Hp Hnext]. rewrite Hp.
  pose proof (lists_lstat _ _ Hl p w Hw) as Hw1. destruct (sys_lstat p w) as [r w1]. cbn [snd] in Hw1.
  destruct (Hnext w1 Hw1) as (d' & w2 & -> & Hl' & Hw2). rewrite ec_bool_no_error.
  set (e := Entry _ _ _). destruct (IH (entries ++ [e]) d' w2 Hw2) as (es & d'' & w3 & -> & Hes & Hl'' & Hw3).
  exists (e :: es), d'', w3. rewrite <- app_assoc. split; [done|].
  split; [|split; [|done]]; cbn [map take drop]; [by rewrite Hes, Hl' | by rewrite Hl'', Hl'].
Qed.

Lemma readdir_spec h dit (s : example_state W D) :
  dirs s !! h = Some dit -> I (fs_world s) ->
  exists es d' w',
    readdir h s =
      (if bool_decide (listing dit = []) then IoResult capy_eof [] else IoResult no_error es,
       ExampleState (handle_gen s) (open_files s) (<[h := d']> (dirs s)) w') /\
    map e_name es = map filename (take 64 (listing dit)) /\
    listing d' = drop 64 (listing dit) /\ I w'.
Proof using Hl.
  intros Hd Hw. destruct (read_batch_spec max_batch [] dit (fs_world s) Hw)
    as (es & d' & w' & Hrun & Hes & Hl' & Hw').
  exists es, d', w'. split; [|done]. unfold readdir. rewrite Hd, Hrun. cbn [app]. f_equal.
  assert (Hiff : es = [] <-> listing dit = []).
  { unfold max_batch in Hes. destruct es, (listing dit); cbn in Hes; by split. }
  by rewrite (bool_decide_ext _ _ Hiff).
Qed.

End Directories.

(** A client that reads a directory to its end. *)
Fixpoint read_directory {P : Platform} {W D} `{!FileSystem W D} (fuel : nat) (h : bytes)
    : ST (example_state W D) (option (list entry)) :=
  match fuel with
  | O => st_ret None
  | S fuel =>
      let* r := readdir h in
      if ec_bool (io_ec r) then st_ret (if bool_decide (io_ec r = capy_eof) then Some [] else None)
      else
        let* rest := read_directory fuel h in
        st_ret (match rest with Some es => Some (io_value r ++ es) | None => None end)
  end.

Section ReadDirectory.
Context {P : Platform} {W D : Type} `{!FileSystem W D}.
Context (listing : D -> list bytes) (I : W -> Prop) (Hl : Lists listing I).
Context (Heof : ec_bool capy_eof = true).

Lemma read_directory_spec fuel h dit s :
  dirs s !! h = Some dit -> I (fs_world s) -> (length (listing dit) < fuel)%nat ->
  exists es s', read_directory fuel h s = (Some es, s') /\
    map e_name es = map filename (listing dit).
Proof using Hl Heof.
  revert dit s. induction fuel as [|fuel IH]; intros dit s Hd Hw Hfuel; [lia|].
  cbn [read_directory]. cbv beta zeta delta [st_bind st_ret].
  destruct (readdir_spec listing I Hl h dit s Hd Hw) as (es & d' & w' & -> & Hes & Hl' & Hw').
  case_bool_decide as Hend; cbn [io_ec io_value].
  { rewrite Heof, bool_decide_eq_true_2 by done. exists []. eexists. by rewrite Hend. }
  rewrite ec_bool_no_error.
  destruct (IH d' (ExampleState (handle_gen s) (open_files s) (<[h := d']> (dirs s)) w'))
    as (rest & s' & -> & Hrest).
  - apply lookup_insert_eq.
  - done.
  - rewrite Hl', length_drop. destruct (listing dit); [done|]. cbn [length] in *. lia.
  - exists (es ++ rest), s'. split; [done|].
    by rewrite map_app, Hes, Hrest, Hl', <- map_app, take_drop.
Qed.

End ReadDirectory.

(** ** Lemmas: packets *)

(** The packets of a session, one after the other, whoever handles them. *)
Definition serve_packets {P : Platform} {W D} `{!FileSystem W D} (root_path : bytes)
    (packets : list (vec * bytes)) (s : example_state W D) : example_state W D :=
  foldl (fun s p => snd (handle_packet (example_server root_path) (fst p) (snd p) s)) s packets.

Section Sequences.
Context {P : Platform} {W D : Type} `{!FileSystem W D} (root_path : bytes).

Lemma packet_step buf cb (s : example_state W D) :
  handles_step s (snd (handle_packet (example_server root_path) buf cb s)).
Proof using.
  apply (handle_packet_step (example_server root_path) handles_step).
  - intros s'. by apply same_handles_step, same_handles_refl.
  - apply example_calls_step.
Qed.

Lemma serve_packets_wf packets (s : example_state W D) :
  handles_wf s -> handle_gen s + zlen packets < 2 ^ 64 ->
  handles_wf (serve_packets root_path packets s) /\
  handle_gen s <= handle_gen (serve_packets root_path packets s) <= handle_gen s + zlen packets /\
  forall i h, i <= handle_gen s -> named i h -> ~ given_out s h ->
    ~ given_out (serve_packets root_path packets s) h.
Proof using.
  revert s. induction packets as [|[buf cb] packets IH]; intros s Hwf Hb.
  { cbn [serve_packets foldl]. rewrite zlen_nil. split; [done|]. split; [lia | auto]. }
  rewrite zlen_cons in Hb |- *. pose proof (zlen_nonneg packets).
  destruct (packet_step buf cb s Hwf ltac:(lia)) as (Hwf' & Hgen & _).
  set (s1 := snd (handle_packet _ buf cb s)) in *.
  change (serve_packets root_path ((buf, cb) :: packets) s) with (serve_packets root_path packets s1).
  destruct (IH s1 Hwf' ltac:(lia)) as (Hwf2 & Hgen2 & Hgone). split; [done|]. split; [lia|].
  intros i h Hi Hh Hn. apply (Hgone i); [lia | done|].
  eapply (handles_step_gone s _ i); eauto using packet_step with lia.
Qed.

End Sequences.

(** A request on an open handle that names one that is not open ([SSH_FXP_READ]
    apart): a file's for a directory, a directory's for a file, any string. *)
Definition stray {W D} (s : example_state W D) (w : wire_request) : Prop :=
  match w with
  | Fstat h | Fsetstat h _ => open_files s !! h = None
  | ClientRequest (Write h _ data) => open_files s !! h = None /\ zlen data <= read_limit
  | ClientRequest (Readdir h) => dirs s !! h = None
  | ClientRequest (Close h) => ~ given_out s h
  | _ => False
  end.

(** ** Properties *)

(** C20: A request whose path does not climb above the directory it starts in
    reaches what it names below [root_path], and nothing else: the translated
    path is absolute, and its names are those of [root_path] followed by the ones
    the request leads to. *)
Theorem sandbox_confines (root_path p : bytes) :
  is_absolute root_path = true -> Forall plain (names root_path) ->
  stays_below 0 (names p) = true ->
  is_absolute (sftp_to_local root_path p) = true /\
  names (sftp_to_local root_path p) = names root_path ++ reverse (walk [] (names p)).
Proof.
  intros Habs Hplain Hbelow. destruct (local_names root_path Habs Hplain p) as [Ha ->].
  split; [done|]. rewrite (walk_stays_below [] (reverse (names root_path))) by done.
  by rewrite reverse_app, reverse_involutive.
Qed.

(** C40: Any other path leaves the directory: for every absolute path of the
    machine there is a path a client can send that is translated to it, as many
    [..] as [root_path] has names and then the path. *)
Theorem sandbox_escapes (root_path target : bytes) :
  is_absolute root_path = true -> Forall plain (names root_path) -> Forall plain (names target) ->
  names (sftp_to_local root_path
    (join_names (replicate (length (names root_path)) dot_dot ++ names target))) = names target.
Proof.
  intros Habs Hplain Htarget.
  destruct (local_names root_path Habs Hplain
    (join_names (replicate (length (names root_path)) dot_dot ++ names target))) as [_ ->].
  rewrite names_join.
  2:{ apply Forall_app. split; [|apply names_are_names]. apply Forall_replicate.
      split; [done|]. unfold dot_dot, slash. set_solver. }
  rewrite walk_app, walk_up, drop_ge by (by rewrite length_reverse).
  by rewrite walk_plain, app_nil_r, reverse_involutive.
Qed.

(** C26: The handles of a session are never used again: after any packets a
    client sends, every open handle belongs to a number given out so far (at most
    one per packet), and a handle of an earlier number that is closed stays
    closed. *)
Theorem handles_never_reused {P : Platform} {W D} `{!FileSystem W D} root_path packets
    (s : example_state W D) :
  handles_wf s -> handle_gen s + zlen packets < 2 ^ 64 ->
  let s' := serve_packets root_path packets s in
  handles_wf s' /\ handle_gen s <= handle_gen s' <= handle_gen s + zlen packets /\
  forall i h, i <= handle_gen s -> named i h -> ~ given_out s h -> ~ given_out s' h.
Proof. intros Hwf Hb. by apply serve_packets_wf. Qed.

(** C27: The life of a handle: [open] of a file that can be opened gives a string
    that is no handle yet and leaves every other handle alone; [close] of it
    succeeds and restores the tables; closing it again is a bad handle. *)
Theorem open_then_close {P : Platform} {W D} `{!FileSystem W D} root_path path accesstype mode
    (s : example_state W D) file w :
  handles_wf s -> handle_gen s + 1 < 2 ^ 64 ->
  file_open (sftp_to_local root_path path) (open_file_flags accesstype) (fs_world s) = (inr file, w) ->
  exists h s1 s2,
    open root_path path accesstype mode s = (IoResult no_error h, s1) /\
    ~ given_out s h /\ open_files s1 = <[h := file]> (open_files s) /\ dirs s1 = dirs s /\
    close h s1 = (no_error, s2) /\ open_files s2 = open_files s /\ dirs s2 = dirs s /\
    fst (close h s2) = bad_handle.
Proof.
  intros Hwf Hb Hopen. pose proof (fresh_file s (handle_gen s + 1) Hwf ltac:(lia)) as Hfresh.
  destruct (open_spec root_path path accesstype mode s Hwf Hb) as (r & w' & Hopen' & ->).
  rewrite Hopen in Hopen'. injection Hopen' as <- <-.
  set (h := to_string (handle_gen s + 1)) in *. set (s1 := ExampleState (handle_gen s + 1) (<[h := file]> (open_files s)) (dirs s) w).
  assert (Hnone : open_files s !! h = None).
  { destruct (open_files s !! h) eqn:E; [|done]. destruct Hfresh. left. eauto. }
  destruct (close_spec h s1) as [w2 Hclose].
  rewrite bool_decide_eq_true_2 in Hclose by (left; exists file; apply lookup_insert_eq).
  cbn [open_files dirs handle_gen s1] in Hclose. rewrite lookup_insert_eq, delete_insert_id in Hclose by done.
  set (s2 := ExampleState _ _ _ w2) in Hclose.
  exists h, s1, s2. split_and!; try done. destruct (close_spec h s2) as [w3 ->].
  by rewrite bool_decide_eq_false_2.
Qed.

(** A request with a handle that is not open is answered with the status
    [SSH_FX_INVALID_HANDLE], and neither the tables nor the file system is
    touched. *)
Theorem unknown_handle_refused {P : Platform} {HP : CapyConditions P} {W D} `{!FileSystem W D}
    root_path buf id w rest (s : example_state W D) :
  is_u32 id -> wire_wf w -> stray s w -> reply_fits (StatusReply bad_handle) ->
  handle_packet (example_server root_path) buf (wire_body id w ++ rest) s
  = (Respond (frame ([byte_of_Z SSH_FXP_STATUS] ++ be_encode 4 id ++
       status_body SSH_FX_INVALID_HANDLE (ec_message bad_handle) [])), s).
Proof.
  intros Hid Hw Hs Hf.
  assert (Hm : exists m, exec (example_server root_path) w = Some m /\ m s = (StatusReply bad_handle, s)).
  { destruct w as [req|h|h attr]; [destruct req; try done|..]; cbn [stray] in Hs;
      (eexists; split; [done|]);
      cbn [example_server srv_readdir srv_close srv_write_at srv_fstat srv_fsetstat];
      unfold value_result, status_result, st_bind, readdir, close, write_at, fstat, fsetstat.
    - by rewrite Hs.
    - destruct (open_files s !! handle) eqn:E1; [destruct Hs; left; eauto|].
      destruct (dirs s !! handle) eqn:E2; [destruct Hs; right; eauto|done].
    - destruct Hs as [Hs Hn]. destruct (Z.ltb_spec read_limit (zlen data)); [lia|]. by rewrite Hs.
    - by rewrite Hs.
    - by rewrite Hs. }
  destruct Hm as (m & Hm & Hms). rewrite (handle_exec _ _ _ _ _ _ _ Hid Hw Hm) by (by rewrite Hms).
  unfold reports, st_bind. rewrite Hms. unfold reply_body. cbn [reply_type reply_fields].
  unfold bad_handle at 1. by rewrite status_of_generic.
Qed.

(** C28: [read_at] gives the whole of what was asked for, as far as the file goes:
    over a file that answers with any shorter piece each time, the buffer starts
    with the bytes of the file from [offset] on, the count is their number (less
    than the buffer's size only at the end of the file), and the rest of the
    buffer is as it was. *)
Theorem read_at_whole {P : Platform} {W D} `{!FileSystem W D} file content (I : W -> Prop)
    h offset buffer (s : example_state W D) :
  ReadsFile file content I -> I (fs_world s) -> open_files s !! h = Some file ->
  0 <= offset -> offset + zlen buffer < 2 ^ 64 ->
  exists w', read_at h offset buffer s =
      (let data := take (length buffer) (drop (Z.to_nat offset) content) in
       ((IoResult no_error (zlen data), data ++ drop (length data) buffer),
        ExampleState (handle_gen s) (open_files s) (dirs s) w')) /\ I w'.
Proof.
  intros Hr Hw Hf Hoff Hsz. unfold read_at, in_world. rewrite Hf.
  destruct (read_loop_spec (S (length buffer)) file content I offset [] buffer (fs_world s))
    as (w' & -> & Hw'); rewrite ?zlen_nil; try done; try lia.
  exists w'. cbn [length app plus]. by rewrite Nat.sub_0_r.
Qed.

(** [write_at] puts the whole buffer into the file however short the single
    writes are: it ends, the bytes that went out are in the file from [offset] on
    (the reported count says how many), the rest of the file is as it was, and
    without an error all of them went out. *)
Theorem write_at_all {P : Platform} {W D} `{!FileSystem W D} file (content : W -> bytes)
    h offset buffer (s : example_state W D) :
  WritesFile file content -> open_files s !! h = Some file ->
  0 <= offset -> offset + zlen buffer < 2 ^ 64 ->
  exists ec k w', write_at h offset buffer s =
      (IoResult ec (Z.of_nat k), ExampleState (handle_gen s) (open_files s) (dirs s) w') /\
    (k <= length buffer)%nat /\
    content w' = overwrite offset (take k buffer) (content (fs_world s)) /\
    (ec_bool ec = false -> k = length buffer).
Proof.
  intros Hw Hf Hoff Hsz. unfold write_at, in_world. rewrite Hf.
  destruct (write_loop_spec (S (length buffer)) file content offset 0 buffer (fs_world s))
    as (ec & k & w' & -> & H); try done; try lia.
  exists ec, k, w'. by rewrite Z.add_0_r in H.
Qed.

(** A client that reads a directory until the end-of-file error gets the name
    of every entry once and in order, although one reply holds at most 64. *)
Theorem readdir_enumerates {P : Platform} {W D} `{!FileSystem W D} (listing : D -> list bytes)
    (I : W -> Prop) h dit (s : example_state W D) :
  Lists listing I -> I (fs_world s) -> dirs s !! h = Some dit -> ec_bool capy_eof = true ->
  exists es s', read_directory (S (length (listing dit))) h s = (Some es, s') /\
    map e_name es = map filename (listing dit).
Proof. intros Hl Hw Hd Heof. apply (read_directory_spec listing I Hl Heof _ h dit s Hd Hw). lia. Qed.

(** ** Witnesses *)

(** A machine with one file, which reads and writes two bytes at a time, and one
    directory; nothing else is supported. *)
Definition demo_unsupported {A} (a : A) : ST bytes (Z + A) := fun w => (inl 95, w).
Definition demo_denied : ST bytes (option Z) := fun w => (Some 1, w).

#[local] Instance demo_files : FileSystem bytes (list bytes) := {
  file_open _ _ := fun w => (inr 3, w);
  file_read_some_at _ off len := fun w =>
    ((no_error, take (Z.to_nat (Z.min 2 len)) (drop (Z.to_nat off) w)), w);
  file_write_some_at _ off data := fun w =>
    ((no_error, Z.of_nat (length data `min` 2)), overwrite off (take (length data `min` 2) data) w);
  file_sync_all _ := fun w => (None, w);
  file_close _ := fun w => (tt, w);
  sys_stat _ := demo_unsupported (FileStat 0 0 0 0 0 0);
  sys_lstat _ := fun w => (inr (FileStat (zlen w) 0 0 420 0 0), w);
  sys_fstat _ := fun w => (inr (FileStat (zlen w) 0 0 420 0 0), w);
  sys_ftruncate _ n := fun w => (None, vec_resize n w);
  sys_fchmod _ _ := demo_denied;
  sys_fchown _ _ _ := demo_denied;
  sys_futimens _ _ _ := demo_denied;
  sys_truncate _ _ := demo_denied;
  sys_chmod _ _ := demo_denied;
  sys_chown _ _ _ := demo_denied;
  sys_utimensat _ _ _ := demo_denied;
  sys_unlink _ := demo_denied;
  sys_mkdir _ _ := demo_denied;
  sys_rmdir _ := demo_denied;
  sys_rename _ _ := demo_denied;
  sys_symlink _ _ := demo_denied;
  sys_link _ _ := demo_denied;
  dir_open _ := fun w => ((no_error, [lit "/srv/a"; lit "/srv/b"]), w);
  dir_at_end d := bool_decide (d = []);
  dir_path d := default [] (head d);
  dir_increment d := fun w => ((no_error, tail d), w);
  read_symlink _ := fun w => ((ErrorCode 22 generic_category, []), w);
  weakly_canonical p := fun w => ((no_error, p), w);
  relative p base := fun w => (lexically_relative p base, w)
}.

Definition demo_example : example_state bytes (list bytes) := ExampleState 0 ∅ ∅ (lit "hello").
Definition demo_open_example : example_state bytes (list bytes) :=
  ExampleState 2 {[ lit "1" := 3 ]} {[ lit "d2" := [lit "/srv/a"; lit "/srv/b"] ]} (lit "hello").

Lemma demo_example_wf : handles_wf demo_example.
Proof. split; [done|]. by split. Qed.

Lemma demo_reads content : ReadsFile 3 content (fun w => w = content).
Proof.
  intros w off len -> Hoff Hlen. exists (Z.to_nat (Z.min 2 len)), content.
  split; [done|]. split; [done|]. lia.
Qed.

Lemma demo_writes : WritesFile 3 (fun w : bytes => w).
Proof.
  intros w off data Hoff Hne. eexists no_error, (length data `min` 2)%nat, _.
  split; [done|]. split; [lia | done].
Qed.

Lemma demo_lists : Lists (fun d => d) (fun _ : bytes => True).
Proof. split; [done| |done]. intros d p l ->. split; [done|]. intros w _. by exists l, w. Qed.

Lemma sandbox_confines_witness :
  is_absolute (sftp_to_local (lit "/srv/ftp") (lit "/a/../b//c/.")) = true /\
  names (sftp_to_local (lit "/srv/ftp") (lit "/a/../b//c/."))
  = names (lit "/srv/ftp") ++ reverse (walk [] (names (lit "/a/../b//c/."))).
Proof.
  apply (sandbox_confines (lit "/srv/ftp") (lit "/a/../b//c/.")).
  - by vm_compute.
  - by repeat constructor.
  - by vm_compute.
Defined.

Lemma sandbox_escapes_witness :
  sftp_to_local (lit "/srv/ftp") (lit "../../etc/passwd") = lit "/etc/passwd" /\
  names (sftp_to_local (lit "/srv/ftp")
    (join_names (replicate (length (names (lit "/srv/ftp"))) dot_dot ++ names (lit "/etc/passwd"))))
  = names (lit "/etc/passwd").
Proof.
  split; [by vm_compute|]. apply (sandbox_escapes (lit "/srv/ftp") (lit "/etc/passwd")).
  - by vm_compute.
  - by repeat constructor.
  - by repeat constructor.
Defined.

Definition demo_close : bytes := wire_body 7 (ClientRequest (Close (lit "1"))).

Lemma handles_never_reused_witness :
  let s' := serve_packets (lit "/srv") [(Vec [] 0, demo_close); (Vec [] 0, [])] demo_example in
  handles_wf s' /\ handle_gen demo_example <= handle_gen s' <= handle_gen demo_example + 2 /\
  forall i h, i <= handle_gen demo_example -> named i h -> ~ given_out demo_example h -> ~ given_out s' h.
Proof.
  apply (handles_never_reused (lit "/srv") [(Vec [] 0, demo_close); (Vec [] 0, [])] demo_example).
  - apply demo_example_wf.
  - by vm_compute.
Defined.

Lemma open_then_close_witness :
  exists h s1 s2,
    open (lit "/srv") (lit "a") 1 0 demo_example = (IoResult no_error h, s1) /\
    ~ given_out demo_example h /\
    open_files s1 = <[h := 3]> (open_files demo_example) /\ dirs s1 = dirs demo_example /\
    close h s1 = (no_error, s2) /\
    open_files s2 = open_files demo_example /\ dirs s2 = dirs demo_example /\
    fst (close h s2) = bad_handle.
Proof.
  apply (open_then_close (lit "/srv") (lit "a") 1 0 demo_example 3 (lit "hello")).
  - apply demo_example_wf.
  - by vm_compute.
  - done.
Defined.

Lemma unknown_handle_refused_witness :
  handle_packet (example_server (lit "/srv")) (Vec [] 0)
    (wire_body 7 (ClientRequest (Close (lit "9"))) ++ []) demo_open_example
  = (Respond (frame ([byte_of_Z SSH_FXP_STATUS] ++ be_encode 4 7 ++
       status_body SSH_FX_INVALID_HANDLE (ec_message bad_handle) [])), demo_open_example).
Proof.
  apply (unknown_handle_refused (lit "/srv") (Vec [] 0) 7 (ClientRequest (Close (lit "9"))) []
    demo_open_example).
  - by vm_compute.
  - by vm_compute.
  - intros [[x H]|[x H]]; vm_compute in H; discriminate.
  - by vm_compute.
Defined.

Lemma read_at_whole_witness :
  exists w', read_at (lit "1") 1 (lit "........") demo_open_example =
      ((IoResult no_error 4, lit "ello....") ,
       ExampleState 2 (open_files demo_open_example) (dirs demo_open_example) w') /\
      w' = lit "hello".
Proof.
  destruct (read_at_whole 3 (lit "hello") (fun w => w = lit "hello") (lit "1") 1 (lit "........")
    demo_open_example) as (w' & H & Hw').
  - apply demo_reads.
  - done.
  - by vm_compute.
  - lia.
  - by vm_compute.
  - exists w'. split; [exact H | exact Hw'].
Defined.

Lemma write_at_all_witness :
  exists ec k w', write_at (lit "1") 3 (lit "p me") demo_open_example =
      (IoResult ec (Z.of_nat k),
       ExampleState 2 (open_files demo_open_example) (dirs demo_open_example) w') /\
    (k <= 4)%nat /\ w' = overwrite 3 (take k (lit "p me")) (lit "hello") /\
    (ec_bool ec = false -> k = 4%nat).
Proof.
  apply (write_at_all 3 (fun w => w) (lit "1") 3 (lit "p me") demo_open_example).
  - apply demo_writes.
  - by vm_compute.
  - lia.
  - by vm_compute.
Defined.

Lemma readdir_enumerates_witness :
  exists es s', read_directory 3 (lit "d2") demo_open_example = (Some es, s') /\
    map e_name es = [lit "a"; lit "b"].
Proof.
  apply (readdir_enumerates (fun d => d) (fun _ => True) (lit "d2") [lit "/srv/a"; lit "/srv/b"]
    demo_open_example).
  - apply demo_lists.
  - done.
  - by vm_compute.
  - by vm_compute.
Defined.
