(* ===== verification/ExampleTransfers.v ===== *)
(** * ExampleTransfers: reads and writes of the example server that overlap
    ([example/server.cpp] 123-163, 228-243)

    [ExampleServer] runs each call in one step.  [read_at] and [write_at] suspend
    in every round of their loops, and a server with several workers runs other
    calls meanwhile: here a call is a coroutine that is started, whose operation
    on the file completes, and that resumes.  It keeps a reference into
    [open_files], which [close] makes dangle.

    [reads_alone] and [writes_alone] tie this to [ExampleServer]: a call nobody
    interferes with is the one step. *)

From S2P Require Import Prelude Libssh ErrorCode Codec Server Path ExampleServer ExampleSpec Lifetimes.

#[local] Open Scope Z_scope.

(** ** The coroutines *)

(** What both calls keep: [handle], [f] and [offset]; [fr_there] tells whether the
    file [f] refers to is still in [open_files]. *)
Record frame := Frame { fr_handle : bytes; fr_file : Z; fr_offset : Z; fr_there : bool }.

(** A call: suspended in an operation on its file, which may have a result, or
    returned. *)
Inductive transfer :=
| Reading (fr : frame) (filled buffer : bytes) (got : option (error_code * bytes))
| HasRead (r : io_result Z * bytes)
| Writing (fr : frame) (total : Z) (buffer : bytes) (put : option (error_code * Z))
| HasWritten (r : io_result Z).

Definition frame_of (t : transfer) : option frame :=
  match t with Reading fr _ _ _ | Writing fr _ _ _ => Some fr | _ => None end.

(** Does a suspended call refer to the file [handle]? *)
Definition refers_to (handle : bytes) (t : transfer) : bool :=
  match frame_of t with Some fr => bool_decide (fr_handle fr = handle) | None => false end.

Definition without_file (fr : frame) : frame := Frame (fr_handle fr) (fr_file fr) (fr_offset fr) false.

Definition file_gone (handle : bytes) (t : transfer) : transfer :=
  if refers_to handle t then
    match t with
    | Reading fr filled buffer got => Reading (without_file fr) filled buffer got
    | Writing fr total buffer put => Writing (without_file fr) total buffer put
    | t => t
    end
  else t.

Section Transfers.
Context {P : Platform} {W D : Type} `{!FileSystem W D} (root_path : bytes).
(** What an operation gives whose file is destroyed under it. *)
Context (canceled : error_code).

#[local] Abbreviation state := (example_state W D).

Record transfers := InState { t_state : state; t_calls : gmap nat transfer }.

Definition set_call (i : nat) (t : transfer) (s : state) (m : transfers) : transfers :=
  InState s (<[i := t]> (t_calls m)).

(** The head of the loops, up to the next operation on the file. *)
Definition read_head (fr : frame) (filled buffer : bytes) : result transfer :=
  if zlen buffer =? 0 then Done (HasRead (IoResult no_error (zlen filled), filled))
  else if fr_there fr then Done (Reading fr filled buffer None) else Undefined.

Definition write_head (fr : frame) (total : Z) (buffer : bytes) : result transfer :=
  if zlen buffer =? 0 then Done (HasWritten (IoResult no_error total))
  else if fr_there fr then Done (Writing fr total buffer None) else Undefined.

Definition start_read (i : nat) (handle : bytes) (offset : Z) (buffer : bytes) (m : transfers)
    : result transfers :=
  match t_calls m !! i with
  | Some _ => Refused
  | None =>
      result_bind
        (match open_files (t_state m) !! handle with
         | None => Done (HasRead (IoResult bad_handle 0, buffer))
         | Some f => read_head (Frame handle f offset true) [] buffer
         end)
        (fun t => Done (set_call i t (t_state m) m))
  end.

Definition start_write (i : nat) (handle : bytes) (offset : Z) (buffer : bytes) (m : transfers)
    : result transfers :=
  match t_calls m !! i with
  | Some _ => Refused
  | None =>
      result_bind
        (match open_files (t_state m) !! handle with
         | None => Done (HasWritten (IoResult bad_handle 0))
         | Some f => write_head (Frame handle f offset true) 0 buffer
         end)
        (fun t => Done (set_call i t (t_state m) m))
  end.

(** The operation on the file completes. *)
Definition complete_io (i : nat) (m : transfers) : result transfers :=
  match t_calls m !! i with
  | Some (Reading fr filled buffer None) =>
      let '(r, s) :=
        (if fr_there fr
         then in_world (file_read_some_at (fr_file fr) (u64 (fr_offset fr + zlen filled)) (zlen buffer))
         else st_ret (canceled, [])) (t_state m) in
      Done (set_call i (Reading fr filled buffer (Some r)) s m)
  | Some (Writing fr total buffer None) =>
      let '(r, s) :=
        (if fr_there fr
         then in_world (file_write_some_at (fr_file fr) (u64 (fr_offset fr + total)) buffer)
         else st_ret (canceled, 0)) (t_state m) in
      Done (set_call i (Writing fr total buffer (Some r)) s m)
  | _ => Refused
  end.

(** The rest of the round. *)
Definition resume (i : nat) (m : transfers) : result transfers :=
  result_bind
    (match t_calls m !! i with
     | Some (Reading fr filled buffer (Some (ec, data))) =>
         let data := take (length buffer) data in
         let rest := drop (length data) buffer in
         if ec_bool ec then Done (HasRead (IoResult ec (zlen filled), filled ++ data ++ rest))
         else if zlen data =? 0 then Done (HasRead (IoResult no_error (zlen filled), filled ++ buffer))
         else read_head fr (filled ++ data) rest
     | Some (Writing fr total buffer (Some (ec, n))) =>
         if ec_bool ec then Done (HasWritten (IoResult ec total))
         else if n =? 0 then Done (HasWritten (IoResult (make_error_code io_error) total))
         else write_head fr (total + n) (drop (Z.to_nat n) buffer)
     | _ => Refused
     end)
    (fun t => Done (set_call i t (t_state m) m)).

(** The calls that change [open_files] do not suspend. *)
Definition run_open (path : bytes) (accesstype mode : Z) (m : transfers) : result transfers :=
  Done (InState (snd (ExampleServer.open root_path path accesstype mode (t_state m))) (t_calls m)).

Definition run_close (handle : bytes) (m : transfers) : result transfers :=
  Done (InState (snd (ExampleServer.close handle (t_state m)))
          (match open_files (t_state m) !! handle with
           | Some _ => file_gone handle <$> t_calls m
           | None => t_calls m
           end)).

Inductive event :=
| StartRead (i : nat) (handle : bytes) (offset : Z) (buffer : bytes)
| StartWrite (i : nat) (handle : bytes) (offset : Z) (buffer : bytes)
| Complete (i : nat)
| Resume (i : nat)
| Open (path : bytes) (accesstype mode : Z)
| Close (handle : bytes).

Definition step (ev : event) : transfers -> result transfers :=
  match ev with
  | StartRead i handle offset buffer => start_read i handle offset buffer
  | StartWrite i handle offset buffer => start_write i handle offset buffer
  | Complete i => complete_io i
  | Resume i => resume i
  | Open path accesstype mode => run_open path accesstype mode
  | Close handle => run_close handle
  end.

(** What the client of the server has to keep to: a handle is closed when the calls
    on it have returned. *)
Definition disciplined (ev : event) (m : transfers) : bool :=
  match ev with
  | Close handle => bool_decide (map_Forall (fun _ t => refers_to handle t = false) (t_calls m))
  | _ => true
  end.

(** [n] rounds of call [i]. *)
Fixpoint rounds (i n : nat) : list event :=
  match n with O => [] | S n => Complete i :: Resume i :: rounds i n end.

(** ** Lemmas *)

(** Every suspended call has its file. *)
Definition files_there (m : transfers) : Prop :=
  map_Forall (fun _ t => forall fr, frame_of t = Some fr -> fr_there fr = true) (t_calls m).

#[local] Abbreviation safe := (safe files_there).

Lemma set_call_there i t s m :
  files_there m -> (forall fr, frame_of t = Some fr -> fr_there fr = true) -> files_there (set_call i t s m).
Proof. intros Hm Ht. by apply map_Forall_insert_2. Qed.

Lemma read_head_there fr filled buffer :
  fr_there fr = true ->
  exists t, read_head fr filled buffer = Done t /\ forall fr, frame_of t = Some fr -> fr_there fr = true.
Proof.
  intros H. unfold read_head. destruct (_ =? _); [by eexists|]. rewrite H. eexists. split; [done|].
  by intros fr' [= <-].
Qed.

Lemma write_head_there fr total buffer :
  fr_there fr = true ->
  exists t, write_head fr total buffer = Done t /\ forall fr, frame_of t = Some fr -> fr_there fr = true.
Proof.
  intros H. unfold write_head. destruct (_ =? _); [by eexists|]. rewrite H. eexists. split; [done|].
  by intros fr' [= <-].
Qed.

Lemma start_read_safe i handle offset buffer m : files_there m -> safe (start_read i handle offset buffer m).
Proof.
  intros Hm. unfold start_read. destruct (t_calls m !! i); [done|].
  destruct (open_files _ !! handle) as [f|]; [|by apply set_call_there].
  destruct (read_head_there (Frame handle f offset true) [] buffer) as (t & -> & Ht); [done|].
  by apply set_call_there.
Qed.

Lemma start_write_safe i handle offset buffer m : files_there m -> safe (start_write i handle offset buffer m).
Proof.
  intros Hm. unfold start_write. destruct (t_calls m !! i); [done|].
  destruct (open_files _ !! handle) as [f|]; [|by apply set_call_there].
  destruct (write_head_there (Frame handle f offset true) 0 buffer) as (t & -> & Ht); [done|].
  by apply set_call_there.
Qed.

Lemma complete_safe i m : files_there m -> safe (complete_io i m).
Proof.
  intros Hm. unfold complete_io. destruct (t_calls m !! i) as [t|] eqn:Ht; [|done]. pose proof (Hm i t Ht) as Hfr.
  destruct t as [fr filled buffer [got|]| |fr total buffer [put|]|]; try done;
    specialize (Hfr fr eq_refl); rewrite Hfr; destruct (in_world _ _) as [r s];
    (apply set_call_there; [done|]; by intros fr' [= <-]).
Qed.

Lemma resume_safe i m : files_there m -> safe (resume i m).
Proof.
  intros Hm. unfold resume. destruct (t_calls m !! i) as [t|] eqn:Ht; [|done]. pose proof (Hm i t Ht) as Hfr.
  destruct t as [fr filled buffer [[ec data]|]| |fr total buffer [[ec n]|]|]; try done;
    specialize (Hfr fr eq_refl); cbn zeta; repeat (case_match; [by apply set_call_there|]).
  - destruct (read_head_there fr (filled ++ take (length buffer) data)
      (drop (length (take (length buffer) data)) buffer) Hfr) as (t & -> & Hts). by apply set_call_there.
  - destruct (write_head_there fr (total + n) (drop (Z.to_nat n) buffer) Hfr) as (t & -> & Hts).
    by apply set_call_there.
Qed.

Lemma step_safe ev m : files_there m -> disciplined ev m = true -> safe (step ev m).
Proof.
  intros Hm Hd. destruct ev; cbn [step].
  - by apply start_read_safe.
  - by apply start_write_safe.
  - by apply complete_safe.
  - by apply resume_safe.
  - done.
  - apply bool_decide_eq_true in Hd. cbn [run_close Lifetimes.safe]. intros i t. cbn [t_calls].
    destruct (open_files _ !! handle); [|apply Hm]. rewrite lookup_fmap. intros [t' [Ht' ->]]%fmap_Some.
    unfold file_gone. rewrite (Hd i t' Ht'). by apply (Hm i t').
Qed.

Lemma set_call_set i t t' s s' m : set_call i t s (set_call i t' s' m) = set_call i t s m.
Proof. unfold set_call. cbn [t_calls]. by rewrite insert_insert_eq. Qed.

Lemma in_world_bind {A B} (c : ST W A) (k : A -> ST W B) (s : state) :
  in_world (let* a := c in k a) s = (let* a := in_world c in in_world (k a)) s.
Proof. unfold in_world, st_bind. by destruct (c (fs_world s)) as [a w]. Qed.

Lemma in_world_ret {A} (a : A) (s : state) : in_world (st_ret a) s = (a, s).
Proof. by destruct s. Qed.

(** One round. *)
Lemma run_round i n m t s :
  perform_all step (rounds i (S n)) (set_call i t s m)
  = result_bind (complete_io i (set_call i t s m)) (fun m => result_bind (resume i m) (perform_all step (rounds i n))).
Proof. done. Qed.

Lemma complete_read i fr filled buffer s m :
  fr_there fr = true ->
  complete_io i (set_call i (Reading fr filled buffer None) s m)
  = let '(r, s) := in_world (file_read_some_at (fr_file fr) (u64 (fr_offset fr + zlen filled)) (zlen buffer)) s in
    Done (set_call i (Reading fr filled buffer (Some r)) s m).
Proof.
  intros H. unfold complete_io. cbn [set_call t_calls t_state]. rewrite lookup_insert_eq, H.
  destruct (in_world _ s) as [r s']. f_equal. apply set_call_set.
Qed.

Lemma complete_write i fr total buffer s m :
  fr_there fr = true ->
  complete_io i (set_call i (Writing fr total buffer None) s m)
  = let '(r, s) := in_world (file_write_some_at (fr_file fr) (u64 (fr_offset fr + total)) buffer) s in
    Done (set_call i (Writing fr total buffer (Some r)) s m).
Proof.
  intros H. unfold complete_io. cbn [set_call t_calls t_state]. rewrite lookup_insert_eq, H.
  destruct (in_world _ s) as [r s']. f_equal. apply set_call_set.
Qed.

Lemma read_rounds i fuel fr filled buffer s m :
  fr_there fr = true -> (length buffer < fuel)%nat ->
  exists n t, read_head fr filled buffer = Done t /\
    perform_all step (rounds i n) (set_call i t s m)
    = let '(r, s') := in_world (read_loop fuel (fr_file fr) (fr_offset fr) filled buffer) s in
      Done (set_call i (HasRead r) s' m).
Proof.
  intros Hfr. revert filled buffer s. induction fuel as [|fuel IH]; intros filled buffer s Hlen; [lia|].
  unfold read_head at 1. cbn [read_loop]. destruct (zlen buffer =? 0) eqn:Hz.
  { exists 0%nat, (HasRead (IoResult no_error (zlen filled), filled)). by rewrite in_world_ret. }
  rewrite Hfr, in_world_bind. unfold st_bind.
  destruct (in_world (file_read_some_at _ _ _) s) as [[ec data] s1] eqn:Hio.
  set (data' := take (length buffer) data). set (rest := drop (length data') buffer).
  assert (Hstop : forall r, (if ec_bool ec then Done (HasRead (IoResult ec (zlen filled), filled ++ data' ++ rest))
      else if zlen data' =? 0 then Done (HasRead (IoResult no_error (zlen filled), filled ++ buffer))
      else read_head fr (filled ++ data') rest) = Done (HasRead r) ->
    perform_all step (rounds i 1) (set_call i (Reading fr filled buffer None) s m)
    = Done (set_call i (HasRead r) s1 m)).
  { intros r Hr. rewrite run_round, complete_read, Hio by done. cbn [result_bind]. unfold resume.
    cbn [set_call t_calls t_state]. rewrite lookup_insert_eq. fold data'. fold rest. rewrite Hr.
    cbn [result_bind]. f_equal. apply set_call_set. }
  destruct (ec_bool ec) eqn:Hec.
  { exists 1%nat. eexists. split; [done|]. rewrite in_world_ret. by apply Hstop. }
  destruct (zlen data' =? 0) eqn:Hd.
  { exists 1%nat. eexists. split; [done|]. rewrite in_world_ret. by apply Hstop. }
  destruct (IH (filled ++ data') rest s1) as (n & t & Ht & Hn).
  { unfold rest. rewrite length_drop. unfold zlen in *. lia. }
  exists (S n). eexists. split; [done|].
  rewrite run_round, complete_read, Hio by done. cbn [result_bind]. unfold resume.
  cbn [set_call t_calls t_state]. rewrite lookup_insert_eq. fold data'. fold rest. rewrite Hec, Hd, Ht. cbn [result_bind].
  rewrite set_call_set. exact Hn.
Qed.

Lemma write_rounds i fuel fr total buffer s m :
  (forall file offset buffer w, 0 <= snd (fst (file_write_some_at file offset buffer w))) ->
  fr_there fr = true -> (length buffer < fuel)%nat ->
  exists n t, write_head fr total buffer = Done t /\
    perform_all step (rounds i n) (set_call i t s m)
    = let '(r, s') := in_world (write_loop fuel (fr_file fr) (fr_offset fr) total buffer) s in
      Done (set_call i (HasWritten r) s' m).
Proof.
  intros Hpos Hfr. revert total buffer s. induction fuel as [|fuel IH]; intros total buffer s Hlen; [lia|].
  unfold write_head at 1. cbn [write_loop]. destruct (zlen buffer =? 0) eqn:Hz.
  { exists 0%nat, (HasWritten (IoResult no_error total)). by rewrite in_world_ret. }
  rewrite Hfr, in_world_bind. unfold st_bind.
  destruct (in_world (file_write_some_at _ _ _) s) as [[ec k] s1] eqn:Hio.
  assert (Hk : 0 <= k).
  { specialize (Hpos (fr_file fr) (u64 (fr_offset fr + total)) buffer (fs_world s)).
    unfold in_world in Hio. destruct (file_write_some_at _ _ _ _) as [[ec' k'] w]. by simplify_eq/=. }
  assert (Hstop : forall r, (if ec_bool ec then Done (HasWritten (IoResult ec total))
      else if k =? 0 then Done (HasWritten (IoResult (make_error_code io_error) total))
      else write_head fr (total + k) (drop (Z.to_nat k) buffer)) = Done (HasWritten r) ->
    perform_all step (rounds i 1) (set_call i (Writing fr total buffer None) s m)
    = Done (set_call i (HasWritten r) s1 m)).
  { intros r Hr. rewrite run_round, complete_write, Hio by done. cbn [result_bind]. unfold resume.
    cbn [set_call t_calls t_state]. rewrite lookup_insert_eq, Hr.
    cbn [result_bind]. f_equal. apply set_call_set. }
  destruct (ec_bool ec) eqn:Hec.
  { exists 1%nat. eexists. split; [done|]. rewrite in_world_ret. by apply Hstop. }
  destruct (k =? 0) eqn:Hd.
  { exists 1%nat. eexists. split; [done|]. rewrite in_world_ret. by apply Hstop. }
  destruct (IH (total + k) (drop (Z.to_nat k) buffer) s1) as (n & t & Ht & Hn).
  { rewrite length_drop. unfold zlen in *. lia. }
  exists (S n). eexists. split; [done|].
  rewrite run_round, complete_write, Hio by done. cbn [result_bind]. unfold resume.
  cbn [set_call t_calls t_state]. rewrite lookup_insert_eq, Hec, Hd, Ht. cbn [result_bind].
  rewrite set_call_set. exact Hn.
Qed.

(** *** Reads that overlap *)

(** What [read_at] of [handle] gives when the files that are open in [s] have the
    [content]. *)
Definition read_result (content : Z -> bytes) (s : state) (handle : bytes) (offset : Z) (buffer : bytes)
    : io_result Z * bytes :=
  match open_files s !! handle with
  | None => (IoResult bad_handle 0, buffer)
  | Some f =>
      let data := take (length buffer) (drop (Z.to_nat offset) (content f)) in
      (IoResult no_error (zlen data), data ++ drop (length data) buffer)
  end.

(** A read within the range of a file. *)
Definition read_event (ev : event) : Prop :=
  match ev with
  | StartRead _ _ offset buffer => 0 <= offset /\ offset + zlen buffer < 2 ^ 64
  | Complete _ | Resume _ => True
  | _ => False
  end.

Section Reads.
Context (content : Z -> bytes) (I : W -> Prop) (s0 : state).
Context (open_content : forall h f, open_files s0 !! h = Some f -> ReadsFile f (content f) I).

(** A call on its way to that result. *)
Definition reads_on (h : bytes) (offset : Z) (buffer : bytes) (t : transfer) : Prop :=
  match t with
  | HasRead r => r = read_result content s0 h offset buffer
  | Reading fr filled rest got =>
      exists f, open_files s0 !! h = Some f /\ fr = Frame h f offset true /\
        filled = take (length filled) (drop (Z.to_nat offset) (content f)) /\
        rest = drop (length filled) buffer /\ rest <> [] /\
        match got with
        | None => True
        | Some (ec, data) =>
            ec = no_error /\ exists n, (n <= length rest)%nat /\
              data = take n (drop (length filled) (drop (Z.to_nat offset) (content f))) /\
              (data = [] -> (length (drop (Z.to_nat offset) (content f)) <= length filled)%nat)
        end
  | _ => False
  end.

(** Every read that was started is on its way, and nothing else is. *)
Record reading (past : list event) (m : transfers) : Prop := {
  rd_world : I (fs_world (t_state m));
  rd_files : open_files (t_state m) = open_files s0;
  rd_calls i h offset buffer : StartRead i h offset buffer ∈ past ->
    exists t, t_calls m !! i = Some t /\ reads_on h offset buffer t;
  rd_only i t : t_calls m !! i = Some t ->
    exists h offset buffer, StartRead i h offset buffer ∈ past /\ 0 <= offset /\ offset + zlen buffer < 2 ^ 64
}.

(** The loop head. *)
Lemma read_head_reads h f offset buffer filled t :
  open_files s0 !! h = Some f ->
  filled = take (length filled) (drop (Z.to_nat offset) (content f)) -> (length filled <= length buffer)%nat ->
  read_head (Frame h f offset true) filled (drop (length filled) buffer) = Done t -> reads_on h offset buffer t.
Proof.
  intros Ho Hf Hlen. unfold read_head. destruct (Z.eqb_spec (zlen (drop (length filled) buffer)) 0) as [Hz|Hz];
    intros [= <-].
  - unfold reads_on, read_result. rewrite Ho. unfold zlen in Hz. rewrite length_drop in Hz.
    assert (He : length buffer = length filled) by lia. rewrite He, <- Hf. cbn zeta.
    by rewrite drop_ge, app_nil_r by lia.
  - exists f. split_and!; try done. intros He. rewrite He in Hz. done.
Qed.

Lemma reading_past ev past m :
  reading past m -> (forall i h offset buffer, ev <> StartRead i h offset buffer) -> reading (past ++ [ev]) m.
Proof.
  intros [Hw Hf Hc Ho] Hev. split; [done..| |].
  - intros i h offset buffer [H|H%list_elem_of_singleton]%elem_of_app; [by apply Hc|]. by destruct (Hev i h offset buffer).
  - intros i t Ht. destruct (Ho i t Ht) as (h & offset & buffer & H & ?). exists h, offset, buffer. set_solver.
Qed.

(** A call goes on, and with it the world. *)
Lemma reading_goes_on past i t0 t s m :
  reading past m -> t_calls m !! i = Some t0 -> I (fs_world s) -> open_files s = open_files s0 ->
  (forall h offset buffer, 0 <= offset -> offset + zlen buffer < 2 ^ 64 ->
    reads_on h offset buffer t0 -> reads_on h offset buffer t) ->
  (forall h offset buffer, StartRead i h offset buffer ∈ past -> 0 <= offset /\ offset + zlen buffer < 2 ^ 64) ->
  reading past (set_call i t s m).
Proof.
  intros [_ _ Hc Ho] Hi Hw Hf Hon Hrange. split; cbn [set_call t_state t_calls]; [done..| |].
  - intros j h offset buffer Hj. destruct (Hc j h offset buffer Hj) as (tj & Htj & Hr).
    destruct (decide (i = j)) as [<-|Hne]; [|exists tj; by rewrite lookup_insert_ne].
    exists t. rewrite lookup_insert_eq. split; [done|]. simplify_eq. apply Hon; [by eapply Hrange..|done].
  - intros j tj [[<- _]|[_ Htj]]%lookup_insert_Some; eauto.
Qed.

Lemma complete_reads h offset buffer f filled rest w :
  I w -> 0 <= offset -> offset + zlen buffer < 2 ^ 64 ->
  reads_on h offset buffer (Reading (Frame h f offset true) filled rest None) ->
  exists data w',
    file_read_some_at f (u64 (offset + zlen filled)) (zlen rest) w = ((no_error, data), w') /\ I w' /\
    forall h' offset' buffer', reads_on h' offset' buffer' (Reading (Frame h f offset true) filled rest None) ->
      reads_on h' offset' buffer' (Reading (Frame h f offset true) filled rest (Some (no_error, data))).
Proof.
  intros Hw Hoff Hsz (f' & Hf & [= <-] & Hfill & Hrest & Hne & _).
  assert (Hlen : (length filled < length buffer)%nat).
  { destruct (decide (length filled < length buffer)%nat); [done|]. destruct Hne. rewrite Hrest. apply drop_ge. lia. }
  assert (Hr : 0 < zlen rest) by (unfold zlen; destruct rest; [done|cbn; lia]).
  rewrite u64_small by (unfold is_u64, zlen in *; lia).
  destruct (open_content h f Hf w (offset + zlen filled) (zlen rest) Hw) as (n & w' & -> & Hw' & Hn & Hend);
    [unfold zlen; lia | done |].
  assert (Hdrop : drop (Z.to_nat (offset + zlen filled)) (content f)
                  = drop (length filled) (drop (Z.to_nat offset) (content f))).
  { rewrite drop_drop. f_equal. unfold zlen. lia. }
  rewrite Hdrop. eexists _, w'. split; [done|]. split; [done|].
  intros h' offset' buffer' (f2 & Hf2 & [= -> -> ->] & Hfill' & Hrest' & _ & _).
  exists f2. split_and!; try done. exists n. unfold zlen in Hn. split; [lia|]. split; [done|].
  intros He%(f_equal length). rewrite length_take, length_drop in He. cbn in He.
  rewrite length_drop in He |- *. destruct (decide (n = 0%nat)) as [Hz|]; [|lia].
  specialize (Hend Hz). unfold zlen in Hend. lia.
Qed.

Lemma resume_reads fr filled rest ec data t :
  (let data := take (length rest) data in
   let rest' := drop (length data) rest in
   if ec_bool ec then Done (HasRead (IoResult ec (zlen filled), filled ++ data ++ rest'))
   else if zlen data =? 0 then Done (HasRead (IoResult no_error (zlen filled), filled ++ rest))
   else read_head fr (filled ++ data) rest') = Done t ->
  forall h offset buffer,
    reads_on h offset buffer (Reading fr filled rest (Some (ec, data))) -> reads_on h offset buffer t.
Proof.
  intros Ht h offset buffer (f & Hf & -> & Hfill & Hrest & Hne & -> & n & Hn & Hdata & Hend).
  set (there := drop (Z.to_nat offset) (content f)) in *.
  assert (Hlen : (length filled < length buffer)%nat).
  { destruct (decide (length filled < length buffer)%nat); [done|]. destruct Hne. rewrite Hrest. apply drop_ge. lia. }
  assert (Hdl : (length data <= length rest)%nat) by (rewrite Hdata, length_take; lia).
  rewrite take_ge in Ht by done. cbn zeta in Ht. rewrite ec_bool_no_error in Ht.
  destruct (Z.eqb_spec (zlen data) 0) as [Hz|Hz].
  - injection Ht as <-. unfold reads_on, read_result. rewrite Hf. fold there.
    assert (data = []) as -> by (by apply nil_length_inv; unfold zlen in Hz; lia). specialize (Hend eq_refl).
    rewrite take_ge in Hfill by done. rewrite take_ge by lia. by rewrite <- Hfill, <- Hrest.
  - rewrite Hrest, drop_drop, <- length_app in Ht.
    eapply (read_head_reads h f offset buffer); [done| | |exact Ht].
    + fold there. rewrite length_app, <- take_take_drop, <- Hfill. f_equal. rewrite Hdata.
      by rewrite length_take, take_min_length.
    + rewrite length_app. rewrite Hrest, length_drop in Hdl. lia.
Qed.

Lemma start_reads past i h offset buffer m m' :
  reading past m -> read_event (StartRead i h offset buffer) ->
  start_read i h offset buffer m = Done m' -> reading (past ++ [StartRead i h offset buffer]) m'.
Proof.
  intros [Hw Hf Hc Ho] [Hoff Hsz] Hs. unfold start_read in Hs. destruct (t_calls m !! i) eqn:Hi; [done|].
  assert (Hnew : exists t, m' = set_call i t (t_state m) m /\ reads_on h offset buffer t).
  { rewrite Hf in Hs. destruct (open_files s0 !! h) as [f|] eqn:Hh.
    - destruct (read_head _ [] buffer) as [t| |] eqn:Ht; [|done..]. injection Hs as <-. exists t. split; [done|].
      eapply (read_head_reads h f offset buffer []); [done..|cbn; lia|exact Ht].
    - injection Hs as <-. eexists. split; [done|]. unfold reads_on, read_result. by rewrite Hh. }
  destruct Hnew as (t & -> & Hr). split; cbn [set_call t_state t_calls]; [done..| |].
  - intros j h' offset' buffer' [Hj|Hj%list_elem_of_singleton]%elem_of_app.
    + destruct (Hc _ _ _ _ Hj) as (tj & Htj & Hrj). exists tj. rewrite lookup_insert_ne; [done|]. congruence.
    + injection Hj as -> -> -> ->. exists t. by rewrite lookup_insert_eq.
  - intros j tj [[<- _]|[_ Htj]]%lookup_insert_Some.
    + exists h, offset, buffer. set_solver.
    + destruct (Ho j tj Htj) as (h' & offset' & buffer' & H & ?). exists h', offset', buffer'. set_solver.
Qed.

Lemma step_reads past ev m m' :
  reading past m -> Forall read_event past -> read_event ev -> step ev m = Done m' -> reading (past ++ [ev]) m'.
Proof.
  intros Hm Hpast Hev Hs.
  assert (Hrange : forall i h offset buffer, StartRead i h offset buffer ∈ past ->
    0 <= offset /\ offset + zlen buffer < 2 ^ 64).
  { intros i h offset buffer Hin. rewrite Forall_forall in Hpast. apply (Hpast _ Hin). }
  destruct ev as [i h offset buffer| |i|i| |]; cbn [step] in Hs; try done; [by eapply start_reads|..];
    (apply reading_past; [|done]).
  - unfold complete_io in Hs. destruct (t_calls m !! i) as [t|] eqn:Hi; [|done].
    destruct (rd_only past m Hm i t Hi) as (h & offset & buffer & Hin & Hoff & Hsz).
    destruct (rd_calls past m Hm i h offset buffer Hin) as (t' & Ht' & Hr).
    rewrite Hi in Ht'. injection Ht' as <-. destruct t as [fr filled rest [|]| | |]; try done.
    pose proof Hr as (f & _ & -> & _). cbn [fr_there fr_file fr_offset] in Hs.
    destruct (complete_reads h offset buffer f filled rest (fs_world (t_state m)) (rd_world past m Hm) Hoff Hsz Hr)
      as (data & w' & Hio & Hw' & Hon).
    unfold in_world in Hs. rewrite Hio in Hs. injection Hs as <-.
    eapply reading_goes_on; [done..| |by eauto|]; [apply (rd_files past m Hm)|by eauto].
  - unfold resume in Hs. destruct (t_calls m !! i) as [t|] eqn:Hi; [|done].
    destruct (rd_only past m Hm i t Hi) as (h & offset & buffer & Hin & Hoff & Hsz).
    destruct (rd_calls past m Hm i h offset buffer Hin) as (t' & Ht' & Hr).
    rewrite Hi in Ht'. injection Ht' as <-. destruct t as [fr filled rest [[ec data]|]| | |]; try done.
    match type of Hs with result_bind ?x _ = _ => destruct x as [t| |] eqn:Ht; [|done..] end.
    injection Hs as <-.
    eapply reading_goes_on; [done..|apply (rd_world past m Hm)|apply (rd_files past m Hm)| |by eauto].
    intros h' offset' buffer' _ _. by eapply resume_reads.
Qed.

Lemma run_reads past l m m' :
  reading past m -> Forall read_event (past ++ l) -> perform_all step l m = Done m' -> reading (past ++ l) m'.
Proof.
  revert past m. induction l as [|ev l IH]; intros past m Hm Hl Hrun; cbn [perform_all] in Hrun.
  { injection Hrun as <-. by rewrite app_nil_r. }
  destruct (step ev m) as [m1| |] eqn:Hs; [|done..]. rewrite cons_middle, app_assoc in *.
  apply (IH _ m1); [|done..]. apply Forall_app in Hl as [Hl _]. apply Forall_app in Hl as [Hp Hev].
  eapply step_reads; [done..|by inversion Hev|done].
Qed.

End Reads.

(** ** Properties *)

(** C27: A read or a write nobody interferes with is the one step that [ExampleServer]
    takes for it: it returns after finitely many rounds, with the result, the
    buffer and the state of [read_at] or [write_at]. *)
Theorem transfers_alone i handle offset buffer m :
  (forall file offset buffer w, 0 <= snd (fst (file_write_some_at file offset buffer w))) ->
  t_calls m !! i = None ->
  (exists n, perform_all step (StartRead i handle offset buffer :: rounds i n) m
    = let '(r, s) := read_at handle offset buffer (t_state m) in Done (set_call i (HasRead r) s m)) /\
  (exists n, perform_all step (StartWrite i handle offset buffer :: rounds i n) m
    = let '(r, s) := write_at handle offset buffer (t_state m) in Done (set_call i (HasWritten r) s m)).
Proof.
  intros Hpos Hi. split; cbn [perform_all step].
  - unfold start_read, read_at. rewrite Hi. destruct (open_files (t_state m) !! handle) as [f|]; [|by exists 0%nat].
    destruct (read_rounds i (S (length buffer)) (Frame handle f offset true) [] buffer (t_state m) m)
      as (n & t & -> & Hn); [done|lia|]. exists n. exact Hn.
  - unfold start_write, write_at. rewrite Hi. destruct (open_files (t_state m) !! handle) as [f|]; [|by exists 0%nat].
    destruct (write_rounds i (S (length buffer)) (Frame handle f offset true) 0 buffer (t_state m) m)
      as (n & t & -> & Hn); [done..|lia|]. exists n. exact Hn.
Qed.

(** C28: Any number of reads and writes may overlap, with [open] and with [close] of
    other handles: as long as a handle is closed when the calls on it have returned,
    no call ever uses a file that is gone. *)
Theorem transfers_sound l s :
  disciplined_all step disciplined l (InState s ∅) = true -> perform_all step l (InState s ∅) <> Undefined.
Proof.
  intros Hd He. pose proof (discipline_sound step disciplined files_there l (InState s ∅) step_safe) as Hs.
  rewrite He in Hs. by apply Hs.
Qed.

(** C29: Reads that overlap do not disturb each other: on files whose content does not
    change, whatever the order in which the operations complete and the calls
    resume, each read that returns has filled its buffer with the bytes of its own
    file at its own offset, as many as there are and the buffer holds, and says how
    many; or its handle is not open. *)
Theorem overlapping_reads content (I : W -> Prop) l s m i handle offset buffer r :
  (forall h f, open_files s !! h = Some f -> ReadsFile f (content f) I) -> I (fs_world s) ->
  Forall read_event l -> perform_all step l (InState s ∅) = Done m ->
  StartRead i handle offset buffer ∈ l -> t_calls m !! i = Some (HasRead r) ->
  r = read_result content s handle offset buffer.
Proof.
  intros Hopen Hw Hl Hrun Hin Hr.
  assert (H0 : reading content I s [] (InState s ∅)).
  { split; cbn; [done..| |]; intros *; [by intros ?%elem_of_nil | by rewrite lookup_empty]. }
  pose proof (run_reads content I s Hopen [] l _ m H0 Hl Hrun) as Hm.
  destruct (rd_calls _ _ _ _ _ Hm i handle offset buffer Hin) as (t & Ht & Hon). by simplify_eq.
Qed.

(** C38: A [close] between the rounds of a [read_at] makes the reference it keeps
    dangle: when the operation that had completed gave some but not all of the
    bytes, the next round uses the destroyed file. *)
Theorem close_under_read_dangles i handle f offset filled buffer data m :
  t_calls m !! i = Some (Reading (Frame handle f offset true) filled buffer (Some (no_error, data))) ->
  open_files (t_state m) !! handle = Some f -> 0 < zlen data < zlen buffer ->
  perform_all step [Close handle; Resume i] m = Undefined.
Proof.
  intros Hi Ho Hdata. cbn [perform_all step]. unfold run_close. rewrite Ho. cbn [result_bind].
  unfold resume. cbn [t_calls t_state]. rewrite lookup_fmap, Hi. cbn [fmap option_fmap option_map].
  unfold file_gone, refers_to. cbn [frame_of fr_handle]. rewrite bool_decide_eq_true_2 by done.
  cbn zeta. rewrite take_ge by (unfold zlen in *; lia).
  cbn [ec_bool no_error]. rewrite (proj2 (Z.eqb_neq _ _)) by lia.
  unfold read_head. rewrite (proj2 (Z.eqb_neq _ _)); [done|]. unfold zlen in *. rewrite length_drop. lia.
Qed.

End Transfers.

(** ** Witnesses *)

#[local] Existing Instance demo_files.

Definition demo_machine : transfers (W := bytes) (D := list bytes) := InState demo_open_example ∅.
Definition demo_canceled : error_code := ErrorCode 125 generic_category.

Lemma demo_writes_count file offset buffer (w : bytes) :
  0 <= snd (fst (file_write_some_at file offset buffer w)).
Proof. cbn. lia. Qed.

Lemma transfers_alone_witness :
  let step := step (lit "/srv") demo_canceled in
  (exists n, perform_all step (StartRead 0 (lit "1") 1 (replicate 3 slash) :: rounds 0 n) demo_machine
    = let '(r, s) := read_at (lit "1") 1 (replicate 3 slash) demo_open_example in
      Done (set_call 0 (HasRead r) s demo_machine)) /\
  (exists n, perform_all step (StartWrite 0 (lit "1") 1 (replicate 3 slash) :: rounds 0 n) demo_machine
    = let '(r, s) := write_at (lit "1") 1 (replicate 3 slash) demo_open_example in
      Done (set_call 0 (HasWritten r) s demo_machine)).
Proof. apply (transfers_alone (lit "/srv") demo_canceled 0); [apply demo_writes_count | reflexivity]. Defined.

(** Two reads and a write on one file and a close of the other; then the close of the
    first. *)
Definition demo_events : list event :=
  [StartRead 0 (lit "1") 0 (replicate 3 slash); Open (lit "f") 1 0; StartRead 1 (lit "1") 2 (replicate 3 slash);
   Complete 0; StartWrite 2 (lit "1") 4 (replicate 3 slash); Complete 1; Resume 0; Close (lit "3"); Complete 2;
   Resume 2; Complete 0; Resume 1; Resume 0; Complete 2; Complete 1; Resume 2; Resume 1; Close (lit "1")].

Example demo_events_end :
  match perform_all (step (lit "/srv") demo_canceled) demo_events demo_machine with
  | Done m => bool_decide (open_files (t_state m) = ∅) && bool_decide (size (t_calls m) = 3%nat)
  | _ => false
  end = true.
Proof. by vm_compute. Qed.

Lemma transfers_sound_witness :
  perform_all (step (lit "/srv") demo_canceled) demo_events demo_machine <> Undefined.
Proof. apply (transfers_sound (lit "/srv") demo_canceled demo_events demo_open_example). by vm_compute. Defined.

Lemma close_under_read_dangles_witness :
  perform_all (step (lit "/srv") demo_canceled) [Close (lit "1"); Resume 0]
    (InState demo_open_example
      {[ 0%nat := Reading (Frame (lit "1") 3 0 true) [] (replicate 3 slash) (Some (no_error, lit "he")) ]})
  = Undefined.
Proof.
  apply (close_under_read_dangles (lit "/srv") demo_canceled 0 (lit "1") 3 0 [] (replicate 3 slash) (lit "he"));
    [reflexivity | reflexivity | by vm_compute].
Defined.

(** Two reads, the second past the end of the file. *)
Definition demo_reads_events : list event :=
  [StartRead 0 (lit "1") 0 (replicate 4 slash); StartRead 1 (lit "1") 3 (replicate 4 slash); Complete 1;
   Complete 0; Resume 0; Complete 0; Resume 1; Resume 0; Complete 1; Resume 1].

Lemma demo_reads_range : Forall read_event demo_reads_events.
Proof. repeat constructor; by vm_compute. Qed.

Lemma demo_reads_content h f :
  open_files demo_open_example !! h = Some f -> ReadsFile f (lit "hello") (fun w => w = lit "hello").
Proof.
  cbn [demo_open_example open_files]. intros [_ <-]%lookup_singleton_Some. apply demo_reads.
Qed.

Lemma overlapping_reads_witness :
  match perform_all (step (lit "/srv") demo_canceled) demo_reads_events demo_machine with
  | Done m =>
      exists r, t_calls m !! 1%nat = Some (HasRead r) /\
        r = read_result (fun _ => lit "hello") demo_open_example (lit "1") 3 (replicate 4 slash) /\
        snd r = lit "lo//"
  | _ => False
  end.
Proof.
  destruct (perform_all _ _ _) as [m| |] eqn:Hm; [|vm_compute in Hm; discriminate Hm..].
  assert (Hr : t_calls m !! 1%nat = Some (HasRead (IoResult no_error 2, lit "lo//")))
    by (vm_compute in Hm; injection Hm as <-; vm_compute; reflexivity).
  eexists. split; [exact Hr|]. split; [|reflexivity].
  apply (overlapping_reads (lit "/srv") demo_canceled (fun _ => lit "hello") (fun w => w = lit "hello")
    demo_reads_events demo_open_example m 1 (lit "1") 3 (replicate 4 slash) _ demo_reads_content eq_refl
    demo_reads_range Hm); [by right; left | exact Hr].
Defined.
