(* ===== verification/ExampleStart.v ===== *)
(** * ExampleStart: how the two example programs start

    [server_start] is [ssh_main] of [src/example/server.cpp] up to its loop: an
    acceptor on port 8080, one connection, the key exchange, the callbacks.
    [client_start] is [ssh_main] of [src/example/client.cpp] up to the SFTP
    session: connect, authenticate, a channel with the sftp subsystem.  Both end
    early with a return value, and with 1 for an exception. *)

From S2P Require Import Prelude Libssh ErrorCode Retry Options ServerOptions.
From S2P Require Import Session Channel Acceptor Callbacks.

#[local] Open Scope Z_scope.

(** ** Tasks *)

Section Task.
Context {W : Type}.

(** A coroutine with early [co_return]s: it leaves with a value of [R], or goes
    on with one of [A]; an exception ends it; [None] is a loop that has not
    ended within its fuel. *)
Inductive step_result (R A : Type) :=
| Leaves (r : R)
| GoesOn (a : A)
| Throws (code : error_code) (what : bytes).
Arguments Leaves {R A}.
Arguments GoesOn {R A}.
Arguments Throws {R A}.

Definition task (R A : Type) : Type := W -> option (step_result R A * W).

Definition task_bind {R A B} (m : task R A) (k : A -> task R B) : task R B := fun w =>
  match m w with
  | None => None
  | Some (Leaves r, w) => Some (Leaves r, w)
  | Some (GoesOn a, w) => k a w
  | Some (Throws code what, w) => Some (Throws code what, w)
  end.

Definition task_ret {R A} (a : A) : task R A := fun w => Some (GoesOn a, w).

(** A function that may throw. *)
Definition call {R A} (m : ST W (completion A)) : task R A := fun w =>
  match m w with
  | (Returned a, w) => Some (GoesOn a, w)
  | (Threw code what, w) => Some (Throws code what, w)
  end.

(** A function or coroutine that cannot. *)
Definition call_st {R A} (m : ST W A) : task R A := fun w => let '(a, w) := m w in Some (GoesOn a, w).
Definition call_loop {R A} (m : W -> option (A * W)) : task R A := fun w =>
  match m w with Some (a, w) => Some (GoesOn a, w) | None => None end.

(** [if (ec) { ...; co_return r; }] *)
Definition or_leave {R} (r : R) (ec : error_code) : task R unit := fun w =>
  Some (if ec_bool ec then Leaves r else GoesOn tt, w).

(** The function-try-block around both: [Some] return value, or go on. *)
Definition catching {A} (m : task Z A) (w : W) : option ((Z + A) * W) :=
  match m w with
  | None => None
  | Some (Leaves r, w) => Some (inl r, w)
  | Some (GoesOn a, w) => Some (inr a, w)
  | Some (Throws _ _, w) => Some (inl 1, w)
  end.

End Task.
Arguments task W R A : clear implicits.

#[local] Notation "'do' x ':=' m 'in' k" := (task_bind m (fun x => k))
  (at level 10, x binder, m at level 100, k at level 200).

(** ** The programs *)

Section Programs.
Context {W Endpoint : Type} `{P : Platform, Transport W, !LibsshSession W, !LibsshKbdint W,
  !LibsshChannel W, !LibsshBind W, !Socket W Endpoint}.

(** [any_address] is the address of [corosio::endpoint(8080)], [acceptor_open]
    what [acc.open()] does, [install] the libssh call behind
    [install_server_callbacks], [cb] the table of the callbacks object. *)
Definition server_start (fuel : nat) (host_key_path : bytes) (any_address : ip_address) (acceptor_open : ST W unit)
    (install : server_table W -> ST W Z) (cb : server_table W) : task W Z unit :=
  do _ := call (bind_set_option (cstring_new (Some host_key_path) : host_key)) in
  do _ := call_st acceptor_open in
  do ec := call (bind (Acceptor.Endpoint any_address 8080)) in
  do _ := or_leave 1 ec in
  do ec := call_st listen in
  do _ := or_leave 1 ec in
  do _ := call (set_option (integral_new SSH_LOG_TRACE : Options.log_verbosity)) in
  do ec := call_st accept in
  do _ := or_leave 1 ec in
  do ec := call_loop (handle_key_exchange fuel) in
  do _ := or_leave 1 ec in
  call (let* r := install_server_callbacks install cb None in st_ret (fst r)).

(** The three attempts to authenticate; what they end with is not looked at.
    [getpass] is the user. *)
Definition authenticate (fuel : nat) (getpass : ST W bytes) : task W Z (error_code * Z) :=
  do res := call_loop (userauth_none fuel) in
  do md := call_st userauth_list in
  do res := (if negb (ec_bool (fst res)) && (snd res =? SSH_AUTH_DENIED)
                && has_bit md SSH_AUTH_METHOD_PUBLICKEY
             then call_loop (userauth_publickey_auto fuel None) else task_ret res) in
  if negb (ec_bool (fst res)) && (snd res =? SSH_AUTH_DENIED) && has_bit md SSH_AUTH_METHOD_PASSWORD
  then do pw := call_st getpass in call_loop (userauth_password fuel pw)
  else task_ret res.

Definition client_start (fuel : nat) (ep : Endpoint) (getpass : ST W bytes) : task W Z pointer :=
  do _ := call (set_option (cstring_new (Some (lit "localhost")) : host)) in
  do _ := call (set_option (integral_new SSH_LOG_INFO : Options.log_verbosity)) in
  do _ := call (set_option (integral_new 22 : port)) in
  do _ := call (set_option (cstring_new (Some (lit "klemens")) : user)) in
  do r := call_loop (connect fuel ep) in
  do ec := call (st_ret r) in
  do _ := or_leave 1 ec in
  do _ := authenticate fuel getpass in
  do c := call new_channel in
  do ec := call_loop (open_session fuel) in
  do _ := or_leave 1 ec in
  do ec := call_loop (request_sftp fuel) in
  do _ := or_leave 1 ec in
  task_ret c.

End Programs.

(** ** Lemmas *)

Lemma bind_goes_on {W R A B} (m : task W R A) (k : A -> task W R B) w b w' :
  task_bind m k w = Some (GoesOn _ _ b, w') ->
  exists a w1, m w = Some (GoesOn _ _ a, w1) /\ k a w1 = Some (GoesOn _ _ b, w').
Proof. unfold task_bind. destruct (m w) as [[[r|a|code what] w1]|]; try done. eauto. Qed.

Lemma call_goes_on {W R A} (m : ST W (completion A)) w a w' :
  call (R := R) m w = Some (GoesOn _ _ a, w') -> m w = (Returned a, w').
Proof. unfold call. destruct (m w) as [[x|code what] w1]; [|done]. by intros [= -> ->]. Qed.

Lemma call_loop_goes_on {W R A} (m : W -> option (A * W)) w a w' :
  call_loop (R := R) m w = Some (GoesOn _ _ a, w') -> m w = Some (a, w').
Proof. unfold call_loop. destruct (m w) as [[x w1]|]; [|done]. by intros [= -> ->]. Qed.

Lemma call_st_goes_on {W R A} (m : ST W A) w a w' :
  call_st (R := R) m w = Some (GoesOn _ _ a, w') -> m w = (a, w').
Proof. unfold call_st. destruct (m w) as [x w1]. by intros [= -> ->]. Qed.

Lemma or_leave_goes_on {W R} (r : R) ec (w : W) u w' :
  or_leave r ec w = Some (GoesOn _ _ u, w') -> ec_bool ec = false /\ w' = w.
Proof. unfold or_leave. destruct (ec_bool ec); [done|]. by intros [= _ ->]. Qed.

(** Take the sequence of steps apart. *)
Ltac goes_on H :=
  repeat (apply bind_goes_on in H; destruct H as (? & ? & ?Hstep & H));
  repeat match goal with
  | Hs : call _ _ = Some _ |- _ => apply call_goes_on in Hs
  | Hs : call_loop _ _ = Some _ |- _ => apply call_loop_goes_on in Hs
  | Hs : or_leave _ _ _ = Some _ |- _ => apply or_leave_goes_on in Hs as [? ->]
  end.

Section Ready.
Context {W Endpoint : Type} `{P : Platform, Transport W, !LibsshSession W, !LibsshKbdint W,
  !LibsshChannel W, !LibsshBind W, !Socket W Endpoint}.

(** The client goes on with a channel of a connected session on which the sftp
    subsystem was opened; whether it is authenticated is for the server to
    say. *)
Lemma client_start_ready fuel (ep : Endpoint) getpass w c w' :
  client_start fuel ep getpass w = Some (GoesOn _ _ c, w') ->
  exists w1 ec w2 w3 w4 ec1 w5 ec2,
    connect fuel ep w1 = Some (Returned ec, w2) /\ ec_bool ec = false /\
    new_channel w3 = (Returned c, w4) /\
    open_session fuel w4 = Some (ec1, w5) /\ ec_bool ec1 = false /\
    request_sftp fuel w5 = Some (ec2, w') /\ ec_bool ec2 = false.
Proof.
  unfold client_start. intros Hgo. goes_on Hgo. injection Hgo as <- <-.
  match goal with Hs : st_ret _ _ = _ |- _ => injection Hs as -> -> end.
  repeat eexists; eauto.
Qed.

(** The server enters its loop over an accepted session whose keys are
    exchanged. *)
Lemma server_start_ready fuel key any_address acceptor_open install cb w u w' :
  server_start fuel key any_address acceptor_open install cb w = Some (GoesOn _ _ u, w') ->
  exists w1 ec1 w2 w3 ec2 w4 ec3 w5,
    listen w1 = (ec1, w2) /\ ec_bool ec1 = false /\
    accept w3 = (ec2, w4) /\ ec_bool ec2 = false /\
    handle_key_exchange fuel w4 = Some (ec3, w5) /\ ec_bool ec3 = false /\
    (let* r := install_server_callbacks install cb None in st_ret (fst r)) w5 = (Returned tt, w').
Proof.
  unfold server_start. intros Hgo. goes_on Hgo. destruct u.
  repeat match goal with Hs : call_st _ _ = _ |- _ => apply call_st_goes_on in Hs end.
  repeat eexists; eauto.
Qed.

End Ready.
