(* ===== verification/ExampleMain.v ===== *)
(** * ExampleMain: the program around the example server ([src/example/server.cpp])

    [echo] is the shell of the example.  [channel_callbacks] decides, from the
    requests a client makes on a new channel, what runs on it; it is one of the
    [channel_handlers] of [Callbacks] and is called through the table libssh gets.

    The program itself is a step machine.  Its coroutines are [ssh_main] and one
    [wait_for_channel_request] per channel; they share the [tracked_work] of the
    session's callbacks.  An [event] is what the outside decides (a message, a
    channel request, the end of a timer, of the work on a channel), [step] what
    the program does then.  When [ssh_main] ends it destroys the session, and with
    it every [ssh_channel] and the [tracked_work]: a coroutine that goes on after
    that [Dangles]. *)

From S2P Require Import Prelude Libssh ErrorCode Retry Session Callbacks.

#[local] Open Scope Z_scope.

(** ** The echo shell *)

Class EchoStream (W : Type) := {
  (** [s.read_some] with a buffer of the given size; what it put there *)
  stream_read_some : Z -> ST W (error_code * bytes);
  (** [capy::write] *)
  stream_write : bytes -> ST W error_code
}.

Section Echo.
Context {W : Type} `{!EchoStream W}.

Definition echo_buffer : Z := 4096.

Definition echo_body (w : W) : round W error_code :=
  let '((ec, data), w) := stream_read_some echo_buffer w in
  if ec_bool ec then Return ec w
  else
    let '(ec, w) := stream_write data w in
    if ec_bool ec then Return ec w else Again w.

Definition echo (fuel : nat) : W -> option (error_code * W) := loop echo_body fuel.

End Echo.

(** ** [channel_callbacks] *)

(** The function [work] points to. *)
Inductive channel_work := OnTimeout | OnClosed | RunShell | RunSftp.

Global Instance channel_work_eq_dec : EqDecision channel_work.
Proof. solve_decision. Defined.

Record callbacks_state := CallbacksState { timer_cancelled : bool; cc_work : channel_work }.

Definition new_callbacks : callbacks_state := CallbacksState false OnTimeout.

Definition cancel_timer : ST callbacks_state unit := fun s => (tt, CallbacksState true (cc_work s)).
Definition set_work (w : channel_work) : ST callbacks_state unit := fun s =>
  (tt, CallbacksState (timer_cancelled s) w).

Definition example_channel_handlers : channel_handlers callbacks_state := {|
  signal := signal default_channel_handlers;
  exit_status := exit_status default_channel_handlers;
  exit_signal := exit_signal default_channel_handlers;
  x11_req := x11_req default_channel_handlers;
  close := cancel_timer ;;; set_work OnClosed;
  pty_request _ _ _ _ _ := st_ret false;
  pty_window_change _ _ _ _ := st_ret false;
  shell_request := cancel_timer ;;; set_work RunShell ;;; st_ret true;
  exec_request command :=
    cancel_timer ;;;
    if bool_decide (command = lit "echo") then set_work RunShell ;;; st_ret true else st_ret false;
  env_request _ _ := st_ret true;
  subsystem_request subsystem :=
    if bool_decide (subsystem = lit "sftp") then set_work RunSftp ;;; st_ret true else st_ret false
|}.

(** What a client can ask for on a channel. *)
Inductive channel_request :=
| CloseChannel
| PtyRequest
| WindowChange
| ShellRequest
| ExecRequest (command : bytes)
| EnvRequest (name value : bytes)
| SubsystemRequest (subsystem : bytes).

(** libssh calls the function of the table; [0] accepts the request. *)
Definition deliver (r : channel_request) : ST callbacks_state Z :=
  let impl := channel_callbacks example_channel_handlers in
  match r with
  | CloseChannel => channel_close_function _ impl ;;; st_ret 0
  | PtyRequest => channel_pty_request_function impl [] 0 0 0 0
  | WindowChange => channel_pty_window_change_function impl 0 0 0 0
  | ShellRequest => channel_shell_request_function impl
  | ExecRequest command => channel_exec_request_function impl command
  | EnvRequest name value => channel_env_request_function impl name value
  | SubsystemRequest subsystem => channel_subsystem_request_function impl subsystem
  end.

(** ** The program *)

(** [wait_for_channel_request]: at the timer, or in the work it chose. *)
Inductive frame :=
| Deciding (cc : callbacks_state)
| Working (w : channel_work).

(** [ssh_main]: in its loop, in [work.wait()], or returned. *)
Inductive main_phase :=
| Looping
| Waiting
| Exited (code : Z).

(** [working] and [event] are the members of [tracked_work]; [stop] is the state
    of the [stop_source]. *)
Record program := Program {
  pr_main : main_phase;
  pr_working : Z;
  pr_event : bool;
  pr_stop : bool;
  pr_frames : list frame }.

Definition started : program := Program Looping 0 false false [].

(** The messages [ssh_main] distinguishes. *)
Inductive message_type := RequestAuth | RequestChannel | RequestService (service : bytes)
  | RequestChannelOpen | RequestGlobal.

(** The reply the switch makes. *)
Inductive message_reply := NoReply | ServiceReplySuccess | ReplyDefault.

Definition reply_to (m : message_type) : message_reply :=
  match m with
  | RequestService service =>
      if bool_decide (service = lit "ssh-userauth") then ServiceReplySuccess else ReplyDefault
  | _ => NoReply
  end.

Inductive event :=
| SessionClosed                                   (* [s.is_open()] is false *)
| MessageFailed (ec : error_code)                 (* [get_message] fails *)
| MessageArrives (m : message_type) (reply_ec : error_code)
| EventWait (ec : error_code)                     (* [co_await event.wait()] returns *)
| ChannelOpened                                   (* [channel_open_request_session] *)
| Request (i : nat) (r : channel_request)
| TimerEnds (i : nat)                             (* [timeout.wait()] returns *)
| WorkEnds (i : nat).                             (* the work of a channel returns *)

Inductive outcome :=
| Next (p : program)
| Dangles
| Disabled.

(** *** [tracked_work] *)

(** [work(tracked_work &)], also the copy constructor. *)
Definition track (p : program) : program :=
  Program (pr_main p) (u64 (pr_working p + 1)) (pr_event p) (pr_stop p) (pr_frames p).

(** [~work] calls [complete]. *)
Definition work_complete (p : program) : program :=
  Program (pr_main p) (u64 (pr_working p - 1)) true (pr_stop p) (pr_frames p).

(** The condition of the loop of [wait]; behind it [ssh_main] returns 1. *)
Definition wait_loop (p : program) : program :=
  Program (if 0 <? pr_working p then Waiting else Exited 1)
    (pr_working p) (pr_event p) (pr_stop p) (pr_frames p).

(** *** The steps *)

(** [error:] in [ssh_main]. *)
Definition main_error (p : program) : program :=
  wait_loop (Program (pr_main p) (pr_working p) (pr_event p) true (pr_frames p)).

Definition set_frames (p : program) (l : list frame) : program :=
  Program (pr_main p) (pr_working p) (pr_event p) (pr_stop p) l.

Definition exited (p : program) : bool :=
  match pr_main p with Exited _ => true | _ => false end.

(** [channel_open_request_session]: the parameter of the coroutine is a [work],
    copied into its frame and then destroyed. *)
Definition open_channel (p : program) : program :=
  let p := track p in
  let p := track p in
  let p := set_frames p (pr_frames p ++ [Deciding new_callbacks]) in
  work_complete p.

(** The [server_callbacks] of the example: everyone may log in.  [h] is the
    [ssh_channel] the new channel holds. *)
Definition example_server_handlers (h : pointer) : server_handlers program := {|
  auth_password _ _ := st_ret SSH_AUTH_SUCCESS;
  auth_none _ := st_ret SSH_AUTH_SUCCESS;
  auth_pubkey _ _ _ := st_ret SSH_AUTH_SUCCESS;
  auth_gssapi_mic := auth_gssapi_mic default_server_handlers;
  service_request _ := st_ret true;
  channel_open_request_session p := (h, open_channel p);
  gssapi_select_oid := gssapi_select_oid default_server_handlers;
  gssapi_accept_sec_ctx := gssapi_accept_sec_ctx default_server_handlers;
  gssapi_verify_mic := gssapi_verify_mic default_server_handlers
|}.

Definition step (e : event) (p : program) : outcome :=
  match e, pr_main p with
  | SessionClosed, Looping =>
      Next (Program (Exited 0) (pr_working p) (pr_event p) (pr_stop p) (pr_frames p))
  | MessageFailed ec, Looping => if ec_bool ec then Next (main_error p) else Disabled
  | MessageArrives m reply_ec, Looping =>
      match reply_to m with
      | NoReply => Next p
      | ServiceReplySuccess | ReplyDefault =>
          Next (if ec_bool reply_ec then main_error p else p)
      end
  | EventWait ec, Waiting =>
      if ec_bool ec then
        Next (Program (Exited 1) (pr_working p) (pr_event p) (pr_stop p) (pr_frames p))
      else if pr_event p then
        Next (wait_loop (Program Waiting (pr_working p) false (pr_stop p) (pr_frames p)))
      else Disabled
  | ChannelOpened, (Looping | Waiting) => Next (open_channel p)
  | Request i r, (Looping | Waiting) =>
      match pr_frames p !! i with
      | Some (Deciding cc) => Next (set_frames p (<[i := Deciding (snd (deliver r cc))]> (pr_frames p)))
      | _ => Disabled
      end
  | TimerEnds i, _ =>
      match pr_frames p !! i with
      | Some (Deciding cc) =>
          if exited p then Dangles else Next (set_frames p (<[i := Working (cc_work cc)]> (pr_frames p)))
      | _ => Disabled
      end
  | WorkEnds i, _ =>
      match pr_frames p !! i with
      | Some (Working _) =>
          if exited p then Dangles else Next (work_complete (set_frames p (delete i (pr_frames p))))
      | _ => Disabled
      end
  | _, _ => Disabled
  end.

Fixpoint run (l : list event) (p : program) : outcome :=
  match l with
  | [] => Next p
  | e :: l => match step e p with Next p => run l p | o => o end
  end.

(** ** Lemmas: echo *)

(** What a stream lets one observe: the bytes it has delivered and the bytes it
    has taken.  A read that fails delivers nothing; a write takes a prefix of its
    buffer, and all of it when it succeeds. *)
Class EchoLaws (W : Type) `{!EchoStream W} := {
  delivered : W -> bytes;
  taken : W -> bytes;
  read_some_law n w ec data w' :
    stream_read_some n w = ((ec, data), w') ->
    taken w' = taken w /\ zlen data <= n /\
    delivered w' = delivered w ++ (if ec_bool ec then [] else data);
  write_law data w ec w' :
    stream_write data w = (ec, w') ->
    delivered w' = delivered w /\
    exists k, taken w' = taken w ++ take k data /\ (ec_bool ec = false -> take k data = data)
}.

Section EchoLemmas.
Context {W : Type} `{!EchoStream W, !EchoLaws W}.

(** From [w] to [w'] the stream took what it delivered, [lost] apart. *)
Definition echoed (w w' : W) (lost : bytes) : Prop :=
  exists got, delivered w' = delivered w ++ got /\ taken w ++ got = taken w' ++ lost.

Lemma echoed_trans w w1 w2 lost : echoed w w1 [] -> echoed w1 w2 lost -> echoed w w2 lost.
Proof using.
  intros (g1 & Hd1 & Ht1) (g2 & Hd2 & Ht2). exists (g1 ++ g2). rewrite app_nil_r in Ht1.
  split; [by rewrite Hd2, Hd1, <- app_assoc|]. by rewrite app_assoc, Ht1, Ht2.
Qed.

(** One round. *)
Lemma echo_round w :
  match echo_body w with
  | Again w' => echoed w w' []
  | Return ec w' => exists lost, echoed w w' lost /\ ec_bool ec = true /\ zlen lost <= echo_buffer
  end.
Proof using EchoLaws0.
  unfold echo_body. destruct (stream_read_some _ w) as [[ec data] w1] eqn:Hr.
  apply read_some_law in Hr as (Ht & Hsz & Hd). destruct (ec_bool ec) eqn:He.
  { exists []. split; [|done]. exists []. by rewrite Hd, Ht, !app_nil_r. }
  destruct (stream_write data w1) as [ec2 w2] eqn:Hw.
  apply write_law in Hw as (Hd2 & k & Ht2 & Hall). destruct (ec_bool ec2) eqn:He2.
  - exists (drop k data). split; [|split; [done|]].
    + exists data. by rewrite Hd2, Hd, Ht2, Ht, <- app_assoc, take_drop.
    + rewrite zlen_drop. pose proof (zlen_nonneg data). lia.
  - exists data. by rewrite Hd2, Hd, Ht2, Ht, Hall, app_nil_r.
Qed.

(** The shell sends back everything it receives, in order; only the bytes of the
    last read can be missing, and it ends only with an error. *)
Lemma echo_echoes w ec w' :
  returns echo_body w ec w' ->
  exists lost, echoed w w' lost /\ ec_bool ec = true /\ zlen lost <= echo_buffer.
Proof using EchoLaws0.
  intros [fuel H]. revert w H. induction fuel as [|fuel IH]; intros w; cbn [loop]; [done|].
  pose proof (echo_round w) as Hr. destruct (echo_body w) as [w1|ec1 w1].
  - intros H. destruct (IH w1 H) as (lost & He & Hrest). exists lost. split; [|done].
    by eapply echoed_trans.
  - by intros [= -> ->].
Qed.

End EchoLemmas.

(** ** Lemmas: channel requests *)

(** The work a request sets; [None] leaves it as it is. *)
Definition decides (r : channel_request) : option channel_work :=
  match r with
  | CloseChannel => Some OnClosed
  | ShellRequest => Some RunShell
  | ExecRequest command => if bool_decide (command = lit "echo") then Some RunShell else None
  | SubsystemRequest subsystem => if bool_decide (subsystem = lit "sftp") then Some RunSftp else None
  | _ => None
  end.

Definition deliver_all (l : list channel_request) (s : callbacks_state) : callbacks_state :=
  foldl (fun s r => snd (deliver r s)) s l.

Lemma deliver_work r s : cc_work (snd (deliver r s)) = default (cc_work s) (decides r).
Proof. destruct r; cbn; try done; by case_bool_decide. Qed.

(** What runs on a channel is what the last request that decides anything asked
    for; without one the channel times out. *)
Lemma deliver_all_work l s : cc_work (deliver_all l s) = default (cc_work s) (last (omap decides l)).
Proof.
  revert s. induction l as [|r l IH]; intros s; [done|]. unfold deliver_all. cbn [foldl omap list_omap].
  change (foldl _ _ l) with (deliver_all l (snd (deliver r s))). rewrite IH, deliver_work.
  destruct (decides r) as [w|]; [|done]. rewrite last_cons. by destruct (last _).
Qed.

(** ** Lemmas: the program *)

Definition counts (p : program) : Prop := pr_working p = zlen (pr_frames p).

(** What holds between the steps: every frame is counted, a coroutine in [wait]
    has something to wait for, and, when nothing went wrong, [ssh_main] returns
    only after the last channel. *)
Definition program_wf (calm : bool) (p : program) : Prop :=
  counts p /\
  (pr_main p = Waiting -> pr_frames p <> [] \/ pr_event p = true) /\
  (calm = true -> exited p = true -> pr_frames p = []).

(** No channel is left behind: the session is not closed by the peer, and no
    wait fails. *)
Definition calm (e : event) : bool :=
  match e with
  | SessionClosed => false
  | EventWait ec => negb (ec_bool ec)
  | _ => true
  end.

Lemma zlen_pos_iff {A} (l : list A) : 0 < zlen l <-> l <> [].
Proof. destruct l; [done|]. rewrite zlen_cons. pose proof (zlen_nonneg l). split; [done | lia]. Qed.

Lemma wait_loop_wf c p : counts p -> program_wf c (wait_loop p).
Proof.
  unfold program_wf, counts, wait_loop, exited. cbn. intros Hc. rewrite Hc.
  destruct (Z.ltb_spec 0 (zlen (pr_frames p))) as [H|H]; cbn; split; try done; split; try done.
  - intros _. left. by apply zlen_pos_iff.
  - intros _ _. destruct (pr_frames p) as [|f l] eqn:E; [done|].
    pose proof (proj2 (zlen_pos_iff (f :: l)) ltac:(done)). lia.
Qed.

Lemma length_insert_frame (l : list frame) i f : zlen (<[i := f]> l) = zlen l.
Proof. unfold zlen. by rewrite length_insert. Qed.

Lemma insert_frame_nil (l : list frame) i f : <[i := f]> l <> [] <-> l <> [].
Proof. by destruct l, i. Qed.

Lemma zlen_delete {A} (l : list A) i x : l !! i = Some x -> zlen (delete i l) = zlen l - 1.
Proof.
  intros H. pose proof (lookup_lt_Some _ _ _ H). unfold zlen. rewrite length_delete by eauto. lia.
Qed.

Lemma open_channel_wf p :
  counts p -> zlen (pr_frames p) + 2 < 2 ^ 64 ->
  counts (open_channel p) /\ pr_main (open_channel p) = pr_main p /\ pr_event (open_channel p) = true.
Proof.
  unfold counts, open_channel, work_complete, track. cbn. intros -> Hb.
  pose proof (zlen_nonneg (pr_frames p)). rewrite zlen_app.
  rewrite (u64_small (zlen (pr_frames p) + 1)) by (unfold is_u64; lia).
  rewrite (u64_small (_ + 1 + 1)) by (unfold is_u64; lia). rewrite u64_small by (unfold is_u64; lia).
  split; [|done]. change (zlen [Deciding new_callbacks]) with 1. lia.
Qed.

Lemma step_wf c e p p' :
  program_wf c p -> zlen (pr_frames p) + 2 < 2 ^ 64 -> (c = true -> calm e = true) ->
  step e p = Next p' ->
  program_wf c p' /\ zlen (pr_frames p') <= zlen (pr_frames p) + 1.
Proof.
  intros (Hc & Hw & Hx) Hb Hcalm.
  assert (Hcount : forall ph ev st, counts (Program ph (pr_working p) ev st (pr_frames p))) by done.
  destruct e as [|ec|m ec|ec| |i r|i|i]; cbn [step]; intros Hs.
  - destruct (pr_main p) eqn:Hm; [|done..]. injection Hs as <-. cbn [pr_frames]. split; [|lia].
    split; [done|]. split; [done|]. intros Ht. by specialize (Hcalm Ht).
  - destruct (pr_main p) eqn:Hm; [|done..]. destruct (ec_bool ec); [|done]. injection Hs as <-.
    split; [by apply wait_loop_wf | cbn; lia].
  - destruct (pr_main p) eqn:Hm; [|done..].
    assert (p' = p \/ p' = main_error p) as [->| ->].
    { destruct (reply_to m); [|destruct (ec_bool ec)..]; injection Hs as <-; auto. }
    + split; [|lia]. split; [done|]. split; [by rewrite Hm|done].
    + split; [by apply wait_loop_wf | cbn; lia].
  - destruct (pr_main p) eqn:Hm; [done| |done]. destruct (ec_bool ec) eqn:He.
    + injection Hs as <-. split; [|cbn; lia]. split; [done|]. split; [done|].
      intros Ht. specialize (Hcalm Ht). cbn in Hcalm. by rewrite He in Hcalm.
    + destruct (pr_event p); [|done]. injection Hs as <-. split; [by apply wait_loop_wf | cbn; lia].
  - assert (exited p = false /\ p' = open_channel p) as [He ->].
    { unfold exited. destruct (pr_main p); [by injection Hs as <-..|done]. }
    destruct (open_channel_wf p Hc Hb) as (Hc' & Hm & Hev). split.
    + split; [done|]. split; [auto|]. unfold exited in *. rewrite Hm. intros _ H. by rewrite H in He.
    + cbn. rewrite zlen_app. change (zlen [Deciding new_callbacks]) with 1. lia.
  - assert (exists f, exited p = false /\ p' = set_frames p (<[i := f]> (pr_frames p))) as (f & He & ->).
    { unfold exited. destruct (pr_main p); try done; destruct (pr_frames p !! i) as [[cc|w]|]; try done;
        injection Hs as <-; eauto. }
    unfold program_wf, counts, exited in *. cbn. rewrite length_insert_frame, insert_frame_nil.
    split; [|lia]. split; [done|]. split; [done|]. intros _ H. by rewrite H in He.
  - destruct (pr_frames p !! i) as [[cc|w]|]; try done. destruct (exited p) eqn:He; [done|].
    injection Hs as <-. unfold program_wf, counts, exited in *. cbn.
    rewrite length_insert_frame, insert_frame_nil.
    split; [|lia]. split; [done|]. split; [done|]. intros _ H. by rewrite H in He.
  - destruct (pr_frames p !! i) as [[cc|w]|] eqn:Hi; try done. destruct (exited p) eqn:He; [done|].
    injection Hs as <-. unfold program_wf, counts, exited in *. cbn.
    pose proof (zlen_nonneg (delete i (pr_frames p))). rewrite (zlen_delete _ _ _ Hi) in *.
    split; [|lia]. split; [rewrite u64_small; [lia | unfold is_u64; lia]|]. split; [auto|].
    intros _ H'. by rewrite H' in He.
Qed.

Lemma run_wf c l p p' :
  program_wf c p -> zlen (pr_frames p) + zlen l + 1 < 2 ^ 64 ->
  (c = true -> Forall (fun e => calm e = true) l) ->
  run l p = Next p' -> program_wf c p'.
Proof.
  revert p. induction l as [|e l IH]; intros p Hwf Hb Hcalm; cbn [run]; [by intros [= <-]|].
  rewrite zlen_cons in Hb. pose proof (zlen_nonneg l).
  destruct (step e p) as [p1| |] eqn:Hs; [|done..].
  destruct (step_wf c e p p1) as [Hwf1 Hl1]; [done|lia| |done|].
  { intros Hc. specialize (Hcalm Hc). by inversion Hcalm. }
  apply IH; [done|lia|]. intros Hc. specialize (Hcalm Hc). by inversion Hcalm.
Qed.

Lemma run_app l1 l2 p :
  run (l1 ++ l2) p = match run l1 p with Next p => run l2 p | o => o end.
Proof. revert p. induction l1 as [|e l1 IH]; intros p; [done|]. cbn [app run]. by destruct (step e p). Qed.

Lemma started_wf c : program_wf c started.
Proof. by repeat split. Qed.

(** A program that left no channel behind does not dangle. *)
Lemma step_not_dangling e p : program_wf true p -> step e p <> Dangles.
Proof.
  intros (_ & _ & Hx) Hs. destruct e as [|ec|m ec|ec| |i r|i|i]; cbn [step] in Hs.
  1-6: destruct (pr_main p); repeat case_match; done.
  all: destruct (pr_frames p !! i) as [[cc|w]|] eqn:Hi; try done;
    destruct (exited p) eqn:He; try done; specialize (Hx eq_refl eq_refl); by rewrite Hx in Hi.
Qed.

(** The steps that end the wait, and what they use up. *)
Definition ending (e : event) : bool :=
  match e with
  | TimerEnds _ | WorkEnds _ => true
  | EventWait ec => negb (ec_bool ec)
  | _ => false
  end.

Definition frame_steps (f : frame) : nat := match f with Deciding _ => 3 | Working _ => 2 end.

Definition steps_left (p : program) : nat :=
  sum_list_with frame_steps (pr_frames p) + (if pr_event p then 1 else 0).

(** While [ssh_main] waits, each of these steps uses something up. *)
Lemma ending_step e p p' :
  pr_main p = Waiting -> ending e = true -> step e p = Next p' ->
  pr_main p' = Exited 1 /\ (0 < steps_left p)%nat \/
  pr_main p' = Waiting /\ (steps_left p' < steps_left p)%nat.
Proof.
  intros Hm He Hs. destruct e as [|ec|m ec|ec| |i r|i|i]; try done; cbn [step] in Hs; rewrite ?Hm in Hs.
  - cbn in He. destruct (ec_bool ec); [done|]. destruct (pr_event p) eqn:Hev; [|done].
    injection Hs as <-. unfold steps_left. cbn. rewrite Hev.
    destruct (0 <? pr_working p); [right|left]; (split; [done|lia]).
  - destruct (pr_frames p !! i) as [[cc|w]|] eqn:Hi; try done. unfold exited in Hs. rewrite Hm in Hs.
    injection Hs as <-. right. split; [done|]. unfold steps_left. cbn.
    pose proof (sum_list_with_insert frame_steps _ _ _ (Working (cc_work cc)) Hi) as Hsum. cbn [frame_steps] in Hsum.
    destruct (pr_event p); lia.
  - destruct (pr_frames p !! i) as [[cc|w]|] eqn:Hi; try done. unfold exited in Hs. rewrite Hm in Hs.
    injection Hs as <-. right. split; [done|]. unfold steps_left. cbn.
    pose proof (sum_list_with_delete frame_steps _ _ _ Hi) as Hsum. cbn [frame_steps] in Hsum.
    destruct (pr_event p); lia.
Qed.

(** Once [ssh_main] has returned none of them is a step. *)
Lemma ending_exited e p p' code : pr_main p = Exited code -> ending e = true -> step e p <> Next p'.
Proof.
  intros Hm He. destruct e as [|ec|m ec|ec| |i r|i|i]; try done; cbn [step]; unfold exited; rewrite Hm;
    [done|..]; by destruct (pr_frames p !! i) as [[]|].
Qed.

Lemma ending_run es p p' :
  pr_main p = Waiting -> Forall (fun e => ending e = true) es -> run es p = Next p' ->
  (length es <= steps_left p)%nat /\ (pr_main p' = Exited 1 \/ pr_main p' = Waiting).
Proof.
  intros Hm Hes. revert p Hm. induction Hes as [|e es He Hes IH]; intros p Hm; cbn [run].
  { intros [= <-]. split; [cbn; lia | by right]. }
  destruct (step e p) as [p1| |] eqn:Hs; [|done..]. intros Hrun.
  destruct (ending_step e p p1 Hm He Hs) as [[Hx Hl]|[Hw Hl]].
  - destruct es as [|e2 es]; [injection Hrun as <-; cbn; auto with lia|].
    cbn [run] in Hrun. inversion Hes; subst.
    destruct (step e2 p1) as [p2| |] eqn:Hs2; [|done..]. by apply (ending_exited e2 p1 p2 1) in Hs2.
  - destruct (IH p1 Hw Hrun) as [Hlen Hend]. cbn [length]. auto with lia.
Qed.

(** And one of them can be made. *)
Lemma waiting_enabled c p :
  program_wf c p -> pr_main p = Waiting ->
  exists e p', ending e = true /\ step e p = Next p'.
Proof.
  intros (_ & Hw & _) Hm. destruct (Hw Hm) as [Hne|Hev].
  - destruct (pr_frames p) as [|[cc|w] l] eqn:Hf; [done| |].
    + exists (TimerEnds 0). eexists. split; [done|]. cbn [step]. unfold exited. by rewrite Hf, Hm.
    + exists (WorkEnds 0). eexists. split; [done|]. cbn [step]. unfold exited. by rewrite Hf, Hm.
  - exists (EventWait no_error). eexists. split; [done|]. cbn [step]. by rewrite Hm, ec_bool_no_error, Hev.
Qed.

(** Through the table libssh gets: a login without a password succeeds, and a
    channel that is opened is the step of the machine. *)
Lemma anyone_logs_in init impl0 h user p :
  exists f, auth_none_function (server_callbacks init impl0 (example_server_handlers h)) = Some f /\
    f user p = (SSH_AUTH_SUCCESS, p).
Proof. by eexists. Qed.

Lemma channel_opened_step init impl0 h p :
  exited p = false ->
  exists f, channel_open_request_session_function
      (server_callbacks init impl0 (example_server_handlers h)) = Some f /\
    step ChannelOpened p = Next (snd (f p)).
Proof. intros Hx. eexists. split; [done|]. unfold exited in Hx. cbn [step]. by destruct (pr_main p). Qed.

(** ** Properties *)


(** C39: When the peer closes the session, [ssh_main] returns without waiting: any
    channel that is still served then goes on with the session destroyed under
    it. *)
Theorem closed_session_dangles p i f :
  pr_main p = Looping -> pr_frames p !! i = Some f ->
  run [SessionClosed; match f with Deciding _ => TimerEnds i | Working _ => WorkEnds i end] p = Dangles.
Proof. intros Hm Hi. cbn [run]. cbn [step]. rewrite Hm. destruct f; cbn [step pr_frames]; by rewrite Hi. Qed.

(** C25: [work.wait()] loses no wake-up and ends: in any state the program can
    reach, once [ssh_main] waits, the timers and the work of the channels can end
    in any order; after a bounded number of steps (no new channel being opened)
    [ssh_main] has returned 1, and until then some coroutine can go on. *)
Theorem wait_for_channels_ends l p es p' :
  run l started = Next p -> zlen l + zlen es + 1 < 2 ^ 64 -> pr_main p = Waiting ->
  Forall (fun e => ending e = true) es -> run es p = Next p' ->
  (length es <= steps_left p)%nat /\
  (pr_main p' = Exited 1 \/
   pr_main p' = Waiting /\ exists e p'', ending e = true /\ step e p' = Next p'').
Proof.
  intros Hrun Hb Hm Hes Hrun'. destruct (ending_run es p p' Hm Hes Hrun') as [Hlen [Hx|Hw]]; [auto|].
  split; [done|]. right. split; [done|]. apply (waiting_enabled false); [|done].
  apply (run_wf false (l ++ es) started); [apply started_wf| |done|].
  - cbn [started pr_frames]. rewrite zlen_nil, zlen_app. lia.
  - by rewrite run_app, Hrun.
Qed.

(** ** Witnesses *)

Definition demo_channel : list event :=
  [ChannelOpened; MessageArrives (RequestService (lit "ssh-userauth")) no_error;
   Request 0 (ExecRequest (lit "echo")); TimerEnds 0].


Lemma closed_session_dangles_witness :
  run demo_channel started = Next (Program Looping 1 true false [Working RunShell]) /\
  run [SessionClosed; WorkEnds 0] (Program Looping 1 true false [Working RunShell]) = Dangles.
Proof.
  split; [by vm_compute|].
  apply (closed_session_dangles (Program Looping 1 true false [Working RunShell]) 0 (Working RunShell)).
  all: done.
Defined.

Lemma wait_for_channels_ends_witness :
  let p := Program Waiting 1 true true [Working RunShell] in
  let p' := Program Waiting 0 true true [] in
  (1 <= steps_left p)%nat /\
  (pr_main p' = Exited 1 \/
   pr_main p' = Waiting /\ exists e p'', ending e = true /\ step e p' = Next p'').
Proof.
  apply (wait_for_channels_ends (demo_channel ++ [MessageFailed (make_error_code broken_pipe)])
    (Program Waiting 1 true true [Working RunShell]) [WorkEnds 0] (Program Waiting 0 true true [])).
  - by vm_compute.
  - by vm_compute.
  - done.
  - by repeat constructor.
  - by vm_compute.
Defined.
