(* ===== verification/ServerSession.v ===== *)
(** * ServerSession: what a worker of [sftp::serve] does over a connection

    [receive_packet_frame] is the framing of the requests over any runtime,
    [worker_session] the answers to a whole sequence of requests, however their
    bytes are cut into chunks, and [init_server_replies] and
    [init_server_refuses] the server's side of the handshake. *)

From S2P Require Import Prelude Libssh ErrorCode Codec Stream Requests Responses Server Backends ServerSpec.

#[local] Open Scope Z_scope.

(** ** Specification *)

(** The bytes of a sequence of requests. *)
Definition requests_bytes (l : list (Z * wire_request)) : bytes :=
  concat (map (fun '(id, w) => frame (wire_body id w)) l).

(** The packets of the handshake. *)
Definition init_body (version : Z) : bytes := [byte_of_Z SSH_FXP_INIT] ++ be_encode 4 version.
Definition version_body (extensions : list (bytes * bytes)) : bytes :=
  [byte_of_Z SSH_FXP_VERSION] ++ be_encode 4 LIBSFTP_VERSION ++ pairs_bytes extensions.

Section Spec.
Context {P : Platform} {S : Type} (srv : sftp_server S).

(** The replies to a sequence of requests and the final backend state; [None]
    when a read is among them. *)
Fixpoint exec_all (l : list (Z * wire_request)) (s : S) : option (bytes * S) :=
  match l with
  | [] => Some ([], s)
  | (id, w) :: rest =>
      match exec srv w with
      | None => None
      | Some m =>
          let '(rep, s') := m s in
          match exec_all rest s' with
          | None => None
          | Some (out, s'') => Some (frame (reply_body id rep) ++ out, s'')
          end
      end
  end.

Definition request_ok (r : Z * wire_request) : Prop := is_u32 (fst r) /\ wire_wf (snd r).

End Spec.

(** ** Lemmas *)

Lemma frame_size body rest :
  zlen body < 2 ^ 32 - 4 -> be_decode (take 4 (frame body ++ rest)) = zlen body.
Proof.
  intros Hb. pose proof (zlen_nonneg body). unfold frame.
  rewrite <- app_assoc, (take_app_length' _ _ 4), be_decode_encode by (by rewrite length_be_encode).
  apply Z.mod_small. change (8 * Z.of_nat 4) with 32. lia.
Qed.

Lemma packet_body_frame body rest :
  zlen body < 2 ^ 32 - 4 -> packet_body (frame body ++ rest) = body.
Proof.
  intros Hb. pose proof (zlen_nonneg body). unfold packet_body. rewrite frame_size by done.
  rewrite u32_small by (unfold is_u32; lia).
  replace (Z.to_nat (zlen body + 4)) with (length (frame body))
    by (pose proof (zlen_frame body); unfold zlen in *; lia).
  rewrite take_app_length. unfold frame. by rewrite drop_app_length' by (by rewrite length_be_encode).
Qed.

Lemma zlen_wire_body id w : zlen (wire_body id w) = 5 + zlen (wire_fields w).
Proof. unfold wire_body. zlen_lia. Qed.

Lemma wire_body_fits id w : wire_wf w -> zlen (wire_body id w) < 2 ^ 32 - 4.
Proof.
  rewrite zlen_wire_body. destruct w as [req|h|h a]; cbn [wire_wf wire_fields].
  - intros [H _]. lia.
  - lia.
  - intros [H _]. lia.
Qed.

Lemma length_read_size (n : Z) : 0 <= n -> Z.of_nat (Z.to_nat n) = n.
Proof. lia. Qed.

Section Framing.
Context {E : Type} {R : Runtime E} {L : RuntimeLaws E}.

(** A packet taken from the connection is a whole frame at its front. *)
Lemma receive_packet_splits assertions buffer e v cb buffer' e' :
  receive_packet assertions buffer e = (Packet v cb buffer', e') ->
  zlen (buffer ++ incoming e) < 2 ^ 32 ->
  buffer ++ incoming e = frame cb ++ buffer' ++ incoming e' /\
  v_data v = frame cb ++ buffer' /\ outgoing e' = outgoing e.
Proof.
  unfold receive_packet, st_bind. destruct (read_until buffer e) as [[[ec n] w] e1] eqn:Hr.
  unfold st_ret. intros [= Hp ->] Hz.
  apply read_until_law in Hr as (got & Hv & Hin & Hout & Hm).
  destruct (ec_bool ec); [done|]. specialize (Hm eq_refl).
  destruct (assertions && _); [done|].
  destruct (Z.ltb_spec (zlen (v_data w)) (be_decode (take 4 (v_data w)) + 4)) as [|Hle]; [done|].
  injection Hp as <- <- <-.
  assert (Hlt : be_decode (take 4 (v_data w)) < 2 ^ 32 - 4).
  { rewrite Hin, app_assoc, <- Hv in Hz. zlen_lia. }
  destruct (match_packet_sound _ _ Hm Hlt) as (body & rest & Hd & Hn).
  assert (Hb : zlen body < 2 ^ 32 - 4).
  { apply match_packet_size in Hm; [lia | done]. }
  assert (Hsz : be_decode (take 4 (v_data w)) = zlen body)
    by (rewrite Hd; by apply frame_size).
  rewrite Hsz, Hd, packet_body_frame by done.
  replace (Z.to_nat (zlen body + 4)) with (length (frame body))
    by (pose proof (zlen_frame body); unfold zlen in *; lia).
  rewrite drop_app_length, Hin, app_assoc, <- Hv, Hd, <- app_assoc. done.
Qed.

End Framing.

Lemma receive_packet_script assertions buffer chunks written fin body rest :
  0 < zlen body < 2 ^ 32 - 4 -> buffer ++ concat chunks = frame body ++ rest ->
  exists chunks' buffer' v,
    receive_packet assertions buffer (Script chunks written fin) =
      (Packet v body buffer', Script chunks' written fin) /\
    v_data v = frame body ++ buffer' /\ buffer' ++ concat chunks' = rest.
Proof.
  intros [H0 Hb] Heq.
  destruct (script_read_frame chunks buffer (make_error_code fin) _ _ Hb Heq)
    as (more & chunks' & Hread & Hrest).
  exists chunks', more, (Vec (frame body ++ more) (4 + zlen body + zlen more)).
  split; [|done]. unfold receive_packet, st_bind, st_ret.
  cbn [read_until script_runtime sc_chunks sc_written sc_end]. rewrite Hread.
  cbn [v_data v_capacity]. rewrite ec_bool_no_error.
  destruct (Z.ltb_spec 4 (4 + zlen body)) as [_|]; [|lia]. cbn [negb]. rewrite andb_false_r.
  rewrite frame_size, packet_body_frame by done.
  destruct (Z.ltb_spec (zlen (frame body ++ more)) (zlen body + 4)) as [Hl|_]; [zlen_lia|].
  replace (Z.to_nat (zlen body + 4)) with (length (frame body))
    by (pose proof (zlen_frame body); unfold zlen in *; lia).
  by rewrite drop_app_length.
Qed.

Section Session.
Context {P : Platform} {S : Type} (srv : sftp_server S) (assertions : bool).

Lemma worker_round id w l m s chunks written fin buffer :
  request_ok (id, w) -> exec srv w = Some m -> reply_fits (fst (m s)) ->
  buffer ++ concat chunks = requests_bytes ((id, w) :: l) ->
  exists chunks' buffer',
    serve_worker srv assertions (ServeState (Script chunks written fin) s buffer) =
      Again (ServeState
        (Script chunks' (written ++ frame (reply_body id (fst (m s)))) fin) (snd (m s)) buffer') /\
    buffer' ++ concat chunks' = requests_bytes l.
Proof.
  intros [Hid Hw] Hm Hfit Hbytes. cbn [fst snd] in *.
  pose proof (wire_body_fits id w Hw) as Hz. pose proof (zlen_nonneg (wire_fields w)).
  change (requests_bytes ((id, w) :: l)) with (frame (wire_body id w) ++ requests_bytes l) in Hbytes.
  destruct (receive_packet_script assertions buffer chunks written fin (wire_body id w)
    (requests_bytes l)) as (chunks' & buffer' & v & Hread & Hv & Hrest);
    [rewrite zlen_wire_body in *; lia | done |].
  exists chunks', buffer'. split; [|done].
  unfold serve_worker. cbn [stop_requested lock script_runtime sv_env sv_backend sv_buffer].
  rewrite ec_bool_no_error, Hread.
  pose proof (handle_exec srv v id w [] m s Hid Hw Hm Hfit) as Hh. rewrite app_nil_r in Hh.
  rewrite Hh. unfold reports, st_bind, st_ret. destruct (m s) as [rep s'].
  unfold send_response. cbn. done.
Qed.

Lemma script_read_empty chunks buf fail :
  concat chunks = [] -> match_packet buf = None ->
  script_read chunks buf fail = ((fail, 0, Vec buf (zlen buf)), []).
Proof.
  intros Hc Hb. induction chunks as [|c chunks IH]; cbn [script_read]; rewrite Hb; [done|].
  cbn [concat] in Hc. apply app_eq_nil in Hc as [-> Hc]. rewrite app_nil_r. by apply IH.
Qed.

Lemma worker_end_of_input chunks s written fin :
  concat chunks = [] ->
  serve_worker srv assertions (ServeState (Script chunks written fin) s []) =
    Return (Stopped (make_error_code fin)) (ServeState (Script [] written fin) s []).
Proof.
  intros Hc. unfold serve_worker.
  cbn [stop_requested lock script_runtime sv_env sv_backend sv_buffer].
  rewrite ec_bool_no_error. unfold receive_packet, st_bind, st_ret.
  cbn [read_until script_runtime sc_chunks sc_written sc_end].
  rewrite script_read_empty by done. by rewrite ec_bool_make.
Qed.

Lemma concat_nil_tail (buffer : bytes) chunks :
  buffer ++ concat chunks = [] -> buffer = [] /\ concat chunks = [].
Proof. apply app_eq_nil. Qed.

Lemma worker_rounds l s out s' chunks written fin buffer :
  Forall request_ok l -> exec_all srv l s = Some (out, s') ->
  (forall m s, answer srv m -> reply_fits (fst (m s))) ->
  buffer ++ concat chunks = requests_bytes l ->
  exists chunks',
    rounds (serve_worker srv assertions) (length l)
      (ServeState (Script chunks written fin) s buffer)
      (ServeState (Script chunks' (written ++ out) fin) s' []) /\ concat chunks' = [].
Proof.
  intros Hok. revert s out chunks written buffer.
  induction Hok as [|[id w] l Hr Hok IH]; intros s out chunks written buffer Hex Hfit Hbytes.
  - injection Hex as <- <-. apply concat_nil_tail in Hbytes as [-> Hc].
    exists chunks. rewrite app_nil_r. split; [constructor | done].
  - cbn [exec_all] in Hex. destruct (exec srv w) as [m|] eqn:Hm; [|done].
    destruct (worker_round id w l m s chunks written fin buffer) as (chunks1 & buffer1 & Hround & Hb1);
      [done | done | apply Hfit; right; eauto | done |].
    destruct (m s) as [rep s1]. cbn [fst snd] in *.
    destruct (exec_all srv l s1) as [[out1 s2]|] eqn:He; [|done]. injection Hex as <- <-.
    destruct (IH _ _ _ (written ++ frame (reply_body id rep)) _ He Hfit Hb1) as (chunks2 & Hrs & Hc2).
    exists chunks2. split; [|done]. cbn [length]. econstructor; [exact Hround|].
    rewrite <- app_assoc in Hrs. exact Hrs.
Qed.

End Session.

(** ** Lemmas: the handshake *)

Lemma extensions_size_bytes l acc :
  foldl (fun ext_bytes '(name, data) => ext_bytes + (4 + zlen name + 4 + zlen data)) acc l
  = acc + zlen (pairs_bytes l).
Proof.
  revert acc. induction l as [|[k v] l IH]; intros acc; cbn [foldl].
  - unfold pairs_bytes. cbn. zlen_lia.
  - rewrite IH. change (pairs_bytes ((k, v) :: l)) with ((str_bytes k ++ str_bytes v) ++ pairs_bytes l).
    autorewrite with zlen. lia.
Qed.

Lemma puts_extensions l : puts (put_extensions l) (pairs_bytes l).
Proof.
  induction l as [|[k v] l IH]; [apply puts_ret|]. cbn [put_extensions].
  change (pairs_bytes ((k, v) :: l)) with ((str_bytes k ++ str_bytes v) ++ pairs_bytes l).
  auto with wire.
Qed.

Lemma zlen_version_body l : zlen (version_body l) = 5 + zlen (pairs_bytes l).
Proof. unfold version_body. zlen_lia. Qed.

Lemma version_packet_frame l :
  zlen (version_body l) < 2 ^ 32 - 4 ->
  version_packet l no_error = (frame (version_body l), no_error).
Proof.
  rewrite zlen_version_body. intros Hl. pose proof (zlen_nonneg (pairs_bytes l)).
  unfold version_packet, extensions_size. rewrite extensions_size_bytes.
  rewrite (u32_small (0 + zlen (pairs_bytes l))) by (unfold is_u32; lia).
  rewrite (u32_small (1 + 4 + _)) by (unfold is_u32; lia).
  rewrite (u32_small (4 + _)) by (unfold is_u32; lia).
  apply fill_puts.
  - unfold frame. rewrite zlen_version_body.
    replace (5 + zlen (pairs_bytes l)) with (1 + 4 + (0 + zlen (pairs_bytes l))) by lia.
    unfold version_body. auto 20 using puts_extensions with wire.
  - rewrite zlen_vec_resize, zlen_frame, zlen_version_body by lia. lia.
Qed.

Lemma check_init_frame version trailing rest :
  is_u32 version -> zlen trailing < 2 ^ 32 - 9 ->
  check_init (frame (init_body version ++ trailing) ++ rest) no_error = no_error.
Proof.
  intros Hv Ht. unfold check_init. rewrite packet_body_frame by (unfold init_body; zlen_lia).
  unfold init_body. rewrite <- app_assoc, takes_u8 by done.
  rewrite takes_u32 by done. done.
Qed.

(** Any other first packet, too short or of another type, ends the handshake
    before a byte is sent. *)
Lemma check_init_other body rest :
  zlen body < 2 ^ 32 - 4 ->
  (forall version trailing, is_u32 version -> body <> init_body version ++ trailing) ->
  ec_bool (check_init (frame body ++ rest) no_error) = true.
Proof.
  intros Hb Hne. unfold check_init. rewrite packet_body_frame by done.
  destruct body as [|b body]; [done|].
  pose proof (takes_u8 (Z_of_byte b) (Z_of_byte_range b) body) as Htp.
  rewrite byte_of_Z_of_byte in Htp. cbn [app] in Htp. rewrite Htp. clear Htp.
  pose proof (parses_u32 (Reader body no_error)) as Hp.
  pose proof (well_behaved_ec take_u32 body well_behaved_u32) as Hec.
  destruct (take_u32 _) as [version r]. cbn [fst snd rd_buf] in *.
  destruct Hec as [Hec|Hec]; rewrite Hec in *; [|done].
  destruct (Hp ec_bool_no_error) as [-> Hv]. rewrite ec_bool_no_error. cbn [negb andb].
  destruct (Z.eqb_spec (Z_of_byte b) SSH_FXP_INIT) as [Hi|]; [|done].
  exfalso. apply (Hne version (rd_buf r) Hv). unfold init_body.
  by rewrite <- Hi, byte_of_Z_of_byte.
Qed.

Section Handshake.

Lemma init_server_script extensions chunks written fin version trailing rest :
  is_u32 version -> zlen trailing < 2 ^ 32 - 9 ->
  zlen (version_body extensions) < 2 ^ 32 - 4 ->
  concat chunks = frame (init_body version ++ trailing) ++ rest ->
  exists chunks',
    init_server extensions (Script chunks written fin) =
      (no_error, Script chunks' (written ++ frame (version_body extensions)) fin).
Proof.
  intros Hv Ht Hext Hc. unfold init_server, st_bind, st_ret.
  cbn [read_until script_runtime sc_chunks sc_written sc_end].
  destruct (script_read_frame chunks [] (make_error_code fin) (init_body version ++ trailing) rest)
    as (more & chunks' & Hread & Hrest); [unfold init_body; zlen_lia | done |].
  rewrite Hread. rewrite ec_bool_no_error. cbn [v_data].
  rewrite check_init_frame by done. rewrite ec_bool_no_error.
  rewrite version_packet_frame by done. rewrite ec_bool_no_error.
  cbn [write script_runtime]. by exists chunks'.
Qed.

End Handshake.

Lemma server_extensions_wf l :
  Permutation l server_extensions ->
  Forall (fun '(k, v) => str_wf k /\ str_wf v) l /\ NoDup l.*1 /\
  zlen (version_body l) < 2 ^ 32 - 4.
Proof.
  intros Hp.
  assert (Hperm : l = server_extensions \/ l = reverse server_extensions).
  { unfold server_extensions in *. apply Permutation_sym, Permutation_length_2_inv in Hp.
    destruct Hp as [->| ->]; auto. }
  destruct Hperm as [->| ->].
  all: split; [by repeat constructor|]; split; [|by vm_compute].
  all: cbn; apply NoDup_cons; split; [|apply NoDup_singleton].
  all: rewrite list_elem_of_singleton; discriminate.
Qed.

(** A read of exactly four bytes that declare a size which wraps. *)
Lemma script_read_four size chunks buf fail :
  zlen (buf ++ concat chunks) = 4 -> buf ++ concat chunks = be_encode 4 size ->
  2 ^ 32 - 4 <= size < 2 ^ 32 ->
  exists chunks' n v, script_read chunks buf fail = ((no_error, n, v), chunks') /\ n <= 3 /\
    take 4 (v_data v) = be_encode 4 size /\ zlen (v_data v) = 4.
Proof.
  intros Hz Heq Hs.
  assert (Hd : be_decode (be_encode 4 size) = size).
  { rewrite be_decode_encode. change (8 * Z.of_nat 4) with 32. apply Z.mod_small. lia. }
  revert buf Hz Heq. induction chunks as [|c chunks IH]; intros buf Hz Heq; cbn [script_read].
  - cbn [concat] in *. rewrite app_nil_r in *. subst buf.
    assert (Ht : take 4 (be_encode 4 size) = be_encode 4 size)
      by (apply take_ge; by rewrite length_be_encode).
    rewrite match_packet_wraps; rewrite ?Ht, ?Hd; [|lia|lia].
    eexists _, _, _. split; [done|]. cbn [v_data]. rewrite Ht. split; [lia|]. done.
  - destruct (decide (zlen buf < 4)) as [Hlt|Hge].
    + assert (Hm : match_packet buf = None).
      { unfold match_packet. destruct (Z.ltb_spec (zlen buf) 4); [done | lia]. }
      rewrite Hm. apply IH; cbn [concat] in *; by rewrite <- app_assoc.
    + assert (Hc : concat (c :: chunks) = []).
      { apply length_zero_iff_nil. autorewrite with zlen in Hz. unfold zlen in *. lia. }
      rewrite Hc, app_nil_r in Heq. subst buf.
      assert (Ht : take 4 (be_encode 4 size) = be_encode 4 size)
        by (apply take_ge; by rewrite length_be_encode).
      rewrite match_packet_wraps; rewrite ?Ht, ?Hd; [|lia|lia].
      eexists _, _, _. split; [done|]. cbn [v_data]. rewrite Ht. split; [lia|]. done.
Qed.

(** ** Properties *)

Section FramingProperty.
Context {E : Type} {R : Runtime E} {L : RuntimeLaws E}.

(** Over any runtime, a packet a worker takes from the connection is one
    whole frame at the front of what was buffered and still to come, and the
    shared buffer it leaves for the other workers together with what is still
    to come is exactly the rest: no byte is lost, duplicated or reordered
    between workers. *)
Theorem receive_packet_frame assertions buffer e v cb buffer' e' :
  receive_packet assertions buffer e = (Packet v cb buffer', e') ->
  zlen (buffer ++ incoming e) < 2 ^ 32 ->
  buffer ++ incoming e = frame cb ++ buffer' ++ incoming e' /\
  v_data v = frame cb ++ buffer' /\ outgoing e' = outgoing e.
Proof. apply receive_packet_splits. Qed.

End FramingProperty.

Section Properties.
Context {P : Platform} {S : Type} (srv : sftp_server S) (assertions : bool).


(** C34: Four bytes are enough to take a worker out of defined behaviour: a
    declared size in the top four values of [uint32_t] makes [match_packet]
    report a packet shorter than its length field, which fails the assertion
    or, with assertions compiled out, forms an iterator past the buffer. *)
Theorem oversized_packet_undefined size chunks fin s :
  2 ^ 32 - 4 <= size < 2 ^ 32 -> concat chunks = be_encode 4 size ->
  exists st, serve_worker srv assertions (ServeState (Script chunks [] fin) s [])
    = Return Undefined st.
Proof.
  intros Hs Hc.
  assert (Hd : be_decode (take 4 (be_encode 4 size)) = size).
  { rewrite take_ge by (rewrite length_be_encode; lia). rewrite be_decode_encode.
    change (8 * Z.of_nat 4) with 32. apply Z.mod_small. lia. }
  assert (Hread : exists chunks' n v, script_read chunks [] (make_error_code fin)
    = ((no_error, n, v), chunks') /\ n <= 3 /\ take 4 (v_data v) = be_encode 4 size /\
      zlen (v_data v) = 4).
  { apply script_read_four; [by cbn [app]; rewrite Hc, zlen_be_encode | done | lia ..]. }
  destruct Hread as (chunks' & n & v & Hread & Hn & Hv & Hz).
  unfold serve_worker. cbn [stop_requested lock script_runtime sv_env sv_backend sv_buffer].
  rewrite ec_bool_no_error. unfold receive_packet, st_bind, st_ret.
  cbn [read_until script_runtime sc_chunks sc_written sc_end]. rewrite Hread.
  rewrite ec_bool_no_error.
  destruct (assertions && negb (4 <? n)) eqn:Ha; [by eexists|].
  rewrite Hv. rewrite take_ge in Hd by (rewrite length_be_encode; lia). rewrite Hd.
  destruct (Z.ltb_spec (zlen (v_data v)) (size + 4)); [by eexists | lia].
Qed.

(** C24: The server's handshake: whatever version the client's first packet
    claims and whatever follows it in that packet, the server replies with one
    VERSION frame that names its own version and all its extensions. *)
Theorem init_server_replies extensions chunks fin version trailing rest :
  Permutation extensions server_extensions -> is_u32 version -> zlen trailing < 2 ^ 32 - 9 ->
  concat chunks = frame (init_body version ++ trailing) ++ rest ->
  exists chunks', init_server extensions (Script chunks [] fin) =
    (no_error, Script chunks' (frame (version_body extensions)) fin).
Proof.
  intros Hp Hv Ht Hc.
  destruct (init_server_script extensions chunks [] fin version trailing rest)
    as (chunks' & H); [done | done | | done | by eexists].
  by apply server_extensions_wf.
Qed.

(** C25: A first packet that is not an INIT packet, because it is too short or of
    another type, ends the handshake with an error before the server has sent
    a byte. *)
Theorem init_server_refuses extensions chunks fin body rest :
  zlen body < 2 ^ 32 - 4 ->
  (forall version trailing, is_u32 version -> body <> init_body version ++ trailing) ->
  concat chunks = frame body ++ rest ->
  exists ec chunks', init_server extensions (Script chunks [] fin) = (ec, Script chunks' [] fin) /\
    ec_bool ec = true.
Proof.
  intros Hb Hne Hc. unfold init_server, st_bind, st_ret.
  cbn [read_until script_runtime sc_chunks sc_written sc_end].
  destruct (script_read_frame chunks [] (make_error_code fin) body rest)
    as (more & chunks' & Hread & Hrest); [done..|].
  rewrite Hread, ec_bool_no_error. cbn [v_data].
  pose proof (check_init_other body more Hb Hne) as He. rewrite He. eauto.
Qed.

End Properties.

(** ** Witnesses *)

(** Two requests whose bytes arrive in three uneven chunks. *)
Definition demo_requests : list (Z * wire_request) :=
  [(0, ClientRequest (Remove (lit "a"))); (1, Fstat (lit "h"))].
Definition demo_chunks : list bytes :=
  let b := requests_bytes demo_requests in [take 3 b; take 17 (drop 3 b); drop 20 b].

Lemma receive_packet_frame_witness :
  let e := Script demo_chunks [] io_error in
  let '(r, e') := receive_packet true [] e in
  match r with
  | Packet v cb buffer' =>
      [] ++ incoming e = frame cb ++ buffer' ++ incoming e' /\
      v_data v = frame cb ++ buffer' /\ outgoing e' = outgoing e
  | _ => False
  end.
Proof.
  cbv zeta. set (e := Script demo_chunks [] io_error).
  destruct (receive_packet true [] e) as [r e'] eqn:Hr.
  assert (Hp : match r with Packet _ _ _ => True | _ => False end).
  { change r with (fst (r, e')). rewrite <- Hr. vm_compute. exact I. }
  destruct r as [| | |v cb buffer']; try contradiction.
  exact (receive_packet_frame true [] e v cb buffer' e' Hr eq_refl).
Defined.


Lemma oversized_packet_undefined_witness :
  exists st, serve_worker null_server false
    (ServeState (Script [[Byte.xff; Byte.xff]; [Byte.xff; Byte.xff]] [] io_error) () [])
    = Return Undefined st.
Proof.
  apply (oversized_packet_undefined null_server false (2 ^ 32 - 1)).
  - split; [by vm_compute | lia].
  - by vm_compute.
Defined.

Lemma init_server_replies_witness :
  exists chunks', init_server server_extensions
      (Script [frame (init_body 3 ++ lit "x")] [] io_error) =
    (no_error, Script chunks' (frame (version_body server_extensions)) io_error).
Proof.
  apply (init_server_replies server_extensions [frame (init_body 3 ++ lit "x")] io_error 3
    (lit "x") []).
  - reflexivity.
  - by vm_compute.
  - by vm_compute.
  - by vm_compute.
Defined.

Lemma init_server_refuses_witness :
  exists ec chunks', init_server server_extensions (Script [frame (lit "hello")] [] io_error)
      = (ec, Script chunks' [] io_error) /\ ec_bool ec = true.
Proof.
  apply (init_server_refuses server_extensions [frame (lit "hello")] io_error (lit "hello") []).
  - by vm_compute.
  - intros version trailing _ H. unfold init_body in H. cbn [app] in H.
    injection H. intros. discriminate.
  - by vm_compute.
Defined.
