(* ===== verification/Workers.v ===== *)
(** * Workers: the concurrent workers of [sftp::serve] ([src/sftp.cpp] 1946-2474)

    [serve] starts [worker_count + 1] coroutines [serve_worker] over one stream,
    one shared read buffer and two mutexes.  They run on one executor and
    interleave where they suspend.  [worker_step i] runs worker [i] from one
    suspension point to the next; a schedule is the list of the workers that
    run.  [phase] is where a worker is suspended, with the locals it needs
    later.  A worker whose mutex is held stays where it is; a lock can fail at
    any time (cancellation).

    [single_worker] ties the machine to [serve_worker]: one worker alone is the
    sequential coroutine. *)

From S2P Require Import Prelude Libssh ErrorCode Codec Stream Requests Responses Server.
From S2P Require Import Backends ServerSpec ServerSession.

#[local] Open Scope Z_scope.

(** ** State *)

Inductive phase :=
| LoopHead                        (** before the test of the stop token *)
| WantRead                        (** suspended in [read_mutex.scoped_lock()] *)
| Reading                         (** holds [read_mutex], in [read_until] *)
| Serving (my_buffer : vec) (cb : bytes)  (** in the call of the backend *)
| WantWrite (response : bytes)    (** suspended in [write_mutex.scoped_lock()] *)
| Writing (response : bytes)      (** holds [write_mutex], in [write] *)
| Ended (result : worker_end).

(** What a step does to the connection. *)
Inductive event :=
| Quiet
| Took (cb : bytes)               (** a packet leaves the connection *)
| ReadFailed
| Served (cb response : bytes)    (** the backend has answered *)
| Refused (cb : bytes)            (** the packet ends its worker *)
| Wrote (response : bytes)
| WriteFailed (response : bytes).

Section Machine.
Context {E S : Type}.

Record machine := Machine {
  mc_env : E; mc_backend : S; mc_buffer : bytes;
  mc_reader : option nat; mc_writer : option nat;  (** who holds the mutexes *)
  mc_workers : list phase }.

Context {P : Platform} {R : Runtime E} (srv : sftp_server S) (assertions : bool).

(** Worker [i] is suspended again in [p]; the rest is given. *)
Definition moved (i : nat) (p : phase) (m : machine) (e : E) (s : S) (buffer : bytes)
    (reader writer : option nat) : machine :=
  Machine e s buffer reader writer (<[i := p]> (mc_workers m)).

Definition worker_step (i : nat) (m : machine) : event * machine :=
  let '(Machine e s buffer reader writer workers) := m in
  match workers !! i with
  | None | Some (Ended _) => (Quiet, m)
  | Some LoopHead =>
      let '(stop, e) := stop_requested e in
      (Quiet, moved i (if stop then Ended (Stopped capy_canceled) else WantRead) m
                e s buffer reader writer)
  | Some WantRead =>
      let '(ec, e') := lock e in
      if ec_bool ec then (Quiet, moved i (Ended (Stopped ec)) m e' s buffer reader writer)
      else match reader with
           | Some _ => (Quiet, m)
           | None => (Quiet, moved i Reading m e' s buffer (Some i) writer)
           end
  | Some Reading =>
      let '(res, e) := receive_packet assertions buffer e in
      match res with
      | ReadError ec => (ReadFailed, moved i (Ended (Stopped ec)) m e s buffer None writer)
      | AssertionFailed | OutOfRange =>
          (ReadFailed, moved i (Ended Undefined) m e s buffer None writer)
      | Packet my_buffer cb buffer =>
          (Took cb, moved i (Serving my_buffer cb) m e s buffer None writer)
      end
  | Some (Serving my_buffer cb) =>
      let '(out, s) := handle_packet srv my_buffer cb s in
      match out with
      | Respond response =>
          (Served cb response, moved i (WantWrite response) m e s buffer reader writer)
      | Stop ec => (Refused cb, moved i (Ended (Stopped ec)) m e s buffer reader writer)
      | UseAfterFree => (Refused cb, moved i (Ended Undefined) m e s buffer reader writer)
      end
  | Some (WantWrite response) =>
      let '(ec, e') := lock e in
      if ec_bool ec then
        (WriteFailed response, moved i (Ended (Stopped ec)) m e' s buffer reader writer)
      else match writer with
           | Some _ => (Quiet, m)
           | None => (Quiet, moved i (Writing response) m e' s buffer reader (Some i))
           end
  | Some (Writing response) =>
      let '(ec, e) := write response e in
      if ec_bool ec then
        (WriteFailed response, moved i (Ended (Stopped ec)) m e s buffer reader None)
      else (Wrote response, moved i LoopHead m e s buffer reader None)
  end.

(** The events of a schedule, in order, and the state it leads to. *)
Fixpoint run (schedule : list nat) (m : machine) : list event * machine :=
  match schedule with
  | [] => ([], m)
  | i :: rest =>
      let '(ev, m) := worker_step i m in
      let '(evs, m) := run rest m in
      (ev :: evs, m)
  end.

(** [serve] after the handshake: [for (auto i = 0u; i <= worker_count; i++)]
    starts the workers. *)
Definition serve_workers (worker_count : nat) (e : E) (s : S) : machine :=
  Machine e s [] None None (replicate (Datatypes.S worker_count) LoopHead).

(** Worker [i] can run: it neither has ended nor waits for a held mutex. *)
Definition ready (i : nat) (m : machine) : bool :=
  match mc_workers m !! i with
  | None | Some (Ended _) => false
  | Some WantRead => bool_decide (mc_reader m = None)
  | Some (WantWrite _) => bool_decide (mc_writer m = None)
  | Some _ => true
  end.

Definition has_ended (p : phase) : bool := match p with Ended _ => true | _ => false end.

End Machine.

Arguments machine : clear implicits.
Arguments Machine {E S} _ _ _ _ _ _.

(** ** What a history says *)

(** The packets taken from the connection, those the backend or a refusal has
    dealt with, the replies made, those written and those lost. *)
Definition took (ev : event) : list bytes := match ev with Took cb => [cb] | _ => [] end.
Definition handled (ev : event) : list bytes :=
  match ev with Served cb _ | Refused cb => [cb] | _ => [] end.
Definition refused_packet (ev : event) : list bytes :=
  match ev with Refused cb => [cb] | _ => [] end.
Definition replied (ev : event) : list bytes :=
  match ev with Served _ response => [response] | _ => [] end.
Definition wrote (ev : event) : list bytes :=
  match ev with Wrote response => [response] | _ => [] end.
Definition unsent (ev : event) : list bytes :=
  match ev with WriteFailed response => [response] | _ => [] end.
Definition settled (ev : event) : list bytes :=
  match ev with Wrote response | WriteFailed response => [response] | _ => [] end.
Definition read_failed (ev : event) : bool := match ev with ReadFailed => true | _ => false end.

(** The packets being served and the replies waiting to be written. *)
Definition in_service (p : phase) : list bytes :=
  match p with Serving _ cb => [cb] | _ => [] end.
Definition in_reply (p : phase) : list bytes :=
  match p with WantWrite response | Writing response => [response] | _ => [] end.

Definition is_reading (p : phase) : bool := match p with Reading => true | _ => false end.
Definition is_writing (p : phase) : bool := match p with Writing _ => true | _ => false end.

(** ** Specification *)

Section Spec.
Context {P : Platform} {E S : Type} {R : Runtime E} (srv : sftp_server S) (assertions : bool).

(** What a worker's step does to the shared state, as a relation: from one
    suspension point to the next. *)
Inductive transition (i : nat) :
    phase -> machine E S -> event -> phase -> machine E S -> Prop :=
| tr_stop m e :
    stop_requested (mc_env m) = (true, e) ->
    transition i LoopHead m Quiet (Ended (Stopped capy_canceled))
      (Machine e (mc_backend m) (mc_buffer m) (mc_reader m) (mc_writer m) (mc_workers m))
| tr_loop m e :
    stop_requested (mc_env m) = (false, e) ->
    transition i LoopHead m Quiet WantRead
      (Machine e (mc_backend m) (mc_buffer m) (mc_reader m) (mc_writer m) (mc_workers m))
| tr_read_cancelled m ec e :
    lock (mc_env m) = (ec, e) -> ec_bool ec = true ->
    transition i WantRead m Quiet (Ended (Stopped ec))
      (Machine e (mc_backend m) (mc_buffer m) (mc_reader m) (mc_writer m) (mc_workers m))
| tr_read_locked m ec e :
    lock (mc_env m) = (ec, e) -> ec_bool ec = false -> mc_reader m = None ->
    transition i WantRead m Quiet Reading
      (Machine e (mc_backend m) (mc_buffer m) (Some i) (mc_writer m) (mc_workers m))
| tr_read_failed m res e result :
    receive_packet assertions (mc_buffer m) (mc_env m) = (res, e) ->
    (forall v cb buffer, res <> Packet v cb buffer) ->
    transition i Reading m ReadFailed (Ended result)
      (Machine e (mc_backend m) (mc_buffer m) None (mc_writer m) (mc_workers m))
| tr_took m v cb buffer e :
    receive_packet assertions (mc_buffer m) (mc_env m) = (Packet v cb buffer, e) ->
    transition i Reading m (Took cb) (Serving v cb)
      (Machine e (mc_backend m) buffer None (mc_writer m) (mc_workers m))
| tr_served m v cb response s :
    handle_packet srv v cb (mc_backend m) = (Respond response, s) ->
    transition i (Serving v cb) m (Served cb response) (WantWrite response)
      (Machine (mc_env m) s (mc_buffer m) (mc_reader m) (mc_writer m) (mc_workers m))
| tr_refused m v cb out s result :
    handle_packet srv v cb (mc_backend m) = (out, s) -> (forall response, out <> Respond response) ->
    transition i (Serving v cb) m (Refused cb) (Ended result)
      (Machine (mc_env m) s (mc_buffer m) (mc_reader m) (mc_writer m) (mc_workers m))
| tr_write_cancelled m response ec e :
    lock (mc_env m) = (ec, e) -> ec_bool ec = true ->
    transition i (WantWrite response) m (WriteFailed response) (Ended (Stopped ec))
      (Machine e (mc_backend m) (mc_buffer m) (mc_reader m) (mc_writer m) (mc_workers m))
| tr_write_locked m response ec e :
    lock (mc_env m) = (ec, e) -> ec_bool ec = false -> mc_writer m = None ->
    transition i (WantWrite response) m Quiet (Writing response)
      (Machine e (mc_backend m) (mc_buffer m) (mc_reader m) (Some i) (mc_workers m))
| tr_write_failed m response ec e :
    write response (mc_env m) = (ec, e) -> ec_bool ec = true ->
    transition i (Writing response) m (WriteFailed response) (Ended (Stopped ec))
      (Machine e (mc_backend m) (mc_buffer m) (mc_reader m) None (mc_workers m))
| tr_wrote m response ec e :
    write response (mc_env m) = (ec, e) -> ec_bool ec = false ->
    transition i (Writing response) m (Wrote response) LoopHead
      (Machine e (mc_backend m) (mc_buffer m) (mc_reader m) None (mc_workers m)).

(** Worker [i] is at [p] afterwards. *)
Definition with_worker (i : nat) (p : phase) (m : machine E S) : machine E S :=
  Machine (mc_env m) (mc_backend m) (mc_buffer m) (mc_reader m) (mc_writer m)
    (<[i := p]> (mc_workers m)).

(** The backend states a history goes through, one packet after the other. *)
Inductive serial : S -> list event -> S -> Prop :=
| serial_nil s : serial s [] s
| serial_served s v cb response s1 evs s2 :
    handle_packet srv v cb s = (Respond response, s1) -> serial s1 evs s2 ->
    serial s (Served cb response :: evs) s2
| serial_refused s v cb out s1 evs s2 :
    handle_packet srv v cb s = (out, s1) -> (forall response, out <> Respond response) ->
    serial s1 evs s2 -> serial s (Refused cb :: evs) s2
| serial_other s ev evs s2 :
    handled ev = [] -> serial s evs s2 -> serial s (ev :: evs) s2.

(** The frames that answer the requests of a list, executed in its order. *)
Fixpoint exec_each (l : list (Z * wire_request)) (s : S) : option (list bytes * S) :=
  match l with
  | [] => Some ([], s)
  | (id, w) :: l =>
      match exec srv w with
      | None => None
      | Some m =>
          let '(rep, s) := m s in
          match exec_each l s with
          | Some (out, s) => Some (frame (reply_body id rep) :: out, s)
          | None => None
          end
      end
  end.

End Spec.

(** ** Lemmas: the list of the workers *)

Lemma flat_map_insert {A} (f : phase -> list A) l i p q :
  l !! i = Some q -> f p ++ flat_map f l ≡ₚ f q ++ flat_map f (<[i := p]> l).
Proof.
  revert i. induction l as [|x l IH]; intros [|i] Hq; [done..| |]; cbn in *.
  - injection Hq as ->. apply Permutation_app_swap_app.
  - rewrite (Permutation_app_swap_app (f p)), (Permutation_app_swap_app (f q)).
    by apply Permutation_app_head, IH.
Qed.

Section StepLemmas.
Context {P : Platform} {E S : Type} {R : Runtime E} (srv : sftp_server S) (assertions : bool).

(** The function takes exactly the steps of the relation, or none. *)
Lemma worker_step_transition i (m m' : machine E S) ev :
  worker_step srv assertions i m = (ev, m') ->
  (ev = Quiet /\ m' = m) \/
  exists p p' m1, mc_workers m !! i = Some p /\ transition srv assertions i p m ev p' m1 /\
    mc_workers m1 = mc_workers m /\ m' = with_worker i p' m1.
Proof.
  destruct m as [e s buffer reader writer workers]. unfold worker_step.
  destruct (workers !! i) as [p|] eqn:Hp; [|intros [= <- <-]; by left].
  intros Hstep.
  assert (forall p' m1, transition srv assertions i p (Machine e s buffer reader writer workers) ev p' m1 ->
    mc_workers m1 = workers -> m' = with_worker i p' m1 ->
    (ev = Quiet /\ m' = Machine e s buffer reader writer workers) \/
    exists p p' m1, workers !! i = Some p /\
      transition srv assertions i p (Machine e s buffer reader writer workers) ev p' m1 /\
      mc_workers m1 = workers /\ m' = with_worker i p' m1) as Hdone by eauto 10.
  destruct p as [| | |v cb|response|response|result]; [..|injection Hstep as <- <-; by left];
    unfold moved in Hstep; cbn [mc_workers] in Hstep.
  - destruct (stop_requested e) as [[] e1] eqn:He; injection Hstep as <- <-;
      (eapply Hdone; [by constructor|done..]).
  - destruct (lock e) as [ec e1] eqn:He. destruct (ec_bool ec) eqn:Hec.
    { injection Hstep as <- <-. eapply Hdone; [by eapply tr_read_cancelled|done..]. }
    destruct reader; injection Hstep as <- <-; [by left|].
    eapply Hdone; [by eapply tr_read_locked|done..].
  - destruct (receive_packet assertions buffer e) as [res e1] eqn:He.
    destruct res; injection Hstep as <- <-;
      (eapply Hdone; [first [by eapply tr_took|by eapply tr_read_failed]|done..]).
  - destruct (handle_packet srv v cb s) as [out s1] eqn:He.
    destruct out; injection Hstep as <- <-;
      (eapply Hdone; [first [by eapply tr_served|by eapply tr_refused]|done..]).
  - destruct (lock e) as [ec e1] eqn:He. destruct (ec_bool ec) eqn:Hec.
    { injection Hstep as <- <-. eapply Hdone; [by eapply tr_write_cancelled|done..]. }
    destruct writer; injection Hstep as <- <-; [by left|].
    eapply Hdone; [by eapply tr_write_locked|done..].
  - destruct (write response e) as [ec e1] eqn:He. destruct (ec_bool ec) eqn:Hec;
      injection Hstep as <- <-; (eapply Hdone; [first [by eapply tr_wrote|by eapply tr_write_failed]|done..]).
Qed.

End StepLemmas.

Section RunLemmas.
Context {P : Platform} {E S : Type} {R : Runtime E} (srv : sftp_server S) (assertions : bool).

#[local] Abbreviation step := (worker_step srv assertions).
#[local] Abbreviation run := (run srv assertions).

Lemma run_cons i schedule (m : machine E S) evs m' :
  run (i :: schedule) m = (evs, m') ->
  exists ev m1 evs1, step i m = (ev, m1) /\ run schedule m1 = (evs1, m') /\ evs = ev :: evs1.
Proof.
  cbn. destruct (step i m) as [ev m1] eqn:Hs. destruct (run schedule m1) as [evs1 m2] eqn:Hr.
  intros [= <- <-]. eauto 8.
Qed.

(** A property of the state that every step keeps holds along a schedule. *)
Lemma run_invariant (I : machine E S -> Prop) schedule m evs m' :
  (forall i m ev m', step i m = (ev, m') -> I m -> I m') ->
  run schedule m = (evs, m') -> I m -> I m'.
Proof.
  intros Hstep. revert m evs. induction schedule as [|i schedule IH]; intros m evs Hr Hm.
  - by injection Hr as <- <-.
  - apply run_cons in Hr as (ev & m1 & evs1 & Hs & Hr & ->). eauto.
Qed.

(** What the workers hold and what the events bring in and take out balance. *)
Lemma run_balance {A} (f : phase -> list A) (g h : event -> list A) schedule m evs m' :
  (forall i m ev m', step i m = (ev, m') ->
     flat_map f (mc_workers m) ++ g ev ≡ₚ h ev ++ flat_map f (mc_workers m')) ->
  run schedule m = (evs, m') ->
  flat_map f (mc_workers m) ++ flat_map g evs ≡ₚ flat_map h evs ++ flat_map f (mc_workers m').
Proof.
  intros Hstep. revert m evs. induction schedule as [|i schedule IH]; intros m evs Hr.
  - injection Hr as <- <-. by rewrite app_nil_r.
  - apply run_cons in Hr as (ev & m1 & evs1 & Hs & Hr & ->). cbn [flat_map].
    rewrite app_assoc, (Hstep _ _ _ _ Hs), <- !app_assoc. by apply Permutation_app_head, IH.
Qed.

(** The same for one step: only the phase of the worker that moves counts. *)
Lemma step_balance {A} (f : phase -> list A) (g h : event -> list A) :
  g Quiet = [] -> h Quiet = [] ->
  (forall i p m ev p' m', transition srv assertions i p m ev p' m' -> f p ++ g ev ≡ₚ h ev ++ f p') ->
  forall i m ev m', step i m = (ev, m') ->
  flat_map f (mc_workers m) ++ g ev ≡ₚ h ev ++ flat_map f (mc_workers m').
Proof.
  intros Hg Hh Htr i m ev m' Hs.
  apply worker_step_transition in Hs as [[-> ->]|(p & p' & m1 & Hp & Ht & Hm1 & ->)].
  - by rewrite Hg, Hh, app_nil_r.
  - cbn. rewrite Hm1. apply (Permutation_app_inv_l (f p')).
    rewrite app_assoc, (flat_map_insert f _ _ p' p Hp), <- app_assoc.
    rewrite (Permutation_app_comm _ (g ev)), app_assoc, (Htr _ _ _ _ _ _ Ht).
    rewrite <- app_assoc. apply Permutation_app_swap_app.
Qed.

Lemma packets_balance schedule (m : machine E S) evs m' :
  run schedule m = (evs, m') ->
  flat_map in_service (mc_workers m) ++ flat_map took evs
  ≡ₚ flat_map handled evs ++ flat_map in_service (mc_workers m').
Proof.
  apply run_balance, step_balance; [done..|]. by intros i p m0 ev p' m1 [].
Qed.

Lemma replies_balance schedule (m : machine E S) evs m' :
  run schedule m = (evs, m') ->
  flat_map in_reply (mc_workers m) ++ flat_map replied evs
  ≡ₚ flat_map settled evs ++ flat_map in_reply (mc_workers m').
Proof.
  apply run_balance, step_balance; [done..|]. by intros i p m0 ev p' m1 [].
Qed.

Lemma run_serial schedule (m : machine E S) evs m' :
  run schedule m = (evs, m') -> serial srv (mc_backend m) evs (mc_backend m').
Proof.
  revert m evs. induction schedule as [|i schedule IH]; intros m evs Hr.
  - injection Hr as <- <-. constructor.
  - apply run_cons in Hr as (ev & m1 & evs1 & Hs & Hr & ->). apply IH in Hr.
    apply worker_step_transition in Hs as [[-> ->]|(p & p' & m2 & _ & Ht & _ & ->)];
      [by apply serial_other|].
    destruct Ht; cbn in Hr; first [by apply serial_other|by eapply serial_served|by eapply serial_refused].
Qed.

(** The mutexes are held by the workers that read and write, and by no other. *)
Definition locks_held (m : machine E S) : Prop :=
  (forall j, mc_reader m = Some j <-> is_reading <$> mc_workers m !! j = Some true) /\
  (forall j, mc_writer m = Some j <-> is_writing <$> mc_workers m !! j = Some true).

Lemma step_locks i (m : machine E S) ev m' :
  step i m = (ev, m') -> locks_held m -> locks_held m'.
Proof.
  intros Hs [Hr Hw].
  apply worker_step_transition in Hs as [[-> ->]|(p & p' & m1 & Hp & Ht & Hm1 & ->)]; [done|].
  pose proof (lookup_lt_Some _ _ _ Hp) as Hlt.
  pose proof (Hr i) as Hri. pose proof (Hw i) as Hwi. rewrite Hp in Hri, Hwi. cbn in Hri, Hwi.
  split; intros j; cbn [with_worker mc_reader mc_writer mc_workers]; rewrite Hm1;
    (destruct (decide (i = j)) as [<-|Hne];
      [rewrite list_lookup_insert_eq by done; cbn; destruct Ht; cbn in *; naive_solver
      |rewrite list_lookup_insert_ne by done]);
    specialize (Hr j); specialize (Hw j); destruct Ht; cbn in *; naive_solver.
Qed.

End RunLemmas.

Section ConnectionLemmas.
Context {P : Platform} {E S : Type} {R : Runtime E} {L : RuntimeLaws E}
  (srv : sftp_server S) (assertions : bool).

Lemma receive_packet_outgoing buffer e res e' :
  receive_packet assertions buffer e = (res, e') -> outgoing e' = outgoing e.
Proof.
  unfold receive_packet, st_bind, st_ret. destruct (read_until buffer e) as [[[ec n] v] e1] eqn:Hr.
  intros [= _ <-]. apply read_until_law in Hr. naive_solver.
Qed.

(** One step takes a whole frame off the connection, or none of it. *)
Lemma step_stream i (m : machine E S) ev m' :
  worker_step srv assertions i m = (ev, m') -> read_failed ev = false ->
  zlen (mc_buffer m ++ incoming (mc_env m)) < 2 ^ 32 ->
  mc_buffer m ++ incoming (mc_env m)
  = concat (map frame (took ev)) ++ mc_buffer m' ++ incoming (mc_env m').
Proof.
  intros Hs Hf Hz.
  apply worker_step_transition in Hs as [[-> ->]|(p & p' & m1 & _ & Ht & _ & ->)]; [done|].
  destruct Ht as [m e He|m e He|m ec e He _|m ec e He _ _|m res e result He _|m v cb buffer e He
    |m v cb r s _|m v cb out s result _ _|m r ec e He _|m r ec e He _ _|m r ec e He _|m r ec e He _];
    cbn [with_worker mc_buffer mc_env took map concat app].
  1, 2: apply stop_law in He as [-> _]; done.
  1, 2, 7, 8: apply lock_law in He as [-> _]; done.
  - done.
  - apply receive_packet_splits in He as (-> & _ & _); [|done]. by rewrite app_nil_r.
  - done.
  - done.
  - apply write_law in He as [-> _]. done.
  - apply write_law in He as [-> _]. done.
Qed.

(** One step writes a whole reply or nothing. *)
Lemma step_outgoing i (m : machine E S) ev m' :
  worker_step srv assertions i m = (ev, m') -> unsent ev = [] ->
  outgoing (mc_env m') = outgoing (mc_env m) ++ concat (wrote ev).
Proof.
  intros Hs Hu.
  apply worker_step_transition in Hs as [[-> ->]|(p & p' & m1 & _ & Ht & _ & ->)];
    [by rewrite app_nil_r|].
  destruct Ht as [m e He|m e He|m ec e He _|m ec e He _ _|m res e result He _|m v cb buffer e He
    |m v cb r s _|m v cb out s result _ _|m r ec e He _|m r ec e He _ _|m r ec e He _|m r ec e He Hok];
    cbn [with_worker mc_env wrote concat] in *; rewrite ?app_nil_r; try done.
  1, 2: by apply stop_law in He as [_ ->].
  1, 2, 5: by apply lock_law in He as [_ ->].
  1, 2: by apply receive_packet_outgoing in He.
  apply write_law in He as [_ He]. by apply He.
Qed.

Lemma run_stream schedule (m : machine E S) evs m' :
  run srv assertions schedule m = (evs, m') -> existsb read_failed evs = false ->
  zlen (mc_buffer m ++ incoming (mc_env m)) < 2 ^ 32 ->
  mc_buffer m ++ incoming (mc_env m)
  = concat (map frame (flat_map took evs)) ++ mc_buffer m' ++ incoming (mc_env m').
Proof.
  revert m evs. induction schedule as [|i schedule IH]; intros m evs Hr Hf Hz.
  - by injection Hr as <- <-.
  - apply run_cons in Hr as (ev & m1 & evs1 & Hs & Hr & ->). cbn in Hf.
    apply orb_false_iff in Hf as [Hf1 Hf]. pose proof (step_stream _ _ _ _ Hs Hf1 Hz) as Heq.
    cbn [flat_map]. rewrite map_app, concat_app, <- app_assoc, Heq. f_equal. apply IH; [done..|].
    rewrite Heq, zlen_app in Hz. pose proof (zlen_nonneg (concat (map frame (took ev)))). lia.
Qed.

Lemma run_outgoing schedule (m : machine E S) evs m' :
  run srv assertions schedule m = (evs, m') -> flat_map unsent evs = [] ->
  outgoing (mc_env m') = outgoing (mc_env m) ++ concat (flat_map wrote evs).
Proof.
  revert m evs. induction schedule as [|i schedule IH]; intros m evs Hr Hu.
  - injection Hr as <- <-. by rewrite app_nil_r.
  - apply run_cons in Hr as (ev & m1 & evs1 & Hs & Hr & ->). cbn in Hu.
    apply app_eq_nil in Hu as [Hu1 Hu]. cbn [flat_map].
    rewrite (IH _ _ Hr Hu), (step_outgoing _ _ _ _ Hs Hu1), concat_app. by rewrite app_assoc.
Qed.

End ConnectionLemmas.

Section ReadyLemmas.
Context {P : Platform} {E S : Type} {R : Runtime E} (srv : sftp_server S) (assertions : bool).

Lemma serve_workers_locks n (e : E) (s : S) : locks_held (serve_workers n e s).
Proof.
  split; intros j; cbn [serve_workers mc_reader mc_writer mc_workers];
    (split; [done|]); intros Hj; destruct (replicate _ LoopHead !! j) as [p|] eqn:Hp; try done;
    apply lookup_replicate in Hp as [-> _]; done.
Qed.

Lemma worker_count_run schedule (m : machine E S) evs m' :
  run srv assertions schedule m = (evs, m') -> length (mc_workers m') = length (mc_workers m).
Proof.
  intros Hr. apply (run_invariant srv assertions
    (fun x => length (mc_workers x) = length (mc_workers m)) schedule m evs); [|done|done].
  intros i x ev x' Hs Hx. rewrite <- Hx.
  apply worker_step_transition in Hs as [[-> ->]|(p & p' & m1 & _ & _ & Hm1 & ->)]; [done|].
  cbn. by rewrite length_insert, Hm1.
Qed.

(** A worker that waits does so because another one can run. *)
Lemma someone_ready i p (m : machine E S) :
  locks_held m -> mc_workers m !! i = Some p -> has_ended p = false -> exists j, ready j m = true.
Proof.
  intros [Hr Hw] Hp Hend. unfold ready.
  destruct p as [| | | |response|response|]; try done; try (exists i; by rewrite Hp).
  - destruct (mc_reader m) as [j|] eqn:Hm; [|exists i; by rewrite Hp].
    exists j. pose proof (proj1 (Hr j) eq_refl) as Hj. by destruct (mc_workers m !! j) as [[]|].
  - destruct (mc_writer m) as [j|] eqn:Hm; [|exists i; by rewrite Hp].
    exists j. pose proof (proj1 (Hw j) eq_refl) as Hj. by destruct (mc_workers m !! j) as [[]|].
Qed.

(** A worker that can run leaves its suspension point. *)
Lemma ready_moves i (m : machine E S) :
  ready i m = true ->
  mc_workers (snd (worker_step srv assertions i m)) !! i <> mc_workers m !! i.
Proof.
  destruct m as [e s buffer reader writer workers]. unfold ready, worker_step.
  cbn [mc_workers mc_reader mc_writer]. destruct (workers !! i) as [p|] eqn:Hp; [|done].
  pose proof (lookup_lt_Some _ _ _ Hp) as Hlt. unfold moved. cbn [mc_workers].
  destruct p as [| | |v cb|response|response|result]; try done; intros Hready.
  - destruct (stop_requested e) as [[] e1]; cbn; by rewrite list_lookup_insert_eq by done.
  - destruct (lock e) as [ec e1]. destruct (ec_bool ec); [|destruct reader; [done|]]; cbn;
      by rewrite list_lookup_insert_eq by done.
  - destruct (receive_packet assertions buffer e) as [[] e1]; cbn;
      by rewrite list_lookup_insert_eq by done.
  - destruct (handle_packet srv v cb s) as [[] s1]; cbn; by rewrite list_lookup_insert_eq by done.
  - destruct (lock e) as [ec e1]. destruct (ec_bool ec); [|destruct writer; [done|]]; cbn;
      by rewrite list_lookup_insert_eq by done.
  - destruct (write response e) as [ec e1]. destruct (ec_bool ec); cbn;
      by rewrite list_lookup_insert_eq by done.
Qed.

End ReadyLemmas.

(** ** Lemmas: a peer that sends requests *)

Section ServeAll.
Context {P : Platform} {S : Type} (srv : sftp_server S) (assertions : bool).

(** A request the workers can execute, and its packet. *)
Definition servable (r : Z * wire_request) : Prop := request_ok r /\ exec srv (snd r) <> None.
Definition packet_of (r : Z * wire_request) : bytes := wire_body (fst r) (snd r).

(** The requests [rest] are still to come, every packet in service is one of a
    request, and a worker has ended only because nothing is to come. *)
Definition serving_well (m : machine script S) (rest : list (Z * wire_request)) : Prop :=
  mc_buffer m ++ concat (sc_chunks (mc_env m)) = requests_bytes rest /\
  Forall servable rest /\
  (forall i p, mc_workers m !! i = Some p ->
     match p with
     | Serving _ cb => exists r, servable r /\ cb = packet_of r
     | Ended _ => rest = []
     | _ => True
     end).

Lemma serving_well_update i p m m1 rest rest1 :
  serving_well m rest -> mc_workers m1 = mc_workers m ->
  mc_buffer m1 ++ concat (sc_chunks (mc_env m1)) = requests_bytes rest1 ->
  suffix rest1 rest ->
  match p with
  | Serving _ cb => exists r, servable r /\ cb = packet_of r
  | Ended _ => rest1 = []
  | _ => True
  end -> serving_well (with_worker i p m1) rest1.
Proof.
  intros (_ & Hall & Hph) Hw Hb [taken ->] Hp. split_and!; [done| |].
  - by apply Forall_app in Hall as [_ ?].
  - intros j q. cbn. rewrite Hw. destruct (decide (i = j)) as [<-|Hne].
    + intros Hj. pose proof (lookup_lt_Some _ _ _ Hj) as Hlt. rewrite length_insert in Hlt.
      rewrite list_lookup_insert_eq in Hj by done. by injection Hj as <-.
    + rewrite list_lookup_insert_ne by done. intros Hj. specialize (Hph j q Hj).
      destruct q; try done. by apply app_eq_nil in Hph as [_ ?].
Qed.

(** The next packet of such a peer. *)
Lemma next_packet (m : machine script S) res e rest :
  mc_buffer m ++ concat (sc_chunks (mc_env m)) = requests_bytes rest -> Forall servable rest ->
  receive_packet assertions (mc_buffer m) (mc_env m) = (res, e) ->
  (rest = [] /\ (forall v cb buffer, res <> Packet v cb buffer) /\
     mc_buffer m ++ concat (sc_chunks e) = []) \/
  exists r rest1 v buffer, rest = r :: rest1 /\ res = Packet v (packet_of r) buffer /\
    buffer ++ concat (sc_chunks e) = requests_bytes rest1.
Proof.
  intros Hb Hall. destruct m as [[chunks written fin] s buffer rd wr ws]. cbn in Hb |- *.
  destruct rest as [|[id w] rest].
  - apply app_eq_nil in Hb as [-> Hc]. unfold receive_packet, st_bind, st_ret.
    cbn [read_until script_runtime sc_chunks sc_written sc_end].
    rewrite script_read_empty by done. rewrite ec_bool_make. intros [= <- <-]. by left.
  - apply Forall_cons in Hall as [[[Hid Hw] _] _]. cbn in Hid, Hw.
    change (requests_bytes ((id, w) :: rest)) with (frame (wire_body id w) ++ requests_bytes rest) in Hb.
    pose proof (wire_body_fits id w Hw) as Hz. pose proof (zlen_nonneg (wire_fields w)).
    destruct (receive_packet_script assertions buffer chunks written fin (wire_body id w)
      (requests_bytes rest)) as (chunks' & buffer' & v & Hread & _ & Hrest);
      [rewrite zlen_wire_body in *; lia|done|].
    rewrite Hread. intros [= <- <-]. right. by exists (id, w), rest, v, buffer'.
Qed.

(** What a worker answers to a packet in service. *)
Lemma serve_request r v s :
  backend_fits srv -> servable r ->
  exists m rep s', exec srv (snd r) = Some m /\ m s = (rep, s') /\
    handle_packet srv v (packet_of r) s = (Respond (frame (reply_body (fst r) rep)), s').
Proof.
  intros Hfit [[Hid Hw] Hex]. destruct (exec srv (snd r)) as [m|] eqn:Hm; [|done].
  assert (reply_fits (fst (m s))) as Hf by (apply Hfit; right; eauto).
  pose proof (handle_exec srv v (fst r) (snd r) [] m s Hid Hw Hm Hf) as Hh.
  rewrite app_nil_r in Hh. destruct (m s) as [rep s'] eqn:Hms. exists m, rep, s'. split_and!; [done..|].
  unfold packet_of. rewrite Hh. unfold reports, st_bind, st_ret. by rewrite Hms.
Qed.

Lemma step_serving i m ev m' rest :
  backend_fits srv -> serving_well m rest -> worker_step srv assertions i m = (ev, m') ->
  exists taken rest', rest = taken ++ rest' /\ serving_well m' rest' /\
    took ev = map packet_of taken /\ unsent ev = [] /\ refused_packet ev = [].
Proof.
  intros Hfit Hm Hs. pose proof Hm as (Hb & Hall & Hph).
  apply worker_step_transition in Hs as [[-> ->]|(p & p' & m1 & Hp & Ht & Hm1 & ->)];
    [by exists [], rest|].
  specialize (Hph i p Hp).
  destruct Ht as [m e He|m e He|m ec e He Hec|m ec e He _ _|m res e result He Hres|m v cb buffer e He
    |m v cb r s Hh|m v cb out s result Hh Hno|m r ec e He Hec|m r ec e He _ _|m r ec e He Hec|m r ec e He _].
  all: try (cbn in He; first [discriminate He|injection He as <- <-; done]).
  all: try (cbn in He; first [injection He as <- <-|injection He as <-]; exists [], rest; split_and!; try done;
            by eapply serving_well_update).
  - destruct (next_packet m res e rest Hb Hall He) as [(-> & _ & Hnil)|(r & rest1 & v & b & -> & -> & _)];
      [|by exfalso; eapply Hres].
    exists [], []. split_and!; try done. by eapply serving_well_update.
  - destruct (next_packet m _ e rest Hb Hall He) as [(_ & Hno & _)|(r & rest1 & v1 & b & -> & [= -> -> ->] & Hr)];
      [by exfalso; eapply Hno|].
    exists [r], rest1. split_and!; try done. eapply serving_well_update; [done..|by exists [r]|].
    exists r. split; [|done]. by apply Forall_cons in Hall as [? _].
  - exists [], rest. split_and!; try done. by eapply serving_well_update.
  - destruct Hph as (r & Hr & ->). destruct (serve_request r v (mc_backend m) Hfit Hr)
      as (mm & rep & s' & _ & _ & Hh'). rewrite Hh in Hh'. injection Hh' as -> _. by exfalso; eapply Hno.
Qed.

Lemma run_serving schedule m evs m' rest :
  backend_fits srv -> serving_well m rest -> run srv assertions schedule m = (evs, m') ->
  exists taken rest', rest = taken ++ rest' /\ serving_well m' rest' /\
    flat_map took evs = map packet_of taken /\ flat_map unsent evs = [] /\
    flat_map refused_packet evs = [].
Proof.
  intros Hfit. revert m evs rest. induction schedule as [|i schedule IH]; intros m evs rest Hm Hr.
  - injection Hr as <- <-. by exists [], rest.
  - apply run_cons in Hr as (ev & m1 & evs1 & Hs & Hr & ->).
    destruct (step_serving i m ev m1 rest Hfit Hm Hs) as (t1 & rest1 & -> & H1 & Ht1 & Hu1 & Hf1).
    destruct (IH m1 evs1 rest1 H1 Hr) as (t2 & rest2 & -> & H2 & Ht2 & Hu2 & Hf2).
    exists (t1 ++ t2), rest2. cbn [flat_map]. rewrite Ht1, Ht2, Hu1, Hu2, Hf1, Hf2, map_app, app_assoc.
    done.
Qed.

(** A history without refusals executes its packets one after the other. *)
Lemma serial_exec s evs s' l :
  backend_fits srv -> serial srv s evs s' -> flat_map refused_packet evs = [] ->
  flat_map handled evs = map packet_of l -> Forall servable l ->
  exec_each srv l s = Some (flat_map replied evs, s').
Proof.
  intros Hfit Hser. revert l. induction Hser as [s|s v cb response s1 evs s2 Hh _ IH|s v cb out s1 evs s2 _ _ _ _
    |s ev evs s2 Hev _ IH]; intros l Hno Hl Hall; cbn in Hno, Hl; [|..|done|].
  - by destruct l.
  - destruct l as [|[id w] l]; [done|]. injection Hl as Hcb Hl.
    apply Forall_cons in Hall as [Hr Hall].
    destruct (serve_request (id, w) v s Hfit Hr) as (mm & rep & s' & Hex & Hms & Hh').
    rewrite Hcb, Hh' in Hh. injection Hh as <- <-. cbn in Hex |- *. rewrite Hex, Hms.
    by rewrite (IH l Hno Hl Hall).
  - destruct ev; try done; apply IH; done.
Qed.

End ServeAll.

(** ** Lemmas: idle workers *)

Lemma flat_map_replicate_nil {A} (f : phase -> list A) n p :
  f p = [] -> flat_map f (replicate n p) = [].
Proof. intros Hf. induction n as [|n IH]; [done|]. cbn. by rewrite Hf, IH. Qed.

Lemma all_ended_idle l :
  forallb has_ended l = true -> flat_map in_service l = [] /\ flat_map in_reply l = [].
Proof.
  induction l as [|p l IH]; [done|]. cbn. intros [Hp Hl]%andb_true_iff.
  destruct (IH Hl) as [-> ->]. by destruct p.
Qed.

Lemma forallb_false_lookup {A} (f : A -> bool) l :
  forallb f l = false -> exists i x, l !! i = Some x /\ f x = false.
Proof.
  induction l as [|x l IH]; [done|]. cbn. intros [Hx|Hl]%andb_false_iff.
  - by exists 0%nat, x.
  - destruct (IH Hl) as (i & y & Hy & Hf). by exists (Datatypes.S i), y.
Qed.

Lemma settled_wrote evs : flat_map unsent evs = [] -> flat_map settled evs = flat_map wrote evs.
Proof.
  induction evs as [|ev evs IH]; [done|]. cbn. intros [Hu Hus]%app_eq_nil. rewrite (IH Hus).
  by destruct ev.
Qed.

(** ** Properties *)

Section Properties.
Context {P : Platform} {E S : Type} {R : Runtime E} (srv : sftp_server S) (assertions : bool).


(** C18: The mutexes exclude each other's workers and do not deadlock: in every
    state the workers can reach, at most one of them reads and at most one
    writes, and as long as one has not ended, some worker can run, which takes
    it off its suspension point. *)
Theorem workers_locks n (e : E) (s : S) schedule evs m :
  run srv assertions schedule (serve_workers n e s) = (evs, m) ->
  (forall i j, mc_workers m !! i = Some Reading -> mc_workers m !! j = Some Reading -> i = j) /\
  (forall i j r1 r2, mc_workers m !! i = Some (Writing r1) -> mc_workers m !! j = Some (Writing r2) -> i = j) /\
  (forallb has_ended (mc_workers m) = false -> exists i, ready i m = true /\
     mc_workers (snd (worker_step srv assertions i m)) !! i <> mc_workers m !! i).
Proof.
  intros Hr.
  assert (locks_held m) as Hl.
  { eapply run_invariant; [|exact Hr|apply serve_workers_locks]. intros. by eapply step_locks. }
  pose proof Hl as [Hrd Hwr]. split_and!.
  - intros i j Hi Hj. assert (mc_reader m = Some i) as H1 by (apply Hrd; by rewrite Hi).
    assert (mc_reader m = Some j) as H2 by (apply Hrd; by rewrite Hj). congruence.
  - intros i j r1 r2 Hi Hj. assert (mc_writer m = Some i) as H1 by (apply Hwr; by rewrite Hi).
    assert (mc_writer m = Some j) as H2 by (apply Hwr; by rewrite Hj). congruence.
  - intros Hend. apply forallb_false_lookup in Hend as (i & p & Hp & Hn).
    destruct (someone_ready i p m Hl Hp Hn) as [j Hj]. exists j. split; [done|by apply ready_moves].
Qed.

(** One worker alone is the coroutine [serve_worker]: six steps of the
    machine are one round of its loop, ending included. *)
Theorem single_worker (e : E) (s : S) buffer :
  snd (run srv assertions (replicate 6 0%nat) (Machine e s buffer None None [LoopHead]))
  = match serve_worker srv assertions (ServeState e s buffer) with
    | Again st => Machine (sv_env st) (sv_backend st) (sv_buffer st) None None [LoopHead]
    | Return r st => Machine (sv_env st) (sv_backend st) (sv_buffer st) None None [Ended r]
    end.
Proof.
  unfold serve_worker. cbn [sv_env sv_backend sv_buffer].
  destruct (stop_requested e) as [[] e1] eqn:H1; [by cbn; rewrite H1|].
  destruct (lock e1) as [l e2] eqn:H2. destruct (ec_bool l) eqn:H2l;
    [by cbn; rewrite H1; cbn; rewrite H2, H2l|].
  destruct (receive_packet assertions buffer e2) as [res e3] eqn:H3.
  destruct res as [ec| | |v cb b];
    [by cbn; rewrite H1; cbn; rewrite H2, H2l; cbn; rewrite H3..|].
  destruct (handle_packet srv v cb s) as [out s1] eqn:H4.
  destruct out as [response|ec|];
    [|by cbn; rewrite H1; cbn; rewrite H2, H2l; cbn; rewrite H3; cbn; rewrite H4..].
  unfold send_response. cbn [sv_env sv_backend sv_buffer].
  destruct (lock e3) as [ll e4] eqn:H5. destruct (ec_bool ll) eqn:H5l;
    [by cbn; rewrite H1; cbn; rewrite H2, H2l; cbn; rewrite H3; cbn; rewrite H4; cbn; rewrite H5, H5l|].
  destruct (write response e4) as [ec e5] eqn:H6. destruct (ec_bool ec) eqn:H6l;
    by cbn; rewrite H1; cbn; rewrite H2, H2l; cbn; rewrite H3; cbn; rewrite H4; cbn; rewrite H5, H5l;
      cbn; rewrite H6, H6l.
Qed.

End Properties.

Section Serve.
Context {P : Platform} {S : Type} (srv : sftp_server S) (assertions : bool).

(** On a connection to which something has been written already. *)
Lemma workers_serve_requests n l s chunks written fin schedule evs m :
  Forall (servable srv) l -> backend_fits srv -> concat chunks = requests_bytes l ->
  run srv assertions schedule (serve_workers n (Script chunks written fin) s) = (evs, m) ->
  forallb has_ended (mc_workers m) = true ->
  exists l' out out', l' ≡ₚ l /\ exec_each srv l' s = Some (out, mc_backend m) /\
    out' ≡ₚ out /\ sc_written (mc_env m) = written ++ concat out'.
Proof.
  intros Hall Hfit Hc Hr Hend.
  assert (serving_well srv (serve_workers n (Script chunks written fin) s) l) as H0.
  { split_and!; [done..|]. intros i p Hp. by apply lookup_replicate in Hp as [-> _]. }
  destruct (run_serving srv assertions schedule _ _ _ _ Hfit H0 Hr)
    as (taken & rest & -> & (_ & _ & Hph) & Ht & Hu & Hf).
  assert (rest = []) as ->.
  { pose proof (worker_count_run srv assertions schedule _ _ _ Hr) as Hlen. cbn in Hlen.
    destruct (mc_workers m) as [|p ws] eqn:Hws; [done|]. specialize (Hph 0%nat p eq_refl).
    cbn in Hend. apply andb_true_iff in Hend as [Hp _]. by destruct p. }
  rewrite app_nil_r in *.
  pose proof (packets_balance srv assertions schedule _ _ _ Hr) as Hpk.
  pose proof (replies_balance srv assertions schedule _ _ _ Hr) as Hrp.
  pose proof (run_outgoing srv assertions schedule _ _ _ Hr Hu) as Hout.
  destruct (all_ended_idle _ Hend) as [Hi1 Hi2]. cbn [serve_workers mc_workers mc_env] in *.
  rewrite flat_map_replicate_nil in Hpk, Hrp by done. rewrite Hi1, app_nil_r in Hpk.
  rewrite Hi2, app_nil_r, (settled_wrote _ Hu) in Hrp. cbn [app] in Hpk, Hrp. rewrite Ht in Hpk.
  symmetry in Hpk. destruct (Permutation_map_inv _ _ Hpk) as (l' & Hl' & Hperm).
  exists l', (flat_map replied evs), (flat_map wrote evs). split_and!; [done| |done|exact Hout].
  eapply (serial_exec srv s evs); [done| |done|exact Hl'|by rewrite <- Hperm].
  exact (run_serial srv assertions schedule _ _ _ Hr).
Qed.

(** C3: All the workers together answer a peer's requests as if executed one
    after the other: when the peer sends any requests (no read among them), cut
    into chunks in any way, and the workers run in any order until all have
    ended, then the requests were executed in some order, each exactly once,
    the backend is as that order leaves it, and what was sent are the replies
    of that execution, each as one whole frame, in some order. *)
Theorem workers_serve_all n l s chunks fin schedule evs m :
  Forall (servable srv) l -> backend_fits srv -> concat chunks = requests_bytes l ->
  run srv assertions schedule (serve_workers n (Script chunks [] fin) s) = (evs, m) ->
  forallb has_ended (mc_workers m) = true ->
  exists l' out out', l' ≡ₚ l /\ exec_each srv l' s = Some (out, mc_backend m) /\
    out' ≡ₚ out /\ sc_written (mc_env m) = concat out'.
Proof. exact (workers_serve_requests n l s chunks [] fin schedule evs m). Qed.

End Serve.

(** ** Witnesses *)

(** Two workers: the second takes its packet after the first, and replies
    before it. *)
Definition demo_schedule : list nat :=
  [0; 0; 0; 1; 1; 1; 1; 1; 1; 0; 0; 0; 0; 0; 0; 1; 1; 1; 0; 0; 0]%nat.
Definition demo_workers : list event * machine script unit :=
  run null_server true demo_schedule (serve_workers 1 (Script demo_chunks [] io_error) ()).

Example demo_overtakes :
  map (take 1 ∘ drop 8) (flat_map wrote (fst demo_workers)) = [[Byte.x01]; [Byte.x00]] /\
  map (drop 4 ∘ take 5) (flat_map took (fst demo_workers)) = [[Byte.x00]; [Byte.x01]].
Proof. vm_compute. split; reflexivity. Qed.

Lemma demo_workers_run :
  run null_server true demo_schedule (serve_workers 1 (Script demo_chunks [] io_error) ())
  = (fst demo_workers, snd demo_workers).
Proof. apply surjective_pairing. Qed.


(** The first worker reads, the second waits for the mutex. *)
Theorem workers_locks_witness :
  exists i, ready i (snd (run null_server true [0; 0; 1; 1]%nat
    (serve_workers 1 (Script demo_chunks [] io_error) ()))) = true.
Proof.
  destruct (workers_locks null_server true 1 (Script demo_chunks [] io_error) () [0; 0; 1; 1]%nat
    _ _ (surjective_pairing _)) as (_ & _ & Hready).
  destruct Hready as (i & Hi & _); [by vm_compute|]. exists i. exact Hi.
Defined.

Theorem workers_serve_all_witness :
  exists l' out out', l' ≡ₚ demo_requests /\
    exec_each null_server l' () = Some (out, mc_backend (snd demo_workers)) /\ out' ≡ₚ out /\
    sc_written (mc_env (snd demo_workers)) = concat out'.
Proof.
  assert (Forall (servable null_server) demo_requests) as Hl by (repeat constructor; by vm_compute).
  assert (concat demo_chunks = requests_bytes demo_requests) as Hc by by vm_compute.
  assert (forallb has_ended (mc_workers (snd demo_workers)) = true) as He by by vm_compute.
  exact (workers_serve_all null_server true 1 demo_requests () demo_chunks io_error demo_schedule
    _ _ Hl null_server_fits Hc demo_workers_run He).
Defined.
