(* ===== verification/Serve.v ===== *)
(** * Serve: [sftp::serve] ([src/sftp.cpp] 2453-2475), the handshake and the workers

    [serve] puts [init_server] and the machine of [Workers] together.  The
    schedule says how the executor runs the workers; [when_any] is what capy
    makes of the ends of the workers: the error of its first alternative, or one
    of the others.

    [workers_end] shows that the workers end over any runtime.
    [serve_connection] is the connection as a whole. *)

From S2P Require Import Prelude Libssh ErrorCode Codec Stream Requests Responses Server.
From S2P Require Import Backends ServerSpec ServerSession Workers.

#[local] Open Scope Z_scope.

(** ** The function *)

Section Serve.
Context {P : Platform} {E S : Type} {R : Runtime E} (srv : sftp_server S) (assertions : bool).
Context (when_any : list phase -> option error_code).

Inductive served :=
| HandshakeFailed (ec : error_code) (e : E)
| WorkersRan (ec : error_code) (history : list event) (m : machine E S).

Definition serve (extensions : list (bytes * bytes)) (worker_count : nat) (schedule : list nat)
    (e : E) (s : S) : served :=
  let '(ec, e) := init_server extensions e in
  if ec_bool ec then HandshakeFailed ec e
  else
    let '(evs, m) := run srv assertions schedule (serve_workers worker_count e s) in
    WorkersRan (default no_error (when_any (mc_workers m))) evs m.

End Serve.
Arguments HandshakeFailed {E S}.
Arguments WorkersRan {E S}.

(** ** Specification *)

Section Progress.
Context {P : Platform} {E S : Type} {R : Runtime E} (srv : sftp_server S) (assertions : bool).

(** Every step of the schedule runs a worker that can run. *)
Fixpoint progressing (schedule : list nat) (m : machine E S) : bool :=
  match schedule with
  | [] => true
  | i :: rest => ready i m && progressing rest (snd (worker_step srv assertions i m))
  end.

(** How many suspension points a worker can still pass without another packet. *)
Definition phase_weight (p : phase) : Z :=
  match p with
  | Ended _ => 0 | Reading => 1 | WantRead => 2 | LoopHead => 3
  | Writing _ => 4 | WantWrite _ => 5 | Serving _ _ => 6
  end.

Fixpoint weights (l : list phase) : Z :=
  match l with [] => 0 | p :: l => phase_weight p + weights l end.

(** Every packet takes four bytes or more off the connection. *)
Definition work_left {L : RuntimeLaws E} (m : machine E S) : Z :=
  2 * zlen (mc_buffer m ++ incoming (mc_env m)) + weights (mc_workers m).

End Progress.

(** ** Lemmas: the workers end *)

Lemma phase_weight_nonneg p : 0 <= phase_weight p.
Proof. by destruct p. Qed.

Lemma weights_nonneg l : 0 <= weights l.
Proof. induction l as [|p l IH]; cbn; [done|]. pose proof (phase_weight_nonneg p). lia. Qed.

Lemma weights_insert l i p q :
  l !! i = Some q -> weights (<[i := p]> l) = weights l - phase_weight q + phase_weight p.
Proof.
  revert i. induction l as [|x l IH]; intros [|i] Hq; [done..| |].
  - injection Hq as ->. cbn. lia.
  - change (<[S i := p]> (x :: l)) with (x :: <[i := p]> l). cbn. rewrite (IH i Hq). lia.
Qed.

Lemma weights_replicate n : weights (replicate n LoopHead) = 3 * Z.of_nat n.
Proof. induction n as [|n IH]; [done|]. cbn [replicate weights phase_weight]. rewrite IH. lia. Qed.

Section End_.
Context {P : Platform} {E S : Type} {R : Runtime E} {L : RuntimeLaws E}
  (srv : sftp_server S) (assertions : bool).

Lemma receive_packet_shrinks buffer e res e' :
  receive_packet assertions buffer e = (res, e') ->
  zlen (incoming e') <= zlen (incoming e) /\
  forall v cb buffer', res = Packet v cb buffer' ->
    zlen (buffer' ++ incoming e') + 4 <= zlen (buffer ++ incoming e).
Proof.
  unfold receive_packet, st_bind, st_ret. destruct (read_until buffer e) as [[[ec n] w] e1] eqn:Hr.
  intros [= <- <-]. apply read_until_law in Hr as (got & Hv & Hin & _). rewrite Hin, zlen_app.
  pose proof (zlen_nonneg got). split; [lia|]. intros v cb buffer' Hp.
  destruct (ec_bool ec); [done|]. destruct (assertions && _); [done|].
  pose proof (be_decode_range (take 4 (v_data w))) as Hn.
  destruct (Z.ltb_spec (zlen (v_data w)) (be_decode (take 4 (v_data w)) + 4)) as [|Hle]; [done|].
  injection Hp as _ _ <-. apply (f_equal zlen) in Hv. rewrite zlen_app in Hv.
  rewrite !zlen_app. unfold zlen in *. rewrite length_drop. lia.
Qed.

Lemma step_work i (m m' : machine E S) ev :
  worker_step srv assertions i m = (ev, m') -> m' = m \/ work_left m' < work_left m.
Proof.
  intros Hs.
  apply worker_step_transition in Hs as [[_ ->]|(p & p' & m1 & Hp & Ht & Hm1 & ->)]; [by left|right].
  unfold work_left. cbn [with_worker mc_workers mc_buffer mc_env]. rewrite Hm1, (weights_insert _ _ _ _ Hp).
  destruct Ht as [m e He|m e He|m ec e He _|m ec e He _ _|m res e result He _|m v cb buffer e He
    |m v cb r s _|m v cb out s result _ _|m r ec e He _|m r ec e He _ _|m r ec e He _|m r ec e He _];
    cbn [mc_buffer mc_env phase_weight].
  1, 2: apply stop_law in He as [-> _]; lia.
  1, 2, 7, 8: apply lock_law in He as [-> _]; lia.
  - apply receive_packet_shrinks in He as [He _]. rewrite !zlen_app. lia.
  - apply receive_packet_shrinks in He as [_ He]. specialize (He _ _ _ eq_refl). lia.
  - lia.
  - lia.
  - apply write_law in He as [-> _]. lia.
  - apply write_law in He as [-> _]. lia.
Qed.

Lemma ready_work i (m : machine E S) :
  ready i m = true -> work_left (snd (worker_step srv assertions i m)) < work_left m.
Proof.
  intros Hready. pose proof (ready_moves srv assertions i m Hready) as Hm.
  destruct (worker_step srv assertions i m) as [ev m'] eqn:Hs. cbn [snd] in *.
  apply step_work in Hs as [->|]; [by destruct Hm|done].
Qed.

Lemma work_left_nonneg (m : machine E S) : 0 <= work_left m.
Proof.
  unfold work_left. pose proof (zlen_nonneg (mc_buffer m ++ incoming (mc_env m))).
  pose proof (weights_nonneg (mc_workers m)). lia.
Qed.

Lemma progressing_bounded schedule (m : machine E S) :
  progressing srv assertions schedule m = true ->
  zlen schedule + work_left (snd (run srv assertions schedule m)) <= work_left m.
Proof.
  revert m. induction schedule as [|i schedule IH]; intros m; cbn [progressing run].
  { intros _. rewrite zlen_nil. cbn. lia. }
  intros [Hi Hp]%andb_true_iff. apply ready_work in Hi.
  destruct (worker_step srv assertions i m) as [ev m1]. cbn [snd] in *. apply IH in Hp.
  destruct (run srv assertions schedule m1) as [evs m2]. cbn [snd] in *. rewrite zlen_cons. lia.
Qed.

(** From any state with sound mutexes the workers can be run to their ends. *)
Lemma run_to_end (m : machine E S) :
  locks_held m ->
  exists more, progressing srv assertions more m = true /\
    forallb has_ended (mc_workers (snd (run srv assertions more m))) = true.
Proof.
  remember (Z.to_nat (work_left m)) as k eqn:Hk. revert m Hk.
  induction (lt_wf k) as [k _ IH]. intros m -> Hl.
  destruct (forallb has_ended (mc_workers m)) eqn:Hend; [by exists []|].
  apply forallb_false_lookup in Hend as (i & p & Hp & Hn).
  destruct (someone_ready i p m Hl Hp Hn) as [j Hj].
  pose proof (ready_work j m Hj) as Hw. pose proof (work_left_nonneg (snd (worker_step srv assertions j m))).
  destruct (IH (Z.to_nat (work_left (snd (worker_step srv assertions j m)))) ltac:(lia)
    (snd (worker_step srv assertions j m)) eq_refl) as (more & Hpr & Hall).
  { eapply step_locks; [apply surjective_pairing | done]. }
  exists (j :: more). cbn [progressing run]. rewrite Hj, Hpr. split; [done|].
  destruct (worker_step srv assertions j m) as [ev m1]. cbn [snd] in *.
  by destruct (run srv assertions more m1).
Qed.

Lemma progressing_app l1 l2 (m : machine E S) :
  progressing srv assertions (l1 ++ l2) m
  = progressing srv assertions l1 m && progressing srv assertions l2 (snd (run srv assertions l1 m)).
Proof.
  revert m. induction l1 as [|i l1 IH]; intros m; [done|]. cbn [app progressing run].
  rewrite IH, andb_assoc. destruct (worker_step srv assertions i m) as [ev m1]. cbn [snd].
  by destruct (run srv assertions l1 m1).
Qed.

Lemma run_app_end l1 l2 (m : machine E S) :
  snd (run srv assertions (l1 ++ l2) m) = snd (run srv assertions l2 (snd (run srv assertions l1 m))).
Proof.
  revert m. induction l1 as [|i l1 IH]; intros m; [done|]. cbn [app run].
  destruct (worker_step srv assertions i m) as [ev m1]. specialize (IH m1).
  destruct (run srv assertions (l1 ++ l2) m1), (run srv assertions l1 m1). cbn [snd] in *. exact IH.
Qed.

End End_.

(** ** Lemmas: the handshake leaves the rest of the connection *)

Lemma script_read_app c1 c2 buf fail n v c1' :
  ec_bool fail = true -> script_read c1 buf fail = ((no_error, n, v), c1') ->
  script_read (c1 ++ c2) buf fail = ((no_error, n, v), c1' ++ c2).
Proof.
  intros Hf. revert buf. induction c1 as [|c c1 IH]; intros buf; cbn [script_read app].
  - destruct (match_packet buf) as [m|] eqn:Hm.
    + intros [= <- <- <-]. destruct c2; cbn [script_read]; by rewrite Hm.
    + intros [= He _ _ _]. subst fail. by rewrite ec_bool_no_error in Hf.
  - destruct (match_packet buf) as [m|]; [by intros [= <- <- <-] | apply IH].
Qed.

(** What follows the first packet in the buffer is dropped with it. *)
Lemma init_server_rest extensions c1 c2 chunks' written fin version trailing v n :
  is_u32 version -> zlen trailing < 2 ^ 32 - 9 -> zlen (version_body extensions) < 2 ^ 32 - 4 ->
  script_read (c1 ++ c2) [] (make_error_code fin) = ((no_error, n, v), chunks') ->
  (exists more, v_data v = frame (init_body version ++ trailing) ++ more) ->
  init_server extensions (Script (c1 ++ c2) written fin)
  = (no_error, Script chunks' (written ++ frame (version_body extensions)) fin).
Proof.
  intros Hv Ht Hext Hread [more Hd]. unfold init_server, st_bind, st_ret.
  cbn [read_until script_runtime sc_chunks sc_written sc_end]. rewrite Hread, ec_bool_no_error, Hd.
  rewrite check_init_frame by done. rewrite ec_bool_no_error, version_packet_frame by done.
  by rewrite ec_bool_no_error.
Qed.

(** An INIT packet in chunks of its own leaves the others to the workers. *)
Lemma init_server_own_chunks extensions c1 c2 written fin version trailing :
  is_u32 version -> zlen trailing < 2 ^ 32 - 9 -> zlen (version_body extensions) < 2 ^ 32 - 4 ->
  concat c1 = frame (init_body version ++ trailing) ->
  exists c1', concat c1' = [] /\
    init_server extensions (Script (c1 ++ c2) written fin)
    = (no_error, Script (c1' ++ c2) (written ++ frame (version_body extensions)) fin).
Proof.
  intros Hv Ht Hext Hc.
  destruct (script_read_frame c1 [] (make_error_code fin) (init_body version ++ trailing) [])
    as (more & c1' & Hread & Hrest); [unfold init_body; zlen_lia | by rewrite app_nil_r|].
  symmetry in Hrest. apply app_eq_nil in Hrest as [-> Hc1]. exists c1'. split; [done|].
  eapply (init_server_rest extensions c1 c2 _ written fin version trailing); [done..|exact (script_read_app _ c2 _ _ _ _ _ (ec_bool_make fin) Hread)|].
  by exists [].
Qed.

(** ** Properties *)

Section Properties.
Context {P : Platform} {E S : Type} {R : Runtime E} {L : RuntimeLaws E}
  (srv : sftp_server S) (assertions : bool).

(** C6: The workers end, over any runtime and whatever the peer sends: however the
    executor picks among the workers that can run, it makes at most two steps for
    each byte the peer sends and three for each worker; and from wherever it has
    come to, going on with workers that can run brings all of them to their
    ends. *)
Theorem workers_end n (e : E) (s : S) schedule :
  progressing srv assertions schedule (serve_workers n e s) = true ->
  zlen schedule <= 2 * zlen (incoming e) + 3 * (Z.of_nat n + 1) /\
  exists more, progressing srv assertions (schedule ++ more) (serve_workers n e s) = true /\
    forallb has_ended
      (mc_workers (snd (run srv assertions (schedule ++ more) (serve_workers n e s)))) = true.
Proof.
  intros Hp. split.
  - apply progressing_bounded in Hp.
    pose proof (work_left_nonneg (snd (run srv assertions schedule (serve_workers n e s)))) as Hn.
    unfold work_left at 2 in Hp. cbn [serve_workers mc_buffer mc_env mc_workers app] in Hp.
    rewrite weights_replicate in Hp. lia.
  - destruct (run_to_end srv assertions (snd (run srv assertions schedule (serve_workers n e s))))
      as (more & Hm & Hend).
    { eapply run_invariant; [|apply surjective_pairing|apply serve_workers_locks].
      intros. by eapply step_locks. }
    exists more. by rewrite progressing_app, run_app_end, Hp.
Qed.

End Properties.

Section Connection.
Context {P : Platform} {S : Type} (srv : sftp_server S) (assertions : bool).
Context (when_any : list phase -> option error_code).


(** C37: A request that reaches the server in the same read as the end of the INIT
    packet is lost: [serve] behaves as if these bytes had never been sent, because
    [init_server] reads into a buffer of its own and drops it. *)
Theorem pipelined_requests_lost extensions n schedule version trailing lost chunks fin s :
  Permutation extensions server_extensions -> is_u32 version -> zlen trailing < 2 ^ 32 - 9 ->
  serve srv assertions when_any extensions n schedule
    (Script ((frame (init_body version ++ trailing) ++ lost) :: chunks) [] fin) s
  = serve srv assertions when_any extensions n schedule
      (Script (frame (init_body version ++ trailing) :: chunks) [] fin) s.
Proof.
  intros Hext Hv Ht. set (packet := frame (init_body version ++ trailing)).
  assert (Hi : forall more,
    init_server extensions (Script ([packet ++ more] ++ chunks) [] fin)
    = (no_error, Script chunks (frame (version_body extensions)) fin)).
  { intros more.
    apply (init_server_rest extensions [packet ++ more] chunks chunks [] fin version trailing
      (Vec (packet ++ more) (zlen (packet ++ more))) (4 + zlen (init_body version ++ trailing)));
      [done..|by apply server_extensions_wf| |by exists more].
    apply (script_read_app [packet ++ more] chunks [] _ _ _ []); [apply ec_bool_make|].
    cbn [script_read app]. unfold packet. change (match_packet []) with (@None Z). cbv match.
    by rewrite match_packet_frame by (unfold init_body; zlen_lia). }
  pose proof (Hi []) as Hi0. rewrite app_nil_r in Hi0. unfold serve.
  change ((packet ++ lost) :: chunks) with ([packet ++ lost] ++ chunks).
  change (packet :: chunks) with ([packet] ++ chunks). by rewrite Hi, Hi0.
Qed.

End Connection.

(** ** Witnesses *)

(** The first worker takes a packet while the second comes to wait for it. *)
Lemma workers_end_witness :
  let e := Script demo_chunks [] io_error in
  progressing null_server true [0; 0; 0; 1; 1]%nat (serve_workers 1 e ()) = true /\
  zlen [0; 0; 0; 1; 1]%nat <= 2 * zlen (incoming e) + 3 * (Z.of_nat 1 + 1).
Proof.
  assert (Hp : progressing null_server true [0; 0; 0; 1; 1]%nat
    (serve_workers 1 (Script demo_chunks [] io_error) ()) = true) by by vm_compute.
  split; [exact Hp|].
  exact (proj1 (workers_end null_server true 1 (Script demo_chunks [] io_error) () _ Hp)).
Defined.

Definition demo_init : list bytes := [take 3 (frame (init_body 3 ++ [])); drop 3 (frame (init_body 3 ++ []))].

Definition demo_serve : served :=
  serve null_server true (fun _ => None) server_extensions 1 demo_schedule
    (Script (demo_init ++ demo_chunks) [] io_error) ().


(** The first request is never answered. *)
Lemma pipelined_requests_lost_witness :
  serve null_server true (fun _ => None) server_extensions 1 demo_schedule
    (Script ((frame (init_body 3 ++ []) ++ concat demo_chunks) :: []) [] io_error) ()
  = serve null_server true (fun _ => None) server_extensions 1 demo_schedule
      (Script (frame (init_body 3 ++ []) :: []) [] io_error) ().
Proof.
  apply (pipelined_requests_lost null_server true (fun _ => None) server_extensions 1 demo_schedule 3 []
    (concat demo_chunks) [] io_error ()).
  - done.
  - by vm_compute.
  - by vm_compute.
Defined.
