(* ===== verification/Client.v ===== *)
(** * Client: [sftp::init], [sftp::session], [sftp::file] and [sftp::dir]
    ([src/sftp.cpp] 233-332 and 380-1812, [include/corosh/sftp.hpp])

    Every member function of the client is the same coroutine around a different
    packet and response: take a request id, register a response, build the
    packet, send it under [read_mutex_], then read replies under [write_mutex_]
    until the response is complete.  [exchange] is that coroutine, for one caller
    at a time; [unlink] ... [home_directory], [read_some_at], [do_read_] and the
    [close]s are the member functions.

    The response object lives in the coroutine's frame, at the address [l] the
    caller picks; [exchange] releases it when it returns.  [fuel] bounds the
    rounds of the reading loop; what is proved gives the rounds needed. *)

From S2P Require Import Prelude Libssh ErrorCode Codec Stream ResponseQueue Responses Requests Server.

#[local] Open Scope Z_scope.

(** ** The handshake *)

Section Init.
Context (host : endian).

(** [std::uint32_t init_message[3]] as the bytes of memory [write] sends. *)
Definition init_message : bytes :=
  store32 host (htonl host 8) ++ store32 host SSH_FXP_INIT
  ++ store32 host (htonl host LIBSFTP_VERSION).

(** [extensions.emplace(name, value)]: the first value of a key stays. *)
Definition emplace (k v : bytes) (m : list (bytes * bytes)) : list (bytes * bytes) :=
  if bool_decide (k ∈ m.*1) then m else m ++ [(k, v)].

(** [while (cb.size() > 0u && !ec)] *)
Definition extensions_cond (s : list (bytes * bytes) * reader) : bool :=
  (0 <? zlen (rd_buf (snd s))) && negb (ec_bool (rd_ec (snd s))).

Definition extensions_body (s : list (bytes * bytes) * reader) : list (bytes * bytes) * reader :=
  let '(ext_name, r) := take_str (snd s) in
  let '(ext_value, r) := take_str r in
  (emplace ext_name ext_value (fst s), r).

(** What the packet of the server tells: an error code, and the version and the
    extensions unless the packet is of another type. *)
Definition parse_version (data : bytes) (ec : error_code)
  : error_code * option (Z * list (bytes * bytes)) :=
  let '(type, r) := take_u8 (Reader (packet_body data) ec) in
  if negb (type =? SSH_FXP_VERSION) then (make_ssh_error_code SSH_FATAL, None)
  else
    let '(version, r) := take_u32 r in
    let '(extensions, r) := while extensions_cond extensions_body (read_fuel r) ([], r) in
    (rd_ec r, Some (version, extensions)).

End Init.

(** ** The session *)

Record session (E : Type) := Session {
  s_stream : E;
  s_buffer : bytes;
  s_extensions : list (bytes * bytes);
  s_version : Z;
  s_queue : response_queue;
  s_heap : gmap address (node response)
}.
Arguments Session {E} _ _ _ _ _ _.
Arguments s_stream {E} _.
Arguments s_buffer {E} _.
Arguments s_extensions {E} _.
Arguments s_version {E} _.
Arguments s_queue {E} _.
Arguments s_heap {E} _.

Section Client.
Context {P : Platform} {E : Type} {R : Runtime E}.
Implicit Types (s : session E).

Definition with_stream (e : E) s : session E :=
  Session e (s_buffer s) (s_extensions s) (s_version s) (s_queue s) (s_heap s).
Definition with_buffer (b : bytes) s : session E :=
  Session (s_stream s) b (s_extensions s) (s_version s) (s_queue s) (s_heap s).
Definition with_queue (q : response_queue) (h : gmap address (node response)) s : session E :=
  Session (s_stream s) (s_buffer s) (s_extensions s) (s_version s) q h.

(** [init]: the error code and the session, which an early [co_return] leaves
    default-constructed. *)
Definition init (host : endian) (e : E) : (error_code * session E) :=
  let none e := Session e [] [] 0 empty_queue ∅ in
  let '(ec, e) := write (init_message host) e in
  if ec_bool ec then (ec, none e)
  else
    let '(res, e) := read_until [] e in
    let '(ec, n, v) := res in
    if ec_bool ec then (ec, none e)
    else
      let sz := be_decode (take 4 (v_data v)) in
      match parse_version (v_data v) ec with
      | (ec, None) => (ec, none e)
      | (ec, Some (version, extensions)) =>
          (ec, Session e (consume (u32 (sz + 4)) (v_data v)) extensions version empty_queue ∅)
      end.

(** [read_one_]: read one packet and hand it to the response it answers. *)
Definition read_one_ s : access (error_code * session E) :=
  let '(res, e) := read_until (s_buffer s) (s_stream s) in
  let '(ec, n, v) := res in
  let s := with_buffer (v_data v) (with_stream e s) in
  if ec_bool ec then
    deref* hq := cancel_all on_complete (s_heap s) (s_queue s) ec in
    Done (ec, with_queue (snd hq) (fst hq) s)
  else
    let sz := be_decode (take 4 (v_data v)) in
    let '(tp, r) := take_u8 (Reader (packet_body (v_data v)) ec) in
    let '(request_id, r) := take_u32 r in
    if ec_bool (rd_ec r) then Done (rd_ec r, s)
    else
      deref* res := complete on_complete (s_heap s) (s_queue s) request_id tp (rd_ec r) (rd_buf r) in
      let '(_, h, q) := res in
      Done (rd_ec r, with_buffer (consume (u32 (sz + 4)) (v_data v)) (with_queue q h s)).

(** How the coroutine ends: an early [co_return] with an error, or at the last
    line, with the response object. *)
Inductive exit :=
| Early (ec : error_code)
| Final (r : response).

(** [while (!ec && !response.completed) { ... }] *)
Definition wait_body (l : address) (st : error_code * session E)
  : round (error_code * session E) (access exit) :=
  let '(ec, s) := st in
  match load (s_heap s) l with
  | Dangling => Return Dangling st
  | Spins => Return Spins st
  | Done n =>
      if ec_bool ec || completed (n_response n) then Return (Done (Final (n_response n))) st
      else
        let '(ec, e) := lock (s_stream s) in
        let s := with_stream e s in
        if ec_bool ec then Return (Done (Early ec)) (ec, s)
        else
          match read_one_ s with
          | Dangling => Return Dangling (ec, s)
          | Spins => Return Spins (ec, s)
          | Done (ec, s) => Again (ec, s)
          end
  end.

(** Send the packet, then wait. *)
Definition send_and_wait (fuel : nat) (l : address) (to_write : bytes) s
  : option (access exit * session E) :=
  let '(ec, e) := lock (s_stream s) in
  let s := with_stream e s in
  if ec_bool ec then Some (Done (Early ec), s)
  else
    let '(ec, e) := write to_write (s_stream s) in
    let s := with_stream e s in
    if ec_bool ec then Some (Done (Early ec), s)
    else
      match loop (wait_body l) fuel (ec, s) with
      | None => None
      | Some (x, (_, s)) => Some (x, s)
      end.

Definition release_frame (l : address) s : session E :=
  with_queue (s_queue s) (release (s_heap s) l) s.

(** The whole coroutine.  The error code of the [put]s is overwritten by that
    of the first lock. *)
Definition exchange (fuel : nat) (l : address) (new : response)
  (packet : Z -> bytes * error_code) s : option (access exit * session E) :=
  let '(id, q) := get_request_id (s_queue s) in
  match enqueue_response (construct (s_heap s) l id new) q l with
  | Dangling => Some (Dangling, s)
  | Spins => Some (Spins, s)
  | Done (h, q) =>
      let '(to_write, _) := packet id in
      match send_and_wait fuel l to_write (with_queue q h s) with
      | None => None
      | Some (x, s) => Some (x, release_frame l s)
      end
  end.

(** ** The member functions *)

(** [co_return f(...)] on either exit. *)
Definition returning {A} (f : exit -> A) (m : option (access exit * session E))
  : option (access A * session E) :=
  match m with
  | None => None
  | Some (x, s) => Some (access_bind x (fun x => Done (f x)), s)
  end.

Definition exit_ec (x : exit) : error_code :=
  match x with
  | Early ec => ec
  | Final r => response_ec r
  end.

(** An open file or directory: whether [sess_] is set, and [handle_]. *)
Record file := File { f_open : bool; f_handle : bytes }.
Definition no_file : file := File false [].

Record dir := Dir { d_open : bool; d_handle : bytes; d_buffer : list entry; d_eof : bool }.
Definition no_dir : dir := Dir false [] [] false.

Context (fuel : nat) (l : address) (b : small_buffer).

Definition status_call (packet : Z -> bytes * error_code) s
  : option (access error_code * session E) :=
  returning exit_ec (exchange fuel l (RStatus new_status_response) packet s).

Definition unlink (filename : bytes) := status_call (fun id => unlink_packet b id filename).
Definition mkdir (path : bytes) (mode : Z) := status_call (fun id => mkdir_packet b id path mode).
Definition rmdir (path : bytes) := status_call (fun id => rmdir_packet b id path).
Definition rename (oldpath newpath : bytes) :=
  status_call (fun id => rename_packet b id oldpath newpath).
Definition chmod (path : bytes) (mode : Z) := status_call (fun id => chmod_packet b id path mode).
Definition chown (path : bytes) (owner group : Z) :=
  status_call (fun id => chown_packet b id path owner group).
Definition symlink (target dest : bytes) :=
  status_call (fun id => symlink_packet b id target dest).
Definition hardlink (oldpath newpath : bytes) :=
  status_call (fun id => hardlink_packet b id oldpath newpath).
Definition setstat (path : bytes) (attr : attributes) :=
  status_call (fun id => setstat_packet b id path attr).

(** [if (response.ec) co_return {response.ec, {}}; co_return {{}, handle};] *)
Definition handle_result {A} (none : A) (mk : bytes -> A) (x : exit) : io_result A :=
  match x with
  | Early ec => IoResult ec none
  | Final (RHandle r) =>
      if ec_bool (hd_ec r) then IoResult (hd_ec r) none
      else IoResult no_error (mk (hd_handle r))
  | Final r => IoResult (response_ec r) none
  end.

Definition opendir (path : bytes) s :=
  returning (handle_result no_dir (fun h => Dir true h [] false))
    (exchange fuel l (RHandle new_handle_response) (fun id => opendir_packet b id path) s).

Definition open (path : bytes) (accesstype mode : Z) s :=
  returning (handle_result no_file (fun h => File true h))
    (exchange fuel l (RHandle new_handle_response)
       (fun id => open_packet b id path accesstype mode) s).

(** [dir::do_read_]: the error code and the directory with its [buffer_]. *)
Definition do_read_ (d : dir) s : option (access (error_code * dir) * session E) :=
  returning (fun x =>
      (exit_ec x,
       match x with
       | Final (RDirEntry r) => Dir (d_open d) (d_handle d) (de_entries r) (d_eof d)
       | _ => d
       end))
    (exchange fuel l (RDirEntry (new_dir_entry_response (d_buffer d)))
       (fun id => readdir_packet b id (d_handle d)) s).

(** [co_await dir.read()]: [await_ready], [await_suspend] and [await_resume]
    of [dir::read_op]. *)
Definition dir_resume (task : option error_code) (d : dir) : io_result entry * dir :=
  let ec := match task with
            | Some ec => ec
            | None => if d_eof d then capy_eof else no_error
            end in
  match d_buffer d with
  | [] => (IoResult ec empty_entry, d)
  | e :: rest => (IoResult ec e, Dir (d_open d) (d_handle d) rest (d_eof d))
  end.

Definition dir_read (d : dir) s : option (access (io_result entry * dir) * session E) :=
  if bool_decide (d_buffer d = []) || d_eof d then
    match do_read_ d s with
    | None => None
    | Some (x, s) =>
        Some (access_bind x (fun '(ec, d) => Done (dir_resume (Some ec) d)), s)
    end
  else Some (Done (dir_resume None d), s).

(** After close completes (or fails), the handle is no longer valid; an early
    [co_return] keeps it. *)
Definition dir_close (d : dir) s : option (access (error_code * dir) * session E) :=
  if negb (d_open d) then Some (Done (no_error, d), s)
  else
    returning (fun x =>
        (exit_ec x,
         match x with
         | Early _ => d
         | Final _ => Dir false [] (d_buffer d) (d_eof d)
         end))
      (exchange fuel l (RStatus new_status_response) (fun id => close_packet b id (d_handle d)) s).

Definition file_close (f : file) s : option (access (error_code * file) * session E) :=
  if negb (f_open f) then Some (Done (no_error, f), s)
  else
    returning (fun x =>
        (exit_ec x,
         match x with
         | Early _ => f
         | Final _ => File false []
         end))
      (exchange fuel l (RStatus new_status_response) (fun id => close_packet b id (f_handle f)) s).

(** [read_some_at]: the result and the contents of the caller's buffer. *)
Definition read_some_at (f : file) (offset : Z) (buffer : bytes) s :=
  returning (fun x =>
      match x with
      | Final (RData r) => (IoResult (da_ec r) (da_n r), da_dest r)
      | x => (IoResult (exit_ec x) 0, buffer)
      end)
    (exchange fuel l (RData (new_data_response buffer))
       (fun id => read_packet b id (f_handle f) offset (zlen buffer)) s).

(** [SFTP WRITE is all-or-nothing: success means every byte landed.] *)
Definition write_some_at (f : file) (offset : Z) (buffer : bytes) s :=
  returning (fun x =>
      IoResult (exit_ec x) (if ec_bool (exit_ec x) then 0 else zlen buffer))
    (exchange fuel l (RStatus new_status_response)
       (fun id => write_packet b id (f_handle f) offset buffer) s).

Definition attrs_result (x : exit) : io_result attributes :=
  match x with
  | Final (RAttrs r) => IoResult (at_ec r) (at_attr r)
  | x => IoResult (exit_ec x) empty_attributes
  end.

Definition stat (path : bytes) s :=
  returning attrs_result
    (exchange fuel l (RAttrs new_attrs_response) (fun id => stat_packet b id path) s).
Definition lstat (path : bytes) s :=
  returning attrs_result
    (exchange fuel l (RAttrs new_attrs_response) (fun id => lstat_packet b id path) s).

Definition name_result (x : exit) : io_result bytes :=
  match x with
  | Final (RName r) => IoResult (nm_ec r) (nm_name r)
  | x => IoResult (exit_ec x) []
  end.

Definition name_call (packet : Z -> bytes * error_code) s :=
  returning name_result (exchange fuel l (RName new_name_response) packet s).

Definition readlink (path : bytes) := name_call (fun id => readlink_packet b id path).
Definition canonicalize_path (path : bytes) :=
  name_call (fun id => canonicalize_path_packet b id path).
Definition expand_path (path : bytes) := name_call (fun id => expand_path_packet b id path).
Definition home_directory (username : bytes) :=
  name_call (fun id => home_directory_packet b id username).

End Client.

Arguments exit : clear implicits.
