(* ===== verification/Handles.v ===== *)
(** * Handles: which session a [file] or [dir] speaks through ([sftp.hpp] 140-329)

    A [file] and a [dir] hold the address of their [sftp::session] ([sess_]) and
    the handle the server gave.  Their moves are defaulted and their destructors
    do nothing; the moves of [session] take its stream along.  A call is a
    coroutine that follows [this] and [sess_] again whenever it resumes.

    A [world] has the objects of a program, its calls in flight, and what the
    servers at the other ends have open.  [Undefined] is a null pointer followed,
    an object used after its destruction, or an [any_stream] without a stream
    used. *)

From S2P Require Import Prelude Codec Lifetimes.

#[local] Open Scope Z_scope.

(** ** The world *)

(** A [file] or a [dir]: both have the two members, and the same operations on
    them. *)
Record handle := Handle { h_sess : option nat; h_handle : bytes }.

Definition no_handle : handle := Handle None [].

(** [operator bool] *)
Definition is_open (h : handle) : bool := bool_decide (h_sess h <> None).

(** [this] of a member function. *)
Inductive receiver := OnSession (s : nat) | OnHandle (f : nat).

#[export] Instance receiver_eq_dec : EqDecision receiver.
Proof. solve_decision. Defined.

(** A call in flight; [c_closes] tells [close] from the others. *)
Record call := Call { c_this : receiver; c_closes : bool }.

(** [sessions] maps a session to the connection of its [stream_], [remote] are the
    handles that are open at the other ends, [broken] the connections on which
    I/O has failed. *)
Record world := World {
  sessions : gmap nat (option nat);
  handles : gmap nat handle;
  calls : gmap nat call;
  remote : gset (nat * bytes);
  broken : gset nat }.

Definition empty_world : world := World ∅ ∅ ∅ ∅ ∅.

Definition with_sessions ss w : world := World ss (handles w) (calls w) (remote w) (broken w).
Definition with_handles hs w : world := World (sessions w) hs (calls w) (remote w) (broken w).
Definition with_calls cs w : world := World (sessions w) (handles w) cs (remote w) (broken w).
Definition with_remote r w : world := World (sessions w) (handles w) (calls w) r (broken w).
Definition break c w : world := World (sessions w) (handles w) (calls w) (remote w) ({[c]} ∪ broken w).

(** [this], or [this->sess_]; none if that is null or [*this] is gone. *)
Definition this_session (r : receiver) (w : world) : option nat :=
  match r with
  | OnSession s => Some s
  | OnHandle f => h ← handles w !! f; h_sess h
  end.

(** The connection under [sess_->stream_]. *)
Definition stream_of (r : receiver) (w : world) : option nat :=
  s ← this_session r w; c ← sessions w !! s; c.

(** ** Sessions *)

(** [session()], and one that [init] made over the connection [c]. *)
Definition new_session (s : nat) (c : option nat) (w : world) : result world :=
  match sessions w !! s with
  | Some _ => Refused
  | None => Done (with_sessions (<[s := c]> (sessions w)) w)
  end.

(** The move constructor and the move assignment: [response_queue_] and the
    mutexes stay where they are, and an [any_stream] that is moved is left
    without a stream.  (What one makes of an assignment to itself its header
    does not say.) *)
Definition move_session (v from : nat) (w : world) : result world :=
  match sessions w !! v, sessions w !! from with
  | None, Some c => Done (with_sessions (<[v := c]> (<[from := None]> (sessions w))) w)
  | _, _ => Refused
  end.

Definition assign_session (v from : nat) (w : world) : result world :=
  match sessions w !! v, sessions w !! from with
  | Some _, Some c =>
      if bool_decide (v = from) then Refused
      else Done (with_sessions (<[v := c]> (<[from := None]> (sessions w))) w)
  | _, _ => Refused
  end.

Definition destroy_session (s : nat) (w : world) : result world :=
  match sessions w !! s with
  | None => Refused
  | Some _ => Done (with_sessions (delete s (sessions w)) w)
  end.

(** ** Files and directories *)

Definition default_handle (f : nat) (w : world) : result world :=
  match handles w !! f with
  | Some _ => Refused
  | None => Done (with_handles (<[f := no_handle]> (handles w)) w)
  end.

(** The defaulted moves copy [sess_]; [rest] is what the move leaves in a
    [std::string], which the standard does not say. *)
Definition move_handle (v from : nat) (rest : bytes) (w : world) : result world :=
  match handles w !! v, handles w !! from with
  | None, Some h => Done (with_handles (<[v := h]> (<[from := Handle (h_sess h) rest]> (handles w))) w)
  | _, _ => Refused
  end.

Definition assign_handle (v from : nat) (rest : bytes) (w : world) : result world :=
  match handles w !! v, handles w !! from with
  | Some _, Some h => Done (with_handles (<[from := Handle (h_sess h) rest]> (<[v := h]> (handles w))) w)
  | _, _ => Refused
  end.

Definition destroy_handle (f : nat) (w : world) : result world :=
  match handles w !! f with
  | None => Refused
  | Some _ => Done (with_handles (delete f (handles w)) w)
  end.

(** ** Calls *)

(** A member function up to its first suspension: it takes an id from
    [sess_->response_queue_].  Only [close] looks whether there is a session. *)
Definition begin_call (k : nat) (r : receiver) (closes : bool) (w : world) : result world :=
  let suspended := Done (with_calls (<[k := Call r closes]> (calls w)) w) in
  match calls w !! k with
  | Some _ => Refused
  | None =>
      match r with
      | OnSession s =>
          match sessions w !! s with
          | Some _ => if closes then Refused else suspended
          | None => Refused
          end
      | OnHandle f =>
          match handles w !! f with
          | None => Refused
          | Some h =>
              match h_sess h with
              | None => if closes then Done w else Undefined
              | Some s => match sessions w !! s with Some _ => suspended | None => Undefined end
              end
          end
      end
  end.

(** From one suspension to the next: [sess_->stream_] and the mutexes. *)
Definition resume_call (k : nat) (w : world) : result world :=
  match calls w !! k with
  | None => Refused
  | Some c => match stream_of (c_this c) w with Some _ => Done w | None => Undefined end
  end.

(** How a call ends: a mutex was not given, the request was not sent, the reply
    came or reading failed; for [open] and [opendir], with the handle [h]
    for the object [f]. *)
Inductive call_end :=
| LockFailed
| SendFailed
| Finished (answered : bool)
| Opened (f : nat) (h : bytes).

(** [close] forgets the session and the handle, whether it was answered or not. *)
Definition finish_close (r : receiver) (c : nat) (answered : bool) (w : world) : world :=
  match r with
  | OnSession _ => w
  | OnHandle f =>
      match handles w !! f with
      | None => w
      | Some h =>
          let w := with_handles (<[f := no_handle]> (handles w)) w in
          if answered then with_remote (remote w ∖ {[ (c, h_handle h) ]}) w else w
      end
  end.

Definition end_call (k : nat) (x : call_end) (w : world) : result world :=
  match calls w !! k with
  | None => Refused
  | Some (Call r closes) =>
      let w := with_calls (delete k (calls w)) w in
      match x with
      | LockFailed => Done w
      | _ =>
          match stream_of r w with
          | None => Undefined
          | Some c =>
              match x with
              | LockFailed => Done w
              | SendFailed => Done (break c w)
              | Finished answered =>
                  let w := if closes then finish_close r c answered w else w in
                  Done (if answered then w else break c w)
              | Opened f h =>
                  match r, handles w !! f with
                  | OnSession s, None =>
                      Done (with_remote ({[ (c, h) ]} ∪ remote w)
                             (with_handles (<[f := Handle (Some s) h]> (handles w)) w))
                  | _, _ => Refused
                  end
              end
          end
      end
  end.

(** ** Programs *)

Inductive operation :=
| NewSession (s : nat) (c : option nat)
| MoveSession (v from : nat)
| AssignSession (v from : nat)
| DestroySession (s : nat)
| DefaultHandle (f : nat)
| MoveHandle (v from : nat) (rest : bytes)
| AssignHandle (v from : nat) (rest : bytes)
| DestroyHandle (f : nat)
| Begin (k : nat) (r : receiver) (closes : bool)
| Resume (k : nat)
| End_ (k : nat) (x : call_end).

Definition perform (op : operation) : world -> result world :=
  match op with
  | NewSession s c => new_session s c
  | MoveSession v from => move_session v from
  | AssignSession v from => assign_session v from
  | DestroySession s => destroy_session s
  | DefaultHandle f => default_handle f
  | MoveHandle v from rest => move_handle v from rest
  | AssignHandle v from rest => assign_handle v from rest
  | DestroyHandle f => destroy_handle f
  | Begin k r closes => begin_call k r closes
  | Resume k => resume_call k
  | End_ k x => end_call k x
  end.

(** *** What a program has to keep to *)

(** No call in flight on [r]; none that closes it. *)
Definition idle (r : receiver) (w : world) : bool :=
  bool_decide (map_Forall (fun _ c => c_this c <> r) (calls w)).
Definition not_closing (r : receiver) (w : world) : bool :=
  bool_decide (map_Forall (fun _ c => ~ (c_this c = r /\ c_closes c = true)) (calls w)).

(** No handle speaks through [s], and no call is in flight on it. *)
Definition unreferenced (s : nat) (w : world) : bool :=
  idle (OnSession s) w && bool_decide (map_Forall (fun _ h => h_sess h <> Some s) (handles w)).

(** [f] has been closed or moved from (moving leaves a [std::string] empty, in
    the libraries there are). *)
Definition spent (f : nat) (w : world) : bool :=
  match handles w !! f with
  | Some h => bool_decide (h_sess h = None \/ h_handle h = [])
  | None => true
  end.

(** Sessions stay where they are while anything refers to them; a handle is left
    alone while a call is in flight on it, is closed alone, and is closed before
    it goes. *)
Definition disciplined (op : operation) (w : world) : bool :=
  match op with
  | MoveSession v from => unreferenced from w
  | AssignSession v from => unreferenced from w && unreferenced v w
  | DestroySession s => unreferenced s w
  | MoveHandle v from rest => idle (OnHandle from) w && bool_decide (rest = [])
  | AssignHandle v from rest =>
      bool_decide (v <> from /\ rest = []) && idle (OnHandle from) w && idle (OnHandle v) w && spent v w
  | DestroyHandle f => idle (OnHandle f) w && spent f w
  | Begin _ (OnSession s) _ => bool_decide (stream_of (OnSession s) w <> None)
  | Begin _ (OnHandle f) true => idle (OnHandle f) w
  | Begin _ (OnHandle f) false =>
      not_closing (OnHandle f) w && bool_decide (this_session (OnHandle f) w <> None)
  | End_ _ (Opened _ h) => bool_decide (h <> [])
  | _ => true
  end.

#[local] Abbreviation perform_all := (perform_all perform).
#[local] Abbreviation disciplined_all := (disciplined_all perform disciplined).

(** ** Lemmas *)

(** Everything that refers to a session refers to one that is there and has its
    stream; a handle that is being closed is not being used; and whatever is
    open at the other end of a connection that works can still be closed. *)
Record wf (w : world) : Prop := {
  wf_handle f h s : handles w !! f = Some h -> h_sess h = Some s -> exists c, sessions w !! s = Some (Some c);
  wf_call k r b : calls w !! k = Some (Call r b) -> is_Some (stream_of r w);
  wf_closes k r : calls w !! k = Some (Call r true) -> exists f, r = OnHandle f;
  wf_closing k k' r b : calls w !! k = Some (Call r true) -> calls w !! k' = Some (Call r b) -> k = k';
  wf_remote c n : (c, n) ∈ remote w -> n <> [] /\
    (c ∈ broken w \/ exists f h, handles w !! f = Some h /\ h_handle h = n /\ stream_of (OnHandle f) w = Some c)
}.

#[local] Abbreviation safe := (safe wf).

Lemma handles_empty_wf : wf empty_world.
Proof. split; intros; try done. Qed.

Lemma idle_spec r w k b : idle r w = true -> calls w !! k <> Some (Call r b).
Proof. intros H%bool_decide_eq_true Hk. by apply (H k (Call r b) Hk). Qed.

Lemma not_closing_spec r w k : not_closing r w = true -> calls w !! k <> Some (Call r true).
Proof. intros H%bool_decide_eq_true Hk. by apply (H k (Call r true) Hk). Qed.

Lemma unreferenced_spec s w :
  unreferenced s w = true ->
  idle (OnSession s) w = true /\ forall f h, handles w !! f = Some h -> h_sess h <> Some s.
Proof. intros [Hi H%bool_decide_eq_true]%andb_true_iff. split; [done | apply H]. Qed.

Lemma stream_of_Some r w c :
  stream_of r w = Some c <-> exists s, this_session r w = Some s /\ sessions w !! s = Some (Some c).
Proof.
  unfold stream_of. split.
  - intros H. apply bind_Some in H as (s & Hs & H). apply bind_Some in H as (c' & Hc & ->). eauto.
  - intros (s & -> & H). cbn. by rewrite H.
Qed.

Lemma stream_of_handle f w c :
  stream_of (OnHandle f) w = Some c <->
  exists h s, handles w !! f = Some h /\ h_sess h = Some s /\ sessions w !! s = Some (Some c).
Proof.
  rewrite stream_of_Some. cbn. split.
  - intros (s & (h & Hh & Hs)%bind_Some & Hc). eauto.
  - intros (h & s & Hh & Hs & Hc). exists s. by rewrite Hh.
Qed.

(** A change of the sessions that nothing refers to. *)
Lemma with_sessions_wf ss w :
  wf w ->
  (forall s c, sessions w !! s = Some (Some c) -> unreferenced s w = false -> ss !! s = Some (Some c)) ->
  wf (with_sessions ss w).
Proof.
  intros Hwf Hss.
  assert (Hh : forall f h s c, handles w !! f = Some h -> h_sess h = Some s -> sessions w !! s = Some (Some c) ->
    ss !! s = Some (Some c)).
  { intros f h s c Hf Hs Hc. apply Hss; [done|]. apply not_true_iff_false. intros [_ Hu]%unreferenced_spec.
    by apply (Hu f h). }
  split; cbn [with_sessions sessions handles calls remote broken].
  - intros f h s Hf Hs. destruct (wf_handle w Hwf f h s Hf Hs) as [c Hc]. eauto.
  - intros k r b Hk. destruct (wf_call w Hwf k r b Hk) as [c Hc]. exists c. destruct r as [s|f].
    + apply stream_of_Some in Hc as (? & [= <-] & Hc). apply stream_of_Some. exists s. split; [done|].
      apply Hss; [done|]. apply not_true_iff_false. intros [Hi _]%unreferenced_spec.
      by apply (idle_spec _ _ k b Hi).
    + apply stream_of_handle in Hc as (h & s & Hf & Hs & Hc). apply stream_of_handle. exists h, s.
      split_and!; eauto.
  - apply (wf_closes w Hwf).
  - apply (wf_closing w Hwf).
  - intros c n Hin. destruct (wf_remote w Hwf c n Hin) as [Hn [Hb|(f & h & Hf & Hhn & Hc)]]; split; auto.
    right. exists f, h. split_and!; [done..|]. apply stream_of_handle in Hc as (h' & s & Hf' & Hs & Hc).
    apply stream_of_handle. exists h', s. split_and!; eauto.
Qed.

(** A change of the handles that leaves alone those with a call in flight and
    introduces no session. *)
Lemma change_handles_wf hs rm bk w :
  wf w ->
  (forall f h s, hs !! f = Some h -> h_sess h = Some s -> exists c, sessions w !! s = Some (Some c)) ->
  (forall k f b, calls w !! k = Some (Call (OnHandle f) b) -> hs !! f = handles w !! f) ->
  (forall c n, (c, n) ∈ rm -> n <> [] /\ (c ∈ bk \/
    exists f h s, hs !! f = Some h /\ h_handle h = n /\ h_sess h = Some s /\ sessions w !! s = Some (Some c))) ->
  wf (World (sessions w) hs (calls w) rm bk).
Proof.
  intros Hwf Hsess Hcalls Hrm. split; cbn [sessions handles calls remote broken].
  - done.
  - intros k r b Hk. destruct (wf_call w Hwf k r b Hk) as [c Hc]. exists c. destruct r as [s|f]; [done|].
    apply stream_of_handle in Hc as (h & s & Hf & Hs & Hc). apply stream_of_handle. exists h, s.
    split_and!; [by rewrite <- Hf; apply (Hcalls k f b) | done..].
  - apply (wf_closes w Hwf).
  - apply (wf_closing w Hwf).
  - intros c n Hin. destruct (Hrm c n Hin) as [Hn [Hb|(f & h & s & Hf & Hhn & Hs & Hc)]]; split; auto.
    right. exists f, h. split_and!; [done..|]. apply stream_of_handle. by exists h, s.
Qed.

(** One that keeps, somewhere, every handle that is open. *)
Lemma with_handles_wf hs w :
  wf w ->
  (forall f h s, hs !! f = Some h -> h_sess h = Some s ->
    exists f0 h0, handles w !! f0 = Some h0 /\ h_sess h0 = Some s) ->
  (forall k f b, calls w !! k = Some (Call (OnHandle f) b) -> hs !! f = handles w !! f) ->
  (forall f h, handles w !! f = Some h -> h_sess h <> None -> h_handle h <> [] ->
    exists f', hs !! f' = Some h) ->
  wf (with_handles hs w).
Proof.
  intros Hwf Hsess Hcalls Hkeep. apply change_handles_wf; [done| |done|].
  { intros f h s Hf Hs. destruct (Hsess f h s Hf Hs) as (f0 & h0 & Hf0 & Hs0). by eapply wf_handle. }
  intros c n Hin.
  destruct (wf_remote w Hwf c n Hin) as [Hn [Hb|(f & h & Hf & Hhn & Hc)]]; split; auto. right.
  apply stream_of_handle in Hc as (h' & s & Hf' & Hs & Hc). simplify_eq.
  destruct (Hkeep f h Hf) as [f' Hf0]; [congruence|done|]. by exists f', h, s.
Qed.

(** A call begins, or ends, or a connection breaks. *)
Lemma begin_wf k r (b : bool) w :
  wf w -> calls w !! k = None -> is_Some (stream_of r w) ->
  (if b then idle r w = true /\ exists f, r = OnHandle f else not_closing r w = true) ->
  wf (with_calls (<[k := Call r b]> (calls w)) w).
Proof.
  intros Hwf Hk Hs Hb. split; cbn [with_calls sessions handles calls remote broken].
  - apply (wf_handle w Hwf).
  - intros k' r' b' [[<- [= <- <-]]|[_ Hk']]%lookup_insert_Some; [done | by eapply (wf_call w Hwf)].
  - intros k' r' [[<- [= <- ->]]|[_ Hk']]%lookup_insert_Some; [by destruct Hb | by eapply (wf_closes w Hwf)].
  - intros k1 k2 r' b' [[<- H1]|[_ H1]]%lookup_insert_Some [[<- H2]|[_ H2]]%lookup_insert_Some; simplify_eq; [done| | |].
    + by apply (idle_spec _ _ _ _ (proj1 Hb)) in H2.
    + destruct b'; [by apply (idle_spec _ _ _ _ (proj1 Hb)) in H1 | by apply (not_closing_spec _ _ _ Hb) in H1].
    + by eapply (wf_closing w Hwf).
  - apply (wf_remote w Hwf).
Qed.

Lemma end_wf k w : wf w -> wf (with_calls (delete k (calls w)) w).
Proof.
  intros Hwf. split; cbn [with_calls sessions handles calls remote broken].
  - apply (wf_handle w Hwf).
  - intros k' r b [_ Hk]%lookup_delete_Some. by eapply (wf_call w Hwf).
  - intros k' r [_ Hk]%lookup_delete_Some. by eapply (wf_closes w Hwf).
  - intros k1 k2 r b [_ H1]%lookup_delete_Some [_ H2]%lookup_delete_Some. by eapply (wf_closing w Hwf).
  - apply (wf_remote w Hwf).
Qed.

Lemma break_wf c w : wf w -> wf (break c w).
Proof.
  intros Hwf. split; cbn [break sessions handles calls remote broken].
  - apply (wf_handle w Hwf).
  - apply (wf_call w Hwf).
  - apply (wf_closes w Hwf).
  - apply (wf_closing w Hwf).
  - intros c' n Hin. destruct (wf_remote w Hwf c' n Hin) as [Hn [Hb|Ho]]; split; auto. set_solver.
Qed.

#[local] Hint Resolve begin_wf end_wf break_wf : core.

(** *** The operations *)

Lemma new_session_safe s c w : wf w -> safe (new_session s c w).
Proof.
  intros Hwf. unfold new_session. destruct (sessions w !! s) eqn:Hs; [done|].
  apply with_sessions_wf; [done|]. intros s' c' Hs' _. rewrite lookup_insert_ne; [done|]. congruence.
Qed.

Lemma move_session_safe v from w : wf w -> unreferenced from w = true -> safe (move_session v from w).
Proof.
  intros Hwf Hu. unfold move_session. destruct (sessions w !! v) eqn:Hv; [done|].
  destruct (sessions w !! from) eqn:Hf; [|done].
  apply with_sessions_wf; [done|]. intros s c Hs Hr. by rewrite !lookup_insert_ne by congruence.
Qed.

Lemma assign_session_safe v from w :
  wf w -> unreferenced from w = true -> unreferenced v w = true -> safe (assign_session v from w).
Proof.
  intros Hwf Hu Hv. unfold assign_session. destruct (sessions w !! v); [|done].
  destruct (sessions w !! from); [|done]. case_bool_decide; [done|].
  apply with_sessions_wf; [done|]. intros s c Hs Hr. by rewrite !lookup_insert_ne by congruence.
Qed.

Lemma destroy_session_safe s w : wf w -> unreferenced s w = true -> safe (destroy_session s w).
Proof.
  intros Hwf Hu. unfold destroy_session. destruct (sessions w !! s); [|done].
  apply with_sessions_wf; [done|]. intros s' c Hs Hr. by rewrite lookup_delete_ne by congruence.
Qed.

Lemma default_handle_safe f w : wf w -> safe (default_handle f w).
Proof.
  intros Hwf. unfold default_handle. destruct (handles w !! f) as [|] eqn:Hf; [done|].
  apply with_handles_wf; [done|..].
  - intros f' h s [[<- <-]|[_ Hf']]%lookup_insert_Some Hs; [done | eauto].
  - intros k f' b Hk. rewrite lookup_insert_ne; [done|]. intros <-.
    destruct (wf_call w Hwf k _ b Hk) as [c (h & ? & Hh & _)%stream_of_handle]. congruence.
  - intros f' h Hf' _ _. exists f'. rewrite lookup_insert_ne; [done|]. congruence.
Qed.

Lemma idle_handle f w k f' b : idle (OnHandle f) w = true -> calls w !! k = Some (Call (OnHandle f') b) -> f <> f'.
Proof. intros Hi Hk <-. by apply (idle_spec _ _ k b Hi). Qed.

Lemma call_handle k f b w : wf w -> calls w !! k = Some (Call (OnHandle f) b) -> is_Some (handles w !! f).
Proof.
  intros Hwf Hk. destruct (wf_call w Hwf k _ b Hk) as [c (h & ? & Hh & _)%stream_of_handle]. eauto.
Qed.

Lemma move_handle_safe v from w :
  wf w -> idle (OnHandle from) w = true -> safe (move_handle v from [] w).
Proof.
  intros Hwf Hi. unfold move_handle. destruct (handles w !! v) eqn:Hv; [done|].
  destruct (handles w !! from) as [h|] eqn:Hf; [|done].
  apply with_handles_wf; [done|..].
  - intros f' h' s [[<- <-]|[_ [[<- <-]|[_ Hf']]%lookup_insert_Some]]%lookup_insert_Some Hs; eauto.
  - intros k f' b Hk. rewrite !lookup_insert_ne; [done| |].
    + by eapply idle_handle.
    + intros <-. apply call_handle in Hk as [h' Hh]; [congruence | done].
  - intros f' h' Hf' Hs Hn. destruct (decide (f' = from)) as [->|Hne].
    + exists v. rewrite lookup_insert_eq. congruence.
    + exists f'. rewrite !lookup_insert_ne by congruence. done.
Qed.

Lemma spent_spec f h w : spent f w = true -> handles w !! f = Some h -> h_sess h = None \/ h_handle h = [].
Proof. unfold spent. intros H Hf. rewrite Hf in H. by apply bool_decide_eq_true in H. Qed.

Lemma assign_handle_safe v from w :
  wf w -> v <> from -> idle (OnHandle from) w = true -> idle (OnHandle v) w = true -> spent v w = true ->
  safe (assign_handle v from [] w).
Proof.
  intros Hwf Hvf Hi Hiv Hsp. unfold assign_handle. destruct (handles w !! v) as [o|] eqn:Hv; [|done].
  destruct (handles w !! from) as [h|] eqn:Hf; [|done].
  apply with_handles_wf; [done|..].
  - intros f' h' s [[<- <-]|[_ [[<- <-]|[_ Hf']]%lookup_insert_Some]]%lookup_insert_Some Hs; eauto.
  - intros k f' b Hk. by rewrite !lookup_insert_ne by (by eapply idle_handle).
  - intros f' h' Hf' Hs Hn. destruct (decide (f' = from)) as [->|Hne].
    + exists v. rewrite lookup_insert_ne, lookup_insert_eq by done. congruence.
    + exists f'. destruct (decide (f' = v)) as [->|].
      * by destruct (spent_spec v h' w Hsp Hf').
      * by rewrite !lookup_insert_ne by congruence.
Qed.

Lemma destroy_handle_safe f w :
  wf w -> idle (OnHandle f) w = true -> spent f w = true -> safe (destroy_handle f w).
Proof.
  intros Hwf Hi Hsp. unfold destroy_handle. destruct (handles w !! f) as [h|] eqn:Hf; [|done].
  apply with_handles_wf; [done|..].
  - intros f' h' s [_ Hf']%lookup_delete_Some Hs. eauto.
  - intros k f' b Hk. by rewrite lookup_delete_ne by (by eapply idle_handle).
  - intros f' h' Hf' Hs Hn. exists f'. apply lookup_delete_Some. split; [|done]. intros <-.
    by destruct (spent_spec f h' w Hsp Hf').
Qed.

Lemma begin_safe k r b w : wf w -> disciplined (Begin k r b) w = true -> safe (begin_call k r b w).
Proof.
  intros Hwf Hd. unfold begin_call. destruct (calls w !! k) eqn:Hk; [done|]. destruct r as [s|f].
  - destruct (sessions w !! s) as [o|] eqn:Hs; [|done]. destruct b; [done|].
    apply bool_decide_eq_true in Hd. apply begin_wf; [done..| |].
    + by destruct (stream_of _ w).
    + apply bool_decide_eq_true. intros k' [r' b'] Hk' [Hr Hb]. cbn in Hr, Hb. subst r' b'.
      by destruct (wf_closes w Hwf k' _ Hk').
  - destruct (handles w !! f) as [h|] eqn:Hf; [|done]. destruct (h_sess h) as [s|] eqn:Hs.
    + destruct (wf_handle w Hwf f h s Hf Hs) as [c Hc]. rewrite Hc. apply begin_wf; [done..| |].
      * exists c. apply stream_of_handle. by exists h, s.
      * destruct b; [eauto|]. by apply andb_true_iff in Hd as [Hd _].
    + destruct b; [done|]. apply andb_true_iff in Hd as [_ Hd]. apply bool_decide_eq_true in Hd.
      cbn in Hd. by rewrite Hf in Hd.
Qed.

(** [close] that ends: the handle is no longer open at the other end, or its
    connection is broken. *)
Lemma finish_close_wf k f c answered w :
  wf w -> calls w !! k = Some (Call (OnHandle f) true) -> stream_of (OnHandle f) w = Some c ->
  let w1 := finish_close (OnHandle f) c answered (with_calls (delete k (calls w)) w) in
  wf (if answered then w1 else break c w1).
Proof.
  intros Hwf Hk Hc. apply stream_of_handle in Hc as (h & s & Hf & Hs & Hc). cbn zeta.
  unfold finish_close. cbn [with_calls handles]. rewrite Hf.
  cut (forall rm bk, (forall c' n, (c', n) ∈ rm -> (c', n) ∈ remote w) ->
         (forall c', c' ∈ broken w -> c' ∈ bk) -> ((c, h_handle h) ∉ rm \/ c ∈ bk) ->
         wf (World (sessions w) (<[f := no_handle]> (handles w)) (delete k (calls w)) rm bk)).
  { intros H. destruct answered; apply H; set_solver. }
  intros rm bk Hrm Hbk Hgone.
  pose proof (change_handles_wf (<[f := no_handle]> (handles w)) rm bk _ (end_wf k w Hwf)) as Hch.
  cbn [with_calls sessions handles calls] in Hch. apply Hch; clear Hch.
  - intros f' h' s' [[<- <-]|[_ Hf']]%lookup_insert_Some Hs'; [done | by eapply (wf_handle w Hwf)].
  - intros k' f' b [Hne Hk']%lookup_delete_Some. rewrite lookup_insert_ne; [done|]. intros <-.
    by apply Hne, (wf_closing w Hwf k k' (OnHandle f) b).
  - intros c' n Hin. destruct (wf_remote w Hwf c' n (Hrm _ _ Hin)) as [Hn [Hb|(f' & h' & Hf' & Hhn & Hc')]];
      split; auto. apply stream_of_handle in Hc' as (h2 & s' & Hf2 & Hs' & Hc').
    assert (h2 = h') as -> by congruence.
    destruct (decide (f' = f)) as [->|Hne].
    + simplify_eq. left. by destruct Hgone.
    + right. exists f', h', s'. by rewrite lookup_insert_ne.
Qed.

Lemma end_safe k x w : wf w -> disciplined (End_ k x) w = true -> safe (end_call k x w).
Proof.
  intros Hwf Hd. unfold end_call. destruct (calls w !! k) as [[r b]|] eqn:Hk; [|done].
  destruct (wf_call w Hwf k r b Hk) as [c Hc].
  assert (Hc' : stream_of r (with_calls (delete k (calls w)) w) = Some c) by done.
  destruct x as [| |answered|f h]; rewrite ?Hc'; cbn [Lifetimes.safe]; auto.
  - destruct b; [|destruct answered; auto].
    destruct (wf_closes w Hwf k r Hk) as [f ->]. by apply finish_close_wf.
  - destruct r as [s|]; [|done]. cbn [with_calls handles]. destruct (handles w !! f) as [|] eqn:Hf; [done|].
    apply bool_decide_eq_true in Hd. apply stream_of_Some in Hc as (? & [= <-] & Hc).
    pose proof (change_handles_wf (<[f := Handle (Some s) h]> (handles w)) ({[ (c, h) ]} ∪ remote w)
      (broken w) _ (end_wf k w Hwf)) as Hch.
    cbn [with_calls sessions handles calls] in Hch. apply Hch; clear Hch.
    + intros f' h' s' [[<- <-]|[_ Hf']]%lookup_insert_Some Hs'; [injection Hs' as <-; eauto|].
      by eapply (wf_handle w Hwf).
    + intros k' f' b' [_ Hk']%lookup_delete_Some. rewrite lookup_insert_ne; [done|]. intros <-.
      apply call_handle in Hk' as [? ?]; [congruence | done].
    + intros c' n [[= -> ->]%elem_of_singleton|Hin]%elem_of_union.
      * split; [done|]. right. exists f, (Handle (Some s) h), s. by rewrite lookup_insert_eq.
      * destruct (wf_remote w Hwf c' n Hin) as [Hn [Hb|(f' & h' & Hf' & Hhn & Hc2)]]; split; auto. right.
        apply stream_of_handle in Hc2 as (h2 & s' & Hf2 & Hs' & Hc2). exists f', h', s'.
        assert (h2 = h') as -> by congruence.
        rewrite lookup_insert_ne by congruence. done.
Qed.

Lemma handles_perform_safe op w : wf w -> disciplined op w = true -> safe (perform op w).
Proof.
  intros Hwf Hd. destruct op as [s c|v from|v from|s|f|v from rest|v from rest|f|k r b|k|k x]; cbn [perform].
  - by apply new_session_safe.
  - by apply move_session_safe.
  - apply andb_true_iff in Hd as [H1 H2]. by apply assign_session_safe.
  - by apply destroy_session_safe.
  - by apply default_handle_safe.
  - apply andb_true_iff in Hd as [H1 H2%bool_decide_eq_true]. subst rest. by apply move_handle_safe.
  - apply andb_true_iff in Hd as [[[[Hne Hr]%bool_decide_eq_true H1]%andb_true_iff H2]%andb_true_iff H3].
    subst rest. by apply assign_handle_safe.
  - apply andb_true_iff in Hd as [H1 H2]. by apply destroy_handle_safe.
  - by apply begin_safe.
  - unfold resume_call. destruct (calls w !! k) as [[r b]|] eqn:Hk; [|done].
    cbn [c_this]. by destruct (wf_call w Hwf k r b Hk) as [c ->].
  - by apply end_safe.
Qed.

(** What a moved session leaves behind: a handle that was opened through it
    follows [sess_] to an [any_stream] without a stream. *)
Lemma moved_session_strands w f s n c v k b :
  handles w !! f = Some (Handle (Some s) n) -> sessions w !! s = Some c -> sessions w !! v = None ->
  calls w !! k = None ->
  perform_all [MoveSession v s; Begin k (OnHandle f) b; Resume k] w = Undefined.
Proof.
  intros Hf Hs Hv Hk. assert (Hne : s <> v) by congruence.
  cbn [Lifetimes.perform_all perform]. unfold move_session. rewrite Hs, Hv.
  cbn [result_bind]. unfold begin_call, with_sessions. cbn [calls handles sessions].
  rewrite Hk, Hf. cbn [h_sess]. rewrite lookup_insert_ne, lookup_insert_eq by done. cbn [result_bind].
  unfold resume_call, with_calls. cbn [calls]. rewrite lookup_insert_eq. cbn [c_this].
  unfold stream_of, this_session. cbn [handles sessions]. rewrite Hf. cbn.
  by rewrite lookup_insert_ne, lookup_insert_eq.
Qed.

(** What a move leaves of a handle: one that still claims to be open, and whose
    [close] asks the server to close what is left in the string. *)
Lemma moved_handle_claims_open w from s n c v k rest :
  handles w !! from = Some (Handle (Some s) n) -> sessions w !! s = Some (Some c) ->
  handles w !! v = None -> calls w !! k = None ->
  exists w', perform_all [MoveHandle v from rest; Begin k (OnHandle from) true] w = Done w' /\
    is_open <$> handles w' !! from = Some true /\
    exists w'', end_call k (Finished true) w' = Done w'' /\ remote w'' = remote w ∖ {[ (c, rest) ]}.
Proof.
  intros Hf Hs Hv Hk. assert (Hne : v <> from) by congruence.
  cbn [Lifetimes.perform_all perform]. unfold move_handle. rewrite Hv, Hf. cbn [result_bind h_sess].
  unfold begin_call, with_handles. cbn [calls handles sessions].
  rewrite Hk, lookup_insert_ne, lookup_insert_eq by done. cbn [h_sess]. rewrite Hs. cbn [result_bind].
  eexists. split; [done|]. cbn [handles with_calls]. rewrite lookup_insert_ne, lookup_insert_eq by done.
  split; [done|]. unfold end_call, with_calls. cbn [calls]. rewrite lookup_insert_eq.
  unfold stream_of, this_session. cbn [handles sessions calls with_calls].
  rewrite lookup_insert_ne, lookup_insert_eq by done. cbn. rewrite Hs. cbn.
  eexists. split; [done|]. cbn. by rewrite lookup_insert_ne, lookup_insert_eq.
Qed.

(** ** Properties *)


(** C2: [close] must not overlap with another call on the same [file] or [dir]: it ends
    by forgetting the session, and the other, when it resumes, follows the null
    pointer. *)
Theorem close_under_call w f k k' b answered :
  calls w !! k = Some (Call (OnHandle f) true) -> calls w !! k' = Some (Call (OnHandle f) b) -> k <> k' ->
  perform_all [End_ k (Finished answered); Resume k'] w = Undefined.
Proof.
  intros Hk Hk' Hne. cbn [Lifetimes.perform_all perform]. unfold end_call. rewrite Hk.
  destruct (stream_of (OnHandle f) _) as [c|] eqn:Hc; [|done]. cbn [result_bind].
  apply stream_of_handle in Hc as (h & s & Hf & _). unfold finish_close. rewrite Hf.
  set (w1 := if answered then _ else _).
  assert (Hw : calls w1 = delete k (calls w) /\ handles w1 !! f = Some no_handle).
  { unfold w1. by destruct answered; cbn; rewrite lookup_insert_eq. }
  destruct Hw as [Hcs Hh]. unfold resume_call. rewrite Hcs, lookup_delete_ne, Hk' by done.
  cbn [c_this]. unfold stream_of, this_session. by rewrite Hh.
Qed.

(** ** Witnesses *)

(** Two connections; a file that is opened, moved and closed, a read in between, and a
    directory on the other connection, which breaks. *)
Definition demo_operations : list operation :=
  [NewSession 1 None; NewSession 2 (Some 7%nat); AssignSession 1 2; DestroySession 2; NewSession 3 (Some 8%nat);
   Begin 1 (OnSession 1) false; Begin 2 (OnSession 3) false; Resume 1; End_ 1 (Opened 1 (lit "f"));
   End_ 2 (Opened 2 (lit "d")); MoveHandle 3 1 []; DestroyHandle 1;
   Begin 3 (OnHandle 3) false; Begin 4 (OnHandle 2) true; Resume 3; End_ 3 (Finished true);
   End_ 4 (Finished false); Begin 5 (OnHandle 3) true; Resume 5; End_ 5 (Finished true);
   DestroyHandle 3; DestroyHandle 2; DestroySession 1; DestroySession 3].

Example demo_ends : perform_all demo_operations empty_world
  = Done (World ∅ ∅ ∅ {[ (8%nat, lit "d") ]} {[ 8%nat ]}).
Proof. by vm_compute. Qed.


Lemma close_under_call_witness :
  perform_all [End_ 1 (Finished true); Resume 2]
    (World {[ 1%nat := Some 7%nat ]} {[ 1%nat := Handle (Some 1%nat) (lit "f") ]}
      (<[ 1%nat := Call (OnHandle 1) true ]> {[ 2%nat := Call (OnHandle 1) false ]}) ∅ ∅) = Undefined.
Proof. apply (close_under_call _ 1 1 2 false true); [reflexivity | reflexivity | lia]. Defined.
