(* ===== verification/ClientSpec.v ===== *)
(** * ClientSpec: what one call of the SFTP client does

    Over a scripted peer, for every way its bytes are cut into chunks:
    [exchange_reply] (the reply with the request's id completes the call,
    unrelated replies before it are skipped), [exchange_lost] (a connection
    that ends first is reported), [exchange_short] (what a reply without a
    request id does) and [exchange_dangling] (what the next call does after an
    early return). *)

From S2P Require Import Prelude Libssh ErrorCode Codec Stream ResponseQueue Responses Requests.
From S2P Require Import Server Backends ServerSession Client.

#[local] Open Scope Z_scope.

(** ** Specification *)

(** A packet of the server: type, request id and payload. *)
Record message := Message { m_type : Z; m_id : Z; m_payload : bytes }.

Definition message_body (m : message) : bytes :=
  [byte_of_Z (m_type m)] ++ be_encode 4 (m_id m) ++ m_payload m.

Definition message_wf (m : message) : Prop :=
  is_u8 (m_type m) /\ is_u32 (m_id m) /\ 5 + zlen (m_payload m) < 2 ^ 32 - 4.

Definition messages_bytes (l : list message) : bytes :=
  concat (map (fun m => frame (message_body m)) l).

(** No coroutine waits for a reply. *)
Definition idle {E} (s : session E) : Prop := last (s_queue s) = None.

(** The connection of a session, as a peer's script. *)
Definition pending (s : session script) : bytes :=
  s_buffer s ++ concat (sc_chunks (s_stream s)).
Definition written (s : session script) : bytes := sc_written (s_stream s).
Definition fails_with (s : session script) : error_code := make_error_code (sc_end (s_stream s)).

(** What stays the same while a call reads. *)
Definition same_session (s s' : session script) : Prop :=
  s_extensions s' = s_extensions s /\ s_version s' = s_version s /\
  sc_end (s_stream s') = sc_end (s_stream s).

(** ** Lemmas *)

Lemma zlen_message_body m : zlen (message_body m) = 5 + zlen (m_payload m).
Proof. unfold message_body. zlen_lia. Qed.

Section Reading.
Context {P : Platform}.
Implicit Types (s : session script).

Lemma read_one_message s m rest :
  message_wf m -> pending s = frame (message_body m) ++ rest ->
  exists s', read_one_ s =
      (deref* res := complete on_complete (s_heap s) (s_queue s) (m_id m) (m_type m) no_error
                       (m_payload m) in
       let '(_, h, q) := res in Done (no_error, with_queue q h s')) /\
    pending s' = rest /\ written s' = written s /\ same_session s s'.
Proof.
  intros (Ht & Hi & Hz) Hp. rewrite <- zlen_message_body in Hz. unfold pending in Hp.
  destruct s as [[chunks wr fin] buf exts ver q h]. cbn [s_buffer s_stream sc_chunks] in Hp.
  destruct (script_read_frame chunks buf (make_error_code fin) _ _ Hz Hp)
    as (more & chunks' & Hread & Hrest).
  exists (Session (Script chunks' wr fin) more exts ver q h). split; [|done].
  unfold read_one_. cbn [s_buffer s_stream read_until script_runtime sc_chunks sc_end].
  rewrite Hread. cbn [v_data]. rewrite ec_bool_no_error, packet_body_frame by done.
  unfold message_body at 1. rewrite takes_u8 by done. rewrite takes_u32 by done.
  cbn [rd_ec rd_buf]. rewrite ec_bool_no_error.
  rewrite frame_size by done. unfold consume.
  pose proof (zlen_nonneg (message_body m)).
  rewrite u32_small by (unfold is_u32; lia).
  replace (Z.to_nat (zlen (message_body m) + 4)) with (length (frame (message_body m)))
    by (pose proof (zlen_frame (message_body m)); unfold zlen in *; lia).
  by rewrite drop_app_length.
Qed.

(** The end of the connection: every waiting response is cancelled. *)
Lemma read_one_end s :
  (forall pre suf, pending s = pre ++ suf -> match_packet pre = None) ->
  exists s', read_one_ s =
      (deref* hq := cancel_all on_complete (s_heap s) (s_queue s) (fails_with s) in
       Done (fails_with s, with_queue (snd hq) (fst hq) s')) /\
    pending s' = pending s /\ written s' = written s /\ same_session s s'.
Proof.
  intros Hpre. destruct s as [[chunks wr fin] buf exts ver q h].
  unfold pending in Hpre. cbn [s_buffer s_stream sc_chunks] in Hpre.
  assert (Hr : forall chunks buf, (forall pre suf, buf ++ concat chunks = pre ++ suf ->
      match_packet pre = None) ->
    exists v, script_read chunks buf (make_error_code fin) = ((make_error_code fin, 0, v), []) /\
      v_data v = buf ++ concat chunks).
  { clear. induction chunks as [|c chunks IH]; intros buf Hpre; cbn [script_read].
    - rewrite (Hpre buf []) by done. eexists. split; [done|]. cbn. by rewrite app_nil_r.
    - rewrite (Hpre buf (concat (c :: chunks))) by done.
      destruct (IH (buf ++ c)) as (v & Hv & Hd).
      + intros pre suf Heq. apply (Hpre pre suf). by rewrite <- Heq, <- app_assoc.
      + exists v. split; [done|]. by rewrite Hd, <- app_assoc. }
  destruct (Hr chunks buf Hpre) as (v & Hread & Hv).
  exists (Session (Script [] wr fin) (v_data v) exts ver q h).
  split; [|split; [|done]].
  - unfold read_one_. cbn [s_buffer s_stream read_until script_runtime sc_chunks sc_end].
    rewrite Hread. cbn [v_data]. rewrite ec_bool_make. done.
  - unfold pending. cbn. by rewrite app_nil_r.
Qed.

End Reading.

(** ** Lemmas: waiting for a reply *)

Section Waiting.
Context {P : Platform}.
Implicit Types (s : session script).

(** The queue holds exactly the response at [l], with request id [id]. *)
Definition waiting (l : address) (id : Z) (r : response) s : Prop :=
  queue_rep (s_heap s) (s_queue s) [l] /\
  s_heap s !! l = Some (Node None None id r).

Lemma waiting_with_queue l id r s s' :
  waiting l id r s -> waiting l id r (with_queue (s_queue s) (s_heap s) s').
Proof. done. Qed.

Lemma wait_stray l id r s m rest :
  waiting l id r s -> completed r = false -> message_wf m -> m_id m <> id ->
  pending s = frame (message_body m) ++ rest ->
  exists s', wait_body l (no_error, s) = Again (no_error, s') /\
    waiting l id r s' /\ pending s' = rest /\ written s' = written s /\ same_session s s' /\
    s_queue s' = s_queue s /\ s_heap s' = s_heap s.
Proof.
  intros [Hq Hl] Hc Hm Hid Hp.
  destruct (read_one_message s m rest Hm Hp) as (s' & Hread & Hp' & Hw & Hs).
  rewrite (complete_rep_miss _ _ _ [l]) in Hread; [|done|].
  2:{ intros k Hk. apply list_elem_of_singleton in Hk as ->. unfold node_id. rewrite Hl.
      cbn. congruence. }
  exists (with_queue (s_queue s) (s_heap s) s'). split; [|done].
  unfold wait_body. unfold load. rewrite Hl. cbn [n_response]. rewrite ec_bool_no_error, Hc.
  cbn [orb lock script_runtime]. rewrite ec_bool_no_error.
  destruct s as [e buf exts ver q h]. unfold with_stream. cbn [s_stream s_buffer s_extensions
    s_version s_queue s_heap] in *. rewrite Hread. done.
Qed.

Lemma wait_reply l id r s m rest :
  waiting l id r s -> completed r = false -> message_wf m -> m_id m = id ->
  pending s = frame (message_body m) ++ rest ->
  exists s', loop (wait_body l) 2 (no_error, s) =
      Some (Done (Final (on_complete no_error (m_type m) (m_payload m) r)), (no_error, s')) /\
    pending s' = rest /\ written s' = written s /\ same_session s s' /\ idle s' /\
    request_id_gen (s_queue s') = request_id_gen (s_queue s) /\
    delete l (s_heap s') = delete l (s_heap s).
Proof.
  intros [Hq Hl] Hc Hm Hid Hp.
  destruct (read_one_message s m rest Hm Hp) as (s' & Hread & Hp' & Hw & Hs).
  rewrite (complete_rep_hit _ _ _ [] l [] _ _ _ _ (Node None None id r)) in Hread;
    [|exact Hq|set_solver|exact Hl|exact (eq_sym Hid)].
  rewrite decide_True in Hread by done. cbn [access_bind n_response set_response] in Hread.
  exists (with_queue (ResponseQueue (first (s_queue s)) None (request_id_gen (s_queue s)))
    (<[l := Node None None id (on_complete no_error (m_type m) (m_payload m) r)]> (s_heap s)) s').
  split; [|split; [exact Hp'|split; [exact Hw|split; [exact Hs|]]]].
  2:{ split; [done|]. split; [done|]. cbn. apply delete_insert_eq. }
  cbn [loop]. unfold wait_body at 1. unfold load. rewrite Hl. cbn [n_response].
  rewrite ec_bool_no_error, Hc.
  cbn [orb lock script_runtime]. rewrite ec_bool_no_error.
  destruct s as [e buf exts ver q h]. unfold with_stream. cbn [s_stream s_buffer s_extensions
    s_version s_queue s_heap] in *. rewrite Hread. cbn [fst snd].
  unfold wait_body, load. cbn [s_heap with_queue]. rewrite lookup_insert_eq. cbn [n_response set_response].
  rewrite on_complete_completed, orb_true_r. done.
Qed.

Lemma same_session_trans s1 s2 s3 :
  same_session s1 s2 -> same_session s2 s3 -> same_session s1 s3.
Proof. unfold same_session. intuition congruence. Qed.

Lemma wait_strays l id r s strays rest :
  waiting l id r s -> completed r = false ->
  Forall (fun m => message_wf m /\ m_id m <> id) strays ->
  pending s = messages_bytes strays ++ rest ->
  exists s', rounds (wait_body l) (length strays) (no_error, s) (no_error, s') /\
    waiting l id r s' /\ pending s' = rest /\ written s' = written s /\ same_session s s' /\
    s_queue s' = s_queue s /\ s_heap s' = s_heap s.
Proof.
  intros Hw Hc Hs. revert s Hw. induction Hs as [|m strays [Hm Hid] Hs IH]; intros s Hw Hp.
  - exists s. split; [constructor|]. split; [exact Hw|]. split; [exact Hp|]. by repeat split.
  - change (messages_bytes (m :: strays)) with (frame (message_body m) ++ messages_bytes strays) in Hp.
    rewrite <- app_assoc in Hp.
    destruct (wait_stray l id r s m _ Hw Hc Hm Hid Hp)
      as (s1 & Hb & Hw1 & Hp1 & Hwr1 & Hss1 & Hq1 & Hh1).
    destruct (IH s1 Hw1 Hp1) as (s2 & Hr & Hw2 & Hp2 & Hwr2 & Hss2 & Hq2 & Hh2).
    exists s2. split; [econstructor; [exact Hb | exact Hr]|]. split; [done|]. split; [done|].
    split; [congruence|]. split; [by eapply same_session_trans|]. split; congruence.
Qed.

(** The state in which a call starts to wait. *)
Lemma exchange_start fuel l new packet s :
  idle s -> s_heap s !! l = None ->
  let id := request_id_gen (s_queue s) in
  exists s1, waiting l id new s1 /\ pending s1 = pending s /\
    written s1 = written s ++ fst (packet id) /\ same_session s s1 /\
    request_id_gen (s_queue s1) = u32 (id + 1) /\ delete l (s_heap s1) = s_heap s /\
    exchange fuel l new packet s =
      match loop (wait_body l) fuel (no_error, s1) with
      | None => None
      | Some (x, (_, s')) => Some (x, release_frame l s')
      end.
Proof.
  intros Hi Hl id. unfold exchange, get_request_id.
  set (h := construct (s_heap s) l _ new).
  assert (Hlh : h !! l = Some (Node None None id new)) by apply lookup_insert_eq.
  edestruct (enqueue_restart h (ResponseQueue (first (s_queue s)) (last (s_queue s))
    (u32 (request_id_gen (s_queue s) + 1))) l) as [-> Hrep]; [exact Hi | exact Hlh | done | done |].
  set (q := ResponseQueue (Some l) _ _) in *.
  destruct s as [[chunks wr fin] buf exts ver q0 h0].
  exists (Session (Script chunks (wr ++ fst (packet id)) fin) buf exts ver q h).
  split; [done|]. do 4 (split; [done|]). split.
  { cbn. unfold h, construct. by rewrite delete_insert_id by done. }
  subst id. unfold send_and_wait.
  cbn [s_queue s_buffer s_stream s_extensions s_version s_heap with_queue with_stream].
  destruct (packet (request_id_gen q0)) as [pkt pec]. cbn [fst].
  cbn [lock write script_runtime s_stream with_stream with_queue sc_chunks sc_written sc_end].
  rewrite ec_bool_no_error.
  cbn [s_queue s_buffer s_stream s_extensions s_version s_heap with_queue with_stream].
  by destruct (loop _ _ _) as [[x [ec' s']]|].
Qed.

Lemma exchange_reply fuel l new packet s strays m rest :
  idle s -> s_heap s !! l = None -> completed new = false ->
  Forall (fun m => message_wf m /\ m_id m <> request_id_gen (s_queue s)) strays ->
  message_wf m -> m_id m = request_id_gen (s_queue s) ->
  pending s = messages_bytes strays ++ frame (message_body m) ++ rest ->
  (length strays + 2 <= fuel)%nat ->
  exists s', exchange fuel l new packet s =
      Some (Done (Final (on_complete no_error (m_type m) (m_payload m) new)), s') /\
    pending s' = rest /\ written s' = written s ++ fst (packet (request_id_gen (s_queue s))) /\
    idle s' /\ request_id_gen (s_queue s') = u32 (request_id_gen (s_queue s) + 1) /\
    s_heap s' = s_heap s /\ same_session s s'.
Proof.
  intros Hi Hl Hc Hs Hm Hid Hp Hf.
  destruct (exchange_start fuel l new packet s Hi Hl)
    as (s1 & Hw1 & Hp1 & Hwr1 & Hss1 & Hg1 & Hh1 & ->).
  rewrite Hp in Hp1.
  destruct (wait_strays l _ new s1 strays _ Hw1 Hc Hs Hp1)
    as (s2 & Hr & Hw2 & Hp2 & Hwr2 & Hss2 & Hq2 & Hh2).
  destruct (wait_reply l _ new s2 m rest Hw2 Hc Hm Hid Hp2)
    as (s3 & Hloop & Hp3 & Hwr3 & Hss3 & Hi3 & Hg3 & Hh3).
  rewrite (loop_mono _ _ fuel _ _ (loop_after _ _ _ _ _ _ Hr Hloop) Hf).
  exists (release_frame l s3). split; [done|]. split; [done|]. split.
  { change (written (release_frame l s3)) with (written s3). congruence. }
  split; [done|]. split.
  { change (s_queue (release_frame l s3)) with (s_queue s3). congruence. }
  split.
  - change (s_heap (release_frame l s3)) with (delete l (s_heap s3)). congruence.
  - eapply same_session_trans; [|eapply same_session_trans]; eauto.
Qed.

End Waiting.

(** ** Lemmas: calls that do not get their reply *)

Section Failing.
Context {P : Platform}.
Implicit Types (s : session script).

(** The bytes left hold no complete packet. *)
Definition no_packet (data : bytes) : Prop :=
  forall pre suf, data = pre ++ suf -> match_packet pre = None.

Lemma wait_end l id r s :
  waiting l id r s -> completed r = false -> no_packet (pending s) ->
  exists s', loop (wait_body l) 2 (no_error, s) =
      Some (Done (Final (on_complete (fails_with s) 0 [] r)), (fails_with s, s')) /\
    pending s' = pending s /\ written s' = written s /\ same_session s s' /\
    s_queue s' = ResponseQueue None None (request_id_gen (s_queue s)) /\
    delete l (s_heap s') = delete l (s_heap s).
Proof.
  intros [Hq Hl] Hc Hp.
  destruct (read_one_end s Hp) as (s' & Hread & Hp' & Hw & Hs).
  destruct (cancel_all_rep on_complete (s_heap s) (s_queue s) [l] (fails_with s) Hq)
    as (h' & Hcancel & Hin & Hout).
  rewrite Hcancel in Hread. cbn [access_bind fst snd] in Hread.
  specialize (Hin l _ ltac:(set_solver) Hl). cbn [n_response] in Hin.
  exists (with_queue (ResponseQueue None None (request_id_gen (s_queue s))) h' s').
  split; [|split; [exact Hp'|split; [exact Hw|split; [exact Hs|split; [done|]]]]].
  2:{ apply map_eq. intros k. destruct (decide (l = k)) as [<-|Hne].
      - by rewrite !lookup_delete_eq.
      - rewrite !lookup_delete_ne by done. apply Hout. set_solver. }
  cbn [loop]. unfold wait_body at 1. unfold load. rewrite Hl. cbn [n_response].
  rewrite ec_bool_no_error, Hc. cbn [orb lock script_runtime]. rewrite ec_bool_no_error.
  destruct s as [e buf exts ver q h]. unfold with_stream. cbn [s_stream s_buffer s_extensions
    s_version s_queue s_heap] in *. rewrite Hread.
  unfold wait_body, load. cbn [s_heap with_queue]. rewrite Hin. cbn [n_response set_response].
  by rewrite on_complete_completed, orb_true_r.
Qed.

Lemma exchange_lost fuel l new packet s strays rest :
  idle s -> s_heap s !! l = None -> completed new = false ->
  Forall (fun m => message_wf m /\ m_id m <> request_id_gen (s_queue s)) strays ->
  pending s = messages_bytes strays ++ rest -> no_packet rest ->
  (length strays + 2 <= fuel)%nat ->
  exists s', exchange fuel l new packet s =
      Some (Done (Final (on_complete (fails_with s) 0 [] new)), s') /\
    pending s' = rest /\ idle s' /\ s_heap s' = s_heap s.
Proof.
  intros Hi Hl Hc Hs Hp Hnp Hf.
  destruct (exchange_start fuel l new packet s Hi Hl)
    as (s1 & Hw1 & Hp1 & Hwr1 & Hss1 & Hg1 & Hh1 & ->).
  rewrite Hp in Hp1.
  destruct (wait_strays l _ new s1 strays _ Hw1 Hc Hs Hp1)
    as (s2 & Hr & Hw2 & Hp2 & Hwr2 & Hss2 & Hq2 & Hh2).
  rewrite <- Hp2 in Hnp.
  destruct (wait_end l _ new s2 Hw2 Hc Hnp)
    as (s3 & Hloop & Hp3 & Hwr3 & Hss3 & Hq3 & Hh3).
  rewrite (loop_mono _ _ fuel _ _ (loop_after _ _ _ _ _ _ Hr Hloop) Hf).
  assert (Hfail : fails_with s2 = fails_with s).
  { unfold fails_with. f_equal. destruct Hss2 as (_ & _ & ->), Hss1 as (_ & _ & ->). done. }
  exists (release_frame l s3). rewrite Hfail. split; [done|].
  split; [change (pending (release_frame l s3)) with (pending s3); congruence|].
  split; [unfold idle; change (s_queue (release_frame l s3)) with (s_queue s3); by rewrite Hq3|].
  change (s_heap (release_frame l s3)) with (delete l (s_heap s3)). congruence.
Qed.

(** A packet too short for a type and a request id. *)
Lemma read_one_short s body rest :
  zlen body < 5 -> pending s = frame body ++ rest ->
  exists s', read_one_ s = Done (bad_message_ec, s') /\ pending s' = pending s /\
    s_queue s' = s_queue s /\ s_heap s' = s_heap s.
Proof.
  intros Hz Hp. destruct s as [[chunks wr fin] buf exts ver q h].
  unfold pending in *. cbn [s_buffer s_stream sc_chunks] in *.
  destruct (script_read_frame chunks buf (make_error_code fin) body rest ltac:(lia) Hp)
    as (more & chunks' & Hread & Hrest).
  exists (Session (Script chunks' wr fin) (frame body ++ more) exts ver q h).
  split; [|by rewrite Hp, Hrest; cbn; rewrite <- app_assoc].
  unfold read_one_. cbn [s_buffer s_stream read_until script_runtime sc_chunks sc_end].
  rewrite Hread. cbn [v_data]. rewrite ec_bool_no_error, packet_body_frame by lia.
  pose proof (takes_u8 (Z_of_byte (hd Byte.x00 body)) (Z_of_byte_range _) (tl body)) as Ht.
  rewrite byte_of_Z_of_byte in Ht. destruct body as [|b body].
  - reflexivity.
  - cbn [app hd tl] in Ht. rewrite Ht in *. cbv beta delta [take_u32].
    rewrite require_bytes_short by zlen_lia. reflexivity.
Qed.

Lemma exchange_short fuel l new packet s body rest :
  idle s -> s_heap s !! l = None -> completed new = false ->
  zlen body < 5 -> pending s = frame body ++ rest -> (2 <= fuel)%nat ->
  exists s', exchange fuel l new packet s = Some (Done (Final new), s') /\
    pending s' = pending s /\ last (s_queue s') = Some l /\ s_heap s' !! l = None.
Proof.
  intros Hi Hl Hc Hz Hp Hf.
  destruct (exchange_start fuel l new packet s Hi Hl)
    as (s1 & [Hq1 Hl1] & Hp1 & Hwr1 & Hss1 & Hg1 & Hh1 & ->).
  rewrite Hp in Hp1. destruct (read_one_short s1 body rest Hz Hp1) as (s2 & Hread & Hp2 & Hq2 & Hh2).
  assert (Hloop : loop (wait_body l) 2 (no_error, s1) =
    Some (Done (Final new), (bad_message_ec, s2))).
  { cbn [loop]. unfold wait_body at 1. unfold load. rewrite Hl1. cbn [n_response].
    rewrite ec_bool_no_error, Hc. cbn [orb lock script_runtime]. rewrite ec_bool_no_error.
    destruct s1 as [e buf exts ver q h]. unfold with_stream. cbn [s_stream s_buffer s_extensions
      s_version s_queue s_heap] in *. rewrite Hread.
    unfold wait_body, load. rewrite Hh2, Hl1. cbn [n_response]. by rewrite ec_bool_bad_message. }
  rewrite (loop_mono _ _ fuel _ _ Hloop Hf).
  exists (release_frame l s2). split; [done|].
  split; [change (pending (release_frame l s2)) with (pending s2); congruence|].
  split; [|apply lookup_delete_eq].
  change (s_queue (release_frame l s2)) with (s_queue s2). rewrite Hq2.
  by destruct Hq1 as (_ & _ & ->).
Qed.

End Failing.

Section Dangling.
Context {P : Platform} {E : Type} {R : Runtime E}.
Implicit Types (s : session E).

(** A queue whose last response is gone: the next call follows the pointer. *)
Lemma exchange_dangling fuel l new packet s p :
  last (s_queue s) = Some p -> s_heap s !! p = None -> l <> p ->
  exchange fuel l new packet s = Some (Dangling, s).
Proof.
  intros Hp Hh Hne. unfold exchange, get_request_id, enqueue_response.
  cbn [last]. rewrite Hp. unfold load, construct. by rewrite lookup_insert_ne, Hh.
Qed.

(** A failing write leaves the queue in that state. *)
Lemma exchange_write_fails fuel l new packet s e1 ec e2 :
  idle s -> lock (s_stream s) = (no_error, e1) ->
  write (fst (packet (request_id_gen (s_queue s)))) e1 = (ec, e2) -> ec_bool ec = true ->
  exists s', exchange fuel l new packet s = Some (Done (Early ec), s') /\
    last (s_queue s') = Some l /\ s_heap s' !! l = None.
Proof.
  intros Hi Hlock Hwrite Hec. unfold exchange, get_request_id, enqueue_response.
  cbn [last]. unfold idle in Hi. rewrite Hi. unfold send_and_wait.
  cbn [s_stream with_queue with_stream].
  destruct (packet (request_id_gen (s_queue s))) as [pkt pec]. cbn [fst] in Hwrite.
  rewrite Hlock, ec_bool_no_error, Hwrite, Hec.
  eexists. split; [done|]. split; [done|]. apply lookup_delete_eq.
Qed.

End Dangling.

(** ** Properties *)

Section Properties.
Context {P : Platform}.
Implicit Types (s : session script).

(** C13: [read_some_at] delivers what the server sends: replies to other
    requests before it are skipped, the first [min] of the data's and the
    buffer's size bytes of the data go to the front of the caller's buffer, the
    rest of the buffer keeps its contents, the count is that minimum, and the
    connection is left exactly behind the reply. *)
Theorem read_some_at_data fuel l b f offset buffer s strays data rest :
  idle s -> s_heap s !! l = None -> is_u32 (request_id_gen (s_queue s)) ->
  Forall (fun m => message_wf m /\ m_id m <> request_id_gen (s_queue s)) strays ->
  9 + zlen data < 2 ^ 32 - 4 ->
  pending s = messages_bytes strays ++
    frame (message_body (Message SSH_FXP_DATA (request_id_gen (s_queue s)) (str_bytes data)))
    ++ rest ->
  (length strays + 2 <= fuel)%nat ->
  exists s',
    let n := Z.min (zlen data) (zlen buffer) in
    read_some_at fuel l b f offset buffer s =
      Some (Done (IoResult no_error n,
                  take (Z.to_nat n) data ++ drop (Z.to_nat n) buffer), s') /\
    pending s' = rest /\ idle s' /\ s_heap s' = s_heap s.
Proof.
  intros Hi Hl Hid Hs Hz Hp Hf.
  edestruct (exchange_reply fuel l (RData (new_data_response buffer))
    (fun id => read_packet b id (f_handle f) offset (zlen buffer)) s strays
      (Message SSH_FXP_DATA (request_id_gen (s_queue s)) (str_bytes data)) rest)
    as (s' & Hx & Hp' & _ & Hi' & _ & Hh & _); [done | done | done | done | | | exact Hp | done |].
  - split; [done|]. split; [done|]. cbn [m_payload]. zlen_lia.
  - done.
  - exists s'. cbv zeta. split; [|done]. unfold read_some_at. rewrite Hx.
    cbn [returning access_bind on_complete m_type m_payload].
    rewrite complete_data_body by (unfold str_wf, is_u32; zlen_lia). done.
Qed.

(** C22: [read_some_at] at the end of the file: an [SSH_FX_EOF] status is the
    portable end-of-file error, any other failing status is the sftp error of
    that number, and the buffer is untouched. *)
Theorem read_some_at_status fuel l b f offset buffer s code rest :
  idle s -> s_heap s !! l = None -> is_u32 (request_id_gen (s_queue s)) ->
  is_u32 code -> code <> SSH_FX_OK ->
  pending s =
    frame (message_body (Message SSH_FXP_STATUS (request_id_gen (s_queue s))
                           (status_body code [] []))) ++ rest ->
  (2 <= fuel)%nat ->
  exists s',
    read_some_at fuel l b f offset buffer s =
      Some (Done (IoResult (if code =? SSH_FX_EOF then capy_eof
                            else ErrorCode (i32 code) sftp_category) 0, buffer), s') /\
    pending s' = rest /\ idle s'.
Proof.
  intros Hi Hl Hid Hc Hok Hp Hf.
  edestruct (exchange_reply fuel l (RData (new_data_response buffer))
    (fun id => read_packet b id (f_handle f) offset (zlen buffer)) s []
      (Message SSH_FXP_STATUS (request_id_gen (s_queue s)) (status_body code [] [])) rest)
    as (s' & Hx & Hp' & _ & Hi' & _); [done | done | done | constructor | | | exact Hp | done |].
  - split; [done|]. split; [done|]. cbn [m_payload]. unfold status_body. zlen_lia.
  - done.
  - exists s'. split; [|done]. unfold read_some_at. rewrite Hx.
    cbn [returning access_bind on_complete m_type m_payload]. unfold complete_data.
    rewrite ec_bool_no_error. cbn [negb andb]. rewrite Z.eqb_refl.
    unfold status_body. rewrite takes_u32 by done. cbn [rd_ec]. rewrite ec_bool_no_error.
    destruct (Z.eqb_spec code SSH_FX_EOF); [done|].
    destruct (Z.eqb_spec code SSH_FX_OK); done.
Qed.


(** C34: A reply packet too short to hold a type and a request id makes
    [unlink] (like every member function) return success although the server
    never answered: [read_one_] fails, the loop ends, and the error code
    returned is that of the response nobody completed.  The response also stays
    in the queue when its coroutine is gone. *)
Theorem short_reply_is_success fuel l b filename s body rest :
  idle s -> s_heap s !! l = None -> zlen body < 5 -> pending s = frame body ++ rest ->
  (2 <= fuel)%nat ->
  exists s', unlink fuel l b filename s = Some (Done no_error, s') /\
    pending s' = pending s /\ last (s_queue s') = Some l /\ s_heap s' !! l = None.
Proof.
  intros Hi Hl Hz Hp Hf.
  destruct (exchange_short fuel l (RStatus new_status_response)
    (fun id => unlink_packet b id filename) s body rest) as (s' & Hx & H); [done..|].
  exists s'. split; [|done]. unfold unlink, status_call. by rewrite Hx.
Qed.

End Properties.

Section MoreProperties.
Context {P : Platform} {E : Type} {R : Runtime E}.

(** C33: A call whose packet cannot be written leaves the session unusable: the
    response of that call is still linked from the queue when its coroutine
    frame is destroyed, and the next call writes through the dangling pointer. *)
Theorem call_after_failed_write fuel l l2 new new2 packet packet2 (s : session E) e1 ec e2 :
  idle s -> lock (s_stream s) = (no_error, e1) ->
  write (fst (packet (request_id_gen (s_queue s)))) e1 = (ec, e2) -> ec_bool ec = true ->
  l2 <> l ->
  exists s', exchange fuel l new packet s = Some (Done (Early ec), s') /\
    exchange fuel l2 new2 packet2 s' = Some (Dangling, s').
Proof.
  intros Hi Hlock Hwrite Hec Hne.
  destruct (exchange_write_fails fuel l new packet s e1 ec e2) as (s' & Hx & Hlast & Hh); [done..|].
  exists s'. split; [done|]. by eapply exchange_dangling.
Qed.

End MoreProperties.

(** ** Witnesses *)

Definition demo_session (chunks : list bytes) : session script :=
  Session (Script chunks [] io_error) [] [] LIBSFTP_VERSION empty_queue ∅.

(** A reply to another request, then the data, in two chunks. *)
Definition demo_stray : message := Message SSH_FXP_STATUS 9 (status_body 0 [] []).
Definition demo_data : bytes :=
  messages_bytes [demo_stray] ++
  frame (message_body (Message SSH_FXP_DATA 0 (str_bytes (lit "hello")))) ++ [].

Lemma read_some_at_data_witness :
  exists s',
    let n := Z.min (zlen (lit "hello")) (zlen (lit "abc")) in
    read_some_at 3 1%positive demo_buffer (File true (lit "h")) 0 (lit "abc")
      (demo_session [take 7 demo_data; drop 7 demo_data]) =
      Some (Done (IoResult no_error n,
                  take (Z.to_nat n) (lit "hello") ++ drop (Z.to_nat n) (lit "abc")), s') /\
    pending s' = [] /\ idle s' /\ s_heap s' = ∅.
Proof.
  apply (read_some_at_data 3 1%positive demo_buffer (File true (lit "h")) 0 (lit "abc")
    (demo_session [take 7 demo_data; drop 7 demo_data]) [demo_stray] (lit "hello") []).
  - done.
  - done.
  - by vm_compute.
  - repeat constructor; by vm_compute.
  - by vm_compute.
  - by vm_compute.
  - by vm_compute.
Defined.

Definition demo_eof : bytes :=
  frame (message_body (Message SSH_FXP_STATUS 0 (status_body SSH_FX_EOF [] []))) ++ [].

Lemma read_some_at_status_witness :
  exists s',
    read_some_at 2 1%positive demo_buffer (File true (lit "h")) 5 (lit "abc")
      (demo_session [demo_eof]) =
      Some (Done (IoResult capy_eof 0, lit "abc"), s') /\
    pending s' = [] /\ idle s'.
Proof.
  apply (read_some_at_status 2 1%positive demo_buffer (File true (lit "h")) 5 (lit "abc")
    (demo_session [demo_eof]) SSH_FX_EOF []); by vm_compute.
Defined.


Lemma short_reply_is_success_witness :
  exists s',
    unlink 2 1%positive demo_buffer (lit "f") (demo_session [frame [Byte.x65]]) =
      Some (Done no_error, s') /\
    pending s' = frame [Byte.x65] /\ last (s_queue s') = Some 1%positive /\
    s_heap s' !! 1%positive = None.
Proof.
  apply (short_reply_is_success 2 1%positive demo_buffer (lit "f")
    (demo_session [frame [Byte.x65]]) [Byte.x65] []); by vm_compute.
Defined.

(** A runtime whose writes fail. *)
Definition broken_runtime : Runtime unit := {|
  read_until buf e := ((make_error_code io_error, 0, Vec buf 0), e);
  write buf e := (make_error_code broken_pipe, e);
  lock e := (no_error, e);
  stop_requested e := (false, e)
|}.

Lemma call_after_failed_write_witness :
  exists s',
    exchange (R := broken_runtime) 2 1%positive (RStatus new_status_response)
      (fun id => unlink_packet demo_buffer id (lit "f"))
      (Session () [] [] 3 empty_queue ∅)
    = Some (Done (Early (make_error_code broken_pipe)), s') /\
    exchange (R := broken_runtime) 2 2%positive (RStatus new_status_response)
      (fun id => unlink_packet demo_buffer id (lit "f")) s' = Some (Dangling, s').
Proof.
  apply (call_after_failed_write (R := broken_runtime) 2 1%positive 2%positive
    (RStatus new_status_response) (RStatus new_status_response)
    (fun id => unlink_packet demo_buffer id (lit "f"))
    (fun id => unlink_packet demo_buffer id (lit "f"))
    (Session () [] [] 3 empty_queue ∅) () (make_error_code broken_pipe) ()); done.
Defined.
