(* ===== verification/Callers.v ===== *)
(** * Callers: concurrent calls on one [sftp::session] ([src/sftp.cpp] 306-332, 380-431)

    Any number of coroutines may call member functions of one session.  They
    interleave where they suspend: in [read_mutex_.lock()] and [write] while
    they send, in [write_mutex_.lock()] and [read_until] while they wait for
    replies (the mutexes are named the wrong way round in the source).  Whoever
    holds the second mutex reads one packet, whomever it is for.

    [caller_step i] runs caller [i] from one suspension point to the next; a
    schedule is the list of the callers that run.  [single_caller] ties the
    machine to [exchange], [callers_locks] is what the mutexes achieve, and
    [concurrent_calls_dangle] what two calls at a time do.
    [read_several_buffers_dangle] is what this means for the overload of
    [file::read_some_at] that runs one call per buffer. *)

From S2P Require Import Prelude Libssh ErrorCode Codec Stream ResponseQueue Responses Requests.
From S2P Require Import Server Backends ServerSession Client ClientSpec.

#[local] Open Scope Z_scope.

(** ** State *)

(** Where a caller is suspended; [l] is the address of its response. *)
Inductive caller :=
| NotCalled (l : address) (new : response) (packet : Z -> bytes * error_code)
| WantSend (l : address) (to_write : bytes)   (** in [read_mutex_.lock()] *)
| Sending (l : address) (to_write : bytes)    (** holds [read_mutex_], in [write] *)
| WantReceive (l : address)                   (** in [write_mutex_.lock()] *)
| Receiving (l : address)                     (** holds [write_mutex_], in [read_one_] *)
| Returned (x : exit).

Section Machine.
Context {E : Type}.

Record call_machine := CallMachine {
  cm_session : session E;
  cm_sender : option nat; cm_receiver : option nat;  (** who holds the mutexes *)
  cm_callers : list caller }.

Context {P : Platform} {R : Runtime E}.

(** Caller [i] is suspended again in [c]; the rest is given. *)
Definition now_at (i : nat) (c : caller) (m : call_machine) (s : session E)
    (sender receiver : option nat) : call_machine :=
  CallMachine s sender receiver (<[i := c]> (cm_callers m)).

(** [while (!ec && !response.completed)]: the next round, or the return, which
    destroys the frame. *)
Definition loop_test (l : address) (ec : error_code) (s : session E)
    : access (caller * session E) :=
  deref* n := load (s_heap s) l in
  Done (if ec_bool ec || completed (n_response n)
        then (Returned (Final (n_response n)), release_frame l s)
        else (WantReceive l, s)).

Definition caller_step (i : nat) (m : call_machine) : access call_machine :=
  let '(CallMachine s sender receiver callers) := m in
  match callers !! i with
  | None | Some (Returned _) => Done m
  | Some (NotCalled l new packet) =>
      let '(id, q) := get_request_id (s_queue s) in
      deref* hq := enqueue_response (construct (s_heap s) l id new) q l in
      Done (now_at i (WantSend l (fst (packet id))) m (with_queue (snd hq) (fst hq) s)
              sender receiver)
  | Some (WantSend l to_write) =>
      let '(ec, e) := lock (s_stream s) in
      if ec_bool ec then
        Done (now_at i (Returned (Early ec)) m (release_frame l (with_stream e s)) sender receiver)
      else match sender with
           | Some _ => Done m
           | None => Done (now_at i (Sending l to_write) m (with_stream e s) (Some i) receiver)
           end
  | Some (Sending l to_write) =>
      let '(ec, e) := write to_write (s_stream s) in
      let s := with_stream e s in
      if ec_bool ec then
        Done (now_at i (Returned (Early ec)) m (release_frame l s) None receiver)
      else
        deref* cs := loop_test l ec s in
        Done (now_at i (fst cs) m (snd cs) None receiver)
  | Some (WantReceive l) =>
      let '(ec, e) := lock (s_stream s) in
      if ec_bool ec then
        Done (now_at i (Returned (Early ec)) m (release_frame l (with_stream e s)) sender receiver)
      else match receiver with
           | Some _ => Done m
           | None =>
               let s := with_stream e s in
               deref* n := load (s_heap s) l in
               if completed (n_response n) then
                 deref* cs := loop_test l ec s in
                 Done (now_at i (fst cs) m (snd cs) sender None)
               else Done (now_at i (Receiving l) m s sender (Some i))
           end
  | Some (Receiving l) =>
      deref* es := read_one_ s in
      deref* cs := loop_test l (fst es) (snd es) in
      Done (now_at i (fst cs) m (snd cs) sender None)
  end.

Fixpoint run_callers (schedule : list nat) (m : call_machine) : access call_machine :=
  match schedule with
  | [] => Done m
  | i :: rest => deref* m := caller_step i m in run_callers rest m
  end.

(** Callers on a session nobody else uses. *)
Definition call_all (s : session E) (callers : list caller) : call_machine :=
  CallMachine s None None callers.

(** Caller [i] can run: it neither has returned nor waits for a held mutex. *)
Definition can_run (i : nat) (m : call_machine) : bool :=
  match cm_callers m !! i with
  | None | Some (Returned _) => false
  | Some (WantSend _ _) => bool_decide (cm_sender m = None)
  | Some (WantReceive _) => bool_decide (cm_receiver m = None)
  | Some _ => true
  end.

End Machine.

Arguments call_machine : clear implicits.
Arguments CallMachine {E} _ _ _ _.

(** ** The overloads of [read_some_at] and [write_some_at] for several buffers

    One task per buffer, all of them on the session of the file; [when_all] runs
    them concurrently.  A buffer comes with the address of its task's response. *)

Fixpoint read_some_at_tasks (b : small_buffer) (f : file) (offset : Z) (mb : list (address * bytes))
    : list caller :=
  match mb with
  | [] => []
  | (l, buf) :: rest =>
      NotCalled l (RData (new_data_response buf))
        (fun id => read_packet b id (f_handle f) offset (zlen buf))
      :: read_some_at_tasks b f (u64 (offset + zlen buf)) rest
  end.

Fixpoint write_some_at_tasks (b : small_buffer) (f : file) (offset : Z) (mb : list (address * bytes))
    : list caller :=
  match mb with
  | [] => []
  | (l, buf) :: rest =>
      NotCalled l (RStatus new_status_response)
        (fun id => write_packet b id (f_handle f) offset buf)
      :: write_some_at_tasks b f (u64 (offset + zlen buf)) rest
  end.

(** The loop over the results and [co_return n]: the first error is collected
    in [ec], which nobody reads. *)
Definition all_results (r : list (io_result Z)) : io_result Z :=
  let '(n, ec) := foldl (fun '(n, ec) r =>
      (u64 (n + io_value r), if ec_bool (io_ec r) && negb (ec_bool ec) then io_ec r else ec))
    (0, no_error) r in
  IoResult no_error n.

Definition not_called (c : caller) : bool := match c with NotCalled _ _ _ => true | _ => false end.
Definition has_returned (c : caller) : bool := match c with Returned _ => true | _ => false end.
Definition is_sending (c : caller) : bool := match c with Sending _ _ => true | _ => false end.
Definition is_receiving (c : caller) : bool := match c with Receiving _ => true | _ => false end.

(** ** Lemmas: the mutexes *)

Section CallersLemmas.
Context {P : Platform} {E : Type} {R : Runtime E}.
Implicit Types (m : call_machine E) (s : session E).

Lemma loop_test_inv l ec s c s' :
  loop_test l ec s = Done (c, s') ->
  c = WantReceive l \/ exists r, c = Returned (Final r).
Proof.
  unfold loop_test. destruct (load (s_heap s) l) as [n| |]; [|done..]. cbn.
  destruct (_ || _); intros [= <- <-]; eauto.
Qed.

(** A step leaves the machine alone, or moves caller [i] in agreement with the
    mutexes: it takes a free one or gives back its own. *)
Lemma caller_step_inv i m m' :
  caller_step i m = Done m' ->
  m' = m \/
  exists c c', cm_callers m !! i = Some c /\ cm_callers m' = <[i := c']> (cm_callers m) /\ c' <> c /\
    cm_sender m' = (if is_sending c' then Some i else if is_sending c then None else cm_sender m) /\
    cm_receiver m' = (if is_receiving c' then Some i else if is_receiving c then None else cm_receiver m) /\
    (is_sending c' = true -> cm_sender m = None) /\ (is_receiving c' = true -> cm_receiver m = None).
Proof.
  destruct m as [s sender receiver callers]. unfold caller_step. cbn [cm_callers cm_sender cm_receiver].
  destruct (callers !! i) as [c|] eqn:Hc; [|intros [= <-]; by left].
  destruct c as [l new packet|l w|l w|l|l|x]; [..|intros [= <-]; by left];
    unfold now_at; cbn [cm_callers].
  - destruct (get_request_id _) as [id q]. destruct (enqueue_response _ _ _) as [hq| |]; [|done..].
    intros [= <-]. right. eexists _, _. by split_and!.
  - destruct (lock _) as [ec e]. destruct (ec_bool ec); [|destruct sender; [intros [= <-]; by left|]];
      intros [= <-]; right; eexists _, _; by split_and!.
  - destruct (write _ _) as [ec e]. destruct (ec_bool ec).
    { intros [= <-]. right. eexists _, _. by split_and!. }
    destruct (loop_test _ _ _) as [[c s']| |] eqn:Hl; [|done..]. intros [= <-]. right.
    apply loop_test_inv in Hl as [->|[r ->]]; eexists _, _; by split_and!.
  - destruct (lock _) as [ec e]. destruct (ec_bool ec) eqn:Hec.
    { intros [= <-]. right. eexists _, _. by split_and!. }
    destruct receiver; [intros [= <-]; by left|]. unfold loop_test.
    destruct (load _ l) as [n| |] eqn:Hn; [|done..]. cbn [access_bind].
    destruct (completed (n_response n)) eqn:Hd; [|intros [= <-]; right; eexists _, _; by split_and!].
    rewrite Hec. cbn. intros [= <-]. right.
    eexists _, _. by split_and!.
  - destruct (read_one_ s) as [[ec s1]| |]; [|done..]. cbn [access_bind].
    destruct (loop_test _ _ _) as [[c s']| |] eqn:Hl; [|done..]. intros [= <-]. right.
    apply loop_test_inv in Hl as [->|[r ->]]; eexists _, _; by split_and!.
Qed.

Definition mutexes_held m : Prop :=
  (forall j, cm_sender m = Some j <-> is_sending <$> cm_callers m !! j = Some true) /\
  (forall j, cm_receiver m = Some j <-> is_receiving <$> cm_callers m !! j = Some true).

Lemma caller_step_mutexes i m m' :
  caller_step i m = Done m' -> mutexes_held m -> mutexes_held m'.
Proof.
  intros Hs [Hsd Hrc].
  apply caller_step_inv in Hs as [->|(c & c' & Hc & Hcs & _ & Hs & Hr & Hs1 & Hr1)]; [done|].
  pose proof (lookup_lt_Some _ _ _ Hc) as Hlt.
  split; intros j; [rewrite Hs; revert Hsd Hs1|rewrite Hr; revert Hrc Hr1]; rewrite Hcs;
    clear -Hc Hlt;
    intros Hheld; specialize (Hheld i) as Hi; specialize (Hheld j); rewrite Hc in Hi; cbn in Hi;
    (destruct (decide (i = j)) as [<-|Hne];
      [rewrite list_lookup_insert_eq by done|rewrite list_lookup_insert_ne by done]);
    cbn; destruct (_ c'); try destruct (_ c); naive_solver.
Qed.

Lemma run_callers_mutexes schedule m m' :
  run_callers schedule m = Done m' -> mutexes_held m -> mutexes_held m'.
Proof.
  revert m. induction schedule as [|i schedule IH]; intros m; cbn [run_callers].
  - by intros [= <-].
  - destruct (caller_step i m) as [m1| |] eqn:Hs; [|done..]. cbn. intros Hr Hm.
    eapply IH; [done|]. by eapply caller_step_mutexes.
Qed.

Lemma call_all_mutexes s cs : forallb not_called cs = true -> mutexes_held (call_all s cs).
Proof.
  intros Hcs. split; intros j; cbn; (split; [done|]);
    (destruct (cs !! j) as [c|] eqn:Hc; [|done]);
    apply list_elem_of_lookup_2 in Hc; rewrite forallb_forall in Hcs;
    specialize (Hcs c); rewrite <- list_elem_of_In in Hcs; specialize (Hcs Hc); by destruct c.
Qed.

Lemma someone_can_run i c m :
  mutexes_held m -> cm_callers m !! i = Some c -> has_returned c = false -> exists j, can_run j m = true.
Proof.
  intros [Hs Hr] Hc Hret. unfold can_run.
  destruct c as [| l w| |l| |]; try done; try (exists i; by rewrite Hc).
  - destruct (cm_sender m) as [j|] eqn:Hm; [|exists i; by rewrite Hc].
    exists j. pose proof (proj1 (Hs j) eq_refl) as Hj. by destruct (cm_callers m !! j) as [[]|].
  - destruct (cm_receiver m) as [j|] eqn:Hm; [|exists i; by rewrite Hc].
    exists j. pose proof (proj1 (Hr j) eq_refl) as Hj. by destruct (cm_callers m !! j) as [[]|].
Qed.

End CallersLemmas.

(** ** Lemmas: one caller *)

Section Alone.
Context {P : Platform} {E : Type} {R : Runtime E}.
Implicit Types (s : session E).

Definition alone s (c : caller) : call_machine E := CallMachine s None None [c].

Lemma run_callers_app l1 l2 (m : call_machine E) :
  run_callers (l1 ++ l2) m = access_bind (run_callers l1 m) (run_callers l2).
Proof.
  revert m. induction l1 as [|i l1 IH]; intros m; [done|]. cbn [app run_callers].
  destruct (caller_step i m); cbn; [apply IH|done..].
Qed.

(** The rounds of the loop are the steps of the machine. *)
Lemma loop_alone fuel l ec s x ec' s' :
  loop (wait_body l) fuel (ec, s) = Some (Done x, (ec', s')) ->
  exists c s0 n, loop_test l ec s = Done (c, s0) /\
    run_callers (replicate n 0%nat) (alone s0 c) = Done (alone (release_frame l s') (Returned x)).
Proof.
  revert ec s. induction fuel as [|fuel IH]; intros ec s; [done|]. cbn [loop].
  unfold wait_body at 1, loop_test.
  destruct (load (s_heap s) l) as [n| |] eqn:Hn; [|done..]. cbn [access_bind].
  destruct (ec_bool ec || completed (n_response n)) eqn:Htest.
  { intros [= <- <- <-]. do 2 eexists. exists 0%nat. by split. }
  apply orb_false_iff in Htest as [_ Hc].
  destruct (lock (s_stream s)) as [ec1 e] eqn:Hlock. destruct (ec_bool ec1) eqn:Hec.
  { intros [= <- <- <-]. do 2 eexists. exists 1%nat. split; [done|].
    cbn [replicate run_callers]. unfold caller_step, alone. cbn. by rewrite Hlock, Hec. }
  destruct (read_one_ (with_stream e s)) as [[ec2 s2]| |] eqn:Hread; [|done..].
  intros (c & s0 & k & Ht & Hrun)%IH. do 2 eexists. exists (2 + k)%nat. split; [done|].
  rewrite replicate_add, run_callers_app. cbn [replicate run_callers].
  unfold caller_step at 1, alone at 1. cbn [lookup list_lookup]. rewrite Hlock, Hec.
  cbn [s_heap with_stream]. rewrite Hn. cbn [access_bind]. rewrite Hc. cbn [access_bind].
  unfold caller_step at 1, now_at. cbn. rewrite Hread. cbn [access_bind fst snd]. rewrite Ht.
  exact Hrun.
Qed.

Lemma call_starts n l new packet s id q h q1 :
  get_request_id (s_queue s) = (id, q) ->
  enqueue_response (construct (s_heap s) l id new) q l = Done (h, q1) ->
  run_callers (replicate (S n) 0%nat) (call_all s [NotCalled l new packet]) =
    run_callers (replicate n 0%nat) (alone (with_queue q1 h s) (WantSend l (fst (packet id)))).
Proof.
  intros Hid Hq. cbn [replicate run_callers call_all caller_step lookup list_lookup].
  by rewrite Hid, Hq.
Qed.

Lemma call_sends n l to_write s ec e :
  lock (s_stream s) = (ec, e) -> ec_bool ec = false ->
  run_callers (replicate (S n) 0%nat) (alone s (WantSend l to_write)) =
    run_callers (replicate n 0%nat)
      (CallMachine (with_stream e s) (Some 0%nat) None [Sending l to_write]).
Proof.
  intros Hlock Hec. cbn [replicate run_callers caller_step alone lookup list_lookup].
  by rewrite Hlock, Hec.
Qed.

End Alone.

(** The sequence overloads add up the counts; every error is dropped. *)
Lemma all_results_sum r :
  all_results r = IoResult no_error (u64 (foldr (fun r n => io_value r + n) 0 r)).
Proof.
  unfold all_results.
  assert (H : forall n ec, exists ec', foldl (fun '(n, ec) r =>
      (u64 (n + io_value r), if ec_bool (io_ec r) && negb (ec_bool ec) then io_ec r else ec))
      (u64 n, ec) r = (u64 (n + foldr (fun r n => io_value r + n) 0 r), ec')).
  { induction r as [|x r IH]; intros n ec; cbn [foldl foldr].
    - exists ec. by rewrite Z.add_0_r.
    - destruct (IH (n + io_value x) (if ec_bool (io_ec x) && negb (ec_bool ec) then io_ec x else ec))
        as [ec' Hec']. exists ec'. rewrite Z.add_assoc, <- Hec'. do 2 f_equal.
      unfold u64. by rewrite Zplus_mod_idemp_l. }
  destruct (H 0 no_error) as [ec' Hec']. change (u64 0) with 0 in Hec'.
  rewrite Z.add_0_l in Hec'. by rewrite Hec'.
Qed.

(** ** Lemmas: two callers *)

Section TwoCallers.
Context {P : Platform}.
Implicit Types (s : session script).

(** Both have sent their request. *)
Definition both_sent (l1 l2 : address) (id1 id2 : Z) (r1 r2 : response) s : Prop :=
  queue_rep (s_heap s) (s_queue s) [l1; l2] /\
  s_heap s !! l1 = Some (Node None (Some l2) id1 r1) /\
  s_heap s !! l2 = Some (Node None None id2 r2).

Lemma two_callers_send s l1 l2 new1 new2 packet1 packet2 others :
  idle s -> s_heap s !! l1 = None -> s_heap s !! l2 = None -> l1 <> l2 ->
  completed new1 = false -> completed new2 = false ->
  let id := request_id_gen (s_queue s) in
  exists s1, run_callers [0; 1; 0; 0; 1; 1]%nat
      (call_all s (NotCalled l1 new1 packet1 :: NotCalled l2 new2 packet2 :: others)) =
      Done (CallMachine s1 None None (WantReceive l1 :: WantReceive l2 :: others)) /\
    both_sent l1 l2 id (u32 (id + 1)) new1 new2 s1 /\ pending s1 = pending s /\
    written s1 = written s ++ fst (packet1 id) ++ fst (packet2 (u32 (id + 1))).
Proof.
  intros Hi Hl1 Hl2 Hne Hc1 Hc2 id. destruct s as [[chunks wr fin] buf exts ver q h].
  unfold idle in Hi. cbn [s_queue s_heap] in *.
  set (h1 := construct h l1 id new1). set (h2 := construct h1 l2 (u32 (id + 1)) new2).
  assert (Hh2 : h2 !! l1 = Some (Node None None id new1)).
  { unfold h2, h1, construct. by rewrite lookup_insert_ne, lookup_insert_eq by done. }
  set (h3 := <[l1 := Node None (Some l2) id new1]> h2).
  assert (H31 : h3 !! l1 = Some (Node None (Some l2) id new1)) by apply lookup_insert_eq.
  assert (H32 : h3 !! l2 = Some (Node None None (u32 (id + 1)) new2)).
  { unfold h3, h2, construct. by rewrite lookup_insert_ne, lookup_insert_eq by done. }
  exists (Session (Script chunks ((wr ++ fst (packet1 id)) ++ fst (packet2 (u32 (id + 1)))) fin)
    buf exts ver (ResponseQueue (Some l1) (Some l2) (u32 (u32 (id + 1) + 1))) h3).
  split; [|split; [|split; [done|cbn; by rewrite <- app_assoc]]].
  2:{ split; [split; [|split; [|done]]|done]; [repeat constructor; set_solver|].
      split; [done|]. eexists. split; [exact H31|]. split; [done|]. split; [done|].
      eexists. by split; [exact H32|]. }
  cbn [run_callers call_all caller_step lookup list_lookup get_request_id s_queue s_heap].
  unfold enqueue_response at 1. cbn [last]. rewrite Hi. cbn.
  fold id h1. unfold enqueue_response. cbn. fold h2. unfold load at 1. rewrite Hh2. cbn.
  unfold set_next. cbn. fold h3.
  unfold loop_test, load. cbn. rewrite H31. cbn. rewrite Hc1. cbn.
  unfold loop_test, load. cbn. rewrite H32. cbn. rewrite Hc2. cbn. done.
Qed.

Lemma with_stream_same s : with_stream (s_stream s) s = s.
Proof. by destruct s. Qed.

(** The reply to the first call: its frame goes, and [first] stays. *)
Lemma first_reply s l1 l2 id1 id2 r1 r2 others m rest :
  both_sent l1 l2 id1 id2 r1 r2 s -> completed r1 = false ->
  message_wf m -> m_id m = id1 -> pending s = frame (message_body m) ++ rest ->
  exists s1, run_callers [0; 0]%nat (CallMachine s None None (WantReceive l1 :: WantReceive l2 :: others)) =
      Done (CallMachine s1 None None
              (Returned (Final (on_complete no_error (m_type m) (m_payload m) r1))
               :: WantReceive l2 :: others)) /\
    pending s1 = rest /\ first (s_queue s1) = Some l1 /\ s_heap s1 !! l1 = None /\
    s_heap s1 !! l2 = Some (Node None None id2 r2).
Proof.
  intros (Hq & H1 & H2) Hc Hm Hid Hp.
  destruct (read_one_message s m rest Hm Hp) as (s' & Hread & Hp' & _).
  assert (l1 <> l2) by (destruct Hq as [Hnd _]; inversion Hnd; set_solver).
  rewrite (complete_rep_hit _ _ _ [] l1 [l2] _ _ _ _ (Node None (Some l2) id1 r1)) in Hread;
    [|exact Hq|set_solver|exact H1|exact (eq_sym Hid)].
  rewrite decide_False in Hread by done. cbn [access_bind n_response set_response] in Hread.
  eexists. split; [|split; [|split; [|split]]].
  - cbn [run_callers caller_step lookup list_lookup lock script_runtime].
    rewrite ec_bool_no_error, with_stream_same. unfold load at 1. rewrite H1.
    cbn [access_bind n_response]. rewrite Hc. unfold now_at. cbn. rewrite Hread.
    cbn [access_bind fst snd]. unfold loop_test, load. cbn [s_heap with_queue].
    rewrite lookup_insert_eq. cbn [access_bind n_response set_response].
    rewrite on_complete_completed, orb_true_r. cbn. reflexivity.
  - exact Hp'.
  - destruct Hq as (_ & [Hf _] & _). exact Hf.
  - apply lookup_delete_eq.
  - unfold release_frame, release. cbn [s_heap with_queue].
    by rewrite lookup_delete_ne, lookup_insert_ne by done.
Qed.

(** The next reply, whosever it is, is looked up from the dangling [first]. *)
Lemma next_reply s l1 l2 id2 r2 c others m rest :
  first (s_queue s) = Some l1 -> s_heap s !! l1 = None ->
  s_heap s !! l2 = Some (Node None None id2 r2) -> completed r2 = false ->
  message_wf m -> pending s = frame (message_body m) ++ rest ->
  run_callers [1; 1]%nat (CallMachine s None None (c :: WantReceive l2 :: others)) = Dangling.
Proof.
  intros Hf H1 H2 Hc Hm Hp.
  destruct (read_one_message s m rest Hm Hp) as (s' & Hread & _).
  unfold complete in Hread. rewrite Hf, complete_from_dangling in Hread by done.
  cbn [run_callers caller_step lookup list_lookup lock script_runtime].
  rewrite ec_bool_no_error, with_stream_same. unfold load. rewrite H2.
  cbn [access_bind n_response]. rewrite Hc. unfold now_at. cbn. by rewrite Hread.
Qed.

Lemma two_calls_dangle s l1 l2 new1 new2 packet1 packet2 others m1 m2 rest :
  idle s -> s_heap s !! l1 = None -> s_heap s !! l2 = None -> l1 <> l2 ->
  completed new1 = false -> completed new2 = false ->
  message_wf m1 -> message_wf m2 -> m_id m1 = request_id_gen (s_queue s) ->
  pending s = frame (message_body m1) ++ frame (message_body m2) ++ rest ->
  exists m,
    run_callers [0; 1; 0; 0; 1; 1; 0; 0]%nat
      (call_all s (NotCalled l1 new1 packet1 :: NotCalled l2 new2 packet2 :: others)) = Done m /\
    cm_callers m = Returned (Final (on_complete no_error (m_type m1) (m_payload m1) new1))
                   :: WantReceive l2 :: others /\
    run_callers [1; 1]%nat m = Dangling.
Proof.
  intros Hi Hl1 Hl2 Hne Hc1 Hc2 Hm1 Hm2 Hid Hp.
  destruct (two_callers_send s l1 l2 new1 new2 packet1 packet2 others)
    as (s1 & Hrun1 & Hsent & Hp1 & _); [done..|]. rewrite Hp in Hp1.
  destruct (first_reply _ _ _ _ _ _ _ others _ _ Hsent Hc1 Hm1 Hid Hp1)
    as (s2 & Hrun2 & Hp2 & Hf & Hh1 & Hh2).
  eexists. split; [|split].
  - rewrite (run_callers_app [0; 1; 0; 0; 1; 1]%nat [0; 0]%nat), Hrun1. exact Hrun2.
  - done.
  - by eapply next_reply.
Qed.

End TwoCallers.

(** ** Properties *)

Section Properties.
Context {P : Platform}.

(** C19: The two mutexes of a session exclude each other's users and cannot
    deadlock: however any number of concurrent calls interleave, at most one of
    them writes a packet, at most one reads a reply, and as long as a call has
    not returned some call can run. *)
Theorem callers_locks {E} {R : Runtime E} (s : session E) callers schedule (m : call_machine E) :
  forallb not_called callers = true ->
  run_callers schedule (call_all s callers) = Done m ->
  (forall i j c d, cm_callers m !! i = Some c -> cm_callers m !! j = Some d ->
     (is_sending c && is_sending d) || (is_receiving c && is_receiving d) = true -> i = j) /\
  ((exists i c, cm_callers m !! i = Some c /\ has_returned c = false) ->
   exists j, can_run j m = true).
Proof.
  intros Hcs Hrun. pose proof (run_callers_mutexes _ _ _ Hrun (call_all_mutexes s _ Hcs)) as Hm.
  split; [|intros (i & c & Hc & Hr); by eapply someone_can_run].
  destruct Hm as [Hs Hr]. intros i j c d Hc Hd Hboth.
  apply orb_true_iff in Hboth as [[Hi Hj]%andb_true_iff|[Hi Hj]%andb_true_iff].
  - pose proof (proj2 (Hs i)) as Hsi. pose proof (proj2 (Hs j)) as Hsj.
    rewrite Hc in Hsi. rewrite Hd in Hsj. cbn in Hsi, Hsj. rewrite Hi in Hsi. rewrite Hj in Hsj.
    specialize (Hsi eq_refl). specialize (Hsj eq_refl). congruence.
  - pose proof (proj2 (Hr i)) as Hri. pose proof (proj2 (Hr j)) as Hrj.
    rewrite Hc in Hri. rewrite Hd in Hrj. cbn in Hri, Hrj. rewrite Hi in Hri. rewrite Hj in Hrj.
    specialize (Hri eq_refl). specialize (Hrj eq_refl). congruence.
Qed.

(** C18: One caller at a time sees exactly [exchange]: whenever that returns,
    the interleaving machine with this call alone comes to the same exit and
    the same session, with both mutexes free. *)
Theorem single_caller {E} {R : Runtime E} fuel l new packet (s s' : session E) x :
  exchange fuel l new packet s = Some (Done x, s') ->
  exists n, run_callers (replicate n 0%nat) (call_all s [NotCalled l new packet]) =
    Done (CallMachine s' None None [Returned x]).
Proof.
  unfold exchange, send_and_wait.
  destruct (get_request_id (s_queue s)) as [id q] eqn:Hid.
  destruct (enqueue_response _ q l) as [[h q1]| |] eqn:Hq; [|done..].
  destruct (packet id) as [to_write pec] eqn:Hp.
  pose proof (fun n => call_starts n l new packet s id q h q1 Hid Hq) as Hstart. rewrite Hp in Hstart.
  destruct (lock _) as [ec e] eqn:Hlock. cbn [s_stream with_stream].
  destruct (ec_bool ec) eqn:Hec.
  { intros [= <- <-]. exists 2%nat. rewrite Hstart. cbn [replicate run_callers].
    unfold caller_step, alone. cbn [lookup list_lookup]. by rewrite Hlock, Hec. }
  destruct (write _ e) as [ec1 e1] eqn:Hwrite. destruct (ec_bool ec1) eqn:Hec1.
  { intros [= <- <-]. exists 3%nat. rewrite Hstart, (call_sends _ _ _ _ _ _ Hlock Hec).
    cbn [replicate run_callers caller_step lookup list_lookup s_stream with_stream fst].
    by rewrite Hwrite, Hec1. }
  destruct (loop _ _ _) as [[x1 [ec2 s2]]|] eqn:Hloop; [|done]. intros [= -> <-].
  apply loop_alone in Hloop as (c & s0 & n & Ht & Hrun). exists (3 + n)%nat. cbn [Nat.add].
  rewrite Hstart, (call_sends _ _ _ _ _ _ Hlock Hec).
  cbn [replicate run_callers caller_step lookup list_lookup s_stream with_stream fst] in *.
  rewrite Hwrite, Hec1, Ht. exact Hrun.
Qed.

(** C35: Two calls at a time are undefined behaviour even when every reply is
    right: when both requests have been sent and the reply to the first has
    completed its call, [response_queue::first] still points into the frame of
    the call that returned, and the next packet that arrives is looked up
    through that pointer. *)
Theorem concurrent_calls_dangle (s : session script) l1 l2 new1 new2 packet1 packet2 m1 m2 rest :
  idle s -> s_heap s !! l1 = None -> s_heap s !! l2 = None -> l1 <> l2 ->
  completed new1 = false -> completed new2 = false ->
  message_wf m1 -> message_wf m2 -> m_id m1 = request_id_gen (s_queue s) ->
  pending s = frame (message_body m1) ++ frame (message_body m2) ++ rest ->
  exists m,
    run_callers [0; 1; 0; 0; 1; 1; 0; 0]%nat
      (call_all s [NotCalled l1 new1 packet1; NotCalled l2 new2 packet2]) = Done m /\
    cm_callers m =
      [Returned (Final (on_complete no_error (m_type m1) (m_payload m1) new1)); WantReceive l2] /\
    run_callers [1; 1]%nat m = Dangling.
Proof.
  intros Hi Hl1 Hl2 Hne Hc1 Hc2 Hm1 Hm2 Hid Hp. by eapply two_calls_dangle.
Qed.

(** C36: [read_some_at] over two buffers or more, on an idle session with a
    server that answers both reads with data: the two tasks run concurrently,
    so when the first has its data the second follows a dangling pointer. *)
Theorem read_several_buffers_dangle (s : session script) b f offset l1 buf1 l2 buf2 mb d1 d2 rest :
  idle s -> s_heap s !! l1 = None -> s_heap s !! l2 = None -> l1 <> l2 ->
  let id := request_id_gen (s_queue s) in
  is_u32 id -> 9 + zlen d1 < 2 ^ 32 - 4 -> 9 + zlen d2 < 2 ^ 32 - 4 ->
  zlen d1 <= zlen buf1 ->
  pending s = frame (message_body (Message SSH_FXP_DATA id (str_bytes d1))) ++
    frame (message_body (Message SSH_FXP_DATA (u32 (id + 1)) (str_bytes d2))) ++ rest ->
  exists m r,
    run_callers [0; 1; 0; 0; 1; 1; 0; 0]%nat
      (call_all s (read_some_at_tasks b f offset ((l1, buf1) :: (l2, buf2) :: mb))) = Done m /\
    cm_callers m !! 0%nat = Some (Returned (Final (RData r))) /\
    da_ec r = no_error /\ da_n r = zlen d1 /\
    run_callers [1; 1]%nat m = Dangling.
Proof.
  intros Hi Hl1 Hl2 Hne id Hid Hd1 Hd2 Hfit Hp. cbn [read_some_at_tasks].
  assert (Hwf : forall i d, is_u32 i -> 9 + zlen d < 2 ^ 32 - 4 ->
    message_wf (Message SSH_FXP_DATA i (str_bytes d))).
  { intros i d Hi' Hd. split; [done|]. split; [done|]. cbn [m_payload]. zlen_lia. }
  destruct (two_calls_dangle s l1 l2 (RData (new_data_response buf1)) (RData (new_data_response buf2))
    (fun id => read_packet b id (f_handle f) offset (zlen buf1))
    (fun id => read_packet b id (f_handle f) (u64 (offset + zlen buf1)) (zlen buf2))
    (read_some_at_tasks b f (u64 (u64 (offset + zlen buf1) + zlen buf2)) mb)
    (Message SSH_FXP_DATA id (str_bytes d1)) (Message SSH_FXP_DATA (u32 (id + 1)) (str_bytes d2)) rest)
    as (m & Hrun & Hcs & Hdangle); try done; [by apply Hwf| |].
  { apply Hwf; [apply u32_range|done]. }
  exists m. eexists. split; [exact Hrun|]. rewrite Hcs. cbn [lookup list_lookup].
  cbn [on_complete m_type m_payload]. rewrite complete_data_body by (unfold str_wf, is_u32; zlen_lia).
  split; [reflexivity|]. cbn [da_ec da_n new_data_response da_dest].
  split; [done|]. split; [lia|exact Hdangle].
Qed.

End Properties.

(** ** Witnesses *)

Definition demo_call (l : address) (name : bytes) : caller :=
  NotCalled l (RStatus new_status_response) (fun id => unlink_packet demo_buffer id name).

Definition demo_reply (id : Z) : message := Message SSH_FXP_STATUS id (status_body 0 [] []).

Definition demo_replies : bytes :=
  frame (message_body (demo_reply 0)) ++ frame (message_body (demo_reply 1)) ++ [].

(** One caller sends while the other, which has sent, reads. *)
Definition demo_busy : access (call_machine script) :=
  run_callers [0; 1; 0; 0; 1; 0]%nat
    (call_all (demo_session [demo_replies]) [demo_call 1 (lit "f"); demo_call 2 (lit "g")]).

Lemma callers_locks_witness :
  exists m, demo_busy = Done m /\ cm_sender m = Some 1%nat /\ cm_receiver m = Some 0%nat /\
    (forall i j c d, cm_callers m !! i = Some c -> cm_callers m !! j = Some d ->
       (is_sending c && is_sending d) || (is_receiving c && is_receiving d) = true -> i = j) /\
    ((exists i c, cm_callers m !! i = Some c /\ has_returned c = false) ->
     exists j, can_run j m = true).
Proof.
  eexists. split; [reflexivity|]. split; [reflexivity|]. split; [reflexivity|].
  apply (callers_locks (demo_session [demo_replies])
    [demo_call 1 (lit "f"); demo_call 2 (lit "g")] [0; 1; 0; 0; 1; 0]%nat); reflexivity.
Defined.

Lemma single_caller_witness :
  exists s' n,
    run_callers (replicate n 0%nat) (call_all (demo_session [demo_replies]) [demo_call 1 (lit "f")]) =
    Done (CallMachine s' None None
      [Returned (Final (RStatus (StatusResponse true no_error [] [])))]).
Proof.
  eexists. apply (single_caller 2 1%positive (RStatus new_status_response)
    (fun id => unlink_packet demo_buffer id (lit "f"))). vm_compute. reflexivity.
Defined.

Lemma concurrent_calls_dangle_witness :
  exists m,
    run_callers [0; 1; 0; 0; 1; 1; 0; 0]%nat
      (call_all (demo_session [demo_replies]) [demo_call 1 (lit "f"); demo_call 2 (lit "g")]) =
      Done m /\
    cm_callers m =
      [Returned (Final (on_complete no_error SSH_FXP_STATUS (status_body 0 [] [])
                          (RStatus new_status_response))); WantReceive 2%positive] /\
    run_callers [1; 1]%nat m = Dangling.
Proof.
  apply (concurrent_calls_dangle (demo_session [demo_replies]) 1%positive 2%positive
    (RStatus new_status_response) (RStatus new_status_response)
    (fun id => unlink_packet demo_buffer id (lit "f"))
    (fun id => unlink_packet demo_buffer id (lit "g")) (demo_reply 0) (demo_reply 1) []);
    by vm_compute.
Defined.

Definition demo_read_replies : bytes :=
  frame (message_body (Message SSH_FXP_DATA 0 (str_bytes (lit "ab")))) ++
  frame (message_body (Message SSH_FXP_DATA 1 (str_bytes (lit "cd")))) ++ [].

Lemma read_several_buffers_dangle_witness :
  exists m r,
    run_callers [0; 1; 0; 0; 1; 1; 0; 0]%nat
      (call_all (demo_session [demo_read_replies])
        (read_some_at_tasks demo_buffer (File true (lit "h")) 0
          [(1%positive, lit "12"); (2%positive, lit "34")])) = Done m /\
    cm_callers m !! 0%nat = Some (Returned (Final (RData r))) /\
    da_ec r = no_error /\ da_n r = zlen (lit "ab") /\
    run_callers [1; 1]%nat m = Dangling.
Proof.
  apply (read_several_buffers_dangle (demo_session [demo_read_replies]) demo_buffer
    (File true (lit "h")) 0 1%positive (lit "12") 2%positive (lit "34") [] (lit "ab") (lit "cd") []);
    by vm_compute.
Defined.
