(* ===== verification/Network.v ===== *)
(** * Network: a client and a server of [src/sftp.cpp], connected

    The closed system: a coroutine that performs calls on a [session] one after
    the other ([Callers], one caller at a time), the workers of [serve]
    ([Workers]), and between them two directions of a connection that delivers
    what is sent in pieces of any size and at any time.  A coroutine that reads
    is blocked until what has arrived contains a whole packet.

    A [net_event] is what happens next; [net_step] is what it does.  Unlike
    [session_roundtrip], which gives each end everything the other will have
    sent, the bytes an end reads here have been sent before.
    [network_answers] says that the system computes what the calls mean,
    [network_completes] that it gets there. *)

From S2P Require Import Prelude Libssh ErrorCode Codec Stream ResponseQueue Responses Requests.
From S2P Require Import Server Backends ServerSpec ServerSession Workers Client ClientSpec Callers.
From S2P Require Import RoundTrip.

#[local] Open Scope Z_scope.

(** ** The system *)

Section Network.
Context {P : Platform} {S : Type} (srv : sftp_server S) (assertions : bool).
Context (l : address) (b : small_buffer).

(** [nw_todo] are the calls to come, [nw_results] how the past ones ended;
    [nw_requests] and [nw_replies] are the bytes on their way. *)
Record network := Network {
  nw_client : call_machine script; nw_todo : list call; nw_results : list exit;
  nw_server : machine script S;
  nw_requests : bytes; nw_replies : bytes }.

Inductive net_event :=
| ClientRuns
| WorkerRuns (i : nat)
| RequestsArrive (n : nat)
| RepliesArrive (n : nat).

Inductive net_outcome :=
| NextState (n : network)
| FollowsDangling
| Blocked.

(** The next [n] bytes of a direction arrive in one piece. *)
Definition arrive (n : nat) (flight : bytes) (e : script) : option (bytes * script) :=
  if (0 <? n)%nat && (n <=? length flight)%nat then
    Some (drop n flight, Script (sc_chunks e ++ [take n flight]) (sc_written e) (sc_end e))
  else None.

(** What an end has written is on its way. *)
Definition departed (e : script) : script := Script (sc_chunks e) [] (sc_end e).

Definition with_env (e : script) (m : machine script S) : machine script S :=
  Machine e (mc_backend m) (mc_buffer m) (mc_reader m) (mc_writer m) (mc_workers m).
Definition with_connection (e : script) (c : call_machine script) : call_machine script :=
  CallMachine (with_stream e (cm_session c)) (cm_sender c) (cm_receiver c) (cm_callers c).

(** [read_until] would go on. *)
Definition has_packet (buffer : bytes) (e : script) : bool :=
  bool_decide (is_Some (match_packet (buffer ++ concat (sc_chunks e)))).

Definition set_client (c : call_machine script) (n : network) : network :=
  let e := s_stream (cm_session c) in
  Network (with_connection (departed e) c) (nw_todo n) (nw_results n) (nw_server n)
    (nw_requests n ++ sc_written e) (nw_replies n).

Definition set_server (m : machine script S) (n : network) : network :=
  let e := mc_env m in
  Network (nw_client n) (nw_todo n) (nw_results n) (with_env (departed e) m)
    (nw_requests n) (nw_replies n ++ sc_written e).

(** The client is in [read_until], and no whole packet is there. *)
Definition waits_for_bytes (c : call_machine script) : bool :=
  match cm_callers c with
  | [Receiving _] => negb (has_packet (s_buffer (cm_session c)) (s_stream (cm_session c)))
  | _ => false
  end.

(** The client makes its next call, goes on with the one it is in, or takes its
    result. *)
Definition client_runs (n : network) : net_outcome :=
  let c := nw_client n in
  let s := cm_session c in
  match cm_callers c with
  | [] =>
      match nw_todo n with
      | [] => Blocked
      | (buffered, req) :: todo =>
          NextState (Network
            (CallMachine s (cm_sender c) (cm_receiver c)
              [NotCalled l (new_response buffered req) (fun id => client_packet b id req)])
            todo (nw_results n) (nw_server n) (nw_requests n) (nw_replies n))
      end
  | [Returned x] =>
      NextState (Network (CallMachine s (cm_sender c) (cm_receiver c) []) (nw_todo n)
        (nw_results n ++ [x]) (nw_server n) (nw_requests n) (nw_replies n))
  | _ =>
      if waits_for_bytes c then Blocked
      else
        match caller_step 0 c with
        | Done c => NextState (set_client c n)
        | _ => FollowsDangling
        end
  end.

(** A worker goes on, if no mutex and no missing byte is in its way. *)
Definition worker_runs (i : nat) (n : network) : net_outcome :=
  let m := nw_server n in
  if ready i m
     && match mc_workers m !! i with
        | Some Reading => has_packet (mc_buffer m) (mc_env m)
        | _ => true
        end
  then NextState (set_server (snd (worker_step srv assertions i m)) n)
  else Blocked.

Definition requests_arrive (k : nat) (n : network) : net_outcome :=
  let m := nw_server n in
  match arrive k (nw_requests n) (mc_env m) with
  | None => Blocked
  | Some (flight, e) =>
      NextState (Network (nw_client n) (nw_todo n) (nw_results n) (with_env e m) flight (nw_replies n))
  end.

Definition replies_arrive (k : nat) (n : network) : net_outcome :=
  let c := nw_client n in
  match arrive k (nw_replies n) (s_stream (cm_session c)) with
  | None => Blocked
  | Some (flight, e) =>
      NextState (Network (with_connection e c) (nw_todo n) (nw_results n) (nw_server n)
        (nw_requests n) flight)
  end.

Definition net_step (e : net_event) : network -> net_outcome :=
  match e with
  | ClientRuns => client_runs
  | WorkerRuns i => worker_runs i
  | RequestsArrive k => requests_arrive k
  | RepliesArrive k => replies_arrive k
  end.

Fixpoint net_run (l : list net_event) (n : network) : net_outcome :=
  match l with
  | [] => NextState n
  | e :: l => match net_step e n with NextState n => net_run l n | o => o end
  end.

(** A session between two calls and a server with [worker_count + 1] workers,
    nothing on its way. *)
Definition connected (s : session script) (worker_count : nat) (fin : errc) (t : S) (calls : list call)
    : network :=
  Network (call_all s []) calls [] (serve_workers worker_count (Script [] [] fin) t) [] [].

(** The client has nothing left to do. *)
Definition finished (n : network) : bool :=
  match cm_callers (nw_client n), nw_todo n with [], [] => true | _, _ => false end.

End Network.
Arguments network : clear implicits.
Arguments Network {S} _ _ _ _ _ _.
Arguments net_outcome : clear implicits.
Arguments NextState {S} _.
Arguments FollowsDangling {S}.
Arguments Blocked {S}.

(** ** Specification *)

(** A session nobody uses and nothing has reached. *)
Definition at_rest (l : address) (s : session script) : Prop :=
  is_u32 (request_id_gen (s_queue s)) /\ idle s /\ s_heap s !! l = None /\
  pending s = [] /\ written s = [].

Section Invariant.
Context {P : Platform} {S : Type} (srv : sftp_server S) (assertions : bool).
Context (l : address) (b : small_buffer).

Definition waits_between_packets (p : phase) : Prop :=
  p = LoopHead \/ p = WantRead \/ p = Reading.

(** The server has received [inb] of the next packet, its backend is in state
    [t], and no worker is busy but, perhaps, one. *)
Record server_at (m : machine script S) (inb : bytes) (t : S) (busy : option (nat * phase)) : Prop := {
  sa_in : mc_buffer m ++ concat (sc_chunks (mc_env m)) = inb;
  sa_out : sc_written (mc_env m) = [];
  sa_backend : mc_backend m = t;
  sa_locks : locks_held m;
  sa_workers : mc_workers m <> [];
  sa_idle j q : mc_workers m !! j = Some q -> fst <$> busy <> Some j -> waits_between_packets q;
  sa_busy i p : busy = Some (i, p) -> mc_workers m !! i = Some p
}.

(** The session [s] waits for the reply [id] with the response [new]; [inc] of it
    has arrived. *)
Definition waits_for (id : Z) (new : response) (inc : bytes) (s : session script) : Prop :=
  waiting l id new s /\ is_u32 id /\ request_id_gen (s_queue s) = u32 (id + 1) /\
  pending s = inc /\ written s = [].

(** What the calls [todo] will return on a backend in state [t], and the state
    they leave it in. *)
Definition ahead (todo : list call) (t : S) (rs : list response) (te : S) : Prop :=
  Forall (fun c => request_wf (snd c)) todo /\ replies_ok srv todo t /\
  outcomes srv todo t = Some (rs, te).

(** The reply [rep] completes the call [(buffered, req)] with [r] and leaves the
    backend in state [t1]. *)
Definition answers (buffered : list entry) (req : request) (t : S) (rep : reply) (t1 : S)
    (r : response) : Prop :=
  request_wf req /\ reply_ok rep /\ expected (new_response buffered req) rep = Some r /\
  exists f, exec srv (ClientRequest req) = Some f /\ f t = (rep, t1).

Definition sends (c : caller) (holds : option nat) (packet : bytes) : Prop :=
  c = WantSend l packet /\ holds = None \/ c = Sending l packet /\ holds = Some 0%nat.
Definition receives (c : caller) (holds : option nat) : Prop :=
  c = WantReceive l /\ holds = None \/ c = Receiving l /\ holds = Some 0%nat.

(** The states the system goes through, from one call to the next.  The number
    counts down, [rs] are the results still to come and [te] is the state the
    backend ends in. *)
Inductive inv : network S -> nat -> list response -> S -> Prop :=
| inv_between s todo res m t rs te :
    at_rest l s -> server_at m [] t None -> ahead todo t rs te ->
    inv (Network (CallMachine s None None []) todo res m [] []) 7 rs te
| inv_called s buffered req todo res m t rep t1 r rs te :
    at_rest l s -> server_at m [] t None ->
    answers buffered req t rep t1 r -> ahead todo t1 rs te ->
    inv (Network (CallMachine s None None
           [NotCalled l (new_response buffered req) (fun id => client_packet b id req)])
         todo res m [] []) 6 (r :: rs) te
| inv_sending s id sd c buffered req todo res m t rep t1 r rs te :
    waits_for id (new_response buffered req) [] s ->
    sends c sd (frame (request_body id req)) -> server_at m [] t None ->
    answers buffered req t rep t1 r -> ahead todo t1 rs te ->
    inv (Network (CallMachine s sd None [c]) todo res m [] []) 5 (r :: rs) te
| inv_request s id rc c buffered req todo res m inb rq t rep t1 r rs te :
    waits_for id (new_response buffered req) [] s ->
    receives c rc -> server_at m inb t None -> inb ++ rq = frame (request_body id req) ->
    answers buffered req t rep t1 r -> ahead todo t1 rs te ->
    inv (Network (CallMachine s None rc [c]) todo res m rq []) 4 (r :: rs) te
| inv_serving s id rc c buffered req todo res m i v t rep t1 r rs te :
    waits_for id (new_response buffered req) [] s ->
    receives c rc -> server_at m [] t (Some (i, Serving v (request_body id req))) ->
    answers buffered req t rep t1 r -> ahead todo t1 rs te ->
    inv (Network (CallMachine s None rc [c]) todo res m [] []) 3 (r :: rs) te
| inv_replying s id rc c buffered req todo res m i p t rep t1 r rs te :
    waits_for id (new_response buffered req) [] s ->
    receives c rc -> server_at m [] t1 (Some (i, p)) ->
    p = WantWrite (frame (reply_body id rep)) \/ p = Writing (frame (reply_body id rep)) ->
    answers buffered req t rep t1 r -> ahead todo t1 rs te ->
    inv (Network (CallMachine s None rc [c]) todo res m [] []) 2 (r :: rs) te
| inv_answered s id rc c buffered req todo res m inc rp t rep t1 r rs te :
    waits_for id (new_response buffered req) inc s ->
    receives c rc -> server_at m [] t1 None -> inc ++ rp = frame (reply_body id rep) ->
    answers buffered req t rep t1 r -> ahead todo t1 rs te ->
    inv (Network (CallMachine s None rc [c]) todo res m [] rp) 1 (r :: rs) te
| inv_returned s todo res m t r rs te :
    at_rest l s -> server_at m [] t None -> ahead todo t rs te ->
    inv (Network (CallMachine s None None [Returned (Final r)]) todo res m [] []) 0 (r :: rs) te.

(** How far it is to the end: the calls that have not ended, the stage, and the
    steps that stay within it. *)
Definition calls_left (n : network S) : nat :=
  length (nw_todo n) + length (cm_callers (nw_client n)).

Definition phase_steps (p : phase) : nat :=
  match p with LoopHead => 2 | WantRead | WantWrite _ => 1 | _ => 0 end.
Definition caller_steps (c : caller) : nat :=
  match c with WantSend _ _ | WantReceive _ => 1 | _ => 0 end.

Definition steps_within (n : network S) : nat :=
  length (nw_requests n) + length (nw_replies n)
  + sum_list_with phase_steps (mc_workers (nw_server n))
  + sum_list_with caller_steps (cm_callers (nw_client n)).

Definition nearer (n' : network S) (rank' : nat) (n : network S) (rank : nat) : Prop :=
  (calls_left n' < calls_left n)%nat \/
  calls_left n' = calls_left n /\
  ((rank' < rank)%nat \/ rank' = rank /\ (steps_within n' < steps_within n)%nat).

(** A step from [n] goes on in the same computation. *)
Definition goes_on (n : network S) (rank : nat) (rs : list response) (te : S) (n' : network S) : Prop :=
  exists rank' rs', inv n' rank' rs' te /\
    nw_results n' ++ map Final rs' = nw_results n ++ map Final rs /\ nearer n' rank' n rank.

End Invariant.

(** ** Lemmas: the connection *)

Lemma arrive_some k flight e flight' e' :
  arrive k flight e = Some (flight', e') ->
  (0 < k <= length flight)%nat /\ flight' = drop k flight /\
  e' = Script (sc_chunks e ++ [take k flight]) (sc_written e) (sc_end e).
Proof.
  unfold arrive. destruct (Nat.ltb_spec 0 k), (Nat.leb_spec k (length flight)); cbn [andb]; try done.
  intros [= <- <-]. split; [lia|done].
Qed.

Lemma arrive_nil k e : arrive k [] e = None.
Proof. unfold arrive. by destruct k. Qed.

(** A part of a frame holds no packet. *)
Lemma has_packet_part body pre suf buffer e :
  zlen body < 2 ^ 32 - 4 -> frame body = pre ++ suf -> buffer ++ concat (sc_chunks e) = pre ->
  has_packet buffer e = true -> suf = [].
Proof.
  intros Hb Hf Hp. unfold has_packet. rewrite Hp, bool_decide_eq_true. intros [k Hk].
  destruct suf as [|x suf]; [done|].
  by rewrite (match_packet_partial body pre (x :: suf)) in Hk.
Qed.

Lemma has_packet_nil buffer e : buffer ++ concat (sc_chunks e) = [] -> has_packet buffer e = false.
Proof. intros Hp. unfold has_packet. by rewrite Hp. Qed.

(** ** Lemmas: the server *)

Section Server.
Context {P : Platform} {S : Type} (srv : sftp_server S) (assertions : bool).
Implicit Types (m : machine script S).

(** A step of worker [i], seen from outside: it comes nearer to reading, starts to
    be busy, goes on being busy, or is busy no longer. *)
Inductive moves (i : nat) (q : phase) : option (nat * phase) -> option (nat * phase) -> Prop :=
| moves_idle busy : fst <$> busy <> Some i -> waits_between_packets q -> moves i q busy busy
| moves_starts : moves i q None (Some (i, q))
| moves_busy p : moves i q (Some (i, p)) (Some (i, q))
| moves_ends p : waits_between_packets q -> moves i q (Some (i, p)) None.

Lemma server_at_move m m' i p q ev inb t busy inb' t' busy' :
  server_at m inb t busy -> worker_step srv assertions i m = (ev, m') ->
  mc_workers m !! i = Some p -> mc_workers m' = <[i := q]> (mc_workers m) ->
  mc_buffer m' ++ concat (sc_chunks (mc_env m')) = inb' -> mc_backend m' = t' ->
  moves i q busy busy' -> server_at (with_env (departed (mc_env m')) m') inb' t' busy'.
Proof.
  intros [Hin Hout Hback Hl Hne Hid Hbusy] Hs Hp Hws Hin' Hb' Hmv.
  pose proof (lookup_lt_Some _ _ _ Hp) as Hlt.
  split; cbn [with_env departed mc_env mc_buffer mc_backend mc_workers sc_chunks sc_written]; [done..| | | |].
  - exact (step_locks srv assertions i m ev m' Hs Hl).
  - rewrite Hws. by destruct (mc_workers m), i.
  - rewrite Hws. intros j q' Hj Hbj. destruct (decide (i = j)) as [<-|Hij].
    + rewrite list_lookup_insert_eq in Hj by done. injection Hj as <-. by destruct Hmv.
    + rewrite list_lookup_insert_ne in Hj by done. apply (Hid j); [done|].
      destruct Hmv; cbn in *; congruence.
  - intros i' p' ->. rewrite Hws. destruct (decide (i = i')) as [<-|Hij].
    + rewrite list_lookup_insert_eq by done. by inversion Hmv; subst.
    + rewrite list_lookup_insert_ne by done. inversion Hmv; subst; [by apply Hbusy|done..].
Qed.

(** The three ways a worker can go on, from the state of the network. *)
Lemma worker_runs_inv i n n' inb t busy :
  worker_runs srv assertions i n = NextState n' -> server_at (nw_server n) inb t busy ->
  ready i (nw_server n) = true /\
  n' = set_server (snd (worker_step srv assertions i (nw_server n))) n /\
  exists p, mc_workers (nw_server n) !! i = Some p /\
    ((p = LoopHead \/ p = WantRead /\ mc_reader (nw_server n) = None) /\ fst <$> busy <> Some i \/
     p = Reading /\ has_packet (mc_buffer (nw_server n)) (mc_env (nw_server n)) = true /\
       fst <$> busy <> Some i \/
     busy = Some (i, p)).
Proof.
  intros H Hm. revert H. unfold worker_runs. destruct (ready i _) eqn:Hready; [|done].
  pose proof Hready as Hr. unfold ready in Hr.
  destruct (mc_workers (nw_server n) !! i) as [p|] eqn:Hp; [|done].
  cbn [andb]. intros H. split; [done|].
  assert (Hn : n' = set_server (snd (worker_step srv assertions i (nw_server n))) n).
  { by destruct p; try (injection H as <-); try destruct (has_packet _ _); try (injection H as <-). }
  split; [done|]. exists p. split; [done|].
  destruct (decide (fst <$> busy = Some i)) as [Hb|Hb].
  - destruct busy as [[j q]|]; [|done]. injection Hb as ->. do 2 right.
    pose proof (sa_busy _ _ _ _ Hm i q eq_refl). congruence.
  - pose proof (sa_idle _ _ _ _ Hm i p Hp Hb) as [-> | [-> | ->]]; [auto| |].
    + apply bool_decide_eq_true in Hr. auto.
    + destruct (has_packet _ _); [auto 6|done].
Qed.

(** A worker on its way to the next packet. *)
Lemma idle_runs i n inb t busy p :
  server_at (nw_server n) inb t busy -> mc_workers (nw_server n) !! i = Some p ->
  p = LoopHead \/ p = WantRead /\ mc_reader (nw_server n) = None -> fst <$> busy <> Some i ->
  exists m', set_server (snd (worker_step srv assertions i (nw_server n))) n
      = Network (nw_client n) (nw_todo n) (nw_results n) m' (nw_requests n) (nw_replies n) /\
    server_at m' inb t busy /\
    (sum_list_with phase_steps (mc_workers m') < sum_list_with phase_steps (mc_workers (nw_server n)))%nat.
Proof.
  intros Hm Hp Hphase Hb. set (m := nw_server n) in *.
  destruct (worker_step srv assertions i m) as [ev m'] eqn:Hs. cbn [snd].
  assert (exists q, mc_workers m' = <[i := q]> (mc_workers m) /\ waits_between_packets q /\
    (phase_steps q < phase_steps p)%nat /\ mc_env m' = mc_env m /\ mc_buffer m' = mc_buffer m /\
    mc_backend m' = mc_backend m) as (q & Hws & Hq & Hlt & He & Hbuf & Hback).
  { clearbody m. destruct m as [e s buffer rd wr ws]. cbn in *. unfold worker_step in Hs. rewrite Hp in Hs.
    unfold waits_between_packets. destruct Hphase as [-> | [-> ->]]; injection Hs as <- <-;
      eexists; split_and!; try done; cbn; auto. }
  pose proof (sa_out _ _ _ _ Hm) as Hout.
  exists (with_env (departed (mc_env m')) m'). split_and!.
  - unfold set_server. rewrite He, Hout, app_nil_r. done.
  - eapply server_at_move; [exact Hm|exact Hs|exact Hp|exact Hws| | |by constructor].
    + rewrite Hbuf, He. by eapply sa_in.
    + rewrite Hback. by eapply sa_backend.
  - cbn [with_env mc_workers]. rewrite Hws.
    pose proof (sum_list_with_insert phase_steps _ _ _ q Hp). lia.
Qed.

(** A worker that reads, when the whole packet is there. *)
Lemma reading_runs i n body t :
  server_at (nw_server n) (frame body) t None -> mc_workers (nw_server n) !! i = Some Reading ->
  0 < zlen body < 2 ^ 32 - 4 ->
  exists v m', set_server (snd (worker_step srv assertions i (nw_server n))) n
      = Network (nw_client n) (nw_todo n) (nw_results n) m' (nw_requests n) (nw_replies n) /\
    server_at m' [] t (Some (i, Serving v body)).
Proof.
  intros Hm Hp Hb. set (m := nw_server n) in *.
  pose proof (sa_out _ _ _ _ Hm) as Hout. pose proof (sa_in _ _ _ _ Hm) as Hin.
  pose proof (sa_backend _ _ _ _ Hm) as Hback.
  destruct (receive_packet_script assertions (mc_buffer m) (sc_chunks (mc_env m)) []
    (sc_end (mc_env m)) body []) as (chunks' & buffer' & v & Hread & _ & Hrest); [done|by rewrite app_nil_r|].
  assert (Hs : exists m', worker_step srv assertions i m = (Took body, m') /\
    mc_workers m' = <[i := Serving v body]> (mc_workers m) /\ mc_buffer m' = buffer' /\
    mc_env m' = Script chunks' [] (sc_end (mc_env m)) /\ mc_backend m' = t).
  { clearbody m. destruct m as [[ch wr fin] s buffer rd wrt ws]. cbn in *. subst wr s.
    unfold worker_step. rewrite Hp, Hread. by eexists. }
  destruct Hs as (m' & Hs & Hws & Hbuf & He & Ht). rewrite Hs. cbn [snd].
  exists v, (with_env (departed (mc_env m')) m'). split.
  - unfold set_server. rewrite He. cbn [sc_written]. by rewrite app_nil_r.
  - eapply server_at_move; [exact Hm|exact Hs|exact Hp|exact Hws| |done|constructor].
    by rewrite Hbuf, He.
Qed.

(** The worker that has the packet asks the backend. *)
Lemma serving_runs i n v id req f t rep t1 :
  server_at (nw_server n) [] t (Some (i, Serving v (request_body id req))) ->
  is_u32 id -> request_wf req -> exec srv (ClientRequest req) = Some f -> f t = (rep, t1) -> reply_fits rep ->
  exists m', set_server (snd (worker_step srv assertions i (nw_server n))) n
      = Network (nw_client n) (nw_todo n) (nw_results n) m' (nw_requests n) (nw_replies n) /\
    server_at m' [] t1 (Some (i, WantWrite (frame (reply_body id rep)))).
Proof.
  intros Hm Hid Hw Hf Ht Hfit. set (m := nw_server n) in *.
  pose proof (sa_out _ _ _ _ Hm) as Hout. pose proof (sa_in _ _ _ _ Hm) as Hin.
  pose proof (sa_backend _ _ _ _ Hm) as Hback. pose proof (sa_busy _ _ _ _ Hm i _ eq_refl) as Hp.
  assert (Hh : handle_packet srv v (request_body id req) t = (Respond (frame (reply_body id rep)), t1)).
  { pose proof (handle_exec srv v id (ClientRequest req) [] f t Hid Hw Hf) as Hh.
    rewrite Ht in Hh. specialize (Hh Hfit). rewrite app_nil_r in Hh.
    change (wire_body id (ClientRequest req)) with (request_body id req) in Hh. rewrite Hh.
    unfold reports, st_bind, st_ret. by rewrite Ht. }
  assert (Hs : exists m', worker_step srv assertions i m
      = (Served (request_body id req) (frame (reply_body id rep)), m') /\
    mc_workers m' = <[i := WantWrite (frame (reply_body id rep))]> (mc_workers m) /\
    mc_buffer m' = mc_buffer m /\ mc_env m' = mc_env m /\ mc_backend m' = t1).
  { clearbody m. destruct m as [e s buffer rd wrt ws]. cbn in *. subst s.
    unfold worker_step. rewrite Hp, Hh. by eexists. }
  destruct Hs as (m' & Hs & Hws & Hbuf & He & Ht'). rewrite Hs. cbn [snd].
  exists (with_env (departed (mc_env m')) m'). split.
  - unfold set_server. by rewrite He, Hout, app_nil_r.
  - eapply server_at_move; [exact Hm|exact Hs|exact Hp|exact Hws| |done|constructor].
    by rewrite Hbuf, He.
Qed.

(** It takes the mutex, then sends the reply. *)
Lemma want_write_runs i n r t :
  server_at (nw_server n) [] t (Some (i, WantWrite r)) -> ready i (nw_server n) = true ->
  exists m', set_server (snd (worker_step srv assertions i (nw_server n))) n
      = Network (nw_client n) (nw_todo n) (nw_results n) m' (nw_requests n) (nw_replies n) /\
    server_at m' [] t (Some (i, Writing r)) /\
    (sum_list_with phase_steps (mc_workers m') < sum_list_with phase_steps (mc_workers (nw_server n)))%nat.
Proof.
  intros Hm Hready. set (m := nw_server n) in *.
  pose proof (sa_out _ _ _ _ Hm) as Hout. pose proof (sa_in _ _ _ _ Hm) as Hin.
  pose proof (sa_backend _ _ _ _ Hm) as Hback. pose proof (sa_busy _ _ _ _ Hm i _ eq_refl) as Hp.
  assert (Hs : exists m', worker_step srv assertions i m = (Quiet, m') /\
    mc_workers m' = <[i := Writing r]> (mc_workers m) /\
    mc_buffer m' = mc_buffer m /\ mc_env m' = mc_env m /\ mc_backend m' = t).
  { clearbody m. destruct m as [e s buffer rd wrt ws]. unfold ready in Hready. cbn in *. subst s.
    rewrite Hp in Hready. apply bool_decide_eq_true in Hready as ->.
    unfold worker_step. rewrite Hp. by eexists. }
  destruct Hs as (m' & Hs & Hws & Hbuf & He & Ht'). rewrite Hs. cbn [snd].
  exists (with_env (departed (mc_env m')) m'). split_and!.
  - unfold set_server. by rewrite He, Hout, app_nil_r.
  - eapply server_at_move; [exact Hm|exact Hs|exact Hp|exact Hws| |done|constructor].
    by rewrite Hbuf, He.
  - cbn [with_env mc_workers]. rewrite Hws.
    pose proof (sum_list_with_insert phase_steps _ _ _ (Writing r) Hp) as H. cbn [phase_steps] in H. lia.
Qed.

Lemma writing_runs i n r t :
  server_at (nw_server n) [] t (Some (i, Writing r)) ->
  exists m', set_server (snd (worker_step srv assertions i (nw_server n))) n
      = Network (nw_client n) (nw_todo n) (nw_results n) m' (nw_requests n) (nw_replies n ++ r) /\
    server_at m' [] t None.
Proof.
  intros Hm. set (m := nw_server n) in *.
  pose proof (sa_out _ _ _ _ Hm) as Hout. pose proof (sa_in _ _ _ _ Hm) as Hin.
  pose proof (sa_backend _ _ _ _ Hm) as Hback. pose proof (sa_busy _ _ _ _ Hm i _ eq_refl) as Hp.
  assert (Hs : exists m', worker_step srv assertions i m = (Wrote r, m') /\
    mc_workers m' = <[i := LoopHead]> (mc_workers m) /\ mc_buffer m' = mc_buffer m /\
    mc_env m' = Script (sc_chunks (mc_env m)) r (sc_end (mc_env m)) /\ mc_backend m' = t).
  { clearbody m. destruct m as [[ch wr fin] s buffer rd wrt ws]. cbn in *. subst s wr.
    unfold worker_step. rewrite Hp. by eexists. }
  destruct Hs as (m' & Hs & Hws & Hbuf & He & Ht'). rewrite Hs. cbn [snd].
  exists (with_env (departed (mc_env m')) m'). split.
  - unfold set_server. by rewrite He.
  - eapply server_at_move; [exact Hm|exact Hs|exact Hp|exact Hws| |done|constructor; by left].
    by rewrite Hbuf, He.
Qed.

End Server.

(** ** Lemmas: the client *)

Section Client.
Context {P : Platform} (l : address).
Implicit Types (s : session script).

Lemma waits_for_departed id new inc s :
  waiting l id new s -> is_u32 id -> request_id_gen (s_queue s) = u32 (id + 1) -> pending s = inc ->
  waits_for l id new inc (with_stream (departed (s_stream s)) s).
Proof. done. Qed.

(** The call takes its number and links its response. *)
Lemma call_begins new packet s :
  at_rest l s ->
  exists s', caller_step 0 (CallMachine s None None [NotCalled l new packet])
      = Done (CallMachine s' None None [WantSend l (fst (packet (request_id_gen (s_queue s))))]) /\
    waits_for l (request_id_gen (s_queue s)) new [] s'.
Proof.
  intros (Hid & Hi & Hl & Hp & Hw). unfold caller_step, get_request_id. cbn [lookup list_lookup].
  set (id := request_id_gen (s_queue s)) in *. set (h := construct (s_heap s) l id new).
  assert (Hlh : h !! l = Some (Node None None id new)) by apply lookup_insert_eq.
  edestruct (enqueue_restart h (ResponseQueue (first (s_queue s)) (last (s_queue s)) (u32 (id + 1))) l)
    as [He Hrep]; [exact Hi|exact Hlh|done|done|].
  fold id h. rewrite He. cbn [access_bind fst snd]. eexists. split; [done|]. by split_and!.
Qed.

Lemma call_locks id new s packet :
  waits_for l id new [] s ->
  exists s', caller_step 0 (CallMachine s None None [WantSend l packet])
      = Done (CallMachine s' (Some 0%nat) None [Sending l packet]) /\ waits_for l id new [] s'.
Proof. intros H. destruct s as [e buf exts ver q h]. by eexists. Qed.

(** Its packet departs; from now on it waits. *)
Lemma call_writes id new s packet :
  waits_for l id new [] s -> completed new = false ->
  exists s', caller_step 0 (CallMachine s (Some 0%nat) None [Sending l packet])
      = Done (CallMachine s' None None [WantReceive l]) /\
    waits_for l id new [] (with_stream (departed (s_stream s')) s') /\ sc_written (s_stream s') = packet.
Proof.
  intros ([Hq Hl] & Hid & Hg & Hp & Hw) Hc. destruct s as [[ch wr fin] buf exts ver q h].
  unfold written in Hw. cbn in Hw, Hl. subst wr. unfold caller_step. cbn [lookup list_lookup].
  cbn [write script_runtime s_stream sc_chunks sc_written sc_end app].
  rewrite ec_bool_no_error. unfold loop_test, load. cbn [s_heap with_stream]. rewrite Hl.
  cbn [access_bind n_response]. rewrite ec_bool_no_error, Hc. cbn. by eexists.
Qed.

Lemma call_waits id new inc s :
  waits_for l id new inc s -> completed new = false ->
  exists s', caller_step 0 (CallMachine s None None [WantReceive l])
      = Done (CallMachine s' None (Some 0%nat) [Receiving l]) /\ waits_for l id new inc s'.
Proof.
  intros ([Hq Hl] & Hrest) Hc. destruct s as [e buf exts ver q h]. cbn in Hl.
  unfold caller_step. cbn [lookup list_lookup lock script_runtime s_stream]. rewrite ec_bool_no_error.
  unfold load. cbn [s_heap with_stream]. rewrite Hl. cbn [access_bind n_response]. rewrite Hc.
  by eexists.
Qed.

(** The reply is there: the call returns, and its frame is gone. *)
Lemma call_returns id new s m :
  waits_for l id new (frame (message_body m)) s -> message_wf m -> m_id m = id ->
  exists s', caller_step 0 (CallMachine s None (Some 0%nat) [Receiving l])
      = Done (CallMachine s' None None
                [Returned (Final (on_complete no_error (m_type m) (m_payload m) new))]) /\
    at_rest l s'.
Proof.
  intros ([Hq Hl] & Hid & Hg & Hp & Hw) Hm Hmid.
  destruct (read_one_message s m [] Hm) as (s' & Hread & Hp' & Hw' & _); [by rewrite app_nil_r|].
  rewrite (complete_rep_hit _ _ _ [] l [] _ _ _ _ (Node None None id new)) in Hread;
    [|exact Hq|set_solver|exact Hl|by symmetry].
  rewrite decide_True in Hread by done. cbn [access_bind n_response set_response] in Hread.
  unfold caller_step. cbn [lookup list_lookup]. rewrite Hread. cbn [access_bind fst snd].
  unfold loop_test, load. cbn [s_heap with_queue]. rewrite lookup_insert_eq.
  cbn [access_bind n_response set_response]. rewrite on_complete_completed, orb_true_r. cbn [access_bind fst snd].
  eexists. split; [done|]. split_and!; [|done| |done|].
  - cbn. rewrite Hg. apply u32_range.
  - cbn. unfold release. apply lookup_delete_eq.
  - change (written s' = []). by rewrite Hw'.
Qed.

End Client.

(** ** Lemmas: the system *)

Section System.
Context {P : Platform} {S : Type} (srv : sftp_server S) (assertions : bool).
Context (l : address) (b : small_buffer) (Hbuf : small_buffer_wf b).

#[local] Abbreviation inv := (inv srv l b).
#[local] Abbreviation goes_on := (goes_on srv l b).

Lemma server_at_env (m : machine script S) inb t busy inb' e :
  server_at m inb t busy -> sc_written e = [] -> mc_buffer m ++ concat (sc_chunks e) = inb' ->
  server_at (with_env e m) inb' t busy.
Proof. intros [] He Hin. by split. Qed.

Lemma new_response_pending buffered req : completed (new_response buffered req) = false.
Proof. by destruct req. Qed.

Lemma request_body_size id req : request_wf req -> 0 < zlen (request_body id req) < 2 ^ 32 - 4.
Proof.
  intros [H _]. rewrite zlen_request_body. pose proof (zlen_nonneg (request_fields req)). lia.
Qed.

Lemma reply_body_size id rep : reply_fits rep -> zlen (reply_body id rep) < 2 ^ 32 - 4.
Proof.
  intros H. unfold reply_fits in H.
  pose proof (zlen_message_body (Message (reply_type rep) id (reply_fields rep))) as Hz.
  cbn [m_payload] in Hz. change (message_body _) with (reply_body id rep) in Hz. lia.
Qed.

Lemma ahead_cons buffered req todo t rs te :
  ahead srv ((buffered, req) :: todo) t rs te ->
  exists rep t1 r rs1, rs = r :: rs1 /\ answers srv buffered req t rep t1 r /\ ahead srv todo t1 rs1 te.
Proof.
  intros (Hwf & Hok & Hout). cbn [replies_ok outcomes] in *. apply Forall_cons in Hwf as [Hw Hwf].
  destruct (exec srv (ClientRequest req)) as [f|] eqn:Hf; [|done]. destruct Hok as [Hrep Hok].
  destruct (f t) as [rep t1] eqn:Ht. cbn [fst snd] in *.
  destruct (expected _ rep) as [r|] eqn:Hr; [|done].
  destruct (outcomes srv todo t1) as [[rs1 te1]|] eqn:Ho; [|done]. injection Hout as <- <-.
  exists rep, t1, r, rs1. split; [done|]. split; [|done]. split; [done|]. split; [done|]. split; [done|].
  by exists f.
Qed.

Lemma goes_on_rank n rank rs te n' rank' :
  inv n' rank' rs te -> nw_results n' = nw_results n -> (calls_left n' <= calls_left n)%nat ->
  (rank' < rank)%nat -> goes_on n rank rs te n'.
Proof.
  intros Hi Hr Hc Hk. exists rank', rs. split; [done|]. split; [by rewrite Hr|]. unfold nearer. lia.
Qed.

Lemma goes_on_within n rank rs te n' :
  inv n' rank rs te -> nw_results n' = nw_results n -> calls_left n' = calls_left n ->
  (steps_within n' < steps_within n)%nat -> goes_on n rank rs te n'.
Proof.
  intros Hi Hr Hc Hk. exists rank, rs. split; [done|]. split; [by rewrite Hr|]. unfold nearer. lia.
Qed.

Lemma requests_arrive_goes_on k n rank rs te n' :
  inv n rank rs te -> requests_arrive k n = NextState n' -> goes_on n rank rs te n'.
Proof.
  intros Hi. unfold requests_arrive.
  destruct Hi as [| | |s id rc c buffered req todo res m inb rq t rep t1 r rs te Hs Hc Hm Hrq Ha Hd| | | |];
    cbn [nw_server nw_requests]; try by rewrite arrive_nil.
  destruct (arrive k rq (mc_env m)) as [[rq' e]|] eqn:Hk; [|done]. intros [= <-].
  apply arrive_some in Hk as (Hk & -> & ->). pose proof (sa_in _ _ _ _ Hm) as Hin.
  apply goes_on_within; [|done..|].
  - apply (inv_request srv l b s id rc c buffered req todo res _ (inb ++ take k rq) (drop k rq) t rep t1 r rs te);
      try done.
    + eapply server_at_env; [exact Hm|by eapply sa_out|].
      cbn [sc_chunks]. rewrite concat_app. cbn [concat]. by rewrite app_nil_r, app_assoc, Hin.
    + by rewrite <- app_assoc, take_drop.
  - unfold steps_within. cbn. rewrite length_drop. lia.
Qed.

Lemma replies_arrive_goes_on k n rank rs te n' :
  inv n rank rs te -> replies_arrive k n = NextState n' -> goes_on n rank rs te n'.
Proof.
  intros Hi. unfold replies_arrive.
  destruct Hi as [| | | | | |s id rc c buffered req todo res m inc rp t rep t1 r rs te Hs Hc Hm Hrp Ha Hd|];
    cbn [nw_client nw_replies]; try by rewrite arrive_nil.
  destruct (arrive k rp _) as [[rp' e]|] eqn:Hk; [|done]. intros [= <-].
  apply arrive_some in Hk as (Hk & -> & ->). apply goes_on_within; [|done..|].
  - apply (inv_answered srv l b _ id rc c buffered req todo res m (inc ++ take k rp) (drop k rp) t rep t1 r rs te);
      try done.
    + destruct Hs as (Hwt & Hid & Hg & Hp & Hw). split_and!; try done. cbn [cm_session].
      unfold pending in *. cbn [s_buffer s_stream with_stream sc_chunks]. rewrite concat_app. cbn [concat].
      by rewrite app_nil_r, app_assoc, Hp.
    + by rewrite <- app_assoc, take_drop.
  - unfold steps_within. cbn. rewrite length_drop. lia.
Qed.

(** Within a stage, a worker that is not busy comes nearer to reading. *)
#[local] Ltac idle_case Hm Hp Hphase Hbusy :=
  let m' := fresh "m'" in let Hm' := fresh "Hm'" in let Hlt := fresh "Hlt" in
  lazymatch goal with |- Network.goes_on _ _ _ ?n _ _ _ _ =>
    destruct (idle_runs srv assertions _ n _ _ _ _ Hm Hp Hphase Hbusy) as (m' & -> & Hm' & Hlt) end;
  apply goes_on_within; [by econstructor|done..|unfold steps_within; cbn in *; lia].

Lemma worker_runs_goes_on i n rank rs te n' :
  inv n rank rs te -> worker_runs srv assertions i n = NextState n' -> goes_on n rank rs te n'.
Proof.
  intros Hi Hrun.
  assert (Hidle : forall t, server_at (nw_server n) [] t None ->
    (forall m', server_at m' [] t None -> inv (Network (nw_client n) (nw_todo n) (nw_results n) m'
       (nw_requests n) (nw_replies n)) rank rs te) -> goes_on n rank rs te n').
  { intros t Hm Hinv. destruct (worker_runs_inv srv assertions i n n' _ _ _ Hrun Hm)
      as (Hready & -> & p & Hp & [[Hphase Hb]|[(-> & Hpk & _)|Hb]]); [| |done].
    - destruct (idle_runs srv assertions _ _ _ _ _ _ Hm Hp Hphase Hb) as (m' & -> & Hm' & Hlt).
      apply goes_on_within; [by apply Hinv|done..|unfold steps_within; cbn; lia].
    - by rewrite has_packet_nil in Hpk by (by eapply sa_in). }
  destruct Hi as [s todo res m t rs te Hs Hm Hd
    |s buffered req todo res m t rep t1 r rs te Hs Hm Ha Hd
    |s id sd c buffered req todo res m t rep t1 r rs te Hs Hc Hm Ha Hd
    |s id rc c buffered req todo res m inb rq t rep t1 r rs te Hs Hc Hm Hrq Ha Hd
    |s id rc c buffered req todo res m j v t rep t1 r rs te Hs Hc Hm Ha Hd
    |s id rc c buffered req todo res m j p t rep t1 r rs te Hs Hc Hm Hp Ha Hd
    |s id rc c buffered req todo res m inc rp t rep t1 r rs te Hs Hc Hm Hrp Ha Hd
    |s todo res m t r rs te Hs Hm Hd]; try (apply (Hidle t Hm); by econstructor).
  all: try (apply (Hidle t1 Hm); by econstructor).
  all: clear Hidle; destruct (worker_runs_inv srv assertions i _ n' _ _ _ Hrun Hm)
    as (Hready & -> & q & Hq & [[Hphase Hb]|[(-> & Hpk & Hb)|Hb]]);
    cbn [nw_server] in Hq, Hready.
  - idle_case Hm Hq Hphase Hb.
  - destruct Ha as (Hw & Ha). pose proof (request_body_size id req Hw) as Hz.
    assert (rq = []) as ->.
    { eapply has_packet_part; [|by symmetry|by eapply sa_in|exact Hpk]. lia. }
    rewrite app_nil_r in Hrq. subst inb.
    lazymatch goal with |- Network.goes_on _ _ _ ?n _ _ _ _ =>
      destruct (reading_runs srv assertions i n _ t Hm Hq Hz) as (v & m' & -> & Hm') end.
    apply (goes_on_rank _ _ _ _ _ 3); [|done|done|lia]. by econstructor.
  - done.
  - idle_case Hm Hq Hphase Hb.
  - by rewrite has_packet_nil in Hpk by (by eapply sa_in).
  - injection Hb as -> <-. destruct Ha as (Hw & [Hfit Hok] & Hr & f & Hf & Ht).
    lazymatch goal with |- Network.goes_on _ _ _ ?n _ _ _ _ =>
      destruct (serving_runs srv assertions i n v id req f t rep t1 Hm) as (m' & -> & Hm') end; [|done..|].
    { by destruct Hs as (_ & ? & _). }
    apply (goes_on_rank _ _ _ _ _ 2); [|done|done|lia].
    econstructor; [done..|by left| |done]. split; [done|]. split; [done|]. split; [done|]. by exists f.
  - idle_case Hm Hq Hphase Hb.
  - by rewrite has_packet_nil in Hpk by (by eapply sa_in).
  - injection Hb as -> ->. destruct Hp as [-> | ->].
    + lazymatch goal with |- Network.goes_on _ _ _ ?n _ _ _ _ =>
      destruct (want_write_runs srv assertions i n _ t1 Hm Hready) as (m' & -> & Hm' & Hlt) end.
      apply goes_on_within; [|done..|unfold steps_within; cbn in *; lia].
      econstructor; [done..|by right|done|done].
    + lazymatch goal with |- Network.goes_on _ _ _ ?n _ _ _ _ =>
      destruct (writing_runs srv assertions i n _ t1 Hm) as (m' & -> & Hm') end.
      apply (goes_on_rank _ _ _ _ _ 1); [|done|done|lia]. cbn [nw_replies app]. by econstructor.
Qed.

(** A step of the call the client is in. *)
Lemma client_steps s sd rc c todo res (m : machine script S) rq rp s' sd' rc' c' :
  caller_step 0 (CallMachine s sd rc [c]) = Done (CallMachine s' sd' rc' [c']) ->
  has_returned c = false -> waits_for_bytes (CallMachine s sd rc [c]) = false ->
  client_runs l b (Network (CallMachine s sd rc [c]) todo res m rq rp)
  = NextState (Network (CallMachine (with_stream (departed (s_stream s')) s') sd' rc' [c'])
      todo res m (rq ++ written s') rp).
Proof. intros Hs Hr Hw. unfold client_runs. cbn [nw_client cm_callers]. rewrite Hw, Hs. by destruct c. Qed.

Lemma client_steps_quietly s sd rc c todo res (m : machine script S) rq rp s' sd' rc' c' id new inc :
  caller_step 0 (CallMachine s sd rc [c]) = Done (CallMachine s' sd' rc' [c']) ->
  waits_for l id new inc s' ->
  has_returned c = false -> waits_for_bytes (CallMachine s sd rc [c]) = false ->
  exists s'', client_runs l b (Network (CallMachine s sd rc [c]) todo res m rq rp)
      = NextState (Network (CallMachine s'' sd' rc' [c']) todo res m rq rp) /\
    waits_for l id new inc s''.
Proof.
  intros Hs (Hwt & Hid & Hg & Hp & Hwr) Hr Hw. eexists. split.
  - rewrite (client_steps _ _ _ _ _ _ _ _ _ _ _ _ _ Hs Hr Hw). by rewrite Hwr, app_nil_r.
  - by apply waits_for_departed.
Qed.

(** A client that waits while its reply is not there in full. *)
Lemma waiting_goes_on s id new inc c rc todo res m rq rp rank rs te :
  waits_for l id new inc s -> completed new = false -> receives l c rc -> match_packet inc = None ->
  (forall s c rc, waits_for l id new inc s -> receives l c rc ->
     inv (Network (CallMachine s None rc [c]) todo res m rq rp) rank rs te) ->
  match client_runs l b (Network (CallMachine s None rc [c]) todo res m rq rp) with
  | NextState n' => goes_on (Network (CallMachine s None rc [c]) todo res m rq rp) rank rs te n'
  | FollowsDangling => False
  | Blocked => True
  end.
Proof.
  intros Hs Hnew [[-> ->]|[-> ->]] Hno Hinv.
  - destruct (call_waits l id new inc s Hs Hnew) as (s1 & Hstep & Hs1).
    destruct (client_steps_quietly _ _ _ _ todo res m rq rp _ _ _ _ _ _ _ Hstep Hs1 eq_refl eq_refl)
      as (s2 & -> & Hs2).
    apply goes_on_within; [apply Hinv; [done|by right]|done..|unfold steps_within; cbn; lia].
  - unfold client_runs. cbn [nw_client cm_callers]. unfold waits_for_bytes. cbn [cm_callers cm_session].
    unfold has_packet. destruct Hs as (_ & _ & _ & Hp & _). unfold pending in Hp. by rewrite Hp, Hno.
Qed.

Lemma client_runs_goes_on n rank rs te :
  inv n rank rs te ->
  match client_runs l b n with
  | NextState n' => goes_on n rank rs te n'
  | FollowsDangling => False
  | Blocked => True
  end.
Proof using Hbuf.
  intros Hi.
  destruct Hi as [s todo res m t rs te Hs Hm Hd
    |s buffered req todo res m t rep t1 r rs te Hs Hm Ha Hd
    |s id sd c buffered req todo res m t rep t1 r rs te Hs Hc Hm Ha Hd
    |s id rc c buffered req todo res m inb rq t rep t1 r rs te Hs Hc Hm Hrq Ha Hd
    |s id rc c buffered req todo res m j v t rep t1 r rs te Hs Hc Hm Ha Hd
    |s id rc c buffered req todo res m j p t rep t1 r rs te Hs Hc Hm Hp Ha Hd
    |s id rc c buffered req todo res m inc rp t rep t1 r rs te Hs Hc Hm Hrp Ha Hd
    |s todo res m t r rs te Hs Hm Hd].
  - unfold client_runs. cbn [nw_client cm_callers nw_todo]. destruct todo as [|[buffered req] todo]; [done|].
    apply ahead_cons in Hd as (rep & t1 & r & rs1 & -> & Ha & Hd).
    apply (goes_on_rank _ _ _ _ _ 6); [by econstructor|done|unfold calls_left; cbn; lia|lia].
  - destruct (call_begins l (new_response buffered req) (fun id => client_packet b id req) s Hs)
      as (s1 & Hstep & Hs1).
    destruct (client_steps_quietly _ _ _ _ todo res m [] [] _ _ _ _ _ _ _ Hstep Hs1 eq_refl eq_refl)
      as (s2 & -> & Hs2).
    apply (goes_on_rank _ _ _ _ _ 5); [|done|done|lia].
    eapply inv_sending; [exact Hs2| |done..]. left. by rewrite client_packet_frame.
  - destruct Hc as [[-> ->]|[-> ->]].
    + destruct (call_locks l id _ s (frame (request_body id req)) Hs) as (s1 & Hstep & Hs1).
      destruct (client_steps_quietly _ _ _ _ todo res m [] [] _ _ _ _ _ _ _ Hstep Hs1 eq_refl eq_refl)
        as (s2 & -> & Hs2).
      apply goes_on_within; [|done..|unfold steps_within; cbn; lia].
      eapply inv_sending; [exact Hs2|by right|done..].
    + destruct (call_writes l id _ s (frame (request_body id req)) Hs (new_response_pending buffered req))
        as (s1 & Hstep & Hs1 & Hw).
      rewrite (client_steps _ _ _ _ todo res m [] [] _ _ _ _ Hstep eq_refl eq_refl). unfold written. rewrite Hw.
      apply (goes_on_rank _ _ _ _ _ 4); [|done|done|lia].
      eapply inv_request; [exact Hs1|by left|exact Hm|done..].
  - eapply waiting_goes_on; [exact Hs|apply new_response_pending|done|done|]. intros. by econstructor.
  - eapply waiting_goes_on; [exact Hs|apply new_response_pending|done|done|]. intros. by econstructor.
  - eapply waiting_goes_on; [exact Hs|apply new_response_pending|done|done|]. intros. by econstructor.
  - destruct Ha as (Hw & [Hfit Hok] & Hr & Ha).
    destruct (decide (rp = [])) as [->|Hne].
    2:{ eapply waiting_goes_on; [exact Hs|apply new_response_pending|done| |].
        - by eapply (match_packet_partial (reply_body id rep) inc rp); [apply reply_body_size| |].
        - intros. by eapply inv_answered. }
    rewrite app_nil_r in Hrp. subst inc. destruct Hc as [[-> ->]|[-> ->]].
    + destruct (call_waits l id _ _ s Hs (new_response_pending buffered req)) as (s1 & Hstep & Hs1).
      destruct (client_steps_quietly _ _ _ _ todo res m [] [] _ _ _ _ _ _ _ Hstep Hs1 eq_refl eq_refl)
        as (s2 & -> & Hs2).
      apply goes_on_within; [|done..|unfold steps_within; cbn; lia].
      eapply inv_answered; [exact Hs2|by right|done|by rewrite app_nil_r|done..].
    + destruct (call_returns l id _ s (Message (reply_type rep) id (reply_fields rep)) Hs)
        as (s1 & Hstep & Hs1); [|done|].
      { apply reply_message_wf; [|done]. by destruct Hs as (_ & ? & _). }
      cbn [m_type m_payload] in Hstep. rewrite (on_complete_expected _ _ r (conj Hfit Hok) Hr) in Hstep.
      assert (Hb : waits_for_bytes (CallMachine s None (Some 0%nat) [Receiving l]) = false).
      { unfold waits_for_bytes, has_packet. cbn [cm_callers cm_session].
        destruct Hs as (_ & _ & _ & Hp & _). unfold pending in Hp. rewrite Hp.
        rewrite <- (app_nil_r (frame _)), match_packet_frame; [done|by apply reply_body_size]. }
      rewrite (client_steps _ _ _ _ todo res m [] [] _ _ _ _ Hstep eq_refl Hb).
      destruct Hs1 as (Hid & Hi & Hl & Hp & Hwr). rewrite Hwr.
      apply (goes_on_rank _ _ _ _ _ 0); [|done|done|lia]. by eapply inv_returned.
  - unfold client_runs. cbn. exists 7%nat, rs. split; [by econstructor|]. split.
    + cbn. by rewrite <- app_assoc.
    + unfold nearer, calls_left. cbn. lia.
Qed.

#[local] Abbreviation step := (net_step srv assertions l b).

Lemma net_step_goes_on e n rank rs te :
  inv n rank rs te ->
  match step e n with
  | NextState n' => goes_on n rank rs te n'
  | FollowsDangling => False
  | Blocked => True
  end.
Proof using Hbuf.
  intros Hi. destruct e as [|i|k|k]; cbn [net_step].
  - by apply client_runs_goes_on.
  - destruct (worker_runs srv assertions i n) as [n'| |] eqn:Hr; [by eapply worker_runs_goes_on| |done].
    unfold worker_runs in Hr. by destruct (_ && _).
  - destruct (requests_arrive k n) as [n'| |] eqn:Hr; [by eapply requests_arrive_goes_on| |done].
    unfold requests_arrive in Hr. by destruct (arrive _ _ _) as [[]|].
  - destruct (replies_arrive k n) as [n'| |] eqn:Hr; [by eapply replies_arrive_goes_on| |done].
    unfold replies_arrive in Hr. by destruct (arrive _ _ _) as [[]|].
Qed.

Lemma arrive_all flight e :
  flight <> [] -> arrive (length flight) flight e
  = Some ([], Script (sc_chunks e ++ [flight]) (sc_written e) (sc_end e)).
Proof.
  intros Hne. unfold arrive. destruct (Nat.ltb_spec 0 (length flight)); [|destruct flight; [done|cbn in *; lia]].
  rewrite Nat.leb_refl, drop_all, take_ge by lia. done.
Qed.

(** Some worker can take a packet that has arrived. *)
Lemma packet_taken (n : network S) body t :
  server_at (nw_server n) (frame body) t None -> zlen body < 2 ^ 32 - 4 ->
  exists i n', worker_runs srv assertions i n = NextState n'.
Proof.
  intros Hm Hz. unfold worker_runs.
  assert (Hpk : has_packet (mc_buffer (nw_server n)) (mc_env (nw_server n)) = true).
  { unfold has_packet. rewrite (sa_in _ _ _ _ Hm), <- (app_nil_r (frame body)), match_packet_frame by done. done. }
  pose proof (sa_locks _ _ _ _ Hm) as [Hrd _]. unfold ready.
  destruct (mc_reader (nw_server n)) as [j|] eqn:Hj.
  - pose proof (proj1 (Hrd j) eq_refl) as Hr. exists j.
    destruct (mc_workers (nw_server n) !! j) as [[]|]; try done. rewrite Hpk. by eexists.
  - pose proof (sa_workers _ _ _ _ Hm) as Hne. exists 0%nat.
    destruct (mc_workers (nw_server n)) as [|p ws] eqn:Hws; [done|].
    assert (Hp : mc_workers (nw_server n) !! 0%nat = Some p) by by rewrite Hws.
    pose proof (sa_idle _ _ _ _ Hm 0%nat p Hp ltac:(done)) as [-> | [-> | ->]]; cbn [lookup list_lookup].
    + by eexists.
    + by eexists.
    + rewrite Hpk. by eexists.
Qed.

Lemma busy_runs (n : network S) i p t :
  server_at (nw_server n) [] t (Some (i, p)) ->
  match p with Serving _ _ | WantWrite _ | Writing _ => True | _ => False end ->
  exists n', worker_runs srv assertions i n = NextState n'.
Proof.
  intros Hm Hp. unfold worker_runs, ready. rewrite (sa_busy _ _ _ _ Hm i p eq_refl).
  destruct p as [| | |v cb|r|r|]; try done; [by eexists| |by eexists].
  destruct (mc_writer (nw_server n)) as [j|] eqn:Hj.
  2:{ rewrite bool_decide_eq_true_2 by done. by eexists. }
  exfalso. pose proof (sa_locks _ _ _ _ Hm) as [_ Hwr].
  pose proof (proj1 (Hwr j) Hj) as Hw. pose proof (sa_busy _ _ _ _ Hm i _ eq_refl) as Hi.
  destruct (decide (i = j)) as [<-|Hne]; [by rewrite Hi in Hw|].
  destruct (mc_workers (nw_server n) !! j) as [q|] eqn:Hq; [|done].
  assert (Hni : fst <$> Some (i, WantWrite r) <> Some j) by (cbn; congruence).
  by destruct (sa_idle _ _ _ _ Hm j q Hq Hni) as [-> | [-> | ->]].
Qed.

Lemma net_step_enabled (n : network S) rank rs te :
  inv n rank rs te -> finished n = false -> exists e n', step e n = NextState n'.
Proof using Hbuf.
  intros Hi Hf.
  assert (Hcl : waits_for_bytes (nw_client n) = false ->
    (cm_callers (nw_client n) = [] -> nw_todo n <> []) -> exists e n', step e n = NextState n').
  { intros Hw Hne. exists ClientRuns. pose proof (client_runs_goes_on n rank rs te Hi) as Hg.
    cbn [net_step]. destruct (client_runs l b n) as [n'| |] eqn:Hr; [by eexists|done|]. exfalso. revert Hr.
    unfold client_runs. rewrite Hw. destruct (cm_callers (nw_client n)) as [|c cs].
    - destruct (nw_todo n) as [|[]]; [by destruct Hne|done].
    - destruct c, cs; try done; by destruct (caller_step 0 (nw_client n)). }
  destruct Hi as [s todo res m t rs te Hs Hm Hd
    |s buffered req todo res m t rep t1 r rs te Hs Hm Ha Hd
    |s id sd c buffered req todo res m t rep t1 r rs te Hs Hc Hm Ha Hd
    |s id rc c buffered req todo res m inb rq t rep t1 r rs te Hs Hc Hm Hrq Ha Hd
    |s id rc c buffered req todo res m j v t rep t1 r rs te Hs Hc Hm Ha Hd
    |s id rc c buffered req todo res m j p t rep t1 r rs te Hs Hc Hm Hp Ha Hd
    |s id rc c buffered req todo res m inc rp t rep t1 r rs te Hs Hc Hm Hrp Ha Hd
    |s todo res m t r rs te Hs Hm Hd].
  - apply Hcl; [done|]. cbn. intros _ ->. by cbn in Hf.
  - by apply Hcl.
  - apply Hcl; [|done]. by destruct Hc as [[-> _]|[-> _]].
  - destruct (decide (rq = [])) as [->|Hne].
    + rewrite app_nil_r in Hrq. subst inb.
      destruct (packet_taken (Network (CallMachine s None rc [c]) todo res m [] []) _ t Hm) as (i & n' & Hn).
      { apply request_body_size, Ha. }
      by exists (WorkerRuns i), n'.
    + exists (RequestsArrive (length rq)). eexists. cbn [net_step]. unfold requests_arrive.
      cbn [nw_requests nw_server]. by rewrite arrive_all.
  - destruct (busy_runs (Network (CallMachine s None rc [c]) todo res m [] []) j _ t Hm I) as (n' & Hn).
    by exists (WorkerRuns j), n'.
  - destruct (busy_runs (Network (CallMachine s None rc [c]) todo res m [] []) j p t1 Hm) as (n' & Hn).
    { by destruct Hp as [-> | ->]. }
    by exists (WorkerRuns j), n'.
  - destruct (decide (rp = [])) as [->|Hne].
    + apply Hcl; [|done]. rewrite app_nil_r in Hrp. subst inc.
      destruct Hc as [[-> _]|[-> _]]; [done|]. unfold waits_for_bytes, has_packet. cbn [nw_client cm_callers cm_session].
      destruct Hs as (_ & _ & _ & Hp & _). unfold pending in Hp. rewrite Hp.
      rewrite <- (app_nil_r (frame _)), match_packet_frame; [done|]. apply reply_body_size, Ha.
    + exists (RepliesArrive (length rp)). eexists. cbn [net_step]. unfold replies_arrive.
      cbn [nw_replies nw_client]. by rewrite arrive_all.
  - by apply Hcl.
Qed.

Lemma inv_finished (n : network S) rank rs te :
  inv n rank rs te -> finished n = true -> rs = [] /\ mc_backend (nw_server n) = te.
Proof.
  destruct 1 as [s todo res m t rs te Hs Hm Hd| | | | | | |]; cbn; try done.
  destruct todo; [|done]. intros _. destruct Hd as (_ & _ & [= <- <-]). split; [done|]. by eapply sa_backend.
Qed.

Lemma net_run_goes_on es n rank rs te :
  inv n rank rs te ->
  match net_run srv assertions l b es n with
  | NextState n' => exists rank' rs', inv n' rank' rs' te /\
      nw_results n' ++ map Final rs' = nw_results n ++ map Final rs
  | FollowsDangling => False
  | Blocked => True
  end.
Proof using Hbuf.
  revert n rank rs. induction es as [|e es IH]; intros n rank rs Hi; cbn [net_run]; [eauto|].
  pose proof (net_step_goes_on e n rank rs te Hi) as Hg. destruct (step e n) as [n1| |]; [|done..].
  destruct Hg as (rank1 & rs1 & Hi1 & Hr1 & _). specialize (IH n1 rank1 rs1 Hi1).
  destruct (net_run _ _ _ _ es n1) as [n2| |]; [|done..].
  destruct IH as (rank2 & rs2 & Hi2 & Hr2). exists rank2, rs2. split; [done|]. congruence.
Qed.

(** No run goes on for ever. *)
Lemma inv_terminates n rank rs te :
  inv n rank rs te -> Acc (fun n2 n1 => exists e, step e n1 = NextState n2) n.
Proof using Hbuf.
  remember (calls_left n) as c eqn:Hc. revert n rank rs Hc.
  induction (lt_wf c) as [c _ IHc]. intros n rank. revert n.
  induction (lt_wf rank) as [rank _ IHr]. intros n.
  remember (steps_within n) as w eqn:Hw. revert n Hw.
  induction (lt_wf w) as [w _ IHw]. intros n -> rs -> Hi. constructor. intros n2 [e He].
  pose proof (net_step_goes_on e n rank rs te Hi) as Hg. rewrite He in Hg.
  destruct Hg as (rank2 & rs2 & Hi2 & _ & [Hlt|[Heq [Hlt|[-> Hlt]]]]).
  - by eapply IHc.
  - by eapply IHr.
  - by eapply IHw.
Qed.

Lemma connected_inv s n fin t calls rs te :
  at_rest l s -> Forall (fun c => request_wf (snd c)) calls -> replies_ok srv calls t ->
  outcomes srv calls t = Some (rs, te) -> inv (connected s n fin t calls) 7 rs te.
Proof.
  intros Hs Hwf Hok Hout. eapply inv_between; [done| |done]. split; cbn; try done.
  - apply serve_workers_locks.
  - intros j q Hj _. change (replicate (Datatypes.S n) LoopHead !! j = Some q) in Hj.
    apply lookup_replicate in Hj as [-> _]. by left.
Qed.

End System.

(** ** Properties *)

(** The session of the handshake ([handshake_roundtrip]), once its first packet is
    on its way, is such a session. *)
Lemma handshake_at_rest l chunks out fin buffer extensions version :
  buffer ++ concat chunks = [] ->
  at_rest l (with_stream (departed (Script chunks out fin))
               (Session (Script chunks out fin) buffer extensions version empty_queue ∅)).
Proof. intros H. by split_and!. Qed.

Section Properties.
Context {P : Platform} {S : Type} (srv : sftp_server S) (assertions : bool).
Context (l : address) (b : small_buffer).

(** C1: A client and a server that are connected compute what the calls mean.  For
    any calls but reads, any number of workers, and whatever happens in whatever
    order (which coroutine runs, which bytes arrive when and in which pieces): no
    dangling pointer is followed; the calls that have returned have returned the
    results of executing them one after the other on the backend; and when the
    client is done, all have, and the backend is in the state they leave it in. *)
Theorem network_answers s n fin t calls es :
  small_buffer_wf b -> at_rest l s -> Forall (fun c => request_wf (snd c)) calls -> replies_ok srv calls t ->
  exists rs te, outcomes srv calls t = Some (rs, te) /\
    net_run srv assertions l b es (connected s n fin t calls) <> FollowsDangling /\
    forall n', net_run srv assertions l b es (connected s n fin t calls) = NextState n' ->
      map Final rs = nw_results n' ++ drop (length (nw_results n')) (map Final rs) /\
      (finished n' = true -> nw_results n' = map Final rs /\ mc_backend (nw_server n') = te).
Proof.
  intros Hb Hs Hwf Hok. destruct (outcomes_defined srv calls t Hok) as (rs & te & Hout).
  exists rs, te. split; [done|].
  pose proof (net_run_goes_on srv assertions l b Hb es _ _ rs te
    (connected_inv srv l b s n fin t calls rs te Hs Hwf Hok Hout)) as Hg.
  destruct (net_run _ _ _ _ es _) as [n1| |]; [|done|done]. split; [done|]. intros n' [= <-].
  destruct Hg as (rank & rs' & Hi & Hr). cbn [connected nw_results app] in Hr. split.
  - by rewrite <- Hr, drop_app_length.
  - intros Hf. destruct (inv_finished srv l b n1 rank rs' te Hi Hf) as [-> Hte].
    by rewrite <- Hr, app_nil_r.
Qed.

(** C2: And they get there: from every state the system can reach every run ends,
    and as long as the client is not done something can happen.  No message is
    waited for that does not come, whatever the workers and the connection do. *)
Theorem network_completes s n fin t calls es n' :
  small_buffer_wf b -> at_rest l s -> Forall (fun c => request_wf (snd c)) calls -> replies_ok srv calls t ->
  net_run srv assertions l b es (connected s n fin t calls) = NextState n' ->
  Acc (fun n2 n1 => exists e, net_step srv assertions l b e n1 = NextState n2) n' /\
  (finished n' = false -> exists e n2, net_step srv assertions l b e n' = NextState n2).
Proof.
  intros Hb Hs Hwf Hok Hrun. destruct (outcomes_defined srv calls t Hok) as (rs & te & Hout).
  pose proof (net_run_goes_on srv assertions l b Hb es _ _ rs te
    (connected_inv srv l b s n fin t calls rs te Hs Hwf Hok Hout)) as Hg.
  rewrite Hrun in Hg. destruct Hg as (rank & rs' & Hi & _). split.
  - by eapply inv_terminates.
  - by eapply net_step_enabled.
Qed.

End Properties.

(** ** Witnesses *)

(** The first of these that can happen, again and again: two workers, packets in
    pieces of four bytes and single ones. *)
Definition demo_choices : list net_event :=
  [WorkerRuns 1; ClientRuns; WorkerRuns 0; RequestsArrive 4; RepliesArrive 4; RequestsArrive 1;
   RepliesArrive 1].

Fixpoint demo_events (k : nat) (n : network (list bytes)) : list net_event :=
  match k with
  | O => []
  | Datatypes.S k =>
      let enabled e := match net_step demo_server true 1%positive demo_buffer e n with
                       | NextState _ => true | _ => false end in
      match List.filter enabled demo_choices with
      | [] => []
      | e :: _ =>
          match net_step demo_server true 1%positive demo_buffer e n with
          | NextState n => e :: demo_events k n
          | _ => []
          end
      end
  end.

Definition demo_schedule (k : nat) : list net_event :=
  demo_events k (connected (demo_session []) 1 io_error [lit "b"] demo_calls).

(** The result after [k] steps. *)
#[local] Abbreviation demo_run k :=
  (net_run demo_server true 1%positive demo_buffer (demo_schedule k)
    (connected (demo_session []) 1 io_error [lit "b"] demo_calls)).

Lemma demo_run_ends :
  match demo_run 100 with
  | NextState n' => finished n' = true /\ length (nw_results n') = 2%nat
  | _ => False
  end.
Proof. vm_compute. split; reflexivity. Qed.

Lemma demo_at_rest : at_rest 1%positive (demo_session []).
Proof. split_and!; by vm_compute. Qed.

Lemma demo_calls_wf : Forall (fun c => request_wf (snd c)) demo_calls.
Proof. repeat constructor; by vm_compute. Qed.

Lemma demo_replies_ok : replies_ok demo_server demo_calls [lit "b"].
Proof. split_and!; by vm_compute. Qed.

Lemma network_answers_witness :
  exists rs te, outcomes demo_server demo_calls [lit "b"] = Some (rs, te) /\
    demo_run 100 <> FollowsDangling /\
    forall n', demo_run 100 = NextState n' ->
      map Final rs = nw_results n' ++ drop (length (nw_results n')) (map Final rs) /\
      (finished n' = true -> nw_results n' = map Final rs /\ mc_backend (nw_server n') = te).
Proof.
  apply (network_answers demo_server true 1%positive demo_buffer (demo_session []) 1 io_error
    [lit "b"] demo_calls (demo_schedule 100)).
  - apply demo_buffer_wf.
  - apply demo_at_rest.
  - apply demo_calls_wf.
  - apply demo_replies_ok.
Defined.

(** After ten steps the first request is on its way. *)
Lemma network_completes_witness :
  exists n', demo_run 10 = NextState n' /\ finished n' = false /\
    exists e n2, net_step demo_server true 1%positive demo_buffer e n' = NextState n2.
Proof.
  assert (Hf : match demo_run 10 with NextState n => finished n = false | _ => False end)
    by (vm_compute; reflexivity).
  destruct (demo_run 10) as [n'| |] eqn:Hrun; [|destruct Hf..].
  exists n'. split; [reflexivity|]. split; [exact Hf|].
  exact (proj2 (network_completes demo_server true 1%positive demo_buffer (demo_session []) 1 io_error
    [lit "b"] demo_calls (demo_schedule 10) n' demo_buffer_wf demo_at_rest demo_calls_wf demo_replies_ok Hrun) Hf).
Defined.
