(* ===== verification/ExampleClient.v ===== *)
(** * ExampleClient: the SFTP part of [src/example/client.cpp], and what it prints

    [browse] is [ssh_main] from the initialised SFTP session on: the home
    directory, the names in it ([print_dir]) and a file.
    [directory_listed_end_to_end] follows [print_dir] from the console of the
    client through the packets, a worker of the server and the example server's
    [readdir] down to the directory iterator. *)

From S2P Require Import Prelude Libssh ErrorCode Codec Stream ResponseQueue Responses Requests.
From S2P Require Import Server Backends Path ServerSpec ExampleServer ExampleSpec ServerSession Client.
From S2P Require Import ClientSpec RoundTrip.

#[local] Open Scope Z_scope.

(** ** The program *)

Section Browse.
Context {P : Platform} {E : Type} {R : Runtime E}.

(** A coroutine on an SFTP session; it may follow a dangling pointer, or not end
    within the fuel. *)
Definition co (A : Type) : Type := session E -> option (access A * session E).

Definition co_ret {A} (a : A) : co A := fun s => Some (Done a, s).

Definition co_bind {A B} (m : co A) (k : A -> co B) : co B := fun s =>
  match m s with
  | None => None
  | Some (Done a, s) => k a s
  | Some (Dangling, s) => Some (Dangling, s)
  | Some (Spins, s) => Some (Spins, s)
  end.

Context (fuel : nat) (l : address) (b : small_buffer).

(** [while (true) { ... co_await dir_it.read() ... }]: the names printed, the
    error that ended the loop, the directory. *)
Fixpoint print_dir (rounds : nat) (d : dir) : co (list bytes * error_code * dir) :=
  match rounds with
  | O => fun _ => None
  | S rounds =>
      co_bind (dir_read fuel l b d) (fun '(r, d) =>
        if ec_bool (io_ec r) then co_ret ([], io_ec r, d)
        else
          co_bind (print_dir rounds d) (fun '(names, ec, d) =>
            co_ret (e_name (io_value r) :: names, ec, d)))
  end.

(** The rest of [ssh_main]: its return value, and the names printed. *)
Definition browse (rounds : nat) (buffer : bytes) : co (Z * list bytes) :=
  co_bind (home_directory fuel l b (lit "klemens")) (fun r =>
    if ec_bool (io_ec r) then co_ret (1, [])
    else
      let h := io_value r in
      co_bind (Client.opendir fuel l b h) (fun r =>
        if ec_bool (io_ec r) then co_ret (1, [])
        else
          co_bind (print_dir rounds (io_value r)) (fun '(names, _, dir_it) =>
          co_bind (dir_close fuel l b dir_it) (fun _ =>
          co_bind (Client.open fuel l b (h ++ lit "/.bash_history") SSH_FXF_READ 0) (fun r =>
            if ec_bool (io_ec r) then co_ret (1, names)
            else
              co_bind (read_some_at fuel l b (io_value r) 0 buffer) (fun _ =>
              co_bind (file_close fuel l b (io_value r)) (fun _ =>
              co_ret (0, names)))))))).

End Browse.

(** ** Lemmas: one call on a session *)

Section OneCall.
Context {P : Platform} {T : Type} (srv : sftp_server T).
Context (fuel : nat) (l : address) (b : small_buffer) (Hb : small_buffer_wf b) (Hfuel : (2 <= fuel)%nat).

(** A session between two calls, whose response will live at [l]. *)
Definition ready (s : session script) : Prop :=
  is_u32 (request_id_gen (s_queue s)) /\ idle s /\ s_heap s !! l = None.

Lemma one_call buffered req m r (t : T) rest (s : session script) :
  ready s -> exec srv (ClientRequest req) = Some m -> reply_ok (fst (m t)) ->
  expected (new_response buffered req) (fst (m t)) = Some r ->
  pending s = frame (reply_body (request_id_gen (s_queue s)) (fst (m t))) ++ rest ->
  exists s', exchange fuel l (new_response buffered req) (fun id => client_packet b id req) s
      = Some (Done (Final r), s') /\
    written s' = written s ++ requests_bytes [(request_id_gen (s_queue s), ClientRequest req)] /\
    pending s' = rest /\ ready s' /\
    request_id_gen (s_queue s') = u32 (request_id_gen (s_queue s) + 1).
Proof using Hb Hfuel.
  intros (Hid & Hi & Hl) Hm Hok Hr Hp.
  destruct (exchange_reply fuel l (new_response buffered req) (fun id => client_packet b id req)
    s [] (Message (reply_type (fst (m t))) (request_id_gen (s_queue s)) (reply_fields (fst (m t)))) rest)
    as (s1 & Hx & Hp1 & Hw1 & Hi1 & Hg1 & Hh1 & _);
    [done|done|by destruct req|constructor|apply reply_message_wf; [done|apply Hok]|done|done|cbn; lia|].
  cbn [m_type m_payload] in Hx. rewrite (on_complete_expected _ _ r Hok Hr) in Hx.
  exists s1. split; [exact Hx|]. split.
  { rewrite Hw1, client_packet_frame by done. cbn [fst]. unfold requests_bytes. cbn [map concat].
    by rewrite app_nil_r. }
  split; [done|]. split; [|done]. split; [rewrite Hg1; apply u32_range|]. split; [done|by rewrite Hh1].
Qed.

End OneCall.

(** ** Lemmas: reading a directory *)

(** A failure of the backend is one for the client. *)
Lemma reported_failure {P : Platform} ec :
  - 2 ^ 31 <= ec_value ec < 2 ^ 31 -> ec_bool ec = true -> ec_bool (reported_ec ec) = true.
Proof.
  intros Hr He. unfold reported_ec. rewrite He. apply ec_bool_true. cbn [ec_value].
  intros H0. apply (i32_zero_iff (status_of ec) (status_of_u32 ec)) in H0.
  by destruct (status_of_failure ec Hr He).
Qed.

(** The calls the loop makes. *)
Definition readdir_calls (h : bytes) (n : nat) : list call :=
  replicate ((n + 63) / 64 + 1) ([], Readdir h).

Lemma readdir_calls_step h n :
  readdir_calls h (S n) = ([], Readdir h) :: readdir_calls h (S n - 64).
Proof.
  unfold readdir_calls. replace ((S n + 63) / 64 + 1)%nat with (S ((S n - 64 + 63) / 64 + 1)).
  { done. }
  destruct (decide (S n <= 64)%nat) as [Hle|Hgt].
  - replace (S n - 64 + 63)%nat with 63%nat by lia.
    rewrite (Nat.div_small 63) by lia.
    replace (S n + 63)%nat with (n + 1 * 64)%nat by lia. rewrite Nat.div_add by lia.
    rewrite Nat.div_small by lia. done.
  - replace (S n + 63)%nat with ((S n - 64 + 63) + 1 * 64)%nat by lia.
    rewrite Nat.div_add by lia. lia.
Qed.

Section Listing.
Context {P : Platform} {W D : Type} `{!FileSystem W D} (root_path : bytes).
Context (listing : D -> list bytes) (I : W -> Prop) (Hl : Lists listing I).
Context (Heof : ec_bool capy_eof = true).
Context (fuel : nat) (l : address) (b : small_buffer) (Hb : small_buffer_wf b) (Hfuel : (2 <= fuel)%nat).

#[local] Abbreviation srv := (example_server (W := W) (D := D) root_path).

(** Entries the client has are printed without a packet. *)
Lemma print_buffered rounds h es (s : session script) names ec d' s' :
  print_dir fuel l b rounds (Dir true h [] false) s = Some (Done (names, ec, d'), s') ->
  print_dir fuel l b (length es + rounds) (Dir true h es false) s
  = Some (Done (map e_name es ++ names, ec, d'), s').
Proof using.
  intros Hp. induction es as [|e es IH]; [exact Hp|]. cbn [length plus print_dir].
  unfold co_bind at 1, dir_read at 1. cbn [d_buffer d_eof].
  rewrite bool_decide_eq_false_2 by done. cbn [orb dir_resume d_eof d_buffer d_open d_handle io_ec].
  rewrite ec_bool_no_error. unfold co_bind at 1. rewrite IH. done.
Qed.

(** One [SSH_FXP_READDIR] of the loop. *)
Lemma dir_read_call h r ec0 ents (m : ST (example_state W D) reply) t rest (s : session script) :
  ready l s -> exec srv (ClientRequest (Readdir h)) = Some m -> reply_ok (fst (m t)) ->
  expected (RDirEntry (new_dir_entry_response [])) (fst (m t)) = Some (RDirEntry r) ->
  de_ec r = ec0 -> de_entries r = ents ->
  pending s = frame (reply_body (request_id_gen (s_queue s)) (fst (m t))) ++ rest ->
  exists s', dir_read fuel l b (Dir true h [] false) s
      = Some (Done (dir_resume (Some ec0) (Dir true h ents false)), s') /\
    written s' = written s ++ requests_bytes [(request_id_gen (s_queue s), ClientRequest (Readdir h))] /\
    pending s' = rest /\ ready l s' /\ request_id_gen (s_queue s') = u32 (request_id_gen (s_queue s) + 1).
Proof using Hb Hfuel.
  intros Hs Hm Hok Hr <- <- Hp.
  destruct (one_call srv fuel l b Hb Hfuel [] (Readdir h) m (RDirEntry r) t rest s Hs Hm Hok Hr Hp)
    as (s' & Hx & Hrest).
  exists s'. split; [|done]. unfold dir_read. cbn [d_buffer d_eof]. rewrite bool_decide_eq_true_2 by done.
  cbn [orb]. unfold do_read_. cbn [d_handle d_buffer]. cbn [new_response client_packet] in Hx.
  rewrite Hx. done.
Qed.

Lemma print_dir_listing n h dit t rest (s : session script) :
  length (listing dit) = n ->
  dirs t !! h = Some dit -> I (fs_world t) -> replies_ok srv (readdir_calls h n) t -> ready l s ->
  pending s = sent srv (request_id_gen (s_queue s)) (readdir_calls h n) t ++ rest ->
  exists d' s', print_dir fuel l b (S n) (Dir true h [] false) s
      = Some (Done (map filename (listing dit), reported_ec capy_eof, d'), s') /\
    written s' = written s
      ++ requests_bytes (numbered (request_id_gen (s_queue s)) (readdir_calls h n)) /\
    pending s' = rest.
Proof using Hl Heof Hb Hfuel.
  revert dit t s. induction (lt_wf n) as [n _ IH]; intros dit t s Hn Hd Hw Hok Hs Hp.
  destruct (readdir_spec listing I Hl h dit t Hd Hw) as (es & dit' & w' & Hrun & Hes & Hl' & Hw').
  set (m := value_result (srv_readdir srv h) NamesReply).
  assert (Hm : exec srv (ClientRequest (Readdir h)) = Some m) by done.
  set (t' := ExampleState (handle_gen t) (open_files t) (<[h := dit']> (dirs t)) w') in *.
  destruct n as [|n].
  - assert (Hnil : listing dit = []) by (by apply nil_length_inv).
    rewrite bool_decide_eq_true_2 in Hrun by done.
    assert (Hmt : m t = (StatusReply capy_eof, t')).
    { unfold m, value_result, st_bind. cbn [srv_readdir example_server]. rewrite Hrun. cbn [io_ec]. by rewrite Heof. }
    change (readdir_calls h 0) with ([([], Readdir h)] : list call) in *.
    cbn [replies_ok sent numbered] in *. rewrite Hm, Hmt in Hok, Hp. cbn [fst snd] in *.
    destruct (dir_read_call h (DirEntryResponse true (reported_ec capy_eof) []) (reported_ec capy_eof) [] m t rest s)
      as (s' & Hr & Hwr & Hpe & _); [done|done|by rewrite Hmt; apply Hok|by rewrite Hmt|done|done| |].
    { by rewrite Hmt, Hp, app_nil_r. }
    eexists _, s'. cbn [print_dir]. unfold co_bind at 1. rewrite Hr. cbn [dir_resume d_buffer io_ec].
    rewrite reported_failure, Hnil by (done || apply Hok). done.
  - assert (Hne : listing dit <> []) by (by intros E; rewrite E in Hn).
    rewrite bool_decide_eq_false_2 in Hrun by done.
    destruct es as [|e es]; [by destruct (listing dit)|].
    assert (Hmt : m t = (NamesReply (e :: es), t')).
    { unfold m, value_result, st_bind. cbn [srv_readdir example_server]. rewrite Hrun. cbn [io_ec].
      by rewrite ec_bool_no_error. }
    rewrite readdir_calls_step in *. cbn [replies_ok sent numbered] in *.
    rewrite Hm, Hmt in Hok, Hp. cbn [fst snd] in *. destruct Hok as [Hok1 Hok2].
    destruct (dir_read_call h (DirEntryResponse true no_error (map entry_on_wire (e :: es))) no_error
      (map entry_on_wire (e :: es)) m t
      (sent srv (u32 (request_id_gen (s_queue s) + 1)) (readdir_calls h (S n - 64)) t' ++ rest) s)
      as (s1 & Hr & Hw1 & Hp1 & Hs1 & Hg1); [done|done|by rewrite Hmt|by rewrite Hmt|done|done| |].
    { by rewrite Hmt, Hp, <- app_assoc. }
    assert (Hlen : length (listing dit') = (S n - 64)%nat) by (rewrite Hl', length_drop; lia).
    destruct (IH (S n - 64)%nat ltac:(lia) dit' t' s1 Hlen) as (d' & s' & Hpr & Hw2 & Hp2);
      [apply lookup_insert_eq|done|done|done|by rewrite Hg1|].
    exists d', s'. split; [|split; [|done]].
    2:{ rewrite Hw2, Hw1, Hg1. unfold requests_bytes. cbn [map concat].
        by rewrite app_nil_r, <- app_assoc. }
    assert (Hsz : S n = (length (map entry_on_wire es) + S (S n - 64))%nat).
    { apply (f_equal length) in Hes. rewrite !length_map, length_take in Hes. cbn [length] in Hes.
      rewrite length_map. lia. }
    change (print_dir fuel l b (S (S n))) with (fun d => co_bind (dir_read fuel l b d) (fun '(r, d) =>
      if ec_bool (io_ec r) then co_ret ([], io_ec r, d)
      else co_bind (print_dir fuel l b (S n) d) (fun '(names, ec, d) =>
             co_ret (e_name (io_value r) :: names, ec, d)))).
    cbv beta. unfold co_bind at 1. rewrite Hr. cbn [dir_resume d_buffer map io_ec d_open d_handle d_eof].
    rewrite ec_bool_no_error. unfold co_bind. rewrite Hsz.
    rewrite (print_buffered _ _ _ _ _ _ _ _ Hpr). unfold co_ret. do 4 f_equal.
    rewrite <- (take_drop 64 (listing dit)), map_app, <- Hes, Hl'. cbn [map app io_value entry_on_wire e_name].
    do 2 f_equal. by rewrite map_map.
Qed.

End Listing.

(** [browse] against the server of this library, whatever the backend: no [case]
    answers the home-directory request, so the client ends with 1. *)
Lemma browse_own_server {P : Platform} {T : Type} (srv : sftp_server T) fuel l b rounds buffer t m rest
    (s : session script) :
  small_buffer_wf b -> (2 <= fuel)%nat -> ready l s ->
  exec srv (ClientRequest (HomeDirectory (lit "klemens"))) = Some m ->
  reply_fits (StatusReply (ErrorCode SSH_FX_OP_UNSUPPORTED sftp_category)) ->
  pending s = frame (reply_body (request_id_gen (s_queue s)) (fst (m t))) ++ rest ->
  exists s', browse fuel l b rounds buffer s = Some (Done (1, []), s').
Proof.
  intros Hb Hf Hs Hm Hfit Hp. cbn [exec] in Hm. injection Hm as <-.
  destruct (one_call srv fuel l b Hb Hf [] (HomeDirectory (lit "klemens")) unsupported
    (RName (NameResponse true (reported_ec (ErrorCode SSH_FX_OP_UNSUPPORTED sftp_category)) [])) t rest s)
    as (s' & Hx & _); try done.
  exists s'. unfold browse, co_bind at 1, home_directory, name_call.
  cbn [new_response client_packet] in Hx. rewrite Hx. cbn [returning access_bind name_result nm_ec io_ec].
  by rewrite reported_failure.
Qed.

(** ** Properties *)

(** C10: A directory is listed from end to end: over any file system whose
    iterator goes through [listing], the client's loop prints the name of every
    entry once and in order and ends with the server's end-of-file status, while
    the packets it sends make a worker over the example server write exactly the
    replies it reads, both however they are cut into chunks. *)
Theorem directory_listed_end_to_end {P : Platform} {W D} `{!FileSystem W D} root_path assertions
    (listing : D -> list bytes) (I : W -> Prop) h dit (t : example_state W D)
    fuel l b (s : session script) rest :
  Lists listing I -> I (fs_world t) -> dirs t !! h = Some dit -> ec_bool capy_eof = true ->
  small_buffer_wf b -> (2 <= fuel)%nat -> ready l s -> request_wf (Readdir h) ->
  replies_ok (example_server root_path) (readdir_calls h (length (listing dit))) t ->
  exists packets replies t',
    (forall chunks fin, concat chunks = packets ->
       loop (serve_worker (example_server root_path) assertions)
         (S (length (readdir_calls h (length (listing dit)))))
         (ServeState (Script chunks [] fin) t [])
       = Some (Stopped (make_error_code fin), ServeState (Script [] replies fin) t' [])) /\
    (pending s = replies ++ rest ->
       exists d' s', print_dir fuel l b (S (length (listing dit))) (Dir true h [] false) s
           = Some (Done (map filename (listing dit), reported_ec capy_eof, d'), s') /\
         written s' = written s ++ packets /\ pending s' = rest).
Proof.
  intros Hl Hw Hd Heof Hb Hf Hs Hwf Hok. set (calls := readdir_calls h _) in *.
  destruct (outcomes_defined (example_server root_path) calls t Hok) as (rs & t' & Hout).
  exists (requests_bytes (numbered (request_id_gen (s_queue s)) calls)),
    (sent (example_server root_path) (request_id_gen (s_queue s)) calls t), t'. split.
  - intros chunks fin Hc.
    destruct (serve_calls (example_server root_path) assertions calls (request_id_gen (s_queue s)) t rs t'
      chunks [] fin []) as (chunks' & Hr & Hc'); [apply Hs| |done..|].
    { apply Forall_replicate. done. }
    eapply loop_rounds; [exact Hr | by apply worker_end_of_input | exact (le_n _)].
  - by apply (print_dir_listing root_path listing I Hl Heof fuel l b Hb Hf).
Qed.

(** ** Witnesses *)

#[local] Existing Instance demo_files.

Definition demo_listing : bytes :=
  sent (example_server (lit "/srv")) 0 (readdir_calls (lit "d2") 2) demo_open_example.

Lemma directory_listed_end_to_end_witness :
  reported_ec capy_eof = ErrorCode SSH_FX_EOF sftp_category /\
  exists packets replies t',
    (forall chunks fin, concat chunks = packets ->
       loop (serve_worker (example_server (lit "/srv")) true)
         (S (length (readdir_calls (lit "d2") (length [lit "/srv/a"; lit "/srv/b"]))))
         (ServeState (Script chunks [] fin) demo_open_example [])
       = Some (Stopped (make_error_code fin), ServeState (Script [] replies fin) t' [])) /\
    (pending (demo_session [take 9 demo_listing; drop 9 demo_listing]) = replies ++ [] ->
       exists d' s', print_dir 2 1%positive demo_buffer 3 (Dir true (lit "d2") [] false)
           (demo_session [take 9 demo_listing; drop 9 demo_listing])
         = Some (Done ([lit "a"; lit "b"], reported_ec capy_eof, d'), s') /\
         written s' = written (demo_session [take 9 demo_listing; drop 9 demo_listing]) ++ packets /\ pending s' = []).
Proof.
  split; [by vm_compute|].
  apply (directory_listed_end_to_end (lit "/srv") true (fun d => d) (fun _ => True) (lit "d2")
    [lit "/srv/a"; lit "/srv/b"] demo_open_example 2 1%positive demo_buffer
    (demo_session [take 9 demo_listing; drop 9 demo_listing]) []).
  - apply demo_lists.
  - done.
  - by vm_compute.
  - by vm_compute.
  - apply demo_buffer_wf.
  - lia.
  - split; [by vm_compute | done].
  - by vm_compute.
  - refine (conj (conj _ _) (conj (conj _ _) I)); [by vm_compute| |by vm_compute|by vm_compute].
    hnf. repeat constructor; by vm_compute.
Defined.
